(** * The XRT computation client: a shallow embedding and its properties

    Source: [Sources/x10/xla_client/xrt_computation_client.cc].

    The client ships host tensors to remote devices, compiles and runs
    computations through per-worker sessions, and reclaims server handles
    in the background.  The definitions below follow the C++ functions of
    that file, keeping their names.  Remote sessions, the thread pools and
    the metrics are the environment: every RPC round trip, scheduled
    closure and counter update is recorded in a trace, and the order in
    which concurrently scheduled closures run is an explicit argument. *)

From stdpp Require Import gmap strings list fin_maps pretty.
From Stdlib Require Import ZArith Lia Ascii.

Local Open Scope Z_scope.
Set Warnings "-register-all".

(** ** Machine integers *)

(** [uint64] arithmetic wraps around; converting an [int64_t] to [uint64]
    (the usual arithmetic conversions of a mixed comparison) does too. *)
Definition uint64 (z : Z) : Z := z mod 2 ^ 64.

Definition int64_range (z : Z) : Prop := - 2 ^ 63 <= z < 2 ^ 63.

(** ** Partitioning of a transfer ([PartitionTransferToServer]) *)

Section Partition.
Context {TensorSource : Type}.
(** [ShapeUtil::ByteSizeOfElements(tensor.shape)], an [int64_t]. *)
Variable tensor_bytes : TensorSource -> Z.

(** One iteration of the [for] loop: [i] is the index of the tensor,
    [current_size] the [uint64] accumulator, [partitions] the boundaries
    pushed so far. *)
Definition partition_step (max_partition_size : Z) (i : nat)
    (tensor_size : Z) (st : Z * list nat) : Z * list nat :=
  let '(current_size, partitions) := st in
  let '(current_size, partitions) :=
    if uint64 max_partition_size <? uint64 (current_size + tensor_size)
    then
      let partitions :=
        if bool_decide (partitions = []) && bool_decide (0 < i)%nat
        then partitions ++ [0%nat] else partitions in
      (0, partitions ++ [i])
    else (current_size, partitions) in
  (uint64 (current_size + tensor_size), partitions).

Fixpoint partition_loop (max_partition_size : Z) (tensors : list TensorSource)
    (i : nat) (st : Z * list nat) : Z * list nat :=
  match tensors with
  | [] => st
  | t :: rest =>
      partition_loop max_partition_size rest (S i)
        (partition_step max_partition_size i (tensor_bytes t) st)
  end.

Definition PartitionTransferToServer (max_partition_size : Z)
    (tensors : list TensorSource) : list nat :=
  let partitions := snd (partition_loop max_partition_size tensors 0 (0, [])) in
  if bool_decide (partitions = []) then [0%nat] else partitions.

(** The sub-span a partition covers, as the [sender] closure of
    [TransferToServer] computes it: [(base_index, length)]. *)
Definition partition_span (partitions : list nat) (n i : nat) : nat * nat :=
  let base_index := partitions !!! i in
  let len :=
    if bool_decide (i + 1 < length partitions)%nat
    then (partitions !!! (i + 1)%nat - base_index)%nat
    else (n - base_index)%nat in
  (base_index, len).

(** [tensors.subspan(base_index, length)] *)
Definition subspan {A} (l : list A) (span : nat * nat) : list A :=
  take (snd span) (drop (fst span) l).

Definition partition_slices (partitions : list nat)
    (tensors : list TensorSource) : list (list TensorSource) :=
  (fun i => subspan tensors (partition_span partitions (length tensors) i))
    <$> seq 0 (length partitions).

Definition total_bytes (part : list TensorSource) : Z :=
  foldr (fun t acc => tensor_bytes t + acc) 0 part.

(** A partition respects the ceiling, or is one oversized tensor alone. *)
Definition partition_ok (max_partition_size : Z)
    (part : list TensorSource) : Prop :=
  total_bytes part <= max_partition_size \/
  exists t, part = [t] /\ max_partition_size < tensor_bytes t.
End Partition.

(** ** Shapes, tensors and device-resident values *)

(** The element types [XlaTypeToDataType] knows, and the invalid type of
    a default-constructed shape. *)
Inductive PrimitiveType :=
  PRIMITIVE_TYPE_INVALID
| PRED | S8 | U8 | S16 | U16 | S32 | U32 | S64 | U64 | F32 | F64 | BF16 | F16
| C64 | C128.

(** [xla::Shape]: an array of some element type, or a tuple of shapes. *)
Inductive Shape :=
| ArrayShape (element_type : PrimitiveType) (dimensions : list Z)
| TupleShape (tuple_shapes : list Shape).

(** [xla::ProgramShape]; only its result is looked at. *)
Record ProgramShape := { parameters : list Shape; result : Shape }.

(** What stops a call: a failed [XLA_CHECK*] (or [XLA_ERROR]), a failed
    RPC reported through [CheckComputationStatus]/[CheckCompileStatus], a
    C++ exception such as [std::out_of_range] of [vector::at], or behaviour
    the language leaves undefined (indexing a vector out of its bounds). *)
Inductive Failure :=
| CheckFailed (what : string)
| ComputationError (what : string)
| OutOfRange
| Undefined.

Inductive outcome (A : Type) :=
| Ok (a : A)
| Failed (f : Failure).
Arguments Ok {A} a.
Arguments Failed {A} f.

Definition outcome_bind {A B} (m : outcome A) (k : A -> outcome B) : outcome B :=
  match m with Ok a => k a | Failed f => Failed f end.

Definition is_Ok {A} (m : outcome A) : bool :=
  match m with Ok _ => true | Failed _ => false end.

(** [ShapeUtil::GetTupleElementShape]: checks the shape is a tuple and the
    index within it. *)
Definition GetTupleElementShape (shape : Shape) (index : nat) : outcome Shape :=
  match shape with
  | TupleShape elems =>
      match elems !! index with
      | Some s => Ok s
      | None => Failed (CheckFailed "TupleElementCount(shape) > index")
      end
  | ArrayShape _ _ => Failed (CheckFailed "shape.IsTuple()")
  end.

(** [ComputationClient::TensorSource]: a shape and the bytes its
    [populate_fn] writes into the staging buffer. *)
Record TensorSource := {
  shape : Shape;
  populate_fn : list Byte.byte;
}.

(** [XrtData]: a value resident on a device.  [handle] is the server-side
    integer behind the shared [handle_ptr]. *)
Record XrtData := {
  data_device : string;
  data_shape : Shape;
  data_handle : Z;
}.

(** A [DataPtr] may be null. *)
Abbreviation DataPtr := (option XrtData).

(** [xla::Literal], as read back from the server. *)
Record Literal := { literal_bytes : list Byte.byte }.

(** [XlaComputation]: the source computation, with its program shape. *)
Record XlaComputation := {
  hlo_snapshot : string;
  computation_program_shape : ProgramShape;
}.

(** [XrtComputation]: a program compiled and resident on the server. *)
Record XrtComputation := {
  computation : XlaComputation;
  program_shape : ProgramShape;
  computation_devices : list string;
  computation_handle : Z;
  compilation_device : string;
}.

Abbreviation ComputationPtr := (option XrtComputation).

Record CompileInstance := {
  instance_computation : XlaComputation;
  output_shape : option Shape;
}.

(** ** Topology options *)

(** [XrtComputationClient::Worker]: job name and task number. *)
Abbreviation Worker := (string * Z)%type.

Record Options := {
  default_device : string;
  global_device_map : gmap string string;
  workers_map : gmap Worker string;
  devices : gset string;
}.

(** [tensorflow::DeviceNameUtils::ParsedName] *)
Record ParsedName := {
  has_job : bool; job : string;
  has_task : bool; task : Z;
  has_type : bool; type : string;
  has_id : bool; id : Z;
}.

(** ** Sessions, nodes and the remote service *)

(** A session checked out of an [XrtSessionCache]: its RPC target, and a
    number telling apart sessions to one target (the object's identity). *)
Abbreviation XrtSession := (string * nat)%type.

(** [XrtSessionCache::SessionMap]: target to session. *)
Abbreviation SessionMap := (gmap string XrtSession).

Record ExecutionConfig := {
  return_exploded_tuple : bool;
  rng_seed : Z;
}.

(** [xrt::XRTChainedExecuteOp] of a chained-execution plan; output indices
    are shifted by one on the wire, 0 standing for "the whole value". *)
Record PlanInput := { plan_in_op_index : nat; plan_in_output_index : nat }.
Record PlanOutput := { plan_result_index : nat; plan_out_output_index : nat }.
Inductive PlanOpKind := PlanDataHandle (h : Z) | PlanComputationHandle (h : Z).
Record PlanOp := {
  plan_kind : PlanOpKind;
  plan_inputs : list PlanInput;
  plan_outputs : list PlanOutput;
}.

(** A cached graph node of a session together with the values fed to its
    placeholders.  Every [Get...Node] call hands out a node of the cache
    that is not in use since the session was last reset, so the
    placeholders fed for one run are distinct; the node and its feeds are
    kept as one value, [device] being the XRT device the node is placed on. *)
Inductive FedNode :=
| XRTAllocateFromTensor (device : string) (shape : Shape) (tensor : list Byte.byte)
| XRTReadLiteral (device : string) (handle : Z)
| XRTCompile (device : string) (serialized_computation : string)
| XRTExecute (device : string) (computation_handle : Z)
    (exec_config : ExecutionConfig) (inputs : list Z)
| XRTExecuteChained (device : string) (plan : list PlanOp) (rng_seed : Z)
| XRTReleaseAllocationHandle (device : string) (handles : list Z)
| XRTReleaseCompilationHandle (device : string) (handles : list Z).

(** [tensorflow::Tensor] values coming back from a run. *)
Inductive Tensor :=
| ScalarInt64 (v : Z)
| VecInt64 (v : list Z)
| ScalarString (v : Literal).

(** The environment: the TensorFlow and XLA libraries the client calls
    and the remote XRT service behind a session.  [session_run_ok] tells
    whether [ClientSession::Run] returns an OK status; [session_fetch] is
    the tensor the service at a target returns for a fetched node. *)
Record Environment := {
  GetEnvInt : string -> Z -> Z;
  ByteSizeOfElements : Shape -> Z;
  ParseFullName : string -> option ParsedName;
  SerializeXrtComputation :
    XlaComputation -> list string -> option Shape -> outcome (string * ProgramShape);
  session_run_ok : XrtSession -> list FedNode -> bool;
  session_fetch : string -> FedNode -> Tensor;
}.

(** The order in which closures handed to a thread pool, or the entries
    of a map keyed by object addresses, are gone through: some
    rearrangement of the order they were submitted in.  [at_step] is the
    number of events recorded so far, so that the order may differ from one
    phase to the next. *)
Record Schedule := {
  run_order : forall {A : Type}, nat -> list A -> list A;
  run_order_perm : forall (A : Type) (at_step : nat) (l : list A),
    run_order at_step l ≡ₚ l;
}.

(** What the environment sees of the client. *)
Inductive Event :=
| SessionRun (session : XrtSession) (nodes : list FedNode)
| ScheduleClosure (name : string)
| ScheduleIoClosure (name : string)
| Counter (name : string) (value : Z)
| Activate.

Definition is_rpc (e : Event) : bool :=
  match e with SessionRun _ _ => true | _ => false end.

(** [std::vector<DeviceHandle>] entries of the pending-release lists. *)
Record DeviceHandle := { dh_device : string; dh_handle : Z }.

Record CompilationCacheKey := {
  domain : string;
  serialized_computation : string;
}.

(** The mutable state of the client, with the trace of its effects. *)
Record World := {
  trace : list Event;
  sessions_created : nat;
  released_data_handles_ : list DeviceHandle;
  released_compile_handles_ : list DeviceHandle;
  compilation_cache_ : list (CompilationCacheKey * XrtComputation);
  rng_seed_ : Z;
}.

Definition set_trace (t : list Event) (w : World) : World :=
  {| trace := t; sessions_created := sessions_created w;
     released_data_handles_ := released_data_handles_ w;
     released_compile_handles_ := released_compile_handles_ w;
     compilation_cache_ := compilation_cache_ w; rng_seed_ := rng_seed_ w |}.

Definition set_sessions_created (n : nat) (w : World) : World :=
  {| trace := trace w; sessions_created := n;
     released_data_handles_ := released_data_handles_ w;
     released_compile_handles_ := released_compile_handles_ w;
     compilation_cache_ := compilation_cache_ w; rng_seed_ := rng_seed_ w |}.

Definition set_released_data_handles (l : list DeviceHandle) (w : World) : World :=
  {| trace := trace w; sessions_created := sessions_created w;
     released_data_handles_ := l;
     released_compile_handles_ := released_compile_handles_ w;
     compilation_cache_ := compilation_cache_ w; rng_seed_ := rng_seed_ w |}.

Definition set_released_compile_handles (l : list DeviceHandle) (w : World) : World :=
  {| trace := trace w; sessions_created := sessions_created w;
     released_data_handles_ := released_data_handles_ w;
     released_compile_handles_ := l;
     compilation_cache_ := compilation_cache_ w; rng_seed_ := rng_seed_ w |}.

Definition set_compilation_cache
    (c : list (CompilationCacheKey * XrtComputation)) (w : World) : World :=
  {| trace := trace w; sessions_created := sessions_created w;
     released_data_handles_ := released_data_handles_ w;
     released_compile_handles_ := released_compile_handles_ w;
     compilation_cache_ := c; rng_seed_ := rng_seed_ w |}.

(** Stateful, fallible code: a failure keeps the world reached. *)
Definition M (A : Type) : Type := World -> outcome A * World.

Definition ret {A} (a : A) : M A := fun w => (Ok a, w).
Definition fail {A} (f : Failure) : M A := fun w => (Failed f, w).
Definition bind {A B} (m : M A) (k : A -> M B) : M B :=
  fun w => match m w with
           | (Ok a, w') => k a w'
           | (Failed f, w') => (Failed f, w')
           end.
Definition lift {A} (r : outcome A) : M A := fun w => (r, w).

Notation "'do' x <- m ; k" := (bind m (fun x => k))
  (at level 10, x name, m at level 100, k at level 200).
Notation "'do' ' x <- m ; k" := (bind m (fun 'x => k))
  (at level 10, x strict pattern, m at level 100, k at level 200).
Notation "m ;; k" := (bind m (fun _ => k))
  (at level 100, k at level 200, right associativity).

Definition emit (e : Event) : M unit :=
  fun w => (Ok tt, set_trace (trace w ++ [e]) w).

Definition get_world : M World := fun w => (Ok w, w).

(** A [for] loop over [l] threading the loop state [s]. *)
Fixpoint for_each {A S} (body : A -> S -> M S) (l : list A) (s : S) : M S :=
  match l with
  | [] => ret s
  | a :: rest => do s' <- body a s; for_each body rest s'
  end.

(** [XLA_CHECK(cond)] *)
Definition XLA_CHECK (cond : bool) (what : string) : M unit :=
  if cond then ret tt else fail (CheckFailed what).

(** The RPC round trips recorded in a trace. *)
Definition rpcs (t : list Event) : list Event := filter (fun e => is_rpc e = true) t.

(** ** Device names *)

(** [std::string::find(c)]: position of the first [c]. *)
Fixpoint string_find (c : Ascii.ascii) (s : string) : option nat :=
  match s with
  | EmptyString => None
  | String a rest =>
      if Ascii.eqb a c then Some 0%nat
      else match string_find c rest with
           | Some n => Some (S n)
           | None => None
           end
  end.

(** [s.substr(0, n)] *)
Fixpoint string_prefix (n : nat) (s : string) : string :=
  match n, s with
  | S n', String a rest => String a (string_prefix n' rest)
  | _, _ => EmptyString
  end.

Definition GetEffectiveDevice (options_ : Options) (device : string)
    : outcome string :=
  match device with
  | EmptyString => Ok (default_device options_)
  | String c _ =>
      if Ascii.eqb c ":"%char then
        (* Allow devices with ordinal only specification, to expand from
           the default device type. *)
        match string_find ":"%char (default_device options_) with
        | None => Failed (CheckFailed "pos != std::string::npos")
        | Some pos =>
            Ok (String.append (string_prefix pos (default_device options_)) device)
        end
      else Ok device
  end.

Definition SwiftDeviceToXrtDevice (options_ : Options) (device : string)
    : outcome string :=
  outcome_bind (GetEffectiveDevice options_ device) (fun effective =>
  match global_device_map options_ !! effective with
  | Some xrt_device => Ok xrt_device
  | None => Failed (CheckFailed "Unable to find device")
  end).

Definition ParseFullXrtDevice (env : Environment) (device : string)
    : outcome ParsedName :=
  match ParseFullName env device with
  | Some parsed_device =>
      if has_job parsed_device && has_task parsed_device
         && has_id parsed_device && has_type parsed_device
      then Ok parsed_device
      else Failed (CheckFailed "ParseFullName")
  | None => Failed (CheckFailed "ParseFullName")
  end.

Definition GetWorkerForXrtDevice (env : Environment) (options_ : Options)
    (xrt_device : string) : outcome (Worker * string) :=
  outcome_bind (ParseFullXrtDevice env xrt_device) (fun parsed_device =>
  let worker := (job parsed_device, task parsed_device) in
  match workers_map options_ !! worker with
  | Some hostport => Ok (worker, hostport)
  | None => Failed (CheckFailed "worker_hostport != workers_map.end()")
  end).

Definition GetWorkerForDevice (env : Environment) (options_ : Options)
    (device : string) : outcome (Worker * string) :=
  outcome_bind (SwiftDeviceToXrtDevice options_ device)
    (GetWorkerForXrtDevice env options_).

Definition GetResourceDomain (env : Environment) (options_ : Options)
    (device : string) : outcome string :=
  outcome_bind (GetWorkerForDevice env options_ device) (fun w => Ok (snd w)).

(** ** Sessions *)

(** Modelled from the spec: [XrtSessionCache::GetSession] (the session
    cache is declared in xrt_session_cache.h, which is not among the
    sources).  "GetSession(target) is idempotent per target": the client
    passes the session map of the call it serves, the first call for a
    target enters the session of the target in that map, later calls with
    the map return it.  [sessions_created] numbers the entries made, so
    that the runs of one call can be told from those of another; the
    spec keeps one session object per target, and no property in this
    file rests on two session maps holding different sessions of one
    target. *)
Definition GetSession (target : string) (session_map : SessionMap)
    : M (XrtSession * SessionMap) :=
  match session_map !! target with
  | Some session => ret (session, session_map)
  | None =>
      fun w =>
        let session := (target, sessions_created w) in
        (Ok (session, <[target := session]> session_map),
         set_sessions_created (S (sessions_created w)) w)
  end.

Definition GetSessionForTarget := GetSession.

Definition GetSessionForXrtDevice (env : Environment) (options_ : Options)
    (xrt_device : string) (session_map : SessionMap)
    : M (XrtSession * SessionMap) :=
  do worker_hostport <- lift (GetWorkerForXrtDevice env options_ xrt_device);
  GetSessionForTarget (snd worker_hostport) session_map.

Definition GetSessionForDevice (env : Environment) (options_ : Options)
    (device : string) (session_map : SessionMap)
    : M (XrtSession * SessionMap) :=
  do xrt_device <- lift (SwiftDeviceToXrtDevice options_ device);
  GetSessionForXrtDevice env options_ xrt_device session_map.

(** [session->session()->Run(feed_inputs, fetch_outputs, &outputs)]: one
    RPC round trip.  The status is returned to the caller, which checks
    it; on success there is one output per fetched node. *)
Definition Run (env : Environment) (session : XrtSession)
    (nodes : list FedNode) : M (option (list Tensor)) :=
  emit (SessionRun session nodes);;
  ret (if session_run_ok env session nodes
       then Some (session_fetch env (fst session) <$> nodes)
       else None).

(** [XLA_CHECK_OK(status)] on the status of a run. *)
Definition XLA_CHECK_OK {A} (status : option A) : M A :=
  match status with
  | Some outputs => ret outputs
  | None => fail (CheckFailed "status.ok()")
  end.

(** [util::CheckComputationStatus(status, ...)]: reports a computation
    error when the run failed. *)
Definition CheckComputationStatus {A} (status : option A) : M A :=
  match status with
  | Some outputs => ret outputs
  | None => fail (ComputationError "CheckComputationStatus")
  end.

(** [tensor.scalar<int64_t>()()]: the value of a scalar tensor. *)
Definition scalar_int64 (t : Tensor) : outcome Z :=
  match t with
  | ScalarInt64 v => Ok v
  | _ => Failed (CheckFailed "scalar<int64>")
  end.

(** [SessionWork]: what is accumulated against one session before its
    run.  [fed_nodes] pairs [feed_inputs] with [outputs_handles]: the k-th
    entry is the k-th fetched node with what was fed to it. *)
Record SessionWork := {
  fed_nodes : list FedNode;
  index_mapping : list nat;
}.

Definition empty_work : SessionWork := {| fed_nodes := []; index_mapping := [] |}.

(** [&session_work_map[session]] followed by the two [push_back]s. *)
Definition add_work (session : XrtSession) (node : FedNode) (i : nat)
    (session_work_map : gmap XrtSession SessionWork)
    : gmap XrtSession SessionWork :=
  let session_work := default empty_work (session_work_map !! session) in
  <[session := {| fed_nodes := fed_nodes session_work ++ [node];
                  index_mapping := index_mapping session_work ++ [i] |}]>
    session_work_map.

(** ** Transfers *)

Definition GetMaxTensorsPartitionSize (env : Environment) : Z :=
  GetEnvInt env "XRT_MAX_TENSORS_PARTITION" 1800000000.

(** [v[i]] on a vector: undefined outside its bounds. *)
Definition vector_get {A} (v : list A) (i : nat) : M A :=
  match v !! i with
  | Some a => ret a
  | None => fail Undefined
  end.

(** [v[i] = a] on a vector: undefined outside its bounds. *)
Definition vector_set {A} (v : list A) (i : nat) (a : A) : M (list A) :=
  if bool_decide (i < length v)%nat then ret (<[i := a]> v) else fail Undefined.

(** [XlaTypeToDataType(shape.element_type())]: an error for what is not
    one of the array element types. *)
Definition XlaTypeToDataType (shape : Shape) : M PrimitiveType :=
  match shape with
  | ArrayShape PRIMITIVE_TYPE_INVALID _
  | TupleShape _ => fail (CheckFailed "Unable to convert XLA type")
  | ArrayShape element_type _ => ret element_type
  end.

(** The [converter] closure of [TransferToServerInternal] for tensor [i];
    the state is what the closures share under [lock]. *)
Definition converter (env : Environment) (options_ : Options) (device : string)
    (tensors : list TensorSource) (i : nat)
    (st : SessionMap * gmap XrtSession SessionWork * Z)
    : M (SessionMap * gmap XrtSession SessionWork * Z) :=
  let '(session_map, session_work_map, total_size) := st in
  do xrt_device <- lift (SwiftDeviceToXrtDevice options_ device);
  do t <- vector_get tensors i;
  XlaTypeToDataType (shape t);;
  do '(session, session_map) <-
    GetSessionForXrtDevice env options_ xrt_device session_map;
  ret (session_map,
       add_work session
         (XRTAllocateFromTensor xrt_device (shape t) (populate_fn t)) i
         session_work_map,
       total_size + ByteSizeOfElements env (shape t)).

(** The [runner] closure of [TransferToServerInternal] for one session. *)
Definition runner (env : Environment) (device_name : string)
    (tensors : list TensorSource) (entry : XrtSession * SessionWork)
    (results : list DataPtr) : M (list DataPtr) :=
  let '(session, session_work) := entry in
  do status <- Run env session (fed_nodes session_work);
  do outputs <- XLA_CHECK_OK status;
  do results <-
    for_each (fun i results =>
      do li <- vector_get (index_mapping session_work) i;
      do output <- vector_get outputs i;
      do t <- vector_get tensors li;
      do handle <- lift (scalar_int64 output);
      vector_set results li
        (Some {| data_device := device_name; data_shape := shape t;
                 data_handle := handle |}))
      (seq 0 (length outputs)) results;
  emit (Counter "CreateDataHandles" (Z.of_nat (length outputs)));;
  ret results.

Definition TransferToServerInternal (env : Environment) (options_ : Options)
    (sched : Schedule) (device_name : string) (tensors : list TensorSource)
    : M (list DataPtr) :=
  do device <- lift (GetEffectiveDevice options_ device_name);
  for_each (fun _ _ => emit (ScheduleClosure "converter"))
    (seq 0 (length tensors)) tt;;
  do w <- get_world;
  do '(session_map, session_work_map, total_size) <-
    for_each (converter env options_ device tensors)
      (run_order sched (length (trace w)) (seq 0 (length tensors)))
      (∅, ∅, 0);
  emit (Counter "OutboundData" total_size);;
  for_each (fun _ _ => emit (ScheduleIoClosure "runner"))
    (map_to_list session_work_map) tt;;
  do w <- get_world;
  for_each (runner env device_name tensors)
    (run_order sched (length (trace w)) (map_to_list session_work_map))
    (replicate (length tensors) None).

(** The [sender] closure of [TransferToServer] for partition [i]. *)
Definition sender (env : Environment) (options_ : Options) (sched : Schedule)
    (device_name : string) (tensors : list TensorSource)
    (partitions : list nat) (i : nat) (results : list DataPtr)
    : M (list DataPtr) :=
  let span := partition_span partitions (length tensors) i in
  do partitions_results <-
    TransferToServerInternal env options_ sched device_name
      (subspan tensors span);
  for_each (fun r results =>
      do d <- vector_get partitions_results r;
      vector_set results (fst span + r) d)
    (seq 0 (snd span)) results.

(** [XrtDevice::TransferToServer], on the device named [device_name]. *)
Definition TransferToServer (env : Environment) (options_ : Options)
    (sched : Schedule) (device_name : string) (tensors : list TensorSource)
    : M (list DataPtr) :=
  let partitions :=
    PartitionTransferToServer (fun t => ByteSizeOfElements env (shape t))
      (GetMaxTensorsPartitionSize env) tensors in
  if bool_decide (length partitions = 1%nat) then
    (* Fast path in case of single partition. *)
    TransferToServerInternal env options_ sched device_name tensors
  else
    emit (Counter "XrtPartitionedTransferToServer" 1);;
    for_each (fun _ _ => emit (ScheduleIoClosure "sender"))
      (seq 0 (length partitions)) tt;;
    do w <- get_world;
    for_each (sender env options_ sched device_name tensors partitions)
      (run_order sched (length (trace w)) (seq 0 (length partitions)))
      (replicate (length tensors) None).

(** [tensor.scalar<tstring>()()] parsed as a [LiteralProto]. *)
Definition scalar_literal (t : Tensor) : outcome Literal :=
  match t with
  | ScalarString l => Ok l
  | _ => Failed (CheckFailed "response.ParseFromString")
  end.

(** The first loop of [TransferFromServerImpl], for handle [i]. *)
Definition read_request (env : Environment) (options_ : Options)
    (handles : list XrtData) (i : nat)
    (st : list SessionMap * Z * gmap XrtSession SessionWork)
    : M (list SessionMap * Z * gmap XrtSession SessionWork) :=
  let '(session_maps, current_size, session_work_map) := st in
  do xrt_data <- vector_get handles i;
  let shape_size := ByteSizeOfElements env (data_shape xrt_data) in
  let '(session_maps, current_size) :=
    if GetMaxTensorsPartitionSize env <=? current_size + shape_size
    then (session_maps ++ [∅], 0) else (session_maps, current_size) in
  let current_size := current_size + shape_size in
  do '(session, back) <-
    GetSessionForDevice env options_ (data_device xrt_data)
      (default ∅ (last session_maps));
  let session_maps := take (length session_maps - 1) session_maps ++ [back] in
  do xrt_device <- lift (SwiftDeviceToXrtDevice options_ (data_device xrt_data));
  ret (session_maps, current_size,
       add_work session (XRTReadLiteral xrt_device (data_handle xrt_data)) i
         session_work_map).

(** The second loop of [TransferFromServerImpl], for one session. *)
Definition read_run (env : Environment) (entry : XrtSession * SessionWork)
    (st : list (option Literal) * Z) : M (list (option Literal) * Z) :=
  let '(session, session_work) := entry in
  do status <- Run env session (fed_nodes session_work);
  do outputs <- XLA_CHECK_OK status;
  for_each (fun i '(results, total_size) =>
      do li <- vector_get (index_mapping session_work) i;
      do output <- vector_get outputs i;
      do literal <- lift (scalar_literal output);
      do results <- vector_set results li (Some literal);
      ret (results, total_size + Z.of_nat (length (literal_bytes literal))))
    (seq 0 (length outputs)) st.

Definition TransferFromServerImpl (env : Environment) (options_ : Options)
    (sched : Schedule) (handles : list XrtData) : M (list (option Literal)) :=
  do '(session_maps, current_size, session_work_map) <-
    for_each (read_request env options_ handles)
      (seq 0 (length handles)) ([∅], 0, ∅);
  do w <- get_world;
  do '(results, total_size) <-
    for_each (read_run env)
      (run_order sched (length (trace w)) (map_to_list session_work_map))
      (replicate (length handles) None, 0);
  emit (Counter "InboundData" total_size);;
  ret results.

(** ** Handle release *)

(** The two pending-release lists a [std::vector<DeviceHandle>*] argument
    may point to. *)
Inductive PendingList := released_data_handles | released_compile_handles.

Definition pending (which : PendingList) (w : World) : list DeviceHandle :=
  match which with
  | released_data_handles => released_data_handles_ w
  | released_compile_handles => released_compile_handles_ w
  end.

Definition set_pending (which : PendingList) (l : list DeviceHandle)
    (w : World) : World :=
  match which with
  | released_data_handles => set_released_data_handles l w
  | released_compile_handles => set_released_compile_handles l w
  end.

Definition ReleaseHandle (handle : Z) (device : string) (handles : PendingList)
    : M unit :=
  (fun w => (Ok tt, set_pending handles
                      (pending handles w
                         ++ [{| dh_device := device; dh_handle := handle |}]) w));;
  emit Activate.

Definition ReleaseXrtData (device : string) (handle : Z) : M unit :=
  ReleaseHandle handle device released_data_handles;;
  emit (Counter "ReleaseDataHandles" 1).

Definition ReleaseXrtComputation (compilation_device : string) (handle : Z)
    : M unit :=
  ReleaseHandle handle compilation_device released_compile_handles;;
  emit (Counter "ReleaseCompileHandles" 1).

(** The node [op_generator] builds, fed with the handles tensor. *)
Definition release_node (which : PendingList) (device : string)
    (handles : list Z) : FedNode :=
  match which with
  | released_data_handles => XRTReleaseAllocationHandle device handles
  | released_compile_handles => XRTReleaseCompilationHandle device handles
  end.

Definition destroy_counter (which : PendingList) : string :=
  match which with
  | released_data_handles => "DestroyDataHandles"
  | released_compile_handles => "DestroyCompileHandles"
  end.

(** First loop of [ReleaseHandles]: group the handles by session. *)
Definition release_group (env : Environment) (options_ : Options)
    (handle : DeviceHandle)
    (st : SessionMap * gmap XrtSession (list DeviceHandle))
    : M (SessionMap * gmap XrtSession (list DeviceHandle)) :=
  let '(session_map, session_handles_map) := st in
  do '(session, session_map) <-
    GetSessionForDevice env options_ (dh_device handle) session_map;
  ret (session_map,
       <[session := default [] (session_handles_map !! session) ++ [handle]]>
         session_handles_map).

(** Second loop of [ReleaseHandles]: one run per session. *)
Definition release_run (env : Environment) (options_ : Options)
    (which : PendingList) (entry : XrtSession * list DeviceHandle) (_ : unit)
    : M unit :=
  let '(session, session_handles) := entry in
  let handles_tensor := dh_handle <$> session_handles in
  do front <- vector_get session_handles 0;
  do xrt_device <- lift (SwiftDeviceToXrtDevice options_ (dh_device front));
  do status <- Run env session [release_node which xrt_device handles_tensor];
  do outputs <- XLA_CHECK_OK status;
  ret tt.

Definition ReleaseHandles (env : Environment) (options_ : Options)
    (sched : Schedule) (handles : PendingList) : M unit :=
  do w <- get_world;
  let released_handles := pending handles w in
  (fun w => (Ok tt, set_pending handles [] w));;
  if bool_decide (released_handles = []) then ret tt
  else
    do '(session_map, session_handles_map) <-
      for_each (release_group env options_) released_handles (∅, ∅);
    do w <- get_world;
    for_each (release_run env options_ handles)
      (run_order sched (length (trace w)) (map_to_list session_handles_map)) tt;;
    emit (Counter (destroy_counter handles)
            (Z.of_nat (length released_handles))).

Definition HandleReleaser (env : Environment) (options_ : Options)
    (sched : Schedule) : M unit :=
  ReleaseHandles env options_ sched released_data_handles;;
  ReleaseHandles env options_ sched released_compile_handles.

(** [handle_ptr], the [std::shared_ptr<XrtHandle>] of an [XrtData]:
    [use_count] owners share the handle; the [XrtData] constructor installs
    [ReleaseXrtData(device->name(), handle)] as the releaser the
    [XrtHandle] runs when it is destroyed with its last owner. *)
Record HandlePtr := { owner : XrtData; use_count : nat }.

(** Dropping one reference. *)
Definition drop_reference (p : HandlePtr) : M (option HandlePtr) :=
  match use_count p with
  | 0%nat => ret None
  | 1%nat =>
      ReleaseXrtData (data_device (owner p)) (data_handle (owner p));;
      ret None
  | S n => ret (Some {| owner := owner p; use_count := n |})
  end.

(** ** Compilation *)

Global Instance CompilationCacheKey_eq_dec : EqDecision CompilationCacheKey.
Proof. solve_decision. Defined.

(** Modelled from the spec: [util::Cache] (cache.h is not among the
    sources), "a bounded LRU (configurable capacity) - eviction drops the
    oldest-used compiled program's client-side record".  The list is kept
    most recently used first. *)
Definition cache_lookup {V} (key : CompilationCacheKey)
    (cache : list (CompilationCacheKey * V)) : option V :=
  (fun found => snd (snd found)) <$> list_find (fun kv => fst kv = key) cache.

Definition cache_remove {V} (key : CompilationCacheKey)
    (cache : list (CompilationCacheKey * V)) : list (CompilationCacheKey * V) :=
  filter (fun kv => fst kv <> key) cache.

Definition cache_Get (key : CompilationCacheKey) : M ComputationPtr :=
  fun w =>
    match cache_lookup key (compilation_cache_ w) with
    | Some c =>
        (Ok (Some c),
         set_compilation_cache
           ((key, c) :: cache_remove key (compilation_cache_ w)) w)
    | None => (Ok None, w)
    end.

Definition cache_max_size (env : Environment) : nat :=
  Z.to_nat (uint64 (GetEnvInt env "XLA_COMPILATION_CACHE_SIZE" 64)).

Definition cache_Add (env : Environment) (key : CompilationCacheKey)
    (c : XrtComputation) : M unit :=
  fun w =>
    match cache_lookup key (compilation_cache_ w) with
    | Some old =>
        (Ok tt,
         set_compilation_cache
           ((key, old) :: cache_remove key (compilation_cache_ w)) w)
    | None =>
        (Ok tt,
         set_compilation_cache
           (take (cache_max_size env) ((key, c) :: compilation_cache_ w)) w)
    end.

(** Default-constructed values of the vectors [Compile] allocates. *)
Definition default_Shape : Shape := ArrayShape PRIMITIVE_TYPE_INVALID [].
Definition default_ProgramShape : ProgramShape :=
  {| parameters := []; result := default_Shape |}.
Definition default_CompilationCacheKey : CompilationCacheKey :=
  {| domain := ""; serialized_computation := "" |}.

(** What the [builder] closures of [Compile] share. *)
Record CompileState := {
  cs_program_shapes : list ProgramShape;
  cs_results : list ComputationPtr;
  cs_cache_keys : list CompilationCacheKey;
  cs_session_map : SessionMap;
  cs_session_work_map : gmap XrtSession SessionWork;
}.

(** The [builder] closure of [Compile] for instance [i]. *)
Definition builder (env : Environment) (options_ : Options) (device : string)
    (devices : list string) (instances : list CompileInstance) (i : nat)
    (st : CompileState) : M CompileState :=
  do instance <- vector_get instances i;
  do '(serialized, xrt_program_shape) <-
    lift (SerializeXrtComputation env (instance_computation instance)
            devices (output_shape instance));
  do resource_domain <- lift (GetResourceDomain env options_ device);
  let cache_key :=
    {| domain := resource_domain; serialized_computation := serialized |} in
  do computation_ptr <- cache_Get cache_key;
  match computation_ptr with
  | None =>
      do cache_keys <- vector_set (cs_cache_keys st) i cache_key;
      do program_shapes <-
        vector_set (cs_program_shapes st) i xrt_program_shape;
      do xrt_device <- lift (SwiftDeviceToXrtDevice options_ device);
      do '(session, session_map) <-
        GetSessionForXrtDevice env options_ xrt_device (cs_session_map st);
      ret {| cs_program_shapes := program_shapes;
             cs_results := cs_results st;
             cs_cache_keys := cache_keys;
             cs_session_map := session_map;
             cs_session_work_map :=
               add_work session (XRTCompile xrt_device serialized) i
                 (cs_session_work_map st) |}
  | Some c =>
      do results <- vector_set (cs_results st) i (Some c);
      ret {| cs_program_shapes := cs_program_shapes st;
             cs_results := results;
             cs_cache_keys := cs_cache_keys st;
             cs_session_map := cs_session_map st;
             cs_session_work_map := cs_session_work_map st |}
  end.

(** [CheckCompileStatus]: a failed run is reported as a compilation
    error naming the computations of the batch. *)
Definition CheckCompileStatus {A} (status : option A) : M A :=
  match status with
  | Some outputs => ret outputs
  | None => fail (ComputationError "CheckCompileStatus")
  end.

(** The [session_runner] closure of [Compile] for one session. *)
Definition compile_runner (env : Environment) (device : string)
    (devices : list string) (instances : list CompileInstance)
    (program_shapes : list ProgramShape)
    (cache_keys : list CompilationCacheKey)
    (entry : XrtSession * SessionWork) (results : list ComputationPtr)
    : M (list ComputationPtr) :=
  let '(session, session_work) := entry in
  do status <- Run env session (fed_nodes session_work);
  do outputs <- CheckCompileStatus status;
  do '(results, output_index) <-
    for_each (fun li '(results, output_index) =>
      do instance <- vector_get instances li;
      do shape_li <- vector_get program_shapes li;
      do output <- vector_get outputs output_index;
      do handle <- lift (scalar_int64 output);
      let c := {| computation := instance_computation instance;
                  program_shape := shape_li;
                  computation_devices := devices;
                  computation_handle := handle;
                  compilation_device := device |} in
      do results <- vector_set results li (Some c);
      do key_li <- vector_get cache_keys li;
      cache_Add env key_li c;;
      emit (Counter "CreateCompileHandles" 1);;
      ret (results, S output_index))
      (index_mapping session_work) (results, 0%nat);
  ret results.

Definition Compile (env : Environment) (options_ : Options) (sched : Schedule)
    (device : string) (devices : list string)
    (instances : list CompileInstance) : M (list ComputationPtr) :=
  let n := length instances in
  for_each (fun _ _ => emit (ScheduleClosure "builder")) (seq 0 n) tt;;
  do w <- get_world;
  do st <-
    for_each (builder env options_ device devices instances)
      (run_order sched (length (trace w)) (seq 0 n))
      {| cs_program_shapes := replicate n default_ProgramShape;
         cs_results := replicate n None;
         cs_cache_keys := replicate n default_CompilationCacheKey;
         cs_session_map := ∅;
         cs_session_work_map := ∅ |};
  for_each (fun _ _ => emit (ScheduleIoClosure "session_runner"))
    (map_to_list (cs_session_work_map st)) tt;;
  do w <- get_world;
  for_each (compile_runner env device devices instances
              (cs_program_shapes st) (cs_cache_keys st))
    (run_order sched (length (trace w)) (map_to_list (cs_session_work_map st)))
    (cs_results st).

(** Whether the compilation cache owns the program behind a handle. *)
Definition cache_owns (c : XrtComputation)
    (cache : list (CompilationCacheKey * XrtComputation)) : bool :=
  existsb (fun kv =>
      bool_decide (computation_handle (snd kv) = computation_handle c)
      && bool_decide (compilation_device (snd kv) = compilation_device c))
    cache.

(** A caller giving up its reference to a compiled program.  The program
    is a [std::shared_ptr] shared with the compilation cache; its handle
    is released ([ReleaseXrtComputation], installed by the [XrtComputation]
    constructor) when the last owner is gone. *)
Definition drop_computation (c : XrtComputation) : M unit :=
  do w <- get_world;
  if cache_owns c (compilation_cache_ w) then ret tt
  else ReleaseXrtComputation (compilation_device c) (computation_handle c).

(** ** Execution *)

Definition GetArgumentsInputs (arguments : list XrtData) (device : string)
    : M (list Z) :=
  for_each (fun xrt_data inputs_tensor =>
      XLA_CHECK (bool_decide (device = data_device xrt_data))
        "device == xrt_data.device()->name()";;
      ret (inputs_tensor ++ [data_handle xrt_data]))
    arguments [].

(** The body both [CreateExecuteOps] overloads share: the execute node
    for replica [i], fed with the computation handle, the execution
    config and the argument handles. *)
Definition create_execute_op (env : Environment) (options_ : Options)
    (xrt_computation : XrtComputation) (arguments : list (list XrtData))
    (explode_tuple : bool) (devices : list string) (i : nat)
    (st : SessionMap * list FedNode) : M (SessionMap * list FedNode) :=
  let '(session_map, exec_ops) := st in
  do arguments_i <- vector_get arguments i;
  do device_i <- vector_get devices i;
  do inputs <- GetArgumentsInputs arguments_i device_i;
  do xrt_device <- lift (SwiftDeviceToXrtDevice options_ device_i);
  do '(session, session_map) <-
    GetSessionForXrtDevice env options_ xrt_device session_map;
  do w <- get_world;
  let exec_config :=
    {| return_exploded_tuple := explode_tuple; rng_seed := rng_seed_ w |} in
  ret (session_map,
       exec_ops ++ [XRTExecute xrt_device (computation_handle xrt_computation)
                      exec_config inputs]).

(** [CreateExecuteOps] for one computation on several devices. *)
Definition CreateExecuteOps (env : Environment) (options_ : Options)
    (session_map : SessionMap) (xrt_computation : XrtComputation)
    (arguments : list (list XrtData)) (explode_tuple : bool)
    (devices : list string) : M (SessionMap * list FedNode) :=
  for_each (create_execute_op env options_ xrt_computation arguments
              explode_tuple devices)
    (seq 0 (length arguments)) (session_map, []).

(** [CreateExecuteOps] for one computation per device. *)
Definition CreateExecuteOps_parallel (env : Environment) (options_ : Options)
    (session_map : SessionMap) (computations : list XrtComputation)
    (arguments : list (list XrtData)) (explode_tuple : bool)
    (devices : list string) : M (SessionMap * list FedNode) :=
  for_each (fun i st =>
      do xrt_computation <- vector_get computations i;
      create_execute_op env options_ xrt_computation arguments explode_tuple
        devices i st)
    (seq 0 (length computations)) (session_map, []).

(** The handles of a run's result as device data: one per tuple element
    when the tensor is a vector, one for the whole result otherwise. *)
Definition computation_results (xrt_result : Tensor) (result_shape : Shape)
    (device_name : string) : outcome (list XrtData) :=
  match xrt_result with
  | VecInt64 handles_vec =>
      foldr (fun '(i, h) acc =>
          outcome_bind (GetTupleElementShape result_shape i) (fun shape_i =>
          outcome_bind acc (fun rest =>
          Ok ({| data_device := device_name; data_shape := shape_i;
                 data_handle := h |} :: rest))))
        (Ok []) (zip (seq 0 (length handles_vec)) handles_vec)
  | ScalarInt64 h =>
      Ok [{| data_device := device_name; data_shape := result_shape;
             data_handle := h |}]
  | ScalarString _ => Failed (CheckFailed "scalar<int64>")
  end.

Definition GetComputationResults (xrt_result : Tensor) (result_shape : Shape)
    (device_name : string) : M (list XrtData) :=
  do results <- lift (computation_results xrt_result result_shape device_name);
  emit (Counter "CreateDataHandles" (Z.of_nat (length results)));;
  ret results.

(** [session_map.at(target)] *)
Definition session_map_at (session_map : SessionMap) (target : string)
    : M XrtSession :=
  match session_map !! target with
  | Some session => ret session
  | None => fail OutOfRange
  end.

(** First loop of [RunComputations]: the replicas of each session. *)
Definition assign_replica (env : Environment) (options_ : Options)
    (session_map : SessionMap) (devices : list string) (i : nat)
    (session_replicas : gmap XrtSession (list nat))
    : M (gmap XrtSession (list nat)) :=
  do device_i <- vector_get devices i;
  do effective <- lift (GetEffectiveDevice options_ device_i);
  do worker_hostport <- lift (GetWorkerForDevice env options_ effective);
  do session <- session_map_at session_map (snd worker_hostport);
  ret (<[session := default [] (session_replicas !! session) ++ [i]]>
         session_replicas).

(** The [session_runner] closure of [RunComputations] for one session. *)
Definition replica_runner (env : Environment) (options_ : Options)
    (exec_ops : list FedNode) (computations : list XrtComputation)
    (devices : list string) (entry : XrtSession * list nat)
    (results : list (list XrtData)) : M (list (list XrtData)) :=
  let '(session, replicas) := entry in
  do exec_nodes <-
    for_each (fun replica exec_nodes =>
        do node <- vector_get exec_ops replica;
        vector_get computations replica;;
        ret (exec_nodes ++ [node]))
      replicas [];
  do status <- Run env session exec_nodes;
  do outputs <- CheckComputationStatus status;
  for_each (fun i results =>
      do replica <- vector_get replicas i;
      do output <- vector_get outputs i;
      do computation_i <- vector_get computations replica;
      do device_i <- vector_get devices replica;
      do effective <- lift (GetEffectiveDevice options_ device_i);
      do results_i <-
        GetComputationResults output (result (program_shape computation_i))
          effective;
      vector_set results replica results_i)
    (seq 0 (length outputs)) results.

Definition RunComputations (env : Environment) (options_ : Options)
    (sched : Schedule) (session_map : SessionMap) (exec_ops : list FedNode)
    (computations : list XrtComputation) (devices : list string)
    : M (list (list XrtData)) :=
  do session_replicas <-
    for_each (assign_replica env options_ session_map devices)
      (seq 0 (length devices)) ∅;
  XLA_CHECK (bool_decide (length computations = length devices))
    "computations.size() == devices.size()";;
  for_each (fun _ _ => emit (ScheduleIoClosure "session_runner"))
    (map_to_list session_replicas) tt;;
  do w <- get_world;
  for_each (replica_runner env options_ exec_ops computations devices)
    (run_order sched (length (trace w)) (map_to_list session_replicas))
    (replicate (length devices) []).

Definition ExecuteReplicated (env : Environment) (options_ : Options)
    (sched : Schedule) (xrt_computation : XrtComputation)
    (arguments : list (list XrtData)) (devices : list string)
    (explode_tuple : bool) : M (list (list XrtData)) :=
  do '(session_map, exec_ops) <-
    CreateExecuteOps env options_ ∅ xrt_computation arguments explode_tuple
      devices;
  let computations := replicate (length devices) xrt_computation in
  RunComputations env options_ sched session_map exec_ops computations devices.

Definition ExecuteParallel (env : Environment) (options_ : Options)
    (sched : Schedule) (computations : list XrtComputation)
    (arguments : list (list XrtData)) (devices : list string)
    (explode_tuple : bool) : M (list (list XrtData)) :=
  do '(session_map, exec_ops) <-
    CreateExecuteOps_parallel env options_ ∅ computations arguments
      explode_tuple devices;
  RunComputations env options_ sched session_map exec_ops computations devices.

(** [exec_ops.front()] and the check that a run gave one output. *)
Definition single_output (outputs : list Tensor) : M Tensor :=
  match outputs with
  | [output] => ret output
  | _ => fail (CheckFailed "outputs.size() == 1")
  end.

Definition ExecuteComputation (env : Environment) (options_ : Options)
    (xrt_computation : XrtComputation) (arguments : list XrtData)
    (device : string) (explode_tuple : bool) : M (list XrtData) :=
  do effective_device <- lift (GetEffectiveDevice options_ device);
  do '(session_map, exec_ops) <-
    CreateExecuteOps env options_ ∅ xrt_computation [arguments] explode_tuple
      [effective_device];
  do '(session, session_map) <-
    GetSessionForDevice env options_ effective_device session_map;
  do front <- vector_get exec_ops 0;
  do status <- Run env session [front];
  do outputs <- CheckComputationStatus status;
  do output <- single_output outputs;
  GetComputationResults output (result (program_shape xrt_computation))
    effective_device.

(** ** Chained execution *)

(** [ExecuteChainedOp::Input] and [::Output] *)
Record ChainedInput := { op_index : nat; in_output_index : option nat }.
Record ChainedOutput := { result_index : nat; out_output_index : option nat }.

(** [ExecuteChainedOp]: device data, or a computation with its inputs. *)
Record ExecuteChainedOp := {
  device_data : DataPtr;
  op_computation : ComputationPtr;
  outputs : list ChainedOutput;
  inputs : list ChainedInput;
}.

(** [*op.computation] *)
Definition deref {A} (p : option A) : M A :=
  match p with
  | Some a => ret a
  | None => fail Undefined
  end.

(** [v.resize(n)] when [n] exceeds the size: pads with default values. *)
Definition resize {A} (v : list A) (n : nat) (d : A) : list A :=
  v ++ replicate (n - length v) d.

(** The [for (auto& output : op.outputs)] loop of [ExecuteChainedXrt]. *)
Definition plan_output (op_shape : Shape) (output : ChainedOutput)
    (st : list PlanOutput * list Shape) : M (list PlanOutput * list Shape) :=
  let '(plan_outputs, result_shapes) := st in
  let result_shapes :=
    if bool_decide (length result_shapes <= result_index output)%nat
    then resize result_shapes (result_index output + 1) default_Shape
    else result_shapes in
  match out_output_index output with
  | Some output_index =>
      do element_shape <- lift (GetTupleElementShape op_shape output_index);
      do result_shapes <-
        vector_set result_shapes (result_index output) element_shape;
      ret (plan_outputs ++
             [{| plan_result_index := result_index output;
                 plan_out_output_index := output_index + 1 |}],
           result_shapes)
  | None =>
      do result_shapes <- vector_set result_shapes (result_index output) op_shape;
      ret (plan_outputs ++
             [{| plan_result_index := result_index output;
                 plan_out_output_index := 0 |}],
           result_shapes)
  end.

(** The [for (auto& input : op.inputs)] loop of [ExecuteChainedXrt]. *)
Definition plan_input (i : nat) (input : ChainedInput)
    (plan_inputs : list PlanInput) : M (list PlanInput) :=
  XLA_CHECK (bool_decide (op_index input < i)%nat) "input.op_index < i";;
  ret (plan_inputs ++
         [{| plan_in_op_index := op_index input;
             plan_in_output_index :=
               match in_output_index input with
               | Some output_index => output_index + 1
               | None => 0
               end |}]).

(** One iteration of the loop over [ops] of [ExecuteChainedXrt]. *)
Definition plan_op (ops : list ExecuteChainedOp) (i : nat)
    (st : list PlanOp * list Shape) : M (list PlanOp * list Shape) :=
  let '(plan, result_shapes) := st in
  do op <- vector_get ops i;
  do '(kind, op_shape, plan_ins) <-
    match device_data op with
    | Some xrt_data =>
        ret (PlanDataHandle (data_handle xrt_data), data_shape xrt_data, [])
    | None =>
        do xrt_computation <- deref (op_computation op);
        do plan_ins <- for_each (plan_input i) (inputs op) [];
        ret (PlanComputationHandle (computation_handle xrt_computation),
             result (program_shape xrt_computation), plan_ins)
    end;
  do '(plan_outs, result_shapes) <-
    for_each (plan_output op_shape) (outputs op) ([], result_shapes);
  ret (plan ++ [{| plan_kind := kind; plan_inputs := plan_ins;
                   plan_outputs := plan_outs |}],
       result_shapes).

(** [outputs[0].vec<int64_t>()] *)
Definition vec_int64 (t : Tensor) : outcome (list Z) :=
  match t with
  | VecInt64 v => Ok v
  | _ => Failed (CheckFailed "vec<int64>")
  end.

(** [v.at(i)] *)
Definition vector_at {A} (v : list A) (i : nat) : M A :=
  match v !! i with
  | Some a => ret a
  | None => fail OutOfRange
  end.

Definition ExecuteChainedXrt (env : Environment) (options_ : Options)
    (ops : list ExecuteChainedOp) (device : string) : M (list DataPtr) :=
  do effective_device <- lift (GetEffectiveDevice options_ device);
  do xrt_device <- lift (SwiftDeviceToXrtDevice options_ effective_device);
  do '(session, session_map) <-
    GetSessionForXrtDevice env options_ xrt_device ∅;
  do w <- get_world;
  do '(plan, result_shapes) <-
    for_each (plan_op ops) (seq 0 (length ops)) ([], []);
  do status <-
    Run env session [XRTExecuteChained xrt_device plan (rng_seed_ w)];
  do run_outputs <- CheckComputationStatus status;
  do output <- single_output run_outputs;
  do handles_vec <- lift (vec_int64 output);
  do results <-
    for_each (fun '(i, h) results =>
        do shape_i <- vector_at result_shapes i;
        ret (results ++ [Some {| data_device := effective_device;
                                 data_shape := shape_i;
                                 data_handle := h |}]))
      (zip (seq 0 (length handles_vec)) handles_vec) [];
  emit (Counter "CreateDataHandles" (Z.of_nat (length results)));;
  ret results.

(** [uses[input.op_index] += delta] *)
Definition bump_use (delta : Z) (input : ChainedInput) (uses : list Z)
    : M (list Z) :=
  do u <- vector_get uses (op_index input);
  vector_set uses (op_index input) (u + delta).

(** [output.output_index.value_or(0)] *)
Definition value_or_0 (o : option nat) : nat := default 0%nat o.

(** The loop gathering the arguments of a computation op. *)
Definition split_argument (i : nat) (ops_outputs : list (list XrtData))
    (input : ChainedInput) (arguments : list XrtData) : M (list XrtData) :=
  XLA_CHECK (bool_decide (op_index input < i)%nat) "input.op_index < i";;
  do producer <- vector_get ops_outputs (op_index input);
  XLA_CHECK
    (bool_decide (value_or_0 (in_output_index input) < length producer)%nat)
    "input.output_index.value_or(0) < ops_outputs[input.op_index].size()";;
  do argument <- vector_get producer (value_or_0 (in_output_index input));
  ret (arguments ++ [argument]).

(** The loop storing the declared outputs of op [i] into [results]. *)
Definition split_output (ops_outputs_i : list XrtData) (output : ChainedOutput)
    (results : list DataPtr) : M (list DataPtr) :=
  let results :=
    if bool_decide (length results <= result_index output)%nat
    then resize results (result_index output + 1) None
    else results in
  XLA_CHECK
    (bool_decide (value_or_0 (out_output_index output) < length ops_outputs_i)%nat)
    "output.output_index.value_or(0) < ops_outputs[i].size()";;
  do d <- vector_get ops_outputs_i (value_or_0 (out_output_index output));
  vector_set results (result_index output) (Some d).

(** Dropping the references to intermediate results not used anymore. *)
Definition split_drop (input : ChainedInput)
    (st : list Z * list (list XrtData)) : M (list Z * list (list XrtData)) :=
  let '(uses, ops_outputs) := st in
  do uses <- bump_use (-1) input uses;
  do u <- vector_get uses (op_index input);
  if bool_decide (u = 0) then
    do ops_outputs <- vector_set ops_outputs (op_index input) [];
    ret (uses, ops_outputs)
  else ret (uses, ops_outputs).

Record SplitState := {
  ss_session_map : SessionMap;
  ss_uses : list Z;
  ss_ops_outputs : list (list XrtData);
  ss_results : list DataPtr;
}.

(** One iteration of the loop over [ops] of [ExecuteChainedSplit]. *)
Definition split_op (env : Environment) (options_ : Options)
    (session : XrtSession) (effective_device : string)
    (ops : list ExecuteChainedOp) (i : nat) (st : SplitState) : M SplitState :=
  do op <- vector_get ops i;
  do '(session_map, ops_outputs) <-
    match device_data op with
    | Some xrt_data =>
        do ops_outputs_i <- vector_get (ss_ops_outputs st) i;
        do ops_outputs <-
          vector_set (ss_ops_outputs st) i (ops_outputs_i ++ [xrt_data]);
        ret (ss_session_map st, ops_outputs)
    | None =>
        do arguments <-
          for_each (split_argument i (ss_ops_outputs st)) (inputs op) [];
        do xrt_computation <- deref (op_computation op);
        do '(session_map, exec_ops) <-
          CreateExecuteOps env options_ (ss_session_map st) xrt_computation
            [arguments] true [effective_device];
        do front <- vector_get exec_ops 0;
        do status <- Run env session [front];
        do run_outputs <- CheckComputationStatus status;
        do output <- single_output run_outputs;
        do results_i <-
          GetComputationResults output
            (result (program_shape xrt_computation)) effective_device;
        do ops_outputs <- vector_set (ss_ops_outputs st) i results_i;
        ret (session_map, ops_outputs)
    end;
  do ops_outputs_i <- vector_get ops_outputs i;
  do results <- for_each (split_output ops_outputs_i) (outputs op) (ss_results st);
  do '(uses, ops_outputs) <-
    for_each split_drop (inputs op) (ss_uses st, ops_outputs);
  ret {| ss_session_map := session_map; ss_uses := uses;
         ss_ops_outputs := ops_outputs; ss_results := results |}.

Definition ExecuteChainedSplit (env : Environment) (options_ : Options)
    (ops : list ExecuteChainedOp) (device : string) : M (list DataPtr) :=
  do uses <-
    for_each (fun op uses => for_each (bump_use 1) (inputs op) uses)
      ops (replicate (length ops) 0);
  do effective_device <- lift (GetEffectiveDevice options_ device);
  do xrt_device <- lift (SwiftDeviceToXrtDevice options_ effective_device);
  do '(session, session_map) <-
    GetSessionForXrtDevice env options_ xrt_device ∅;
  do st <-
    for_each (split_op env options_ session effective_device ops)
      (seq 0 (length ops))
      {| ss_session_map := session_map; ss_uses := uses;
         ss_ops_outputs := replicate (length ops) [];
         ss_results := [] |};
  ret (ss_results st).

Definition ExecuteChained (env : Environment) (options_ : Options)
    (ops : list ExecuteChainedOp) (device : string) : M (list DataPtr) :=
  let split_mode := GetEnvInt env "XRT_SPLIT_CHAINED_EXEC" 0 in
  if bool_decide (split_mode <> 0) then ExecuteChainedSplit env options_ ops device
  else ExecuteChainedXrt env options_ ops device.

(** ** What the handles of a chain stand for *)

(** The values held by the service, as terms: what was stored under a
    handle by a transfer, the result of a compiled program on the values
    of its arguments, and an element of a tuple value. *)
Inductive Value :=
| Stored (handle : Z)
| Computed (program : Z) (arguments : list Value)
| Element (tuple : Value) (index : nat).

(** The output index of a plan, as read by the service: 0 names the whole
    value, [q + 1] names element [q] of a tuple. *)
Definition plan_select (v : Value) (output_index : nat) : Value :=
  match output_index with
  | O => v
  | S q => Element v q
  end.

(** The value a plan input names, [values] being the values of the
    operations before it. *)
Definition plan_argument (values : list Value) (input : PlanInput) : Value :=
  plan_select (default (Stored 0) (values !! plan_in_op_index input))
    (plan_in_output_index input).

(** The value of an operation of a plan: what its data handle stands for
    by [den], or its program on the values its inputs name. *)
Definition plan_op_value (den : Z -> Value) (values : list Value) (op : PlanOp)
    : Value :=
  match plan_kind op with
  | PlanDataHandle h => den h
  | PlanComputationHandle c => Computed c (plan_argument values <$> plan_inputs op)
  end.

(** ** The topology configuration *)

(** [value.substr(n)], for [n] within the string. *)
Fixpoint string_suffix (n : nat) (s : string) : string :=
  match n, s with
  | S n', String _ rest => string_suffix n' rest
  | _, _ => s
  end.

Definition StripPrefix (value prefix : string) : string :=
  if String.prefix prefix value
  then string_suffix (String.length prefix) value
  else value.

(** [server.compare(0, 7, "grpc://") == 0] compares the first seven
    characters of [server], or all of it when it is shorter. *)
Definition MakeGrpcEndPoint (server : string) : string :=
  if String.eqb (string_prefix 7 server) "grpc://" then server
  else "grpc://" +:+ server.

(** [absl::StrCat] writes an [int] in decimal, as [pretty] does. *)
Definition GetXrtDevicePath (worker : string) (task_no : Z)
    (device_type : string) (ordinal : Z) : string :=
  "/job:" +:+ worker +:+ "/replica:0/task:" +:+ pretty task_no
  +:+ "/device:" +:+ device_type +:+ ":" +:+ pretty ordinal.

Definition BuildTaskDeviceKey (task_no : Z) (kind : string) : string :=
  pretty task_no +:+ ":" +:+ kind.

(** [absl::StrSplit(text, delimiter)] with a character delimiter: the
    pieces between the delimiters, empty pieces included; one empty piece
    for the empty text. *)
Fixpoint StrSplit (text : string) (delimiter : ascii) : list string :=
  match text with
  | EmptyString => [EmptyString]
  | String c rest =>
      if Ascii.eqb c delimiter then EmptyString :: StrSplit rest delimiter
      else match StrSplit rest delimiter with
           | piece :: pieces => String c piece :: pieces
           | [] => [String c EmptyString]
           end
  end.

(** [std::isspace] in the C locale. *)
Definition isspace (c : ascii) : bool :=
  let n := Z.of_N (N_of_ascii c) in (n =? 32) || ((9 <=? n) && (n <=? 13)).

Definition digit_value (c : ascii) : option Z :=
  let n := Z.of_N (N_of_ascii c) in
  if (48 <=? n) && (n <=? 57) then Some (n - 48) else None.

Fixpoint skip_spaces (s : string) : string :=
  match s with
  | String c rest => if isspace c then skip_spaces rest else s
  | EmptyString => s
  end.

(** The value of the longest run of digits [s] starts with, after the
    digits that gave [acc]. *)
Fixpoint digits_value (s : string) (acc : Z) : Z :=
  match s with
  | String c rest =>
      match digit_value c with
      | Some d => digits_value rest (10 * acc + d)
      | None => acc
      end
  | EmptyString => acc
  end.

Definition int_range (z : Z) : bool := (- 2 ^ 31 <=? z) && (z <? 2 ^ 31).

(** [std::stoi(str)]: leading white space is skipped, then an optional
    sign and the longest run of decimal digits are read, what follows them
    is ignored; [std::invalid_argument] is thrown when there is no digit,
    [std::out_of_range] when the value is no [int]. *)
Definition stoi (str : string) : outcome Z :=
  let s := skip_spaces str in
  let '(negative, s) :=
    match s with
    | String "-" rest => (true, rest)
    | String "+" rest => (false, rest)
    | _ => (false, s)
    end in
  match s with
  | String c _ =>
      match digit_value c with
      | Some _ =>
          let value := digits_value s 0 in
          let value := if negative : bool then - value else value in
          if int_range value then Ok value else Failed OutOfRange
      | None => Failed (ComputationError "std::invalid_argument")
      end
  | EmptyString => Failed (ComputationError "std::invalid_argument")
  end.

(** [XrtComputationClient::DeviceId]: a device name such as "TPU:3"
    taken apart. *)
Record DeviceId := { kind : string; ordinal : Z }.

(** The constructor [DeviceId::DeviceId(device_str)]. *)
Definition DeviceId_new (device_str : string) : outcome DeviceId :=
  let parts := StrSplit device_str ":" in
  match parts with
  | [part0; part1] =>
      outcome_bind (stoi part1) (fun n => Ok {| kind := part0; ordinal := n |})
  | _ => Failed (CheckFailed "parts.size() == 2")
  end.

Definition ParseWorker (worker : string) : outcome Worker :=
  let parts := StrSplit worker ":" in
  match parts with
  | [part0] => Ok (part0, 0)
  | [part0; part1] => outcome_bind (stoi part1) (fun n => Ok (part0, n))
  | _ => Failed (CheckFailed "parts.size() == 1 || parts.size() == 2")
  end.

(** ** The computation sent to the compiler *)

(** [xrt::XLAComputation]: the configuration and the HLO snapshot.  The
    device assignment holds the computation devices that were added, each
    the list of its replica devices, each the list of its values; a field
    that was never set holds the default of the protocol buffer. *)
Record XLAComputation := {
  config_num_cores_per_replica : Z;
  config_num_replicas : Z;
  config_device_assignment : list (list (list Z));
  config_program_shape : ProgramShape;
  xrt_hlo_snapshot : string;
}.

(** [device_mesh_coords_], filled by [InitializeDevices]; a missing
    device is fatal. *)
Definition GetDeviceMeshCoords (device_mesh_coords_ : gmap string (list Z))
    (xrt_device : string) : outcome (list Z) :=
  match device_mesh_coords_ !! xrt_device with
  | Some coords => Ok coords
  | None => Failed (CheckFailed "Missing mesh coordinates for device")
  end.

(** The body of the loop over [devices] in [CreateXrtComputation]: the
    values of one replica device. *)
Definition replica_device_values (options_ : Options)
    (device_mesh_coords_ : gmap string (list Z)) (device_name : string)
    : outcome (list Z) :=
  outcome_bind (DeviceId_new device_name) (fun device =>
  if String.eqb (kind device) "TPU" then
    outcome_bind (SwiftDeviceToXrtDevice options_ device_name) (fun xrt_device =>
    GetDeviceMeshCoords device_mesh_coords_ xrt_device)
  else if String.eqb (kind device) "GPU" then
    (* For GPU use X,Y,Z=0 and CORE=GPU_ORDINAL. *)
    Ok [0; 0; 0; ordinal device]
  else Failed (CheckFailed "Unsupported replication device type")).

Fixpoint replica_devices_values (options_ : Options)
    (device_mesh_coords_ : gmap string (list Z)) (devices : list string)
    : outcome (list (list Z)) :=
  match devices with
  | [] => Ok []
  | device_name :: rest =>
      outcome_bind (replica_device_values options_ device_mesh_coords_
                      device_name) (fun values =>
      outcome_bind (replica_devices_values options_ device_mesh_coords_ rest)
        (fun replicas => Ok (values :: replicas)))
  end.

Definition CreateXrtComputation (options_ : Options)
    (device_mesh_coords_ : gmap string (list Z))
    (computation : XlaComputation) (devices : list string)
    (output_shape : option Shape) : outcome XLAComputation :=
  outcome_bind
    (if bool_decide (1 < length devices)%nat then
       outcome_bind
         (replica_devices_values options_ device_mesh_coords_ devices)
         (fun replicas => Ok ([replicas], Z.of_nat (length devices)))
     else Ok ([], 0))
    (fun '(assignment, replicas) =>
  let program_shape := computation_program_shape computation in
  let program_shape :=
    match output_shape with
    | Some output_shape =>
        {| parameters := parameters program_shape; result := output_shape |}
    | None => program_shape
    end in
  Ok {| config_num_cores_per_replica := 1;
        config_num_replicas := replicas;
        config_device_assignment := assignment;
        config_program_shape := program_shape;
        xrt_hlo_snapshot := hlo_snapshot computation |}).

(** ** Mesh coordinates of the TPU devices *)

(** [tensorflow::tpu::TopologyProto] *)
Record TopologyProto := {
  mesh_shape : list Z;
  num_tasks : Z;
  num_tpu_devices_per_task : Z;
  device_coordinates : list Z;
}.

(** [topology_proto->device_coordinates(index)]: a repeated field read
    out of its bounds is undefined behaviour. *)
Definition device_coordinate (topology_proto : TopologyProto) (index : Z)
    : outcome Z :=
  if 0 <=? index then
    match device_coordinates topology_proto !! Z.to_nat index with
    | Some coordinate => Ok coordinate
    | None => Failed Undefined
    end
  else Failed Undefined.

(** The result of [int] arithmetic: overflow is undefined behaviour. *)
Definition as_int (z : Z) : outcome Z :=
  if int_range z then Ok z else Failed Undefined.

Fixpoint read_coordinates (topology_proto : TopologyProto) (base_index : Z)
    (indices : list nat) : outcome (list Z) :=
  match indices with
  | [] => Ok []
  | i :: rest =>
      outcome_bind (device_coordinate topology_proto (base_index + Z.of_nat i))
        (fun coordinate =>
      outcome_bind (read_coordinates topology_proto base_index rest)
        (fun coordinates => Ok (coordinate :: coordinates)))
  end.

(** The body of the loop of [InitializeDevices] that fills
    [device_mesh_coords_], for a device of type TPU.  The topology
    protocol buffer 'device_coordinates' is a linear list of
    [num_tasks][devices_per_task][mesh_shape_size] coordinates. *)
Definition device_mesh_coords_of (topology_proto : option TopologyProto)
    (parsed_device : ParsedName) : outcome (list Z) :=
  match topology_proto with
  | None => Failed Undefined
  | Some topology_proto =>
      let mesh_shape_size := Z.of_nat (length (mesh_shape topology_proto)) in
      if negb (task parsed_device <=? num_tasks topology_proto) then
        Failed (CheckFailed "parsed_device.task <= topology_proto->num_tasks()")
      else if negb (id parsed_device
                    <=? num_tpu_devices_per_task topology_proto) then
        Failed (CheckFailed
          "parsed_device.id <= topology_proto->num_tpu_devices_per_task()")
      else
        outcome_bind (as_int (task parsed_device
                              * num_tpu_devices_per_task topology_proto))
          (fun task_devices =>
        outcome_bind (as_int (task_devices * mesh_shape_size)) (fun task_base =>
        outcome_bind (as_int (id parsed_device * mesh_shape_size))
          (fun device_base =>
        outcome_bind (as_int (task_base + device_base)) (fun base_index =>
        read_coordinates topology_proto base_index
          (seq 0 (length (mesh_shape topology_proto)))))))
  end.

(** [std::map::insert], [emplace]: an entry that is there is kept. *)
Definition emplace `{Countable K} {V} (k : K) (v : V) (m : gmap K V)
    : gmap K V :=
  match m !! k with Some _ => m | None => <[k := v]> m end.

Definition initialize_device (env : Environment)
    (topology_proto : option TopologyProto) (dev_target : string * string)
    (device_mesh_coords_ : gmap string (list Z))
    : outcome (gmap string (list Z)) :=
  outcome_bind (ParseFullXrtDevice env (snd dev_target)) (fun parsed_device =>
  if negb (String.eqb (type parsed_device) "TPU") then Ok device_mesh_coords_
  else
    outcome_bind (device_mesh_coords_of topology_proto parsed_device)
      (fun device_mesh_coords =>
    Ok (emplace (snd dev_target) device_mesh_coords device_mesh_coords_))).

Fixpoint outcome_for_each {A St} (body : A -> St -> outcome St) (l : list A)
    (s : St) : outcome St :=
  match l with
  | [] => Ok s
  | a :: rest => outcome_bind (body a s) (outcome_for_each body rest)
  end.

(** The loop of [InitializeDevices] over [options_.global_device_map]
    that fills [device_mesh_coords_], once the topology is there.  The
    entries of the map are gone through in some order; the table that
    is built does not depend on it. *)
Definition InitializeDevices_mesh_coords (env : Environment)
    (options_ : Options) (topology_proto : option TopologyProto)
    : outcome (gmap string (list Z)) :=
  outcome_for_each (initialize_device env topology_proto)
    (map_to_list (global_device_map options_)) ∅.

(** ** The devices of the hosts *)

(** The process environment of the configuration: [sys_util::GetEnvString],
    the port [tensorflow::internal::PickUnusedPortOrDie] hands out, and the
    names of the environment variables ([env::kEnv...]), which are
    constants of another file. *)
Record ConfigEnv := {
  GetEnvString : string -> string -> string;
  PickUnusedPortOrDie : Z;
  kEnvNumTpu : string;
  kEnvNumGpu : string;
  kEnvNumCpu : string;
  kEnvTpuConfig : string;
  kEnvLocalWorker : string;
  kEnvMpDevice : string;
}.

Record DeviceCountDefaults := { num_tpus : Z; num_gpus : Z; num_cpus : Z }.

(** [DeviceCountDefaults()] *)
Definition default_device_counts : DeviceCountDefaults :=
  {| num_tpus := 0; num_gpus := 0; num_cpus := 1 |}.

(** [static_cast<int>] of an [int64_t]. *)
Definition to_int (z : Z) : Z := (z + 2 ^ 31) mod 2 ^ 32 - 2 ^ 31.

(** The inner loop of [AddXrtHostDevices], for one kind of device:
    [count] devices, named after the running global ordinal of the kind
    and mapped to the devices 0, 1, ... of the host. *)
Definition add_host_devices (worker_name : string) (task_no : Z)
    (device : string * string * Z)
    (st : gmap string Z * gmap string string)
    : gmap string Z * gmap string string :=
  let '(name, tf_name, count) := device in
  let '(device_ordinals, global_device_map) := st in
  let device_ordinal := default 0 (device_ordinals !! name) in
  (<[name := device_ordinal + Z.of_nat (Z.to_nat count)]> device_ordinals,
   foldl (fun m j =>
       emplace (name +:+ ":" +:+ pretty (device_ordinal + Z.of_nat j))
         (GetXrtDevicePath worker_name task_no tf_name (Z.of_nat j)) m)
     global_device_map (seq 0 (Z.to_nat count))).

(** The table [devices] of [AddXrtHostDevices]. *)
Definition host_devices (env : Environment) (cenv : ConfigEnv)
    (device_counts : DeviceCountDefaults) : list (string * string * Z) :=
  [ ("TPU", "TPU",
     to_int (GetEnvInt env (kEnvNumTpu cenv) (num_tpus device_counts)));
    ("GPU", "XLA_GPU",
     to_int (GetEnvInt env (kEnvNumGpu cenv) (num_gpus device_counts)));
    ("CPU", "XLA_CPU",
     to_int (GetEnvInt env (kEnvNumCpu cenv) (num_cpus device_counts))) ].

Definition AddXrtHostDevices (env : Environment) (cenv : ConfigEnv)
    (worker_name : string) (task_no : Z) (server : string)
    (device_counts : DeviceCountDefaults)
    (device_ordinals : gmap string Z) (options : Options)
    : gmap string Z * Options :=
  let workers :=
    emplace (worker_name, task_no) (MakeGrpcEndPoint server)
      (workers_map options) in
  let '(device_ordinals, global_device_map) :=
    foldl (fun st device => add_host_devices worker_name task_no device st)
      (device_ordinals, global_device_map options)
      (host_devices env cenv device_counts) in
  (device_ordinals,
   {| default_device := default_device options;
      global_device_map := global_device_map;
      workers_map := workers;
      devices := devices options |}).

(** The body of the loop of [ParseEnvBasedTpuClusterConfig] over the
    hosts of the configuration, "name;task;server" each. *)
Definition add_tpu_host (env : Environment) (cenv : ConfigEnv)
    (device_counts : DeviceCountDefaults) (spec : string)
    (st : gmap string Z * Options) : outcome (gmap string Z * Options) :=
  match StrSplit spec ";" with
  | [host_part0; host_part1; host_part2] =>
      outcome_bind (stoi host_part1) (fun task_no =>
      Ok (AddXrtHostDevices env cenv host_part0 task_no host_part2
            device_counts (fst st) (snd st)))
  | _ => Failed (CheckFailed "host_parts.size() == 3")
  end.

Definition ParseEnvBasedTpuClusterConfig (env : Environment) (cenv : ConfigEnv)
    (options : Options) : outcome (bool * Options) :=
  let tpu_config := GetEnvString cenv (kEnvTpuConfig cenv) "" in
  if String.eqb tpu_config "" then Ok (false, options)
  else
    let spec_parts := StrSplit tpu_config "|" in
    if bool_decide (spec_parts = []) then
      Failed (CheckFailed "!spec_parts.empty()")
    else
      let device_counts := {| num_tpus := 8; num_gpus := 0; num_cpus := 1 |} in
      outcome_bind
        (outcome_for_each (add_tpu_host env cenv device_counts) spec_parts
           (∅, options))
        (fun st => Ok (true, snd st)).

Definition ParseEnvDeviceCounts (env : Environment) (cenv : ConfigEnv)
    (options : Options) : bool * Options :=
  let num_tpus := to_int (GetEnvInt env (kEnvNumTpu cenv) (-1)) in
  let num_gpus := to_int (GetEnvInt env (kEnvNumGpu cenv) (-1)) in
  let options :=
    if (0 <? num_tpus) || (0 <? num_gpus) then
      let host_port := "localhost:" +:+ pretty (PickUnusedPortOrDie cenv) in
      snd (AddXrtHostDevices env cenv "localservice" 0 host_port
             default_device_counts ∅ options)
    else options in
  (negb (bool_decide (global_device_map options = ∅)), options).

(** ** The local devices and the default device *)

(** [util::InsertCombined(map, key, value, combiner)] with [std::min] as
    combiner: the value of a new key, combined with the one that is
    there otherwise. *)
Definition InsertCombined_min (m : gmap string Z) (key : string) (value : Z)
    : gmap string Z :=
  match m !! key with
  | Some v => <[key := Z.min v value]> m
  | None => <[key := value]> m
  end.

Definition ParseXrtDevice (env : Environment) (device : string)
    : outcome ParsedName :=
  match ParseFullName env device with
  | Some parsed_device =>
      if has_job parsed_device && has_task parsed_device
         && has_id parsed_device && has_type parsed_device
      then Ok parsed_device
      else Failed (CheckFailed "ParseFullName")
  | None => Failed (CheckFailed "ParseFullName")
  end.

Definition GetMultiProcessingDevice (cenv : ConfigEnv) : string :=
  GetEnvString cenv (kEnvMpDevice cenv) "".

Definition IsLocalDevice (cenv : ConfigEnv) (worker : Worker)
    (parsed_device : ParsedName) (dev_task_map : gmap string Z)
    : outcome bool :=
  if negb (String.eqb (fst worker) (job parsed_device))
     || negb (snd worker =? task parsed_device)
  then Ok false
  else
    let mp_device := GetMultiProcessingDevice cenv in
    if String.eqb mp_device "" then Ok true
    else
      outcome_bind (DeviceId_new mp_device) (fun device =>
      let task_device_key :=
        BuildTaskDeviceKey (task parsed_device) (kind device) in
      match dev_task_map !! task_device_key with
      | Some min_ordinal =>
          outcome_bind (as_int (min_ordinal + id parsed_device)) (fun sum =>
          Ok (ordinal device =? sum))
      | None => Ok false
      end).

(** Builds a map from "TASK:DEV_KIND" (ie, "0:TPU") keys to the minimum
    global device ordinal assigned for that task+devkind couple. *)
Definition BuildDeviceTaskMap (env : Environment) (options : Options)
    : outcome (gmap string Z) :=
  outcome_for_each (fun device_xrt_device dev_task_map =>
      outcome_bind (DeviceId_new (fst device_xrt_device)) (fun global_device =>
      outcome_bind (ParseXrtDevice env (snd device_xrt_device))
        (fun parsed_device =>
      let task_device_key :=
        BuildTaskDeviceKey (task parsed_device) (kind global_device) in
      Ok (InsertCombined_min dev_task_map task_device_key
            (ordinal global_device)))))
    (map_to_list (global_device_map options)) ∅.

(** The body of the loop of [PopulateLocalDevices] over the global
    device map. *)
Definition populate_device (env : Environment) (cenv : ConfigEnv)
    (worker : Worker) (dev_task_map : gmap string Z)
    (device_xrt_device : string * string) (st : gset string * gmap string Z)
    : outcome (gset string * gmap string Z) :=
  outcome_bind
    (if 0 <=? snd worker then
       outcome_bind (ParseXrtDevice env (snd device_xrt_device))
         (fun parsed_device =>
       IsLocalDevice cenv worker parsed_device dev_task_map)
     else Ok true)
    (fun is_local =>
  if negb is_local then Ok st
  else
    outcome_bind (DeviceId_new (fst device_xrt_device)) (fun global_device =>
    Ok ({[fst device_xrt_device]} ∪ fst st,
        InsertCombined_min (snd st) (kind global_device)
          (ordinal global_device)))).

(** The last loop of [PopulateLocalDevices]: the first of the kinds
    "TPU", "GPU", "CPU" that has a local device gives the default device. *)
Fixpoint pick_default_device (kinds : list string)
    (min_ordinals : gmap string Z) (default_device : string) : string :=
  match kinds with
  | [] => default_device
  | kind :: rest =>
      match min_ordinals !! kind with
      | Some min_ordinal => kind +:+ ":" +:+ pretty min_ordinal
      | None => pick_default_device rest min_ordinals default_device
      end
  end.

Definition PopulateLocalDevices (env : Environment) (cenv : ConfigEnv)
    (options : Options) : outcome Options :=
  let local_worker := GetEnvString cenv (kEnvLocalWorker cenv) "" in
  outcome_bind
    (if String.eqb local_worker "" then Ok ("", -1)
     else ParseWorker local_worker) (fun worker =>
  outcome_bind (BuildDeviceTaskMap env options) (fun dev_task_map =>
  outcome_bind
    (outcome_for_each (populate_device env cenv worker dev_task_map)
       (map_to_list (global_device_map options)) (devices options, ∅))
    (fun st =>
  Ok {| default_device :=
          pick_default_device ["TPU"; "GPU"; "CPU"] (snd st)
            (default_device options);
        global_device_map := global_device_map options;
        workers_map := workers_map options;
        devices := fst st |}))).

(** ** A concrete environment

    One local worker serving two CPU devices and one remote worker
    serving a TPU device; a service that answers every run.  It is used to
    evaluate the client on concrete inputs. *)

Module Demo.

Definition cpu0_path : string := "/job:localservice/replica:0/task:0/device:XLA_CPU:0".
Definition cpu1_path : string := "/job:localservice/replica:0/task:0/device:XLA_CPU:1".
Definition tpu0_path : string := "/job:tpu_worker/replica:0/task:0/device:TPU:0".

Definition parsed (job_name : string) (type_name : string) (ordinal : Z)
    : ParsedName :=
  {| has_job := true; job := job_name; has_task := true; task := 0;
     has_type := true; type := type_name; has_id := true; id := ordinal |}.

Definition parse (device : string) : option ParsedName :=
  if String.eqb device cpu0_path then Some (parsed "localservice" "XLA_CPU" 0)
  else if String.eqb device cpu1_path then Some (parsed "localservice" "XLA_CPU" 1)
  else if String.eqb device tpu0_path then Some (parsed "tpu_worker" "TPU" 0)
  else None.

Definition options_ : Options :=
  {| default_device := "CPU:0";
     global_device_map :=
       <["CPU:0" := cpu0_path]> (<["CPU:1" := cpu1_path]>
         (<["TPU:0" := tpu0_path]> ∅));
     workers_map :=
       <[("localservice", 0) := "grpc://localhost:8470"]>
         (<[("tpu_worker", 0) := "grpc://10.0.0.2:8470"]> ∅);
     devices := {["CPU:0"; "CPU:1"]} |}.

(** Four bytes per element. *)
Definition byte_size (s : Shape) : Z :=
  match s with
  | ArrayShape _ dims => 4 * foldr Z.mul 1 dims
  | TupleShape _ => 0
  end.

Definition checksum (bytes : list Byte.byte) : Z :=
  foldr (fun b acc => Z.of_N (Byte.to_N b) + 256 * acc) 0 bytes.

(** The service: an allocation is handed the checksum of its bytes as
    handle, a program the length of its text; a program whose handle is
    [10 * k + arity] returns [arity] handles when run exploded (a scalar
    when [arity] is 0); a chained plan returns one handle per result slot. *)
Definition plan_slots (plan : list PlanOp) : nat :=
  foldr (fun op n =>
      foldr (fun o m => Nat.max (S (plan_result_index o)) m) n (plan_outputs op))
    0%nat plan.

Definition fetch (target : string) (node : FedNode) : Tensor :=
  match node with
  | XRTAllocateFromTensor _ _ bytes => ScalarInt64 (checksum bytes)
  | XRTReadLiteral _ h =>
      ScalarString {| literal_bytes :=
        match Byte.of_N (Z.to_N (h mod 256)) with Some b => [b] | None => [] end |}
  | XRTCompile _ text => ScalarInt64 (Z.of_nat (String.length text))
  | XRTExecute _ h _ _ =>
      if h mod 10 =? 0 then ScalarInt64 (1000 + h)
      else VecInt64 ((fun i => 1000 + h + Z.of_nat i) <$> seq 0 (Z.to_nat (h mod 10)))
  | XRTExecuteChained _ plan _ =>
      VecInt64 ((fun i => 2000 + Z.of_nat i) <$> seq 0 (plan_slots plan))
  | XRTReleaseAllocationHandle _ _ | XRTReleaseCompilationHandle _ _ =>
      ScalarInt64 0
  end.

Definition env : Environment :=
  {| GetEnvInt := fun _ default_value => default_value;
     ByteSizeOfElements := byte_size;
     ParseFullName := parse;
     SerializeXrtComputation := fun c devs out =>
       Ok (hlo_snapshot c,
           {| parameters := parameters (computation_program_shape c);
              result := default (result (computation_program_shape c)) out |});
     session_run_ok := fun _ _ => true;
     session_fetch := fetch |}.

(** The same environment with a service whose runs all fail. *)
Definition failing_env : Environment :=
  {| GetEnvInt := GetEnvInt env;
     ByteSizeOfElements := ByteSizeOfElements env;
     ParseFullName := ParseFullName env;
     SerializeXrtComputation := SerializeXrtComputation env;
     session_run_ok := fun _ _ => false;
     session_fetch := session_fetch env |}.

(** The same environment with client-side chained execution switched on. *)
Definition split_env : Environment :=
  {| GetEnvInt := fun name default_value =>
       if bool_decide (name = "XRT_SPLIT_CHAINED_EXEC") then 1
       else GetEnvInt env name default_value;
     ByteSizeOfElements := ByteSizeOfElements env;
     ParseFullName := ParseFullName env;
     SerializeXrtComputation := SerializeXrtComputation env;
     session_run_ok := session_run_ok env;
     session_fetch := session_fetch env |}.

(** Closures run in the order they were submitted, or in the reverse. *)
Definition fifo : Schedule :=
  {| run_order := fun A _ l => l;
     run_order_perm := fun A _ l => reflexivity l |}.

Definition lifo : Schedule :=
  {| run_order := fun A _ l => reverse l;
     run_order_perm := fun A _ l => reverse_Permutation l |}.

(** Three small tensors of shapes [2,2], [4] and [1]. *)
Definition three_tensors : list TensorSource :=
  [ {| shape := ArrayShape F32 [2; 2]; populate_fn := [Byte.x01; Byte.x02] |};
    {| shape := ArrayShape F32 [4]; populate_fn := [Byte.x03] |};
    {| shape := ArrayShape F32 [1]; populate_fn := [Byte.x04] |} ].

(** Six tensors, five of them at 40% of the default ceiling. *)
Definition large_tensor : TensorSource :=
  {| shape := ArrayShape F32 [180000000]; populate_fn := [Byte.x7a] |}.
Definition six_tensors : list TensorSource :=
  [ large_tensor;
    {| shape := ArrayShape F32 [1]; populate_fn := [Byte.x71] |};
    large_tensor; large_tensor; large_tensor; large_tensor ].

(** Handles on the three devices, by name and by default. *)
Definition four_handles : list XrtData :=
  [ {| data_device := "CPU:0"; data_shape := ArrayShape F32 [2]; data_handle := 65 |};
    {| data_device := "TPU:0"; data_shape := ArrayShape F32 [2]; data_handle := 66 |};
    {| data_device := "CPU:1"; data_shape := ArrayShape F32 [2]; data_handle := 67 |};
    {| data_device := ""; data_shape := ArrayShape F32 [2]; data_handle := 68 |} ].

(** A small source computation. *)
Definition program : CompileInstance :=
  {| instance_computation :=
       {| hlo_snapshot := "HloModule x";
          computation_program_shape :=
            {| parameters := []; result := ArrayShape F32 [2] |} |};
     output_shape := None |}.

(** The program once compiled, and one argument list for each of the two
    CPU devices of the local worker. *)
Definition compiled_program : XrtComputation :=
  {| computation := instance_computation program;
     program_shape := {| parameters := []; result := ArrayShape F32 [2] |};
     computation_devices := [];
     computation_handle := 40;
     compilation_device := "CPU:0" |}.

Definition two_devices : list string := ["CPU:0"; "CPU:1"].

Definition two_argument_lists : list (list XrtData) :=
  [ [ {| data_device := "CPU:0"; data_shape := ArrayShape F32 [2];
         data_handle := 65 |} ];
    [ {| data_device := "CPU:1"; data_shape := ArrayShape F32 [2];
         data_handle := 67 |} ] ].

(** A second compiled program, and a chain of two operations whose second
    one names itself as its input. *)
Definition second_program : XrtComputation :=
  {| computation := instance_computation program;
     program_shape := {| parameters := [ArrayShape F32 [2]];
                         result := ArrayShape F32 [2] |};
     computation_devices := [];
     computation_handle := 50;
     compilation_device := "CPU:0" |}.

Definition forward_op : ExecuteChainedOp :=
  {| device_data := None; op_computation := Some second_program;
     outputs := [{| result_index := 0; out_output_index := None |}];
     inputs := [{| op_index := 1; in_output_index := None |}] |}.

Definition forward_ops : list ExecuteChainedOp :=
  [ {| device_data := None; op_computation := Some compiled_program;
       outputs := []; inputs := [] |};
    forward_op ].

(** Device data of a tuple shape, and the chain of the one operation
    that declares element 0 of it as result 0. *)
Definition tuple_data : XrtData :=
  {| data_device := "CPU:0";
     data_shape := TupleShape [ArrayShape F32 [1]; ArrayShape F32 [2]];
     data_handle := 9 |}.

Definition tuple_element_ops : list ExecuteChainedOp :=
  [ {| device_data := Some tuple_data; op_computation := None;
       outputs := [{| result_index := 0; out_output_index := Some 0%nat |}];
       inputs := [] |} ].

(** A program with a tuple result. *)
Definition tuple_program : XrtComputation :=
  {| computation := instance_computation program;
     program_shape :=
       {| parameters := [ArrayShape F32 [2]; ArrayShape F32 [2]];
          result := TupleShape [ArrayShape F32 [1]; ArrayShape F32 [2]] |};
     computation_devices := [];
     computation_handle := 52;
     compilation_device := "CPU:0" |}.

(** Device data that lists itself as its input. *)
Definition self_input_data_ops : list ExecuteChainedOp :=
  [ {| device_data :=
         Some {| data_device := "CPU:0"; data_shape := ArrayShape F32 [2];
                 data_handle := 65 |};
       op_computation := None;
       outputs := [{| result_index := 0; out_output_index := None |}];
       inputs := [{| op_index := 0; in_output_index := None |}] |} ].

(** Chains on which the two modes of chained execution part: a tuple result
    declared whole, a result slot left undeclared, and data of another
    device given to a computation. *)
Definition whole_tuple_ops : list ExecuteChainedOp :=
  [ {| device_data := None; op_computation := Some tuple_program;
       outputs := [{| result_index := 0; out_output_index := None |}];
       inputs := [] |} ].

Definition gap_ops : list ExecuteChainedOp :=
  [ {| device_data :=
         Some {| data_device := "CPU:0"; data_shape := ArrayShape F32 [2];
                 data_handle := 65 |};
       op_computation := None;
       outputs := [{| result_index := 1; out_output_index := None |}];
       inputs := [] |} ].

Definition remote_data_ops : list ExecuteChainedOp :=
  [ {| device_data :=
         Some {| data_device := "TPU:0"; data_shape := ArrayShape F32 [2];
                 data_handle := 66 |};
       op_computation := None; outputs := []; inputs := [] |};
    {| device_data := None; op_computation := Some second_program;
       outputs := [{| result_index := 0; out_output_index := None |}];
       inputs := [{| op_index := 0; in_output_index := None |}] |} ].

(** A chain whose last operation takes element 1 of the tuple result
    before it, and the same chain with that input left without an index. *)
Definition element_chain : list ExecuteChainedOp :=
  [ {| device_data :=
         Some {| data_device := "CPU:0"; data_shape := ArrayShape F32 [2];
                 data_handle := 65 |};
       op_computation := None; outputs := []; inputs := [] |};
    {| device_data := None; op_computation := Some tuple_program;
       outputs := [{| result_index := 1; out_output_index := Some 0%nat |}];
       inputs := [{| op_index := 0; in_output_index := None |};
                  {| op_index := 0; in_output_index := None |}] |};
    {| device_data := None; op_computation := Some second_program;
       outputs := [{| result_index := 0; out_output_index := None |}];
       inputs := [{| op_index := 1; in_output_index := Some 1%nat |}] |} ].

Definition whole_input_ops : list ExecuteChainedOp :=
  [ {| device_data :=
         Some {| data_device := "CPU:0"; data_shape := ArrayShape F32 [2];
                 data_handle := 65 |};
       op_computation := None; outputs := []; inputs := [] |};
    {| device_data := None; op_computation := Some tuple_program;
       outputs := [];
       inputs := [{| op_index := 0; in_output_index := None |};
                  {| op_index := 0; in_output_index := None |}] |};
    {| device_data := None; op_computation := Some second_program;
       outputs := [{| result_index := 0; out_output_index := None |}];
       inputs := [{| op_index := 1; in_output_index := None |}] |} ].

(** Chains whose input carries index 0 and names device data, or a
    result that is not a tuple. *)
Definition indexed_data_input_ops : list ExecuteChainedOp :=
  [ {| device_data :=
         Some {| data_device := "CPU:0"; data_shape := ArrayShape F32 [2];
                 data_handle := 65 |};
       op_computation := None; outputs := []; inputs := [] |};
    {| device_data := None; op_computation := Some second_program;
       outputs := [{| result_index := 0; out_output_index := None |}];
       inputs := [{| op_index := 0; in_output_index := Some 0%nat |}] |} ].

Definition indexed_result_input_ops : list ExecuteChainedOp :=
  [ {| device_data := None; op_computation := Some compiled_program;
       outputs := []; inputs := [] |};
    {| device_data := None; op_computation := Some second_program;
       outputs := [{| result_index := 0; out_output_index := None |}];
       inputs := [{| op_index := 0; in_output_index := Some 0%nat |}] |} ].

(** What the handles of the service stand for when it runs
    [element_chain]: 65 is stored data, 1052 and 1053 are the elements of
    the tuple program's result on it, 1050 and 2000 the second program's
    result on element 1, and 2001 is element 0. *)
Definition pair_value : Value := Computed 52 [Stored 65; Stored 65].

Definition denotation (h : Z) : Value :=
  if h =? 1052 then Element pair_value 0
  else if h =? 1053 then Element pair_value 1
  else if (h =? 1050) || (h =? 2000) then Computed 50 [Element pair_value 1]
  else if h =? 2001 then Element pair_value 0
  else Stored h.

Definition start : World :=
  {| trace := []; sessions_created := 0;
     released_data_handles_ := []; released_compile_handles_ := [];
     compilation_cache_ := []; rng_seed_ := 24206546665 |}.

(** A pod slice: one worker job with two tasks of two TPU cores each,
    and the CPU device of the local service. *)
Definition pod_devices : list (string * (string * Z * string * Z)) :=
  [ ("TPU:0", ("tpu_worker", 0, "TPU", 0));
    ("TPU:1", ("tpu_worker", 0, "TPU", 1));
    ("TPU:2", ("tpu_worker", 1, "TPU", 0));
    ("TPU:3", ("tpu_worker", 1, "TPU", 1));
    ("CPU:0", ("localservice", 0, "XLA_CPU", 0)) ].

Definition pod_path (device : string * Z * string * Z) : string :=
  let '(job_name, task_no, type_name, ordinal) := device in
  GetXrtDevicePath job_name task_no type_name ordinal.

Definition pod_parse (device : string) : option ParsedName :=
  match filter (fun entry => pod_path (snd entry) = device) pod_devices with
  | (_, (job_name, task_no, type_name, ordinal)) :: _ =>
      Some {| has_job := true; job := job_name;
              has_task := true; task := task_no;
              has_type := true; type := type_name;
              has_id := true; id := ordinal |}
  | [] => None
  end.

Definition pod_options : Options :=
  {| default_device := "TPU:0";
     global_device_map :=
       list_to_map ((fun entry => (fst entry, pod_path (snd entry)))
                    <$> pod_devices);
     workers_map :=
       <[("tpu_worker", 0) := "grpc://10.0.0.2:8470"]>
         (<[("tpu_worker", 1) := "grpc://10.0.0.3:8470"]>
            (<[("localservice", 0) := "grpc://localhost:8470"]> ∅));
     devices := {["TPU:0"; "TPU:1"; "CPU:0"]} |}.

Definition pod_env : Environment :=
  {| GetEnvInt := GetEnvInt env;
     ByteSizeOfElements := ByteSizeOfElements env;
     ParseFullName := pod_parse;
     SerializeXrtComputation := SerializeXrtComputation env;
     session_run_ok := session_run_ok env;
     session_fetch := session_fetch env |}.

(** The topology of the pod slice: coordinates x, y, z and core. *)
Definition pod_topology : TopologyProto :=
  {| mesh_shape := [2; 1; 1; 2];
     num_tasks := 2;
     num_tpu_devices_per_task := 2;
     device_coordinates :=
       [0; 0; 0; 0;  0; 0; 0; 1;  1; 0; 0; 0;  1; 0; 0; 1] |}.

(** The process environment of a client of two TPU hosts. *)
Definition config_env : ConfigEnv :=
  {| GetEnvString := fun name default_value =>
       if String.eqb name "XRT_TPU_CONFIG"
       then "tpu_worker;0;10.0.0.2:8470|tpu_worker;1;grpc://10.0.0.3:8470"
       else default_value;
     PickUnusedPortOrDie := 8470;
     kEnvNumTpu := "TPU_NUM_DEVICES";
     kEnvNumGpu := "GPU_NUM_DEVICES";
     kEnvNumCpu := "CPU_NUM_DEVICES";
     kEnvTpuConfig := "XRT_TPU_CONFIG";
     kEnvLocalWorker := "XRT_LOCAL_WORKER";
     kEnvMpDevice := "XRT_MULTI_PROCESSING_DEVICE" |}.

Definition no_options : Options :=
  {| default_device := ""; global_device_map := ∅; workers_map := ∅;
     devices := ∅ |}.

End Demo.

(** * Properties *)

(** ** Partitioning *)

Section PartitionFacts.
Context {TensorSource : Type}.
Variable tensor_bytes : TensorSource -> Z.
Variable max_partition_size : Z.
Hypothesis max_range : 0 <= max_partition_size < 2 ^ 63.

Local Abbreviation bytes_ok := (fun t => 0 <= tensor_bytes t < 2 ^ 63).
Local Abbreviation part_ok := (partition_ok tensor_bytes max_partition_size).

(** The indices at which the loop opens a new partition, from index [i]
    on with accumulator [current_size]. *)
Fixpoint splits (tensors : list TensorSource) (i : nat) (current_size : Z)
    : list nat :=
  match tensors with
  | [] => []
  | t :: rest =>
      if max_partition_size <? current_size + tensor_bytes t
      then i :: splits rest (S i) (tensor_bytes t)
      else splits rest (S i) (current_size + tensor_bytes t)
  end.

(** The slices cut by a list of boundaries, by recursion on the boundaries. *)
Fixpoint slices_rec {A} (n : nat) (partitions : list nat) (l : list A)
    : list (list A) :=
  match partitions with
  | [] => []
  | b :: rest =>
      take (match rest with [] => n | b' :: _ => b' end - b) (drop b l)
        :: slices_rec n rest l
  end.

Lemma uint64_small z : 0 <= z < 2 ^ 64 -> uint64 z = z.
Proof. intros H. unfold uint64. apply Z.mod_small. exact H. Qed.

Lemma partition_step_no_wrap i t cur parts :
  0 <= cur < 2 ^ 63 -> 0 <= tensor_bytes t < 2 ^ 63 ->
  partition_step max_partition_size i (tensor_bytes t) (cur, parts) =
  if max_partition_size <? cur + tensor_bytes t
  then (tensor_bytes t,
        (if bool_decide (parts = []) && bool_decide (0 < i)%nat
         then parts ++ [0%nat] else parts) ++ [i])
  else (cur + tensor_bytes t, parts).
Proof.
  intros Hc Ht. unfold partition_step.
  rewrite (uint64_small max_partition_size) by lia.
  rewrite (uint64_small (cur + tensor_bytes t)) by lia.
  destruct (max_partition_size <? cur + tensor_bytes t) eqn:E.
  - rewrite Z.add_0_l, uint64_small by lia. reflexivity.
  - apply Z.ltb_ge in E. rewrite uint64_small by lia. reflexivity.
Qed.

(** Once a boundary has been pushed, the loop only appends the splits. *)
Lemma partition_loop_nonempty tensors : forall i cur parts,
  Forall bytes_ok tensors -> 0 <= cur < 2 ^ 63 -> parts <> [] ->
  snd (partition_loop tensor_bytes max_partition_size tensors i (cur, parts))
  = parts ++ splits tensors i cur.
Proof.
  induction tensors as [|t rest IH]; intros i cur parts Hall Hcur Hne;
    cbn [partition_loop splits].
  - by rewrite app_nil_r.
  - inversion Hall as [|? ? Ht Hrest]; subst.
    rewrite partition_step_no_wrap by done.
    destruct (max_partition_size <? cur + tensor_bytes t) eqn:E.
    + rewrite bool_decide_eq_false_2 by done. simpl.
      rewrite IH; [|done|lia|by destruct parts].
      by rewrite <- app_assoc.
    + apply Z.ltb_ge in E. rewrite IH; [done|done|lia|done].
Qed.

(** Before any boundary has been pushed, past index 0: the first split
    pushes the implicit boundary 0 as well. *)
Lemma partition_loop_empty tensors : forall i cur,
  Forall bytes_ok tensors -> 0 <= cur < 2 ^ 63 -> (0 < i)%nat ->
  snd (partition_loop tensor_bytes max_partition_size tensors i (cur, []))
  = match splits tensors i cur with [] => [] | s => 0%nat :: s end.
Proof.
  induction tensors as [|t rest IH]; intros i cur Hall Hcur Hi;
    cbn [partition_loop splits].
  - done.
  - inversion Hall as [|? ? Ht Hrest]; subst.
    rewrite partition_step_no_wrap by done.
    destruct (max_partition_size <? cur + tensor_bytes t) eqn:E.
    + rewrite bool_decide_eq_true_2 by done.
      rewrite bool_decide_eq_true_2 by done. simpl.
      rewrite partition_loop_nonempty; [done|done|lia|done].
    + apply Z.ltb_ge in E. rewrite IH; [done|done|lia|lia].
Qed.

(** The boundaries are 0 followed by the splits after the first tensor. *)
Lemma PartitionTransferToServer_splits tensors :
  Forall bytes_ok tensors ->
  PartitionTransferToServer tensor_bytes max_partition_size tensors =
  0%nat :: match tensors with
           | [] => []
           | t :: rest => splits rest 1 (tensor_bytes t)
           end.
Proof.
  intros Hall. unfold PartitionTransferToServer.
  destruct tensors as [|t rest]; cbn [partition_loop]; [done|].
  inversion Hall as [|? ? Ht Hrest]; subst.
  rewrite partition_step_no_wrap by (done || lia).
  rewrite Z.add_0_l.
  destruct (max_partition_size <? tensor_bytes t) eqn:E.
  - simpl. rewrite partition_loop_nonempty; [done|done|lia|done].
  - rewrite partition_loop_empty; [|done|lia|lia].
    by destruct (splits rest 1 (tensor_bytes t)).
Qed.

Lemma partition_slices_rec {A} (parts : list nat) (l : list A) (n : nat) :
  (fun i => subspan l (partition_span parts n i)) <$> seq 0 (length parts)
  = slices_rec n parts l.
Proof.
  induction parts as [|b rest IH]; [done|].
  cbn [length seq fmap list_fmap slices_rec]. f_equal.
  - unfold subspan, partition_span. cbn [fst snd length].
    destruct rest as [|b' rest']; cbn [length].
    + by rewrite bool_decide_eq_false_2 by lia.
    + by rewrite bool_decide_eq_true_2 by lia.
  - rewrite <- IH, <- fmap_S_seq, <- list_fmap_compose.
    apply list_fmap_ext. intros _ i _. simpl.
    unfold subspan, partition_span. cbn [fst snd length].
    replace (S i + 1)%nat with (S (i + 1)) by lia.
    cbn [lookup_total list_lookup_total].
    destruct (bool_decide (i + 1 < length rest)%nat) eqn:E.
    + apply bool_decide_eq_true in E.
      by rewrite bool_decide_eq_true_2 by lia.
    + apply bool_decide_eq_false in E.
      by rewrite bool_decide_eq_false_2 by lia.
Qed.

Lemma total_bytes_app (xs ys : list TensorSource) :
  total_bytes tensor_bytes (xs ++ ys)
  = total_bytes tensor_bytes xs + total_bytes tensor_bytes ys.
Proof. induction xs as [|x xs IH]; simpl; lia. Qed.

(** The open partition [xs] (starting at index [length pre]) stays within
    the ceiling or is a single tensor; every partition closed later is
    within the ceiling or a single oversized tensor, and the partitions
    concatenate to the tensors they were cut from. *)
Lemma splits_slices tensors : forall pre xs,
  Forall bytes_ok tensors -> Forall bytes_ok xs -> xs <> [] ->
  total_bytes tensor_bytes xs <= max_partition_size \/ (exists t, xs = [t]) ->
  let all := pre ++ xs ++ tensors in
  let ps := slices_rec (length all)
              (length pre :: splits tensors (length (pre ++ xs))
                               (total_bytes tensor_bytes xs)) all in
  concat ps = xs ++ tensors /\ Forall part_ok ps.
Proof.
  induction tensors as [|t rest IH]; intros pre xs Hall Hxs Hne Hopen; simpl.
  - rewrite !app_nil_r.
    rewrite drop_app_length, take_ge by (rewrite !length_app; simpl; lia).
    split; [done|]. constructor; [|constructor].
    destruct Hopen as [Hle|[t ->]]; [by left|].
    unfold partition_ok. simpl in *. inversion Hxs; subst.
    destruct (decide (tensor_bytes t <= max_partition_size)); [left; lia|].
    right. exists t. split; [done|lia].
  - inversion Hall as [|? ? Ht Hrest]; subst.
    assert (Hsum : 0 <= total_bytes tensor_bytes xs < 2 ^ 63).
    { destruct Hopen as [Hle|[t' ->]].
      - split; [|lia]. clear -Hxs. induction Hxs; simpl; lia.
      - inversion Hxs; subst. simpl. lia. }
    destruct (max_partition_size <? total_bytes tensor_bytes xs + tensor_bytes t) eqn:E.
    + cbn [slices_rec].
      specialize (IH (pre ++ xs) [t] Hrest).
      destruct IH as [IHc IHf];
        [constructor; [exact Ht|constructor]|done|right; by eexists|].
      cbn [total_bytes foldr] in IHc, IHf. rewrite Z.add_0_r in IHc, IHf.
      replace (length ((pre ++ xs) ++ [t])) with (S (length (pre ++ xs))) in IHc, IHf
        by (rewrite !length_app; simpl; lia).
      replace ((pre ++ xs) ++ [t] ++ rest) with (pre ++ xs ++ t :: rest) in IHc, IHf
        by (by rewrite <- app_assoc).
      cbn [slices_rec] in IHc, IHf.
      rewrite drop_app_length.
      replace (length (pre ++ xs) - length pre)%nat with (length xs)
        by (rewrite length_app; lia).
      rewrite take_app_length.
      split.
      * by rewrite IHc.
      * constructor; [|done].
        destruct Hopen as [Hle|[t' ->]]; [by left|].
        unfold partition_ok. simpl in *. inversion Hxs; subst.
        destruct (decide (tensor_bytes t' <= max_partition_size)); [left; lia|].
        right. exists t'. split; [done|lia].
    + apply Z.ltb_ge in E.
      specialize (IH pre (xs ++ [t]) Hrest).
      destruct IH as [IHc IHf].
      { apply Forall_app. split; [done|constructor; [exact Ht|constructor]]. }
      { by destruct xs. }
      { left. rewrite total_bytes_app. simpl. lia. }
      rewrite total_bytes_app in IHc, IHf. cbn [total_bytes foldr] in IHc, IHf.
      rewrite Z.add_0_r in IHc, IHf.
      replace (length (pre ++ xs ++ [t])) with (S (length (pre ++ xs))) in IHc, IHf
        by (rewrite !length_app; simpl; lia).
      replace (pre ++ (xs ++ [t]) ++ rest) with (pre ++ xs ++ t :: rest) in IHc, IHf
        by (by rewrite <- !app_assoc).
      rewrite <- app_assoc in IHc. done.
Qed.

End PartitionFacts.

(** The boundaries start at 0 and increase, whatever the sizes and the
    ceiling are (wrapped or not). *)
Section PartitionShape.
Context {TensorSource : Type}.
Variable tensor_bytes : TensorSource -> Z.
Variable max_partition_size : Z.

(** Increasing boundaries, all in [[lo, hi)]. *)
Fixpoint increasing (lo hi : nat) (l : list nat) : Prop :=
  match l with
  | [] => True
  | b :: rest => (lo <= b < hi)%nat /\ increasing (S b) hi rest
  end.

Lemma increasing_weaken lo lo' hi hi' l :
  (lo' <= lo)%nat -> (hi <= hi')%nat -> increasing lo hi l -> increasing lo' hi' l.
Proof.
  revert lo lo'. induction l as [|b rest IH]; intros lo lo' Hlo Hhi; simpl; [done|].
  intros [Hb Hrest]. split; [lia|]. apply (IH (S b) (S b)); [lia|lia|done].
Qed.

Lemma increasing_app lo hi l b :
  increasing lo hi l -> (lo <= b < hi)%nat -> Forall (fun x => x < b)%nat l ->
  increasing lo hi (l ++ [b]).
Proof.
  revert lo. induction l as [|a rest IH]; intros lo Hl Hb Hlt; simpl.
  - done.
  - destruct Hl as [Ha Hrest]. inversion Hlt; subst.
    split; [done|]. apply IH; [done|lia|done].
Qed.

Lemma partition_loop_shape tensors : forall i cur parts,
  (parts = [] \/ exists rest, parts = 0%nat :: rest /\ increasing 1 i rest
                               /\ (i = 0%nat -> False)) ->
  let out := snd (partition_loop tensor_bytes max_partition_size tensors i (cur, parts)) in
  out = [] \/ exists rest, out = 0%nat :: rest
                           /\ increasing 1 (i + length tensors) rest.
Proof.
  induction tensors as [|t rest IH]; intros i cur parts Hparts;
    cbn [partition_loop length].
  - destruct Hparts as [->|(r & -> & Hr & _)]; [by left|].
    right. exists r. split; [done|]. by rewrite Nat.add_0_r.
  - replace (i + S (length rest))%nat with (S i + length rest)%nat by lia.
    unfold partition_step.
    destruct (uint64 max_partition_size <? uint64 (cur + tensor_bytes t)).
    + apply IH. right.
      destruct Hparts as [->|(r & -> & Hr & Hi)].
      * destruct i as [|i]; simpl.
        -- exists []. split; [done|]. split; [done|lia].
        -- exists [S i]. split; [done|]. simpl. split; [lia|lia].
      * simpl. exists (r ++ [i]). split; [done|]. split; [|lia].
        apply increasing_app.
        -- apply (increasing_weaken 1 1 i); [lia|lia|done].
        -- lia.
        -- clear -Hr. revert Hr. generalize 1%nat.
           induction r as [|a r IH]; intros lo; simpl; [done|].
           intros [Ha Hr]. constructor; [lia|]. by apply (IH (S a)).
    + apply IH. destruct Hparts as [->|(r & -> & Hr & Hi)]; [by left|].
      right. exists r. split; [done|]. split; [|lia].
      apply (increasing_weaken 1 1 i); [lia|lia|done].
Qed.

Lemma PartitionTransferToServer_shape tensors :
  exists rest,
    PartitionTransferToServer tensor_bytes max_partition_size tensors
      = 0%nat :: rest
    /\ increasing 1 (length tensors) rest.
Proof.
  unfold PartitionTransferToServer.
  destruct (partition_loop_shape tensors 0 0 []) as [E|(r & E & Hr)]; [by left| |].
  - rewrite E. simpl. by exists [].
  - rewrite E. simpl. by exists r.
Qed.

End PartitionShape.

(** Increasing boundaries cut a list into slices that concatenate to it. *)
Lemma slices_rec_concat {A} (l : list A) : forall b rest,
  (b <= length l)%nat -> increasing (S b) (length l) rest ->
  concat (slices_rec (length l) (b :: rest) l) = drop b l.
Proof.
  intros b rest. revert b. induction rest as [|b' rest IH]; intros b Hb Hinc.
  - simpl. rewrite app_nil_r. apply take_ge. rewrite length_drop. lia.
  - destruct Hinc as [Hb' Hrest].
    change (concat (slices_rec (length l) (b :: b' :: rest) l))
      with (take (b' - b) (drop b l) ++ concat (slices_rec (length l) (b' :: rest) l)).
    rewrite IH by (done || lia).
    rewrite <- (take_drop (b' - b) (drop b l)) at 2.
    rewrite drop_drop. do 2 f_equal. lia.
Qed.

(** C1: the partitions [PartitionTransferToServer] computes cover the
    tensors in order, and none has a summed byte size above the ceiling
    unless it is a single tensor whose size alone exceeds it; five tensors
    each at 40% of the ceiling are cut into partitions of 2, 2 and 1. *)
Theorem PartitionTransferToServer_respects_ceiling
    {TensorSource : Type} (tensor_bytes : TensorSource -> Z)
    (max_partition_size : Z) (tensors : list TensorSource) :
  0 <= max_partition_size < 2 ^ 63 ->
  Forall (fun t => 0 <= tensor_bytes t < 2 ^ 63) tensors ->
  let partitions :=
    PartitionTransferToServer tensor_bytes max_partition_size tensors in
  let parts := partition_slices partitions tensors in
  concat parts = tensors /\
  Forall (partition_ok tensor_bytes max_partition_size) parts /\
  (length tensors = 5%nat ->
   Forall (fun t => 5 * tensor_bytes t = 2 * max_partition_size) tensors ->
   0 < max_partition_size ->
   partitions = [0; 2; 4]%nat /\ length <$> parts = [2; 2; 1]%nat).
Proof.
  intros Hmax Hall partitions parts.
  assert (Hparts : parts = slices_rec (length tensors) partitions tensors).
  { unfold parts, partition_slices. apply partition_slices_rec. }
  assert (Hsplit := PartitionTransferToServer_splits tensor_bytes
                      max_partition_size Hmax tensors Hall).
  fold partitions in Hsplit.
  split; [|split].
  - destruct (PartitionTransferToServer_shape tensor_bytes max_partition_size
                tensors) as (rest & E & Hinc).
    fold partitions in E. rewrite Hparts, E.
    rewrite slices_rec_concat; [done|lia|done].
  - rewrite Hparts, Hsplit. destruct tensors as [|t rest].
    + simpl. repeat constructor. simpl. lia.
    + inversion Hall as [|? ? Ht Hrest]; subst.
      pose proof (splits_slices tensor_bytes max_partition_size Hmax rest [] [t]
                    Hrest) as H.
      destruct H as [_ H];
        [constructor; [exact Ht|constructor]|done|right; by eexists|].
      simpl in H. rewrite Z.add_0_r in H. exact H.
  - intros Hlen H40 Hpos.
    destruct tensors as [|t1 [|t2 [|t3 [|t4 [|t5 [|]]]]]]; try discriminate.
    assert (partitions = [0; 2; 4]%nat) as E.
    { rewrite Hsplit. simpl.
      repeat match goal with H : Forall _ (_ :: _) |- _ =>
        inversion H; clear H; subst end.
      repeat match goal with
      | |- context [?a <? ?b] => destruct (Z.ltb_spec a b); try lia
      end.
      done. }
    split; [done|]. rewrite Hparts, E. reflexivity.
Qed.

(** The instance of C1 on five 40-byte tensors under a ceiling of 100. *)
Lemma PartitionTransferToServer_respects_ceiling_witness :
  0 <= 100 < 2 ^ 63 /\
  Forall (fun t : Z => 0 <= t < 2 ^ 63) [40; 40; 40; 40; 40] /\
  let partitions := PartitionTransferToServer (fun t : Z => t) 100 [40; 40; 40; 40; 40] in
  let parts := partition_slices partitions [40; 40; 40; 40; 40] in
  concat parts = [40; 40; 40; 40; 40] /\
  Forall (partition_ok (fun t : Z => t) 100) parts /\
  (length [40; 40; 40; 40; 40] = 5%nat ->
   Forall (fun t => 5 * t = 2 * 100) [40; 40; 40; 40; 40] ->
   0 < 100 ->
   partitions = [0; 2; 4]%nat /\ length <$> parts = [2; 2; 1]%nat).
Proof.
  split; [lia|]. split; [repeat constructor; lia|].
  apply (PartitionTransferToServer_respects_ceiling (fun t : Z => t) 100
           [40; 40; 40; 40; 40]).
  - lia.
  - repeat constructor; lia.
Defined.

(** ** Device names *)

Lemma string_find_app c kind rest :
  string_find c kind = None ->
  string_find c (kind +:+ String c rest) = Some (String.length kind).
Proof.
  induction kind as [|a kind IH]; simpl.
  - intros _. by rewrite Ascii.eqb_refl.
  - destruct (Ascii.eqb a c); [done|].
    destruct (string_find c kind); [done|]. intros _. by rewrite IH.
Qed.

Lemma string_prefix_app kind rest :
  string_prefix (String.length kind) (kind +:+ rest) = kind.
Proof.
  induction kind as [|a kind IH]; simpl; [by destruct rest|by rewrite IH].
Qed.

(** [GetEffectiveDevice] leaves its own results unchanged. *)
Lemma GetEffectiveDevice_idempotent options_ device effective :
  GetEffectiveDevice options_ device = Ok effective ->
  GetEffectiveDevice options_ effective = Ok effective.
Proof.
  unfold GetEffectiveDevice. destruct device as [|c rest].
  - intros [= <-]. destruct (default_device options_) as [|c rest] eqn:E; [done|].
    destruct (Ascii.eqb c ":") eqn:Ec; [|done].
    apply Ascii.eqb_eq in Ec as ->. simpl. done.
  - destruct (Ascii.eqb c ":") eqn:Ec.
    + destruct (string_find ":" (default_device options_)) as [pos|] eqn:Ef; [|done].
      intros [= <-].
      destruct (string_prefix pos (default_device options_)) as [|a p] eqn:Ep.
      * simpl. by rewrite Ec.
      * simpl. destruct (Ascii.eqb a ":") eqn:Ea; [|done].
        exfalso. apply Ascii.eqb_eq in Ea as ->.
        destruct (default_device options_) as [|d ds]; [by destruct pos|].
        destruct pos as [|pos]; [done|]. simpl in Ep. injection Ep as -> _.
        simpl in Ef. done.
    + intros [= <-]. by rewrite Ec.
Qed.

(** X19: [GetEffectiveDevice] resolves the empty device string to the
    default device, an ordinal-only string (":n") to the default device's
    kind with that ordinal, and any other device string to itself. *)
Theorem GetEffectiveDevice_resolution (options_ : Options) :
  GetEffectiveDevice options_ "" = Ok (default_device options_) /\
  (forall kind default_ordinal ordinal : string,
     default_device options_ = kind +:+ ":" +:+ default_ordinal ->
     string_find ":" kind = None ->
     GetEffectiveDevice options_ (":" +:+ ordinal)
       = Ok (kind +:+ ":" +:+ ordinal)) /\
  (forall (c : ascii) (rest : string),
     c <> ":"%char ->
     GetEffectiveDevice options_ (String c rest) = Ok (String c rest)).
Proof.
  split; [done|]. split.
  - intros kind dord ord Hdef Hkind. unfold GetEffectiveDevice.
    rewrite Hdef.
    change (":" +:+ ord) with (String ":" ord).
    change (":" +:+ dord) with (String ":" dord).
    cbv iota. rewrite Ascii.eqb_refl.
    rewrite (string_find_app ":" kind dord Hkind), string_prefix_app. done.
  - intros c rest Hc. unfold GetEffectiveDevice.
    destruct (Ascii.eqb c ":") eqn:E; [|done].
    by apply Ascii.eqb_eq in E.
Qed.

(** X19 on the demo topology: ":1" resolves to "CPU:1". *)
Lemma GetEffectiveDevice_resolution_witness :
  default_device Demo.options_ = "CPU" +:+ ":" +:+ "0" /\
  string_find ":" "CPU" = None /\
  GetEffectiveDevice Demo.options_ (":" +:+ "1") = Ok ("CPU" +:+ ":" +:+ "1").
Proof.
  split; [reflexivity|]. split; [reflexivity|].
  apply (proj1 (proj2 (GetEffectiveDevice_resolution Demo.options_))
           "CPU" "0" "1"); reflexivity.
Defined.

(** ** Running stateful code *)

(** [m], started in [w], returns [a] and leaves the world [w']. *)
Definition returns {A} (m : M A) (w : World) (a : A) (w' : World) : Prop :=
  m w = (Ok a, w').

Lemma returns_ret {A} (a : A) w : returns (ret a) w a w.
Proof. done. Qed.

Lemma returns_lift {A} (r : outcome A) a w : r = Ok a -> returns (lift r) w a w.
Proof. by intros ->. Qed.

Lemma returns_bind {A B} (m : M A) (k : A -> M B) w a w1 b w2 :
  returns m w a w1 -> returns (k a) w1 b w2 -> returns (bind m k) w b w2.
Proof. unfold returns, bind. by intros ->. Qed.

Lemma returns_emit e w : returns (emit e) w tt (set_trace (trace w ++ [e]) w).
Proof. done. Qed.

Lemma returns_get_world w : returns get_world w w w.
Proof. done. Qed.

Lemma returns_vector_get {A} (v : list A) i a w :
  v !! i = Some a -> returns (vector_get v i) w a w.
Proof. unfold returns, vector_get. by intros ->. Qed.

Lemma returns_vector_set {A} (v : list A) i a w :
  (i < length v)%nat -> returns (vector_set v i a) w (<[i := a]> v) w.
Proof.
  intros H. unfold returns, vector_set. by rewrite bool_decide_eq_true_2.
Qed.

Lemma returns_XLA_CHECK cond what w :
  cond = true -> returns (XLA_CHECK cond what) w tt w.
Proof. by intros ->. Qed.

Lemma returns_inj {A} (m : M A) w a1 w1 a2 w2 :
  returns m w a1 w1 -> returns m w a2 w2 -> a1 = a2 /\ w1 = w2.
Proof. unfold returns. intros H1 H2. rewrite H1 in H2. by injection H2. Qed.

(** The loop rule: an invariant indexed by the number of iterations done. *)
Lemma for_each_returns {A St} (body : A -> St -> M St)
    (Inv : nat -> St -> World -> Prop) (l : list A) s w :
  Inv 0%nat s w ->
  (forall k a s w, l !! k = Some a -> Inv k s w ->
     exists s' w', returns (body a s) w s' w' /\ Inv (S k) s' w') ->
  exists s' w', returns (for_each body l s) w s' w' /\ Inv (length l) s' w'.
Proof.
  revert Inv s w. induction l as [|a l IH]; intros Inv s w H0 Hstep.
  - exists s, w. by split.
  - destruct (Hstep 0%nat a s w eq_refl H0) as (s1 & w1 & Hbody & H1).
    destruct (IH (fun k => Inv (S k)) s1 w1 H1) as (s2 & w2 & Hrest & H2).
    { intros k b s' w' Hk. by apply (Hstep (S k)). }
    exists s2, w2. split; [|done].
    simpl. by eapply returns_bind.
Qed.

Lemma for_each_emit {A} (e : Event) (l : list A) w :
  returns (for_each (fun _ _ => emit e) l tt) w tt
    (set_trace (trace w ++ replicate (length l) e) w).
Proof.
  revert w. induction l as [|a l IH]; intros w.
  - unfold returns. simpl. unfold ret. rewrite app_nil_r. by destruct w.
  - simpl. eapply returns_bind; [apply returns_emit|].
    specialize (IH (set_trace (trace w ++ [e]) w)).
    simpl in IH. by rewrite <- app_assoc in IH.
Qed.

(** ** Result slots written by index *)

(** [results] has [n] slots; the slots at the indices [written] hold their
    final value [g i], and no slot holds anything else. *)
Definition filled {A} (n : nat) (g : nat -> A) (written : list nat)
    (results : list (option A)) : Prop :=
  length results = n /\
  (forall j, j ∈ written -> (j < n)%nat -> results !! j = Some (Some (g j))) /\
  (forall j v, results !! j = Some (Some v) -> v = g j).

Lemma filled_start {A} n (g : nat -> A) : filled n g [] (replicate n None).
Proof.
  split; [apply length_replicate|]. split.
  - intros j Hj. by apply elem_of_nil in Hj.
  - intros j v Hj. apply lookup_replicate in Hj as [[=] _].
Qed.

Lemma filled_set {A} n (g : nat -> A) written results j :
  filled n g written results -> (j < n)%nat ->
  filled n g (written ++ [j]) (<[j := Some (g j)]> results).
Proof.
  intros (Hlen & Hw & Hv) Hj. split; [by rewrite length_insert|]. split.
  - intros i Hi Hin. destruct (decide (i = j)) as [->|Hne].
    + apply list_lookup_insert_eq. lia.
    + rewrite list_lookup_insert_ne by done. apply Hw; [|done].
      apply elem_of_app in Hi as [Hi|Hi]; [done|].
      apply list_elem_of_singleton in Hi. done.
  - intros i v Hi. destruct (decide (i = j)) as [->|Hne].
    + rewrite list_lookup_insert_eq in Hi by lia. congruence.
    + rewrite list_lookup_insert_ne in Hi by done. by apply Hv.
Qed.

Lemma filled_all {A} n (g : nat -> A) written results :
  filled n g written results ->
  (forall j, (j < n)%nat -> j ∈ written) ->
  results = (fun j => Some (g j)) <$> seq 0 n.
Proof.
  intros (Hlen & Hw & _) Hall. apply list_eq. intros j.
  rewrite list_lookup_fmap.
  destruct (decide (j < n)%nat) as [Hj|Hj].
  - rewrite Hw by auto. by rewrite lookup_seq_lt.
  - rewrite lookup_ge_None_2 by lia.
    by rewrite lookup_seq_ge by lia.
Qed.

Lemma filled_perm {A} n (g : nat -> A) written written' results :
  written ≡ₚ written' -> filled n g written results -> filled n g written' results.
Proof.
  intros Hp (Hlen & Hw & Hv). split; [done|]. split; [|done].
  intros j Hj. apply Hw. by rewrite Hp.
Qed.

Lemma fmap_seq_lookup {A B} (l : list A) (f : A -> B) (d : A) :
  (fun j => f (default d (l !! j))) <$> seq 0 (length l) = f <$> l.
Proof.
  apply list_eq. intros j. rewrite !list_lookup_fmap.
  destruct (l !! j) as [a|] eqn:E.
  - rewrite lookup_seq_lt by (by eapply lookup_lt_Some). simpl. by rewrite E.
  - apply lookup_ge_None in E. by rewrite lookup_seq_ge.
Qed.

Lemma run_order_nil {A} sched at_step :
  run_order sched at_step ([] : list A) = [].
Proof. apply Permutation_nil_r. apply run_order_perm. Qed.

Lemma run_order_nil_seq sched at_step n :
  n = 0%nat -> run_order sched at_step (seq 0 n) = [].
Proof. intros ->. apply run_order_nil. Qed.

Lemma run_order_singleton {A} sched at_step (a : A) :
  run_order sched at_step [a] = [a].
Proof. apply Permutation_singleton_r. apply run_order_perm. Qed.

(** ** Transfers to the server *)

Section TransferToServerFacts.
Variables (env : Environment) (options_ : Options) (sched : Schedule).
Variables (device_name xrt_device target : string) (worker : Worker).
Hypothesis Hxrt : SwiftDeviceToXrtDevice options_ device_name = Ok xrt_device.
Hypothesis Hworker :
  GetWorkerForXrtDevice env options_ xrt_device = Ok (worker, target).
Hypothesis Hrun : forall s nodes, session_run_ok env s nodes = true.

(** The node allocating tensor [t] on the device. *)
Definition allocate_node (t : TensorSource) : FedNode :=
  XRTAllocateFromTensor xrt_device (shape t) (populate_fn t).

(** The handle the service answers the allocation of [t] with. *)
Definition allocated_handle (t : TensorSource) : Z :=
  match session_fetch env target (allocate_node t) with
  | ScalarInt64 h => h
  | _ => 0
  end.

(** The device data standing for tensor [t]. *)
Definition transferred (t : TensorSource) : XrtData :=
  {| data_device := device_name; data_shape := shape t;
     data_handle := allocated_handle t |}.

(** A tensor of an array type the service allocates a handle for. *)
Definition transferable (t : TensorSource) : Prop :=
  (exists ty dims, shape t = ArrayShape ty dims /\ ty <> PRIMITIVE_TYPE_INVALID)
  /\ exists h, session_fetch env target (allocate_node t) = ScalarInt64 h.

Lemma effective_device_resolves :
  exists effective,
    GetEffectiveDevice options_ device_name = Ok effective /\
    SwiftDeviceToXrtDevice options_ effective = Ok xrt_device.
Proof.
  unfold SwiftDeviceToXrtDevice in *.
  destruct (GetEffectiveDevice options_ device_name) as [e|] eqn:E; [|done].
  exists e. split; [done|].
  by rewrite (GetEffectiveDevice_idempotent _ _ _ E).
Qed.

Lemma returns_XlaTypeToDataType t w :
  transferable t -> exists ty, returns (XlaTypeToDataType (shape t)) w ty w.
Proof.
  intros [(ty & dims & -> & Hty) _]. exists ty. by destruct ty.
Qed.

Lemma returns_GetSessionForXrtDevice_new w :
  returns (GetSessionForXrtDevice env options_ xrt_device ∅) w
    ((target, sessions_created w), {[target := (target, sessions_created w)]})
    (set_sessions_created (S (sessions_created w)) w).
Proof.
  unfold GetSessionForXrtDevice.
  eapply returns_bind; [by apply returns_lift|].
  unfold GetSessionForTarget, GetSession, returns. simpl.
  rewrite lookup_empty. by rewrite insert_empty.
Qed.

Lemma returns_GetSessionForXrtDevice_old session w :
  returns (GetSessionForXrtDevice env options_ xrt_device {[target := session]}) w
    (session, {[target := session]}) w.
Proof.
  unfold GetSessionForXrtDevice.
  eapply returns_bind; [by apply returns_lift|].
  unfold GetSessionForTarget, GetSession, returns. simpl.
  by rewrite lookup_singleton_eq.
Qed.

Variable tensors : list TensorSource.
Hypothesis Htensors : Forall transferable tensors.

Definition node_at (i : nat) : FedNode :=
  default (XRTReadLiteral "" 0) (allocate_node <$> tensors !! i).

(** What the converters have built once those of [done] have run, the
    session counter being [c] at the start. *)
Definition converted (c : nat) (done : list nat)
    : SessionMap * gmap XrtSession SessionWork :=
  match done with
  | [] => (∅, ∅)
  | _ => ({[target := (target, c)]},
          {[(target, c) := {| fed_nodes := node_at <$> done;
                              index_mapping := done |}]})
  end.

Definition converted_world (w : World) (done : list nat) : World :=
  match done with
  | [] => w
  | _ => set_sessions_created (S (sessions_created w)) w
  end.

Lemma converter_returns effective done i t w :
  SwiftDeviceToXrtDevice options_ effective = Ok xrt_device ->
  tensors !! i = Some t ->
  forall total, exists total',
    returns (converter env options_ effective tensors i
               (converted (sessions_created w) done, total))
      (converted_world w done)
      (converted (sessions_created w) (done ++ [i]), total')
      (converted_world w (done ++ [i])).
Proof.
  intros Heff Hi total.
  assert (Ht : transferable t).
  { rewrite Forall_lookup in Htensors. by eapply Htensors. }
  destruct (returns_XlaTypeToDataType t (converted_world w done) Ht) as [ty Hty].
  exists (total + ByteSizeOfElements env (shape t)).
  unfold converter.
  destruct done as [|d done]; cbn [converted converted_world app].
  - eapply returns_bind; [by apply returns_lift|].
    eapply returns_bind; [by apply returns_vector_get|].
    eapply returns_bind; [exact Hty|].
    eapply returns_bind; [apply returns_GetSessionForXrtDevice_new|].
    unfold returns, ret, add_work. rewrite lookup_empty. simpl.
    rewrite insert_empty. unfold node_at. by rewrite Hi.
  - eapply returns_bind; [by apply returns_lift|].
    eapply returns_bind; [by apply returns_vector_get|].
    eapply returns_bind; [exact Hty|].
    eapply returns_bind; [apply returns_GetSessionForXrtDevice_old|].
    unfold returns, ret, add_work. rewrite lookup_singleton_eq. simpl.
    rewrite insert_singleton_eq. rewrite fmap_app. simpl.
    assert (node_at i = allocate_node t) as -> by (unfold node_at; by rewrite Hi).
    done.
Qed.

Lemma converters_return effective order w :
  SwiftDeviceToXrtDevice options_ effective = Ok xrt_device ->
  Forall (fun i => i < length tensors)%nat order ->
  exists total,
    returns (for_each (converter env options_ effective tensors) order (∅, ∅, 0)) w
      (converted (sessions_created w) order, total)
      (converted_world w order).
Proof.
  intros Heff Horder.
  destruct (for_each_returns (converter env options_ effective tensors)
    (fun k st w' => exists total,
       st = (converted (sessions_created w) (take k order), total) /\
       w' = converted_world w (take k order))
    order (∅, ∅, 0) w) as (st & w' & Hret & total & -> & ->).
  - exists 0. by rewrite take_0.
  - intros k i st w' Hk (total & -> & ->).
    assert (Hi : (i < length tensors)%nat).
    { rewrite Forall_lookup in Horder. by eapply Horder. }
    apply lookup_lt_is_Some in Hi as [t Ht].
    destruct (converter_returns effective (take k order) i t w Heff Ht total)
      as [total' Hc].
    rewrite (take_S_r _ _ _ Hk).
    eexists _, _. split; [exact Hc|]. by exists total'.
  - rewrite take_ge in Hret by done. by exists total.
Qed.


Definition tensor_at (j : nat) : TensorSource :=
  default {| shape := default_Shape; populate_fn := [] |} (tensors !! j).

Lemma runner_returns c order results w :
  Forall (fun i => i < length tensors)%nat order ->
  filled (length tensors) (fun j => transferred (tensor_at j)) [] results ->
  exists results',
    returns (runner env device_name tensors
               ((target, c), {| fed_nodes := node_at <$> order;
                                index_mapping := order |}) results) w
      results'
      (set_trace (trace w ++ [SessionRun (target, c) (node_at <$> order);
                              Counter "CreateDataHandles" (Z.of_nat (length order))]) w)
    /\ filled (length tensors) (fun j => transferred (tensor_at j)) order results'.
Proof.
  intros Horder Hfilled. unfold runner. cbn [fed_nodes index_mapping].
  set (w1 := set_trace (trace w ++ [SessionRun (target, c) (node_at <$> order)]) w).
  set (outs := session_fetch env target <$> (node_at <$> order)).
  destruct (for_each_returns
    (fun i results =>
       do li <- vector_get order i;
       do output <- vector_get outs i;
       do t <- vector_get tensors li;
       do handle <- lift (scalar_int64 output);
       vector_set results li
         (Some {| data_device := device_name; data_shape := shape t;
                  data_handle := handle |}))
    (fun k results w' =>
       w' = w1 /\
       filled (length tensors) (fun j => transferred (tensor_at j))
         (take k order) results)
    (seq 0 (length outs)) results w1) as (results' & w' & Hret & -> & Hfin).
  - by rewrite take_0.
  - intros k i results1 w' Hk [-> Hf].
    apply lookup_seq in Hk as [-> Hk]. simpl.
    unfold outs in Hk. rewrite !length_fmap in Hk.
    apply lookup_lt_is_Some in Hk as [li Hli].
    assert (Hlt : (li < length tensors)%nat).
    { rewrite Forall_lookup in Horder. by eapply Horder. }
    destruct (lookup_lt_is_Some_2 _ _ Hlt) as [t Ht].
    assert (Htr : transferable t).
    { rewrite Forall_lookup in Htensors. by eapply Htensors. }
    destruct Htr as [_ [h Hh]].
    exists (<[li := Some (transferred (tensor_at li))]> results1), w1.
    split.
    + eapply returns_bind; [by apply returns_vector_get|].
      eapply returns_bind.
      { apply returns_vector_get. unfold outs.
        rewrite !list_lookup_fmap, Hli. simpl. reflexivity. }
      eapply returns_bind; [by apply returns_vector_get|].
      assert (node_at li = allocate_node t) as ->
        by (unfold node_at; by rewrite Ht).
      rewrite Hh. eapply returns_bind; [by apply returns_lift|].
      assert (transferred (tensor_at li)
              = {| data_device := device_name; data_shape := shape t;
                   data_handle := h |}) as ->.
      { unfold transferred, tensor_at, allocated_handle. rewrite Ht. simpl.
        by rewrite Hh. }
      apply returns_vector_set. destruct Hf as [-> _]. done.
    + split; [done|]. rewrite (take_S_r _ _ _ Hli).
      by apply (filled_set _ (fun j => transferred (tensor_at j))).
  - exists results'. split.
    + eapply returns_bind.
      { unfold Run. eapply returns_bind; [apply returns_emit|].
        apply returns_ret. }
      rewrite Hrun. cbn [fst].
      eapply returns_bind; [apply returns_ret|].
      eapply returns_bind; [exact Hret|].
      eapply returns_bind; [apply returns_emit|].
      unfold returns, ret, w1. simpl. rewrite <- app_assoc. simpl.
      unfold outs. by rewrite !length_fmap.
    + unfold outs in Hfin. rewrite length_seq, !length_fmap, take_ge in Hfin by done.
      done.
Qed.

(** [TransferToServerInternal] returns, for every order the converters
    run in, the device data of its tensors in their order, after one run
    on the device's session (none for no tensor). *)
Lemma TransferToServerInternal_returns w :
  exists w' total nodes,
    returns (TransferToServerInternal env options_ sched device_name tensors) w
      ((fun t => Some (transferred t)) <$> tensors) w'
    /\ nodes ≡ₚ allocate_node <$> tensors
    /\ trace w' =
       trace w ++ replicate (length tensors) (ScheduleClosure "converter")
         ++ [Counter "OutboundData" total]
         ++ match tensors with
            | [] => []
            | _ => [ScheduleIoClosure "runner";
                    SessionRun (target, sessions_created w) nodes;
                    Counter "CreateDataHandles" (Z.of_nat (length tensors))]
            end.
Proof.
  destruct effective_device_resolves as (effective & Heff & Hswift).
  unfold TransferToServerInternal.
  set (n := length tensors).
  set (w1 := set_trace (trace w ++ replicate n (ScheduleClosure "converter")) w).
  set (order := run_order sched (length (trace w1)) (seq 0 n)).
  assert (Horder_eq : run_order sched (length (trace w1)) (seq 0 n) = order)
    by done.
  assert (Hperm : order ≡ₚ seq 0 n) by apply run_order_perm.
  assert (Horder : Forall (fun i => i < n)%nat order).
  { rewrite Hperm. apply Forall_forall. intros i Hi.
    apply elem_of_seq in Hi. lia. }
  destruct (converters_return effective order w1 Hswift Horder) as [total Hconv].
  change (sessions_created w1) with (sessions_created w) in Hconv.
  set (g := fun j => transferred (tensor_at j)).
  assert (Hresult : (fun j => Some (g j)) <$> seq 0 n
                    = (fun t => Some (transferred t)) <$> tensors).
  { unfold g, tensor_at, n.
    apply (fmap_seq_lookup tensors (fun t => Some (transferred t))). }
  assert (Hnodes : node_at <$> order ≡ₚ allocate_node <$> tensors).
  { rewrite Hperm. unfold n.
    rewrite <- (fmap_seq_lookup tensors allocate_node
                  {| shape := default_Shape; populate_fn := [] |}).
    assert (node_at <$> seq 0 (length tensors)
            = (fun j => allocate_node
                 (default {| shape := default_Shape; populate_fn := [] |}
                    (tensors !! j))) <$> seq 0 (length tensors)) as ->; [|done].
    apply list_fmap_ext. intros i j Hj. unfold node_at.
    apply lookup_seq in Hj as [-> Hj]. simpl in *.
    by destruct (lookup_lt_is_Some_2 _ _ Hj) as [t ->]. }
  assert (Hcases : (tensors = [] /\ order = []) \/ (tensors <> [] /\ order <> [])).
  { destruct tensors as [|t ts] eqn:Et.
    - left. split; [done|]. apply Permutation_nil_r. by rewrite Hperm.
    - right. split; [done|]. intros E. rewrite E in Hperm.
      by apply Permutation_nil_l in Hperm. }
  clearbody order.
  destruct Hcases as [[Htens ->]|[Htens Hne]].
  - (* no tensor *)
    exists (set_trace (trace w1 ++ [Counter "OutboundData" total]) w1), total, [].
    split; [|split].
    + eapply returns_bind; [by apply returns_lift|].
      eapply returns_bind; [apply for_each_emit|].
      rewrite length_seq. fold n w1.
      eapply returns_bind; [apply returns_get_world|].
      rewrite (run_order_nil_seq sched (length (trace w1)) n)
        by (unfold n; by rewrite Htens).
      eapply returns_bind; [exact Hconv|]. cbn [converted converted_world].
      eapply returns_bind; [apply returns_emit|].
      rewrite map_to_list_empty. cbn [for_each].
      eapply returns_bind; [apply returns_ret|].
      eapply returns_bind; [apply returns_get_world|].
      rewrite run_order_nil. unfold n. rewrite Htens. apply returns_ret.
    + by rewrite Htens.
    + unfold w1, n. rewrite Htens. simpl. by rewrite app_nil_r.
  - assert (Hc : converted (sessions_created w) order
                 = ({[target := (target, sessions_created w)]},
                    {[(target, sessions_created w)
                      := {| fed_nodes := node_at <$> order;
                            index_mapping := order |}]}))
      by (by destruct order).
    assert (Hw : converted_world w1 order
                 = set_sessions_created (S (sessions_created w1)) w1)
      by (by destruct order).
    rewrite Hc, Hw in Hconv.
    set (w2 := set_sessions_created (S (sessions_created w1)) w1) in *.
    set (w3 := set_trace (trace w2 ++ [Counter "OutboundData" total]) w2).
    set (w4 := set_trace (trace w3 ++ [ScheduleIoClosure "runner"]) w3).
    destruct (runner_returns (sessions_created w) order (replicate n None) w4
                Horder (filled_start n g)) as (results & Hrun' & Hfilled).
    assert (results = (fun t => Some (transferred t)) <$> tensors) as ->.
    { rewrite <- Hresult. apply (filled_all n g order); [done|].
      intros j Hj. rewrite Hperm. apply elem_of_seq. lia. }
    eexists _, total, (node_at <$> order). split; [|split; [done|]].
    + eapply returns_bind; [by apply returns_lift|].
      eapply returns_bind; [apply for_each_emit|].
      rewrite length_seq. fold n w1.
      eapply returns_bind; [apply returns_get_world|].
      rewrite Horder_eq.
      eapply returns_bind; [exact Hconv|].
      eapply returns_bind; [apply returns_emit|]. fold w3.
      rewrite map_to_list_singleton.
      eapply returns_bind.
      { simpl. eapply returns_bind; [apply returns_emit|]. apply returns_ret. }
      fold w4.
      eapply returns_bind; [apply returns_get_world|].
      rewrite run_order_singleton.
      cbn [for_each]. eapply returns_bind; [exact Hrun'|]. apply returns_ret.
    + cbn [trace set_trace]. unfold w4, w3, w2, w1.
      cbn [trace set_trace set_sessions_created].
      assert (length order = n) as ->.
      { by rewrite Hperm, length_seq. }
      destruct tensors as [|t ts] eqn:Et; [done|].
      rewrite <- !app_assoc. done.
Qed.

End TransferToServerFacts.

(** The events a call appended to the trace. *)
Definition new_events (w w' : World) : list Event :=
  drop (length (trace w)) (trace w').

Lemma new_events_app w w' evs :
  trace w' = trace w ++ evs -> new_events w w' = evs.
Proof. intros E. unfold new_events. by rewrite E, drop_app_length. Qed.

Lemma rpcs_app t1 t2 : rpcs (t1 ++ t2) = rpcs t1 ++ rpcs t2.
Proof. apply filter_app. Qed.

Lemma rpcs_replicate_closure n name : rpcs (replicate n (ScheduleClosure name)) = [].
Proof. induction n as [|n IH]; [done|]. simpl. unfold rpcs in *. by rewrite filter_cons_False. Qed.

(** C8: when the partitioning yields a single partition, [TransferToServer]
    is the direct transfer: no partition worker is scheduled, and the
    tensors, which all target the session of the one device, go out in one
    RPC round trip (none at all for an empty batch). *)
Theorem TransferToServer_fast_path
    (env : Environment) (options_ : Options) (sched : Schedule)
    (device_name xrt_device target : string) (worker : Worker)
    (tensors : list TensorSource) (w : World) :
  SwiftDeviceToXrtDevice options_ device_name = Ok xrt_device ->
  GetWorkerForXrtDevice env options_ xrt_device = Ok (worker, target) ->
  (forall s nodes, session_run_ok env s nodes = true) ->
  Forall (transferable env xrt_device target) tensors ->
  length (PartitionTransferToServer (fun t => ByteSizeOfElements env (shape t))
            (GetMaxTensorsPartitionSize env) tensors) = 1%nat ->
  TransferToServer env options_ sched device_name tensors w
    = TransferToServerInternal env options_ sched device_name tensors w /\
  exists w',
    returns (TransferToServer env options_ sched device_name tensors) w
      ((fun t => Some (transferred env device_name xrt_device target t))
         <$> tensors) w' /\
    (ScheduleIoClosure "sender" ∉ new_events w w') /\
    (Counter "XrtPartitionedTransferToServer" 1 ∉ new_events w w') /\
    (length (rpcs (new_events w w')) <= 1)%nat /\
    (tensors <> [] ->
     exists nodes,
       rpcs (new_events w w') = [SessionRun (target, sessions_created w) nodes]
       /\ nodes ≡ₚ allocate_node xrt_device <$> tensors).
Proof.
  intros Hxrt Hworker Hrun Htensors Hone.
  assert (Hfast : TransferToServer env options_ sched device_name tensors w
    = TransferToServerInternal env options_ sched device_name tensors w).
  { unfold TransferToServer. by rewrite bool_decide_eq_true_2. }
  split; [done|].
  destruct (TransferToServerInternal_returns env options_ sched device_name
              xrt_device target worker Hxrt Hworker Hrun tensors Htensors w)
    as (w' & total & nodes & Hret & Hnodes & Htrace).
  exists w'. split; [unfold returns; by rewrite Hfast|].
  rewrite (new_events_app _ _ _ Htrace).
  assert (Hconv : forall e, e ∈ replicate (length tensors) (ScheduleClosure "converter")
                    -> e = ScheduleClosure "converter").
  { intros e He. by apply elem_of_replicate in He as [-> _]. }
  split; [|split; [|split]].
  - intros Hin. apply elem_of_app in Hin as [Hin|Hin]; [by apply Hconv in Hin|].
    apply elem_of_cons in Hin as [[=]|Hin].
    destruct tensors; [by apply elem_of_nil in Hin|].
    repeat (apply elem_of_cons in Hin as [[=]|Hin]). by apply elem_of_nil in Hin.
  - intros Hin. apply elem_of_app in Hin as [Hin|Hin]; [by apply Hconv in Hin|].
    apply elem_of_cons in Hin as [[=]|Hin].
    destruct tensors; [by apply elem_of_nil in Hin|].
    repeat (apply elem_of_cons in Hin as [[=]|Hin]). by apply elem_of_nil in Hin.
  - rewrite rpcs_app, rpcs_replicate_closure. destruct tensors; simpl; lia.
  - intros Hne. exists nodes. split; [|done].
    rewrite rpcs_app, rpcs_replicate_closure. by destruct tensors.
Qed.

(** C8 on the demo topology: three small tensors sent to "CPU:0". *)
Lemma TransferToServer_fast_path_witness :
  SwiftDeviceToXrtDevice Demo.options_ "CPU:0" = Ok Demo.cpu0_path /\
  GetWorkerForXrtDevice Demo.env Demo.options_ Demo.cpu0_path
    = Ok (("localservice", 0), "grpc://localhost:8470") /\
  (forall s nodes, session_run_ok Demo.env s nodes = true) /\
  Forall (transferable Demo.env Demo.cpu0_path "grpc://localhost:8470")
    Demo.three_tensors /\
  length (PartitionTransferToServer
            (fun t => ByteSizeOfElements Demo.env (shape t))
            (GetMaxTensorsPartitionSize Demo.env) Demo.three_tensors) = 1%nat /\
  TransferToServer Demo.env Demo.options_ Demo.lifo "CPU:0"
    Demo.three_tensors Demo.start
  = TransferToServerInternal Demo.env Demo.options_ Demo.lifo "CPU:0"
      Demo.three_tensors Demo.start.
Proof.
  assert (H1 : SwiftDeviceToXrtDevice Demo.options_ "CPU:0" = Ok Demo.cpu0_path)
    by (vm_compute; reflexivity).
  assert (H2 : GetWorkerForXrtDevice Demo.env Demo.options_ Demo.cpu0_path
               = Ok (("localservice", 0), "grpc://localhost:8470"))
    by (vm_compute; reflexivity).
  assert (H3 : forall s nodes, session_run_ok Demo.env s nodes = true)
    by (intros; reflexivity).
  assert (H4 : Forall (transferable Demo.env Demo.cpu0_path "grpc://localhost:8470")
                 Demo.three_tensors).
  { repeat constructor; (eexists _, _; split; [reflexivity|discriminate])
                        || (eexists; reflexivity). }
  assert (H5 : length (PartitionTransferToServer
                 (fun t => ByteSizeOfElements Demo.env (shape t))
                 (GetMaxTensorsPartitionSize Demo.env) Demo.three_tensors) = 1%nat)
    by (vm_compute; reflexivity).
  repeat (split; [assumption|]).
  exact (proj1 (TransferToServer_fast_path Demo.env Demo.options_ Demo.lifo
                  "CPU:0" Demo.cpu0_path "grpc://localhost:8470"
                  ("localservice", 0) Demo.three_tensors Demo.start
                  H1 H2 H3 H4 H5)).
Defined.

(** ** The spans of increasing boundaries *)

Lemma partition_span_cons b rest n p :
  rest <> [] ->
  partition_span (b :: rest) n (S p) = partition_span rest n p.
Proof.
  intros Hne. unfold partition_span. cbn [length].
  replace (S p + 1)%nat with (S (p + 1)) by lia.
  cbn [lookup_total list_lookup_total].
  destruct (bool_decide (p + 1 < length rest)%nat) eqn:E.
  - apply bool_decide_eq_true in E. by rewrite bool_decide_eq_true_2 by lia.
  - apply bool_decide_eq_false in E. by rewrite bool_decide_eq_false_2 by lia.
Qed.

Lemma span_in_range rest : forall b n p,
  (b <= n)%nat -> increasing (S b) n rest -> (p < length (b :: rest))%nat ->
  (fst (partition_span (b :: rest) n p)
   + snd (partition_span (b :: rest) n p) <= n)%nat.
Proof.
  induction rest as [|b' rest IH]; intros b n p Hb Hinc Hp.
  - simpl in Hp. assert (p = 0%nat) as -> by lia.
    unfold partition_span. simpl. lia.
  - destruct Hinc as [Hb' Hrest]. destruct p as [|p].
    + unfold partition_span. simpl. lia.
    + rewrite partition_span_cons by done.
      apply IH; [lia|done|]. simpl in *. lia.
Qed.

Lemma span_cover rest : forall b n j,
  increasing (S b) n rest -> (b <= j < n)%nat ->
  exists p r,
    (p < length (b :: rest))%nat /\
    (r < snd (partition_span (b :: rest) n p))%nat /\
    j = (fst (partition_span (b :: rest) n p) + r)%nat.
Proof.
  induction rest as [|b' rest IH]; intros b n j Hinc Hj.
  - exists 0%nat, (j - b)%nat. unfold partition_span. simpl.
    split; [lia|]. split; lia.
  - destruct Hinc as [Hb' Hrest].
    destruct (decide (j < b')%nat) as [Hlt|Hge].
    + exists 0%nat, (j - b)%nat. unfold partition_span. simpl.
      split; [lia|]. split; lia.
    + destruct (IH b' n j Hrest) as (p & r & Hp & Hr & ->); [lia|].
      exists (S p), r. rewrite partition_span_cons by done.
      split; [simpl in *; lia|]. by split.
Qed.

Lemma elem_of_concat {A} (x : A) (ls : list (list A)) :
  x ∈ concat ls <-> exists l, x ∈ l /\ l ∈ ls.
Proof.
  rewrite list_elem_of_In, in_concat. split.
  - intros (l & Hl & Hx). exists l. by rewrite !list_elem_of_In.
  - intros (l & Hx & Hl). exists l. by rewrite <- !list_elem_of_In.
Qed.

(** ** Partitioned transfers keep the order *)

Section TransferToServerOrder.
Variables (env : Environment) (options_ : Options) (sched : Schedule).
Variables (device_name xrt_device target : string) (worker : Worker).
Hypothesis Hxrt : SwiftDeviceToXrtDevice options_ device_name = Ok xrt_device.
Hypothesis Hworker :
  GetWorkerForXrtDevice env options_ xrt_device = Ok (worker, target).
Hypothesis Hrun : forall s nodes, session_run_ok env s nodes = true.
Variable tensors : list TensorSource.
Hypothesis Htensors : Forall (transferable env xrt_device target) tensors.
Variables (b0 : nat) (bounds : list nat).
Hypothesis Hb0 : (b0 <= length tensors)%nat.
Hypothesis Hbounds : increasing (S b0) (length tensors) bounds.

Local Abbreviation g :=
  (fun j => transferred env device_name xrt_device target
              (default {| shape := default_Shape; populate_fn := [] |}
                 (tensors !! j))).
Local Abbreviation n := (length tensors).
Local Abbreviation span_of := (partition_span (b0 :: bounds) (length tensors)).

Definition span_indices (span : nat * nat) : list nat :=
  (fun r => fst span + r)%nat <$> seq 0 (snd span).

Lemma sender_returns p written results w :
  (p < length (b0 :: bounds))%nat ->
  filled n g written results ->
  exists results' w',
    returns (sender env options_ sched device_name tensors (b0 :: bounds) p
               results) w results' w'
    /\ filled n g (written ++ span_indices (span_of p)) results'.
Proof.
  intros Hp Hfilled. unfold sender.
  pose proof (span_in_range bounds b0 n p Hb0 Hbounds Hp) as Hrange.
  set (span := span_of p) in *.
  set (sub := subspan tensors span).
  assert (Hsub : Forall (transferable env xrt_device target) sub).
  { unfold sub, subspan. apply Forall_take, Forall_drop, Htensors. }
  destruct (TransferToServerInternal_returns env options_ sched device_name
              xrt_device target worker Hxrt Hworker Hrun sub Hsub w)
    as (w1 & total & nodes & Hret & _ & _).
  set (presults := (fun t => Some (transferred env device_name xrt_device target t))
                     <$> sub) in *.
  assert (Hlen : length sub = snd span).
  { unfold sub, subspan. rewrite length_take, length_drop. lia. }
  destruct (for_each_returns
    (fun r results => do d <- vector_get presults r;
                      vector_set results (fst span + r) d)
    (fun k results w' =>
       w' = w1 /\
       filled n g (written ++ ((fun r => fst span + r)%nat <$> seq 0 k)) results)
    (seq 0 (snd span)) results w1) as (results' & w' & Hloop & -> & Hfin).
  - split; [done|]. simpl. by rewrite app_nil_r.
  - intros k r results1 w' Hk [-> Hf].
    apply lookup_seq in Hk as [-> Hk]. change (0 + k)%nat with k in *.
    assert (Hlookup : tensors !! (fst span + k)%nat = sub !! k).
    { unfold sub, subspan. rewrite lookup_take_lt by done.
      by rewrite lookup_drop. }
    destruct (lookup_lt_is_Some_2 sub k) as [t Ht]; [lia|].
    exists (<[(fst span + k)%nat := Some (g (fst span + k)%nat)]> results1), w1.
    split.
    + eapply returns_bind.
      { apply returns_vector_get. unfold presults.
        rewrite list_lookup_fmap, Ht. reflexivity. }
      rewrite Hlookup, Ht. cbn [default].
      apply returns_vector_set. destruct Hf as [-> _]. lia.
    + split; [done|]. rewrite seq_S, fmap_app, app_assoc.
      apply (filled_set n g); [done|lia].
  - exists results', w1. split.
    + eapply returns_bind; [exact Hret|]. exact Hloop.
    + by rewrite length_seq in Hfin.
Qed.

Lemma senders_return order results w :
  Forall (fun p => p < length (b0 :: bounds))%nat order ->
  filled n g [] results ->
  exists results' w',
    returns (for_each (sender env options_ sched device_name tensors
                         (b0 :: bounds)) order results) w results' w'
    /\ filled n g (concat (span_indices <$> (span_of <$> order))) results'.
Proof.
  intros Horder Hfilled.
  destruct (for_each_returns
    (sender env options_ sched device_name tensors (b0 :: bounds))
    (fun k results w' =>
       filled n g (concat (span_indices <$> (span_of <$> take k order))) results)
    order results w) as (results' & w' & Hret & Hfin).
  - by rewrite take_0.
  - intros k p results1 w1 Hk Hf.
    assert (Hp : (p < length (b0 :: bounds))%nat).
    { rewrite Forall_lookup in Horder. by eapply Horder. }
    destruct (sender_returns p _ results1 w1 Hp Hf) as (results2 & w2 & Hs & Hf2).
    exists results2, w2. split; [done|].
    rewrite (take_S_r _ _ _ Hk), !fmap_app, concat_app. simpl.
    by rewrite app_nil_r.
  - exists results', w'. split; [done|]. by rewrite take_ge in Hfin.
Qed.

End TransferToServerOrder.

(** [TransferToServer] returns the device data of its tensors in their
    order, whatever the partitioning and the order the closures run in. *)
Lemma TransferToServer_returns
    (env : Environment) (options_ : Options) (sched : Schedule)
    (device_name xrt_device target : string) (worker : Worker)
    (tensors : list TensorSource) (w : World) :
  SwiftDeviceToXrtDevice options_ device_name = Ok xrt_device ->
  GetWorkerForXrtDevice env options_ xrt_device = Ok (worker, target) ->
  (forall s nodes, session_run_ok env s nodes = true) ->
  Forall (transferable env xrt_device target) tensors ->
  exists w',
    returns (TransferToServer env options_ sched device_name tensors) w
      ((fun t => Some (transferred env device_name xrt_device target t))
         <$> tensors) w'.
Proof.
  intros Hxrt Hworker Hrun Htensors. unfold TransferToServer.
  destruct (PartitionTransferToServer_shape
              (fun t => ByteSizeOfElements env (shape t))
              (GetMaxTensorsPartitionSize env) tensors) as (bounds & -> & Hinc).
  case_bool_decide as Hone.
  - destruct (TransferToServerInternal_returns env options_ sched device_name
                xrt_device target worker Hxrt Hworker Hrun tensors Htensors w)
      as (w' & _ & _ & Hret & _). by exists w'.
  - set (P := 0%nat :: bounds) in *.
    set (w1 := set_trace (trace w ++ [Counter "XrtPartitionedTransferToServer" 1]) w).
    set (w2 := set_trace (trace w1 ++ replicate (length P) (ScheduleIoClosure "sender")) w1).
    set (order := run_order sched (length (trace w2)) (seq 0 (length P))).
    assert (Hperm : order ≡ₚ seq 0 (length P)) by apply run_order_perm.
    assert (Horder : Forall (fun p => p < length P)%nat order).
    { rewrite Hperm. apply Forall_forall. intros i Hi.
      apply elem_of_seq in Hi. lia. }
    set (g := fun j => transferred env device_name xrt_device target
              (default {| shape := default_Shape; populate_fn := [] |}
                 (tensors !! j))).
    destruct (senders_return env options_ sched device_name xrt_device target
                worker Hxrt Hworker Hrun tensors Htensors 0%nat bounds
                ltac:(lia) Hinc order (replicate (length tensors) None) w2
                Horder (filled_start _ g))
      as (results & w' & Hret & Hfilled).
    assert (results = (fun t => Some (transferred env device_name xrt_device
                                        target t)) <$> tensors) as ->.
    { rewrite <- (fmap_seq_lookup tensors
                    (fun t => Some (transferred env device_name xrt_device target t))
                    {| shape := default_Shape; populate_fn := [] |}).
      apply (filled_all _ g _ _ Hfilled).
      intros j Hj.
      destruct (span_cover bounds 0%nat (length tensors) j Hinc)
        as (p & r & Hp & Hr & Hjeq); [lia|].
      apply elem_of_concat.
      exists (span_indices (partition_span P (length tensors) p)). split.
      - unfold span_indices. apply list_elem_of_fmap. exists r.
        split; [done|]. apply elem_of_seq. split; [lia|exact Hr].
      - apply list_elem_of_fmap. eexists. split; [done|].
        apply list_elem_of_fmap. exists p. split; [done|].
        rewrite Hperm. apply elem_of_seq. split; [lia|exact Hp]. }
    exists w'.
    eapply returns_bind; [apply returns_emit|]. fold w1.
    eapply returns_bind; [apply for_each_emit|].
    rewrite length_seq. fold w2.
    eapply returns_bind; [apply returns_get_world|].
    exact Hret.
Qed.

(** ** Work grouped by session *)

Lemma concat_Permutation {A} (ls ls' : list (list A)) :
  ls ≡ₚ ls' -> concat ls ≡ₚ concat ls'.
Proof.
  induction 1 as [|l ls ls' _ IH|l1 l2 ls|ls1 ls2 ls3 _ IH1 _ IH2]; simpl.
  - done.
  - by rewrite IH.
  - rewrite !app_assoc. f_equiv. apply Permutation_app_comm.
  - by rewrite IH1.
Qed.

(** The indices held by a map from sessions to work, [idx] giving the
    indices of one entry. *)
Definition held_indices {V} (idx : V -> list nat) (m : gmap XrtSession V)
    : list nat :=
  concat ((fun entry => idx (snd entry)) <$> map_to_list m).

Lemma held_indices_empty {V} (idx : V -> list nat) : held_indices idx ∅ = [].
Proof. unfold held_indices. by rewrite map_to_list_empty. Qed.

(** Appending index [i] to the entry of [s] adds [i] to the indices held. *)
Lemma held_indices_insert {V} (idx : V -> list nat) (m : gmap XrtSession V)
    (s : XrtSession) (v' : V) (i : nat) :
  idx v' = match m !! s with Some v => idx v | None => [] end ++ [i] ->
  held_indices idx (<[s := v']> m) ≡ₚ held_indices idx m ++ [i].
Proof.
  intros Hidx. unfold held_indices. destruct (m !! s) as [v|] eqn:E.
  - rewrite <- (insert_delete_eq m).
    rewrite map_to_list_insert by apply lookup_delete_eq.
    rewrite <- (map_to_list_delete m s v E). simpl.
    rewrite Hidx, <- !app_assoc. f_equiv. apply Permutation_app_comm.
  - rewrite map_to_list_insert by done. simpl. rewrite Hidx. simpl.
    apply Permutation_cons_append.
Qed.

Lemma held_indices_run_order {V} (idx : V -> list nat) (m : gmap XrtSession V)
    sched at_step :
  concat ((fun entry => idx (snd entry))
            <$> run_order sched at_step (map_to_list m))
  ≡ₚ held_indices idx m.
Proof.
  unfold held_indices. apply concat_Permutation. f_equiv. apply run_order_perm.
Qed.

(** ** Transfers from the server *)

(** The XRT device and the RPC target a device name resolves to. *)
Definition resolve_target (env : Environment) (options_ : Options)
    (device : string) : outcome (string * string) :=
  outcome_bind (SwiftDeviceToXrtDevice options_ device) (fun xrt_device =>
  outcome_bind (GetWorkerForXrtDevice env options_ xrt_device) (fun worker =>
  Ok (xrt_device, snd worker))).

(** A session map holds, under a target, a session to that target. *)
Definition well_keyed (session_map : SessionMap) : Prop :=
  forall target session, session_map !! target = Some session ->
    fst session = target.

Lemma well_keyed_empty : well_keyed ∅.
Proof. intros t s H. by rewrite lookup_empty in H. Qed.

Lemma GetSessionForDevice_returns env options_ device xrt_device target
    session_map w :
  resolve_target env options_ device = Ok (xrt_device, target) ->
  well_keyed session_map ->
  exists session session_map' w',
    returns (GetSessionForDevice env options_ device session_map) w
      (session, session_map') w'
    /\ fst session = target /\ well_keyed session_map'
    /\ session_map' !! target = Some session
    /\ (forall t, t <> target -> session_map' !! t = session_map !! t)
    /\ (forall s0, session_map !! target = Some s0 -> s0 = session)
    /\ trace w' = trace w /\ rng_seed_ w' = rng_seed_ w
    /\ pending released_data_handles w' = pending released_data_handles w
    /\ pending released_compile_handles w' = pending released_compile_handles w.
Proof.
  unfold resolve_target. intros Hres Hkeyed.
  destruct (SwiftDeviceToXrtDevice options_ device) as [xrt|] eqn:Hx; [|done].
  simpl in Hres.
  destruct (GetWorkerForXrtDevice env options_ xrt) as [[wk tg]|] eqn:Hw; [|done].
  simpl in Hres. injection Hres as -> ->.
  unfold GetSessionForDevice, GetSessionForXrtDevice, GetSessionForTarget, GetSession.
  destruct (session_map !! target) as [s|] eqn:E.
  - exists s, session_map, w. split.
    + eapply returns_bind; [by apply returns_lift|].
      eapply returns_bind; [by apply returns_lift|].
      simpl. rewrite E. apply returns_ret.
    + split; [by apply Hkeyed|]. repeat split; try done. by intros s0 [= ->].
  - exists (target, sessions_created w), (<[target := (target, sessions_created w)]> session_map),
      (set_sessions_created (S (sessions_created w)) w). split.
    + eapply returns_bind; [by apply returns_lift|].
      eapply returns_bind; [by apply returns_lift|].
      simpl. rewrite E. done.
    + split; [done|]. split; [|split; [|split; [|done]]].
      * intros t s Hts. destruct (decide (t = target)) as [->|Hne].
        -- rewrite lookup_insert_eq in Hts. by injection Hts as <-.
        -- rewrite lookup_insert_ne in Hts by done. by apply Hkeyed.
      * apply lookup_insert_eq.
      * intros t Ht. by apply lookup_insert_ne.
Qed.

Section TransferFromServerFacts.
Variables (env : Environment) (options_ : Options) (sched : Schedule).
Hypothesis Hrun : forall s nodes, session_run_ok env s nodes = true.

(** The node reading a handle back. *)
Definition read_node (d : XrtData) : FedNode :=
  match resolve_target env options_ (data_device d) with
  | Ok (xrt_device, _) => XRTReadLiteral xrt_device (data_handle d)
  | Failed _ => XRTReadLiteral "" (data_handle d)
  end.

Definition read_target (d : XrtData) : string :=
  match resolve_target env options_ (data_device d) with
  | Ok (_, target) => target
  | Failed _ => ""
  end.

(** The literal the service answers the read of a handle with. *)
Definition read_back (d : XrtData) : Literal :=
  match session_fetch env (read_target d) (read_node d) with
  | ScalarString l => l
  | _ => {| literal_bytes := [] |}
  end.

(** A handle on a device that resolves, which the service can read. *)
Definition readable (d : XrtData) : Prop :=
  is_Ok (resolve_target env options_ (data_device d)) = true /\
  exists l, session_fetch env (read_target d) (read_node d) = ScalarString l.

Variable handles : list XrtData.
Hypothesis Hhandles : Forall readable handles.

Definition handle_at (j : nat) : XrtData :=
  default {| data_device := ""; data_shape := default_Shape; data_handle := 0 |}
    (handles !! j).

(** Every entry of the work map feeds, position by position, the read
    of the handle its index mapping names, on a session to its target. *)
Definition read_work_ok (m : gmap XrtSession SessionWork) : Prop :=
  forall s work, m !! s = Some work ->
    length (fed_nodes work) = length (index_mapping work) /\
    forall pos li, index_mapping work !! pos = Some li ->
      (li < length handles)%nat /\
      fed_nodes work !! pos = Some (read_node (handle_at li)) /\
      fst s = read_target (handle_at li).

Lemma read_work_ok_add m s i :
  read_work_ok m -> (i < length handles)%nat ->
  fst s = read_target (handle_at i) ->
  read_work_ok (add_work s (read_node (handle_at i)) i m).
Proof.
  intros Hok Hi Hs s' work'. unfold add_work.
  destruct (decide (s' = s)) as [->|Hne].
  - rewrite lookup_insert_eq. intros [= <-]. cbn [fed_nodes index_mapping].
    destruct (m !! s) as [work|] eqn:E; cbn [default from_option Datatypes.id].
    + destruct (Hok s work E) as [Hlen Hpos]. split.
      * rewrite !length_app, Hlen. done.
      * intros pos li Hli.
        destruct (decide (pos < length (index_mapping work))%nat) as [Hlt|Hge].
        -- rewrite lookup_app_l in Hli by done.
           destruct (Hpos pos li Hli) as (? & ? & ?).
           rewrite lookup_app_l by lia. done.
        -- rewrite lookup_app_r in Hli by lia.
           apply list_lookup_singleton_Some in Hli as [Hp <-].
           rewrite lookup_app_r by lia.
           replace (pos - length (fed_nodes work))%nat with 0%nat by lia. done.
    + split; [done|]. intros pos li Hli. simpl in Hli.
      apply list_lookup_singleton_Some in Hli as [-> <-]. done.
  - rewrite lookup_insert_ne by done. apply Hok.
Qed.

Lemma read_request_returns k st w :
  (k < length handles)%nat ->
  (exists maps back, st.1.1 = maps ++ [back] /\ well_keyed back) ->
  read_work_ok st.2 ->
  held_indices index_mapping st.2 ≡ₚ seq 0 k ->
  exists st' w',
    returns (read_request env options_ handles k st) w st' w'
    /\ (exists maps back, st'.1.1 = maps ++ [back] /\ well_keyed back)
    /\ read_work_ok st'.2
    /\ held_indices index_mapping st'.2 ≡ₚ seq 0 (S k)
    /\ trace w' = trace w.
Proof.
  intros Hk (maps & back & Hmaps & Hkeyed) Hok Hheld.
  destruct st as [[session_maps current_size] session_work_map].
  simpl in Hmaps, Hok, Hheld. subst session_maps.
  destruct (lookup_lt_is_Some_2 _ _ Hk) as [d Hd].
  assert (Hread : readable d).
  { rewrite Forall_lookup in Hhandles. by eapply Hhandles. }
  destruct Hread as [Hres _].
  destruct (resolve_target env options_ (data_device d)) as [[xrt tg]|] eqn:Er;
    [|done].
  assert (Hat : handle_at k = d) by (unfold handle_at; by rewrite Hd).
  assert (Hnode : read_node (handle_at k) = XRTReadLiteral xrt (data_handle d)).
  { rewrite Hat. unfold read_node. by rewrite Er. }
  assert (Htg : read_target (handle_at k) = tg).
  { rewrite Hat. unfold read_target. by rewrite Er. }
  assert (Hx : SwiftDeviceToXrtDevice options_ (data_device d) = Ok xrt).
  { unfold resolve_target in Er.
    destruct (SwiftDeviceToXrtDevice options_ (data_device d)); [|done].
    simpl in Er. destruct (GetWorkerForXrtDevice env options_ a); [|done].
    simpl in Er. by injection Er as -> _. }
  unfold read_request.
  set (shape_size := ByteSizeOfElements env (data_shape d)).
  set (fresh := GetMaxTensorsPartitionSize env <=? current_size + shape_size).
  set (maps' := if fresh then (maps ++ [back]) ++ [∅] else maps ++ [back]).
  set (back' := if fresh then (∅ : SessionMap) else back).
  assert (Hlast : last maps' = Some back').
  { unfold maps', back'. destruct fresh; apply last_snoc. }
  assert (Hkeyed' : well_keyed back').
  { unfold back'. destruct fresh; [apply well_keyed_empty|done]. }
  destruct (GetSessionForDevice_returns env options_ (data_device d) xrt tg
              back' w Er Hkeyed')
    as (s & sm' & w' & Hget & Hs & Hsm' & _ & _ & _ & Htr & _).
  eexists (_, _, _), w'. split; [|split; [|split; [|split]]].
  - eapply returns_bind; [by apply returns_vector_get|].
    fold shape_size. fold fresh.
    assert ((if fresh then ((maps ++ [back]) ++ [∅], 0)
             else (maps ++ [back], current_size))
            = (maps', if fresh then 0 else current_size)) as ->.
    { unfold maps'. by destruct fresh. }
    rewrite Hlast. cbn [default from_option Datatypes.id].
    eapply returns_bind; [exact Hget|].
    eapply returns_bind; [by apply returns_lift|].
    apply returns_ret.
  - cbn [fst]. eexists _, sm'. by split.
  - cbn [snd]. rewrite <- Hnode. apply read_work_ok_add; [done|done|].
    by rewrite Htg.
  - cbn [snd]. rewrite seq_S. simpl. rewrite <- Hheld.
    apply held_indices_insert. cbn [index_mapping].
    by destruct (session_work_map !! s).
  - done.
Qed.


Lemma read_run_returns s work written results total w :
  length (fed_nodes work) = length (index_mapping work) ->
  (forall pos li, index_mapping work !! pos = Some li ->
     (li < length handles)%nat /\
     fed_nodes work !! pos = Some (read_node (handle_at li)) /\
     fst s = read_target (handle_at li)) ->
  filled (length handles) (fun j => read_back (handle_at j)) written results ->
  exists results' total' w',
    returns (read_run env (s, work) (results, total)) w (results', total') w'
    /\ filled (length handles) (fun j => read_back (handle_at j))
         (written ++ index_mapping work) results'.
Proof.
  intros Hlen Hpos Hfilled. unfold read_run.
  set (w1 := set_trace (trace w ++ [SessionRun s (fed_nodes work)]) w).
  set (outs := session_fetch env (fst s) <$> fed_nodes work).
  destruct (for_each_returns
    (fun i '(results, total_size) =>
       do li <- vector_get (index_mapping work) i;
       do output <- vector_get outs i;
       do literal <- lift (scalar_literal output);
       do results <- vector_set results li (Some literal);
       ret (results, total_size + Z.of_nat (length (literal_bytes literal))))
    (fun k st w' =>
       w' = w1 /\
       filled (length handles) (fun j => read_back (handle_at j))
         (written ++ take k (index_mapping work)) st.1)
    (seq 0 (length outs)) (results, total) w1)
    as ([results' total'] & w' & Hret & -> & Hfin).
  - split; [done|]. by rewrite take_0, app_nil_r.
  - intros k i [results1 total1] w' Hk [-> Hf].
    apply lookup_seq in Hk as [-> Hk]. change (0 + k)%nat with k.
    unfold outs in Hk. rewrite length_fmap, Hlen in Hk.
    destruct (lookup_lt_is_Some_2 _ _ Hk) as [li Hli].
    destruct (Hpos k li Hli) as (Hlt & Hnode & Hs).
    assert (Hread : readable (handle_at li)).
    { unfold handle_at. destruct (lookup_lt_is_Some_2 _ _ Hlt) as [d Hd].
      rewrite Hd. simpl. rewrite Forall_lookup in Hhandles.
      by eapply Hhandles. }
    destruct Hread as [_ [l Hl]].
    assert (Hback : read_back (handle_at li) = l).
    { unfold read_back. by rewrite Hl. }
    eexists (<[li := Some (read_back (handle_at li))]> results1, _), w1.
    split.
    + eapply returns_bind; [by apply returns_vector_get|].
      eapply returns_bind.
      { apply returns_vector_get. unfold outs.
        rewrite list_lookup_fmap, Hnode. simpl. reflexivity. }
      rewrite Hs, Hl.
      eapply returns_bind; [by apply returns_lift|].
      eapply returns_bind.
      { apply returns_vector_set. simpl in Hf. destruct Hf as [-> _]. done. }
      rewrite Hback. apply returns_ret.
    + split; [done|]. cbn [fst]. rewrite (take_S_r _ _ _ Hli), app_assoc.
      by apply (filled_set _ (fun j => read_back (handle_at j))).
  - exists results', total', w1. split.
    + eapply returns_bind.
      { unfold Run. eapply returns_bind; [apply returns_emit|]. apply returns_ret. }
      rewrite Hrun. eapply returns_bind; [apply returns_ret|]. exact Hret.
    + unfold outs in Hfin.
      rewrite length_seq, length_fmap, Hlen, take_ge in Hfin by done. done.
Qed.

(** [TransferFromServerImpl] returns one literal per handle, in the order
    of the handles, whatever order the sessions are gone through in. *)
Lemma TransferFromServerImpl_returns w :
  exists w',
    returns (TransferFromServerImpl env options_ sched handles) w
      ((fun d => Some (read_back d)) <$> handles) w'.
Proof.
  unfold TransferFromServerImpl.
  destruct (for_each_returns (read_request env options_ handles)
    (fun k st w' =>
       (exists maps back, st.1.1 = maps ++ [back] /\ well_keyed back) /\
       read_work_ok st.2 /\
       held_indices index_mapping st.2 ≡ₚ seq 0 k)
    (seq 0 (length handles)) ([∅], 0, ∅) w)
    as ([[maps current_size] swm] & w1 & Hreq & _ & Hok & Hheld).
  - split; [|split].
    + exists [], ∅. split; [done|apply well_keyed_empty].
    + intros s work H. simpl in H. by rewrite lookup_empty in H.
    + simpl. by rewrite held_indices_empty.
  - intros k i st w' Hk (Hmaps & Hok & Hheld).
    apply lookup_seq in Hk as [-> Hk]. change (0 + k)%nat with k.
    destruct (read_request_returns k st w' Hk Hmaps Hok Hheld)
      as (st' & w'' & Hret & Hmaps' & Hok' & Hheld' & _).
    by exists st', w''.
  - rewrite length_seq in Hheld. cbn [snd] in Hok, Hheld.
    set (entries := run_order sched (length (trace w1)) (map_to_list swm)).
    destruct (for_each_returns (read_run env)
      (fun k st w' =>
         filled (length handles) (fun j => read_back (handle_at j))
           (concat ((fun entry => index_mapping (snd entry)) <$> take k entries))
           st.1)
      entries (replicate (length handles) None, 0) w1)
      as ([results total] & w2 & Hloop & Hfin).
    + rewrite take_0. apply filled_start.
    + intros k [s work] [results1 total1] w' Hk Hf.
      assert (Hin : swm !! s = Some work).
      { apply elem_of_map_to_list.
        rewrite <- (run_order_perm sched _ (length (trace w1)) (map_to_list swm)).
        by eapply list_elem_of_lookup_2. }
      destruct (Hok s work Hin) as [Hlen Hpos].
      destruct (read_run_returns s work _ results1 total1 w' Hlen Hpos Hf)
        as (results2 & total2 & w'' & Hret & Hf2).
      exists (results2, total2), w''. split; [done|].
      rewrite (take_S_r _ _ _ Hk), fmap_app, concat_app. simpl.
      by rewrite app_nil_r.
    + rewrite take_ge in Hfin by done. cbn [fst] in Hfin.
      assert (results = (fun d => Some (read_back d)) <$> handles) as ->.
      { rewrite <- (fmap_seq_lookup handles (fun d => Some (read_back d))
                      {| data_device := ""; data_shape := default_Shape;
                         data_handle := 0 |}).
        apply (filled_all _ (fun j => read_back (handle_at j)) _ _ Hfin).
        intros j Hj. unfold entries.
        rewrite held_indices_run_order, Hheld. apply elem_of_seq. lia. }
      eexists.
      eapply returns_bind; [exact Hreq|].
      eapply returns_bind; [apply returns_get_world|].
      eapply returns_bind; [exact Hloop|].
      eapply returns_bind; [apply returns_emit|]. apply returns_ret.
Qed.

End TransferFromServerFacts.

(** C2: [TransferToServer] returns a list as long as its input whose
    i-th element is the device data (shape and handle) of the i-th tensor,
    for every partitioning and every order in which the partition and
    session closures run; [TransferFromServerImpl] likewise returns the
    literal of the i-th handle at index i, for every order in which the
    sessions are gone through. *)
Theorem transfers_preserve_order
    (env : Environment) (options_ : Options) (sched : Schedule)
    (device_name xrt_device target : string) (worker : Worker)
    (tensors : list TensorSource) (handles : list XrtData) (w : World) :
  (forall s nodes, session_run_ok env s nodes = true) ->
  SwiftDeviceToXrtDevice options_ device_name = Ok xrt_device ->
  GetWorkerForXrtDevice env options_ xrt_device = Ok (worker, target) ->
  Forall (transferable env xrt_device target) tensors ->
  Forall (readable env options_) handles ->
  (exists w',
     returns (TransferToServer env options_ sched device_name tensors) w
       ((fun t => Some (transferred env device_name xrt_device target t))
          <$> tensors) w') /\
  (exists w',
     returns (TransferFromServerImpl env options_ sched handles) w
       ((fun d => Some (read_back env options_ d)) <$> handles) w').
Proof.
  intros Hrun Hxrt Hworker Htensors Hhandles. split.
  - by eapply TransferToServer_returns.
  - by apply TransferFromServerImpl_returns.
Qed.

(** C2 on the demo topology: six tensors in three partitions run in
    reverse order, and four handles on two workers. *)
Lemma transfers_preserve_order_witness :
  (forall s nodes, session_run_ok Demo.env s nodes = true) /\
  SwiftDeviceToXrtDevice Demo.options_ "CPU:0" = Ok Demo.cpu0_path /\
  GetWorkerForXrtDevice Demo.env Demo.options_ Demo.cpu0_path
    = Ok (("localservice", 0), "grpc://localhost:8470") /\
  Forall (transferable Demo.env Demo.cpu0_path "grpc://localhost:8470")
    Demo.six_tensors /\
  Forall (readable Demo.env Demo.options_) Demo.four_handles /\
  (exists w',
     returns (TransferToServer Demo.env Demo.options_ Demo.lifo "CPU:0"
                Demo.six_tensors) Demo.start
       ((fun t => Some (transferred Demo.env "CPU:0" Demo.cpu0_path
                          "grpc://localhost:8470" t)) <$> Demo.six_tensors) w') /\
  (exists w',
     returns (TransferFromServerImpl Demo.env Demo.options_ Demo.lifo
                Demo.four_handles) Demo.start
       ((fun d => Some (read_back Demo.env Demo.options_ d))
          <$> Demo.four_handles) w').
Proof.
  assert (H1 : forall s nodes, session_run_ok Demo.env s nodes = true)
    by (intros; reflexivity).
  assert (H2 : SwiftDeviceToXrtDevice Demo.options_ "CPU:0" = Ok Demo.cpu0_path)
    by (vm_compute; reflexivity).
  assert (H3 : GetWorkerForXrtDevice Demo.env Demo.options_ Demo.cpu0_path
               = Ok (("localservice", 0), "grpc://localhost:8470"))
    by (vm_compute; reflexivity).
  assert (H4 : Forall (transferable Demo.env Demo.cpu0_path "grpc://localhost:8470")
                 Demo.six_tensors).
  { repeat constructor; (eexists _, _; split; [reflexivity|discriminate])
                        || (eexists; reflexivity). }
  assert (H5 : Forall (readable Demo.env Demo.options_) Demo.four_handles).
  { repeat constructor; (vm_compute; reflexivity) || (eexists; vm_compute; reflexivity). }
  repeat (split; [assumption|]).
  exact (transfers_preserve_order Demo.env Demo.options_ Demo.lifo "CPU:0"
           Demo.cpu0_path "grpc://localhost:8470" ("localservice", 0)
           Demo.six_tensors Demo.four_handles Demo.start H1 H2 H3 H4 H5).
Defined.

(** ** Handle release *)

(** The handles a release node carries, for the kind of the list drained. *)
Definition released_by (which : PendingList) (node : FedNode) : list Z :=
  match which, node with
  | released_data_handles, XRTReleaseAllocationHandle _ handles => handles
  | released_compile_handles, XRTReleaseCompilationHandle _ handles => handles
  | _, _ => []
  end.

(** Whether an event is a release RPC to [target] carrying [handle]. *)
Definition releases (which : PendingList) (target : string) (handle : Z)
    (e : Event) : bool :=
  match e with
  | SessionRun s nodes =>
      bool_decide (fst s = target)
      && existsb (fun node => bool_decide (handle ∈ released_by which node)) nodes
  | _ => false
  end.

Lemma filter_unique {A} (P : A -> Prop) `{!forall x, Decision (P x)}
    (l : list A) (x : A) :
  NoDup l -> x ∈ l -> P x -> (forall y, y ∈ l -> P y -> y = x) ->
  filter P l = [x].
Proof.
  intros Hnd Hx HP Huniq. induction l as [|a l IH]; [by apply elem_of_nil in Hx|].
  apply NoDup_cons in Hnd as [Ha Hnd].
  assert (Hnone : forall l', (forall y, y ∈ l' -> P y -> y = x) -> x ∉ l' ->
                    filter P l' = []).
  { intros l' Hl' Hnot. induction l' as [|b l' IH']; [done|].
    rewrite filter_cons_False.
    - apply IH'.
      + intros y Hy. apply Hl'. by right.
      + intros Hin. apply Hnot. by right.
    - intros Hb. apply Hnot. rewrite <- (Hl' b); [left|left|done]. }
  apply elem_of_cons in Hx as [<-|Hx].
  - rewrite filter_cons_True by done. f_equal. apply Hnone; [|done].
    intros y Hy. apply Huniq. by right.
  - rewrite filter_cons_False.
    + apply IH; [done|done|]. intros y Hy. apply Huniq. by right.
    + intros HPa. apply Ha. rewrite (Huniq a); [done|left|done].
Qed.

Section ReleaseFacts.
Variables (env : Environment) (options_ : Options) (sched : Schedule).
Variable which : PendingList.
Hypothesis Hrun : forall s nodes, session_run_ok env s nodes = true.

Definition release_target (h : DeviceHandle) : string :=
  match resolve_target env options_ (dh_device h) with
  | Ok (_, target) => target
  | Failed _ => ""
  end.

Definition release_device (h : DeviceHandle) : string :=
  match resolve_target env options_ (dh_device h) with
  | Ok (xrt_device, _) => xrt_device
  | Failed _ => ""
  end.

(** A pending handle whose device resolves to a worker. *)
Definition releasable (h : DeviceHandle) : Prop :=
  is_Ok (resolve_target env options_ (dh_device h)) = true.

(** The run releasing the handles grouped under one session. *)
Definition release_event (entry : XrtSession * list DeviceHandle) : Event :=
  SessionRun (fst entry)
    [release_node which
       (release_device (default {| dh_device := ""; dh_handle := 0 |}
                          (head (snd entry))))
       (dh_handle <$> snd entry)].

(** The groups: every session of the map is the session of its target,
    and holds a non-empty list of handles of that target. *)
Definition groups_ok (session_map : SessionMap)
    (m : gmap XrtSession (list DeviceHandle)) : Prop :=
  forall s hs, m !! s = Some hs ->
    session_map !! fst s = Some s /\ hs <> [] /\
    forall h, h ∈ hs -> release_target h = fst s /\ releasable h.

Lemma release_group_returns h session_map m done w :
  releasable h -> well_keyed session_map -> groups_ok session_map m ->
  (forall h', h' ∈ done -> exists s hs, m !! s = Some hs /\ h' ∈ hs) ->
  exists session_map' m' w',
    returns (release_group env options_ h (session_map, m)) w
      (session_map', m') w'
    /\ well_keyed session_map' /\ groups_ok session_map' m'
    /\ (forall h', h' ∈ done ++ [h] -> exists s hs, m' !! s = Some hs /\ h' ∈ hs)
    /\ trace w' = trace w
    /\ pending which w' = pending which w.
Proof.
  intros Hrel Hkeyed Hok Hcover. unfold releasable in Hrel.
  destruct (resolve_target env options_ (dh_device h)) as [[xrt tg]|] eqn:Er;
    [|done].
  destruct (GetSessionForDevice_returns env options_ (dh_device h) xrt tg
              session_map w Er Hkeyed)
    as (s & sm' & w' & Hget & Hs & Hkeyed' & Hsm & Hother & Hsame & Htr & _ & Hp1 & Hp2).
  assert (Htarget : release_target h = tg) by (unfold release_target; by rewrite Er).
  exists sm', (<[s := default [] (m !! s) ++ [h]]> m), w'.
  split; [|split; [done|split; [|split; [|split; [done|by destruct which]]]]].
  - unfold release_group. eapply returns_bind; [exact Hget|]. apply returns_ret.
  - intros s' hs'. destruct (decide (s' = s)) as [->|Hne].
    + rewrite lookup_insert_eq. intros [= <-]. split; [by rewrite Hs|].
      split; [by destruct (default [] (m !! s))|].
      intros h' Hh'. apply elem_of_app in Hh' as [Hh'|Hh'].
      * destruct (m !! s) as [hs|] eqn:E; [|by apply elem_of_nil in Hh'].
        by apply (Hok s hs E).
      * apply list_elem_of_singleton in Hh' as ->.
        split; [by rewrite Hs|]. unfold releasable. by rewrite Er.
    + rewrite lookup_insert_ne by done. intros Hs'.
      destruct (Hok s' hs' Hs') as (Hsm' & Hne' & Hall).
      split; [|done].
      destruct (decide (fst s' = tg)) as [Heq|Hneq].
      * rewrite Heq in Hsm'. by rewrite (Hsame s' Hsm') in Hne.
      * by rewrite Hother.
  - intros h' Hh'. apply elem_of_app in Hh' as [Hh'|Hh'].
    + destruct (Hcover h' Hh') as (s' & hs' & Hs' & Hin).
      destruct (decide (s' = s)) as [->|Hne].
      * exists s, (hs' ++ [h]). rewrite lookup_insert_eq, Hs'. simpl.
        split; [done|]. apply elem_of_app. by left.
      * exists s', hs'. by rewrite lookup_insert_ne.
    + apply list_elem_of_singleton in Hh' as ->.
      eexists s, _. rewrite lookup_insert_eq. split; [done|].
      apply elem_of_app. right. by left.
Qed.

Lemma release_run_returns s hs w :
  hs <> [] -> (forall h, h ∈ hs -> releasable h) ->
  returns (release_run env options_ which (s, hs) tt) w tt
    (set_trace (trace w ++ [release_event (s, hs)]) w).
Proof.
  intros Hne Hall. destruct hs as [|front hs]; [done|].
  assert (Hfront : releasable front) by (apply Hall; left).
  unfold releasable in Hfront. unfold release_run.
  eapply returns_bind; [by apply returns_vector_get|].
  unfold release_event, release_device. cbn [head default snd fst from_option Datatypes.id].
  unfold resolve_target in *.
  destruct (SwiftDeviceToXrtDevice options_ (dh_device front)) as [xrt|] eqn:Ex;
    [|done].
  simpl in Hfront |- *.
  destruct (GetWorkerForXrtDevice env options_ xrt) as [[wk tg]|]; [|done].
  eapply returns_bind; [by apply returns_lift|].
  eapply returns_bind.
  { unfold Run. eapply returns_bind; [apply returns_emit|]. apply returns_ret. }
  rewrite Hrun. eapply returns_bind; [apply returns_ret|]. apply returns_ret.
Qed.


Lemma set_pending_trace l w : trace (set_pending which l w) = trace w.
Proof. by destruct which. Qed.

Lemma pending_set_pending l w : pending which (set_pending which l w) = l.
Proof. by destruct which. Qed.

(** A drain pass over a non-empty pending list: the list is left empty,
    and the pass issues one run per session of the groups, then counts
    the handles destroyed. *)
Lemma ReleaseHandles_returns w :
  pending which w <> [] ->
  Forall releasable (pending which w) ->
  exists w' session_map m at_step,
    returns (ReleaseHandles env options_ sched which) w tt w'
    /\ pending which w' = []
    /\ groups_ok session_map m
    /\ (forall h, h ∈ pending which w -> exists s hs, m !! s = Some hs /\ h ∈ hs)
    /\ new_events w w'
       = (release_event <$> run_order sched at_step (map_to_list m))
         ++ [Counter (destroy_counter which)
               (Z.of_nat (length (pending which w)))].
Proof.
  intros Hne Hall. unfold ReleaseHandles.
  set (released := pending which w) in *.
  set (w0 := set_pending which [] w).
  destruct (for_each_returns (release_group env options_)
    (fun k st w' =>
       well_keyed st.1 /\ groups_ok st.1 st.2 /\
       (forall h, h ∈ take k released -> exists s hs, st.2 !! s = Some hs /\ h ∈ hs) /\
       trace w' = trace w /\ pending which w' = [])
    released (∅, ∅) w0)
    as ([session_map m] & w1 & Hgroup & Hkeyed & Hok & Hcover & Htr1 & Hp1).
  - split; [apply well_keyed_empty|]. split; [|split; [|split]].
    + intros s hs H. simpl in H. by rewrite lookup_empty in H.
    + intros h Hh. rewrite take_0 in Hh. by apply elem_of_nil in Hh.
    + apply set_pending_trace.
    + apply pending_set_pending.
  - intros k h [sm m'] w' Hk (Hkeyed & Hok & Hcover & Htr & Hp).
    assert (Hrel : releasable h).
    { rewrite Forall_lookup in Hall. by eapply Hall. }
    destruct (release_group_returns h sm m' (take k released) w' Hrel Hkeyed Hok
                Hcover)
      as (sm2 & m2 & w2 & Hret & Hkeyed2 & Hok2 & Hcover2 & Htr2 & Hp2).
    exists (sm2, m2), w2. split; [done|].
    rewrite (take_S_r _ _ _ Hk). cbn [fst snd].
    split; [done|]. split; [done|]. split; [done|]. split; congruence.
  - rewrite take_ge in Hcover by done. cbn [fst snd] in *.
    set (entries := run_order sched (length (trace w1)) (map_to_list m)).
    destruct (for_each_returns (release_run env options_ which)
      (fun k (_ : unit) w' =>
         trace w' = trace w ++ (release_event <$> take k entries) /\
         pending which w' = [])
      entries tt w1) as ([] & w2 & Hloop & Htr2 & Hp2).
    + rewrite take_0. simpl. by rewrite app_nil_r.
    + intros k [s hs] [] w' Hk [Htr Hp].
      assert (Hin : m !! s = Some hs).
      { apply elem_of_map_to_list.
        rewrite <- (run_order_perm sched _ (length (trace w1)) (map_to_list m)).
        by eapply list_elem_of_lookup_2. }
      destruct (Hok s hs Hin) as (_ & Hnonempty & Hhs).
      exists tt, (set_trace (trace w' ++ [release_event (s, hs)]) w').
      split; [apply release_run_returns; [done|]; intros h Hh; by apply Hhs|].
      rewrite (take_S_r _ _ _ Hk), fmap_app. simpl.
      split; [by rewrite Htr, <- app_assoc|]. by destruct which.
    + rewrite take_ge in Htr2 by done.
      eexists _, session_map, m, (length (trace w1)).
      split; [|split; [|split; [done|split; [done|]]]].
      * eapply returns_bind; [apply returns_get_world|].
        eapply returns_bind; [reflexivity|]. fold released w0.
        rewrite bool_decide_eq_false_2 by done.
        eapply returns_bind; [exact Hgroup|].
        eapply returns_bind; [apply returns_get_world|].
        eapply returns_bind; [exact Hloop|].
        apply returns_emit.
      * by destruct which.
      * apply new_events_app. simpl. rewrite Htr2. by rewrite <- app_assoc.
Qed.

Lemma released_by_release_node xrt_device handles :
  released_by which (release_node which xrt_device handles) = handles.
Proof. by destruct which. Qed.

Lemma filter_fmap_length {A B} (f : A -> B) (P : B -> Prop)
    `{!forall x, Decision (P x)} (l : list A) :
  length (filter P (f <$> l)) = length (filter (fun a => P (f a)) l).
Proof.
  induction l as [|a l IH]; [done|]. rewrite fmap_cons.
  rewrite !filter_cons. destruct (decide (P (f a))); simpl; by rewrite IH.
Qed.

(** After a drain pass, every handle that was pending is carried by
    exactly one of the release RPCs the pass issued. *)
Lemma ReleaseHandles_once w h :
  Forall releasable (pending which w) -> h ∈ pending which w ->
  exists w',
    returns (ReleaseHandles env options_ sched which) w tt w'
    /\ pending which w' = []
    /\ length (filter (fun e => releases which (release_target h)
                                  (dh_handle h) e = true)
                 (new_events w w')) = 1%nat.
Proof.
  intros Hall Hh.
  assert (Hne : pending which w <> []).
  { intros E. rewrite E in Hh. by apply elem_of_nil in Hh. }
  destruct (ReleaseHandles_returns w Hne Hall)
    as (w' & session_map & m & at_step & Hret & Hp & Hok & Hcover & Hnew).
  exists w'. split; [done|]. split; [done|].
  rewrite Hnew, filter_app, length_app.
  rewrite filter_cons_False by (simpl; discriminate). simpl.
  rewrite Nat.add_0_r, filter_fmap_length.
  destruct (Hcover h Hh) as (s0 & hs0 & Hs0 & Hin0).
  destruct (Hok s0 hs0 Hs0) as (Hsm0 & _ & Hall0).
  destruct (Hall0 h Hin0) as [Htarget _].
  set (entries := run_order sched at_step (map_to_list m)).
  assert (Hperm : entries ≡ₚ map_to_list m) by apply run_order_perm.
  rewrite (filter_unique _ entries (s0, hs0)); [done| | | |].
  - rewrite Hperm. apply NoDup_map_to_list.
  - rewrite Hperm. by apply elem_of_map_to_list.
  - unfold releases, release_event. cbn [fst snd existsb].
    rewrite released_by_release_node, orb_false_r.
    apply andb_true_iff. split; apply bool_decide_eq_true_2; [done|].
    apply list_elem_of_fmap. by exists h.
  - intros [s hs] Hentry Hrel. rewrite Hperm in Hentry.
    apply elem_of_map_to_list in Hentry.
    unfold releases, release_event in Hrel. cbn [fst snd existsb] in Hrel.
    apply andb_true_iff in Hrel as [Hs _]. apply bool_decide_eq_true in Hs.
    destruct (Hok s hs Hentry) as (Hsm & _ & _).
    rewrite Hs, Htarget, Hsm0 in Hsm. injection Hsm as <-.
    rewrite Hs0 in Hentry. by injection Hentry as <-.
Qed.

(** A drain pass over an empty pending list does nothing. *)
Lemma ReleaseHandles_empty w :
  pending which w = [] ->
  returns (ReleaseHandles env options_ sched which) w tt w.
Proof.
  intros E. unfold ReleaseHandles, returns, bind, get_world. rewrite E. simpl.
  destruct which, w; simpl in *; by subst.
Qed.

End ReleaseFacts.

(** C3: dropping the last reference to a device handle appends its
    server handle once to the pending-release list, on the spot and
    without any RPC; the next drain pass empties the list and carries the
    handle in exactly one batched release RPC, and a later pass finds
    nothing left to release. *)
Theorem handle_released_exactly_once
    (env : Environment) (options_ : Options) (sched : Schedule)
    (p : HandlePtr) (w : World) :
  use_count p = 1%nat ->
  let entry := {| dh_device := data_device (owner p);
                  dh_handle := data_handle (owner p) |} in
  exists w1,
    returns (drop_reference p) w None w1 /\
    released_data_handles_ w1 = released_data_handles_ w ++ [entry] /\
    new_events w w1 = [Activate; Counter "ReleaseDataHandles" 1] /\
    rpcs (new_events w w1) = [] /\
    ((forall s nodes, session_run_ok env s nodes = true) ->
     Forall (releasable env options_) (released_data_handles_ w1) ->
     exists w2,
       returns (ReleaseHandles env options_ sched released_data_handles) w1 tt w2 /\
       released_data_handles_ w2 = [] /\
       length (filter (fun e => releases released_data_handles
                                  (release_target env options_ entry)
                                  (dh_handle entry) e = true)
                 (new_events w1 w2)) = 1%nat /\
       returns (ReleaseHandles env options_ sched released_data_handles) w2 tt w2).
Proof.
  intros Hcount entry.
  set (w1 := set_trace (trace w ++ [Activate; Counter "ReleaseDataHandles" 1])
               (set_released_data_handles (released_data_handles_ w ++ [entry]) w)).
  assert (Hnew : new_events w w1 = [Activate; Counter "ReleaseDataHandles" 1]).
  { by apply new_events_app. }
  exists w1. split; [|split; [done|split; [done|split]]].
  - unfold drop_reference. rewrite Hcount.
    unfold returns, ReleaseXrtData, ReleaseHandle, bind, emit, ret. simpl.
    unfold w1, set_trace. simpl. by rewrite <- app_assoc.
  - by rewrite Hnew.
  - intros Hrun Hall.
    assert (Hin : entry ∈ pending released_data_handles w1).
    { simpl. apply elem_of_app. right. by left. }
    destruct (ReleaseHandles_once env options_ sched released_data_handles Hrun
                w1 entry Hall Hin) as (w2 & Hret & Hp & Hlen).
    exists w2. split; [done|]. split; [done|]. split; [done|].
    by apply ReleaseHandles_empty.
Qed.

(** C3 on the demo topology: the last reference to handle 5 on "CPU:0". *)
Lemma handle_released_exactly_once_witness :
  let p := {| owner := {| data_device := "CPU:0";
                          data_shape := ArrayShape F32 [2];
                          data_handle := 5 |};
              use_count := 1 |} in
  use_count p = 1%nat /\
  (forall s nodes, session_run_ok Demo.env s nodes = true) /\
  exists w1 w2,
    returns (drop_reference p) Demo.start None w1 /\
    Forall (releasable Demo.env Demo.options_) (released_data_handles_ w1) /\
    returns (ReleaseHandles Demo.env Demo.options_ Demo.fifo
               released_data_handles) w1 tt w2 /\
    length (filter (fun e => releases released_data_handles
                               "grpc://localhost:8470" 5 e = true)
              (new_events w1 w2)) = 1%nat.
Proof.
  intros p. split; [reflexivity|].
  assert (Hrun : forall s nodes, session_run_ok Demo.env s nodes = true)
    by (intros; reflexivity).
  split; [exact Hrun|].
  destruct (handle_released_exactly_once Demo.env Demo.options_ Demo.fifo p
              Demo.start eq_refl) as (w1 & Hdrop & Hpending & _ & _ & Hdrain).
  assert (Hall : Forall (releasable Demo.env Demo.options_)
                   (released_data_handles_ w1)).
  { rewrite Hpending. repeat constructor. }
  destruct (Hdrain Hrun Hall) as (w2 & Hret & _ & Hlen & _).
  exists w1, w2. repeat split; assumption.
Defined.

(** ** Failures *)

(** The loop rule for runs that may fail: [Inv] holds as long as the loop
    goes on, [Post] of the outcome once it has stopped. *)
Lemma for_each_outcome {A St} (body : A -> St -> M St)
    (Inv : St -> World -> Prop) (Post : outcome St -> World -> Prop)
    (l : list A) (s : St) (w : World) :
  Inv s w ->
  (forall a s w, a ∈ l -> Inv s w ->
     match body a s w with
     | (Ok s', w') => Inv s' w'
     | (Failed f, w') => Post (Failed f) w'
     end) ->
  (forall s w, Inv s w -> Post (Ok s) w) ->
  Post (fst (for_each body l s w)) (snd (for_each body l s w)).
Proof.
  revert s w. induction l as [|a l IH]; intros s w Hinv Hstep Hend.
  - simpl. by apply Hend.
  - simpl. unfold bind.
    pose proof (Hstep a s w ltac:(left) Hinv) as Ha.
    destruct (body a s w) as [[s'|f] w']; [|done].
    apply IH; [done| |done]. intros b s0 w0 Hb. apply Hstep. by right.
Qed.

Lemma GetSessionForDevice_trace env options_ device session_map w :
  trace (snd (GetSessionForDevice env options_ device session_map w)) = trace w.
Proof.
  unfold GetSessionForDevice, GetSessionForXrtDevice, GetSessionForTarget,
    GetSession, bind, lift, ret.
  destruct (SwiftDeviceToXrtDevice options_ device) as [xrt|]; [|done].
  destruct (GetWorkerForXrtDevice env options_ xrt) as [[wk tg]|]; [|done].
  simpl. by destruct (session_map !! tg).
Qed.

Section ReleaseFailure.
Variables (env : Environment) (options_ : Options) (sched : Schedule).
Variable which : PendingList.

(** Every run among the events had an OK status. *)
Definition runs_ok (evs : list Event) : Prop :=
  forall s nodes, SessionRun s nodes ∈ evs -> session_run_ok env s nodes = true.

(** The destroy counter was not updated. *)
Definition no_destroy (evs : list Event) : Prop :=
  forall v, Counter (destroy_counter which) v ∉ evs.

Lemma runs_ok_snoc evs s nodes :
  runs_ok evs -> session_run_ok env s nodes = true ->
  runs_ok (evs ++ [SessionRun s nodes]).
Proof.
  intros Hok Hrun s' nodes' Hin. apply elem_of_app in Hin as [Hin|Hin].
  - by apply Hok.
  - apply list_elem_of_singleton in Hin. by injection Hin as -> ->.
Qed.

Lemma no_destroy_snoc evs s nodes :
  no_destroy evs -> no_destroy (evs ++ [SessionRun s nodes]).
Proof.
  intros Hno v Hin. apply elem_of_app in Hin as [Hin|Hin].
  - by apply (Hno v).
  - by apply list_elem_of_singleton in Hin.
Qed.

(** Either every release run of the pass succeeded, or the pass stopped
    at the failed status check of a run, before counting anything. *)
Lemma release_group_trace h st w :
  trace (snd (release_group env options_ h st w)) = trace w.
Proof.
  destruct st as [sm m]. unfold release_group, bind, ret.
  pose proof (GetSessionForDevice_trace env options_ (dh_device h) sm w) as Hg.
  by destruct (GetSessionForDevice env options_ (dh_device h) sm w)
    as [[[s sm2]|f] w2].
Qed.

(** One release run: it goes on after an OK run, and stops with the
    failed status check after a run that failed. *)
Lemma release_run_outcome entry w evs :
  trace w = evs ->
  match release_run env options_ which entry tt w with
  | (Ok _, w') =>
      trace w' = evs \/
      exists s nodes, trace w' = evs ++ [SessionRun s nodes]
                      /\ session_run_ok env s nodes = true
  | (Failed f, w') =>
      trace w' = evs \/
      exists s nodes, trace w' = evs ++ [SessionRun s nodes]
                      /\ f = CheckFailed "status.ok()"
  end.
Proof.
  intros <-. destruct entry as [s hs].
  unfold release_run, bind, vector_get, lift, ret, fail.
  destruct (hs !! 0%nat) as [front|]; [|by left].
  destruct (SwiftDeviceToXrtDevice options_ (dh_device front)) as [xrt|];
    [|by left].
  unfold Run, bind, emit, ret. simpl.
  destruct (session_run_ok env s _) eqn:Erun; simpl; right; by eexists _, _.
Qed.

(** Either every release run of the pass succeeded, or the pass stopped
    at the failed status check of a run, before counting anything. *)
Lemma ReleaseHandles_outcome w r w' :
  ReleaseHandles env options_ sched which w = (r, w') ->
  exists evs,
    trace w' = trace w ++ evs /\
    (runs_ok evs \/ (r = Failed (CheckFailed "status.ok()") /\ no_destroy evs)).
Proof.
  intros Er.
  assert (Hok0 : runs_ok []).
  { intros s nodes Hin. by apply elem_of_nil in Hin. }
  assert (Hno0 : no_destroy []).
  { intros v Hin. by apply elem_of_nil in Hin. }
  unfold ReleaseHandles, bind, get_world in Er.
  set (w0 := set_pending which [] w) in Er.
  assert (Htr0 : trace w0 = trace w) by (unfold w0; by destruct which).
  case_bool_decide as Hempty.
  - injection Er as <- <-. exists []. rewrite app_nil_r. split; [done|by left].
  - pose proof (for_each_outcome (release_group env options_)
      (fun _ w1 => trace w1 = trace w) (fun _ w1 => trace w1 = trace w)
      (pending which w) (∅, ∅) w0 Htr0) as Hgroup.
    cbv beta in Hgroup.
    assert (Htr1 : trace (snd (for_each (release_group env options_)
                                 (pending which w) (∅, ∅) w0)) = trace w).
    { apply Hgroup; [|done]. intros h st w1 _ Hw1.
      pose proof (release_group_trace h st w1) as Hg.
      destruct (release_group env options_ h st w1) as [[st'|f] w2];
        simpl in Hg; congruence. }
    clear Hgroup.
    destruct (for_each (release_group env options_) (pending which w) (∅, ∅) w0)
      as [[[session_map m]|f] w1]; simpl in Htr1.
    + set (entries := run_order sched (length (trace w1)) (map_to_list m)) in Er.
      pose proof (for_each_outcome (release_run env options_ which)
        (fun _ w2 => exists evs, trace w2 = trace w ++ evs
                                 /\ runs_ok evs /\ no_destroy evs)
        (fun r w2 => exists evs, trace w2 = trace w ++ evs /\
            (match r with
             | Ok _ => runs_ok evs /\ no_destroy evs
             | Failed f => runs_ok evs \/
                 (f = CheckFailed "status.ok()" /\ no_destroy evs)
             end))
        entries tt w1) as Hloop.
      cbv beta in Hloop.
      destruct Hloop as (evs & Htr2 & Hcases).
      * exists []. rewrite app_nil_r. by split.
      * intros entry [] w2 _ (evs & Htr & Hok & Hno).
        pose proof (release_run_outcome entry w2 _ eq_refl) as Hstep.
        destruct (release_run env options_ which entry tt w2) as [[[]|f] w3].
        -- destruct Hstep as [Hsame|(s & nodes & Hext & Hrun)].
           ++ exists evs. split; [congruence|done].
           ++ exists (evs ++ [SessionRun s nodes]).
              split; [by rewrite Hext, Htr, <- app_assoc|].
              split; [by apply runs_ok_snoc|by apply no_destroy_snoc].
        -- destruct Hstep as [Hsame|(s & nodes & Hext & ->)].
           ++ exists evs. split; [congruence|by left].
           ++ exists (evs ++ [SessionRun s nodes]).
              split; [by rewrite Hext, Htr, <- app_assoc|].
              right. split; [done|by apply no_destroy_snoc].
      * intros [] w2 (evs & Htr & Hok & Hno). by exists evs.
      * destruct (for_each (release_run env options_ which) entries tt w1)
          as [[[]|f] w2]; simpl in Htr2, Hcases.
        -- unfold emit in Er. injection Er as <- <-. simpl.
           eexists. split; [by rewrite Htr2, <- app_assoc|]. left.
           destruct Hcases as [Hok _]. intros s nodes Hin.
           apply elem_of_app in Hin as [Hin|Hin]; [by apply Hok|].
           by apply list_elem_of_singleton in Hin.
        -- injection Er as <- <-. exists evs. split; [done|].
           destruct Hcases as [Hok|[-> Hno]]; [by left|by right].
    + injection Er as <- <-. exists []. rewrite app_nil_r. split; [done|by left].
Qed.

End ReleaseFailure.

(** C6, as the spec states it, fails: with a service whose release run
    fails, the drain pass ends in a fatal check failure. *)
Lemma release_rpc_failure_is_fatal :
  fst (HandleReleaser Demo.failing_env Demo.options_ Demo.fifo
         (snd (ReleaseXrtData "CPU:0" 5 Demo.start)))
  = Failed (CheckFailed "status.ok()").
Proof. vm_compute. reflexivity. Qed.

(** C6, amended: the enqueue done by the caller that dropped a reference
    always returns and issues no RPC; in the drain pass, a release RPC
    whose status is not OK is fatal: [ReleaseHandles] stops at the failed
    status check of that run and does not update the destroy counter. *)
Theorem release_failure_stops_the_releaser
    (env : Environment) (options_ : Options) (sched : Schedule)
    (which : PendingList) (w : World) :
  (forall handle device,
     exists w1, returns (ReleaseHandle handle device which) w tt w1
                /\ new_events w w1 = [Activate]) /\
  (forall r w' s nodes,
     ReleaseHandles env options_ sched which w = (r, w') ->
     SessionRun s nodes ∈ new_events w w' ->
     session_run_ok env s nodes = false ->
     r = Failed (CheckFailed "status.ok()") /\
     forall v, Counter (destroy_counter which) v ∉ new_events w w').
Proof.
  split.
  - intros handle device. eexists. split.
    + unfold ReleaseHandle. eapply returns_bind; [reflexivity|]. apply returns_emit.
    + apply new_events_app. simpl. by destruct which.
  - intros r w' s nodes Hr Hin Hfail.
    destruct (ReleaseHandles_outcome env options_ sched which w r w' Hr)
      as (evs & Htr & [Hok|[-> Hno]]).
    + rewrite (new_events_app _ _ _ Htr) in Hin.
      rewrite (Hok s nodes Hin) in Hfail. discriminate.
    + split; [done|]. by rewrite (new_events_app _ _ _ Htr).
Qed.

(** C6 amended, on the demo topology with a service whose runs fail. *)
Lemma release_failure_stops_the_releaser_witness :
  let w := snd (ReleaseXrtData "CPU:0" 5 Demo.start) in
  let run := ReleaseHandles Demo.failing_env Demo.options_ Demo.fifo
               released_data_handles w in
  let rpc := SessionRun ("grpc://localhost:8470", 0%nat)
               [XRTReleaseAllocationHandle Demo.cpu0_path [5]] in
  rpc ∈ new_events w (snd run) /\
  session_run_ok Demo.failing_env ("grpc://localhost:8470", 0%nat)
    [XRTReleaseAllocationHandle Demo.cpu0_path [5]] = false /\
  fst run = Failed (CheckFailed "status.ok()").
Proof.
  intros w run rpc.
  assert (Hin : rpc ∈ new_events w (snd run)).
  { vm_compute. left. }
  split; [exact Hin|]. split; [reflexivity|].
  exact (proj1 (proj2 (release_failure_stops_the_releaser Demo.failing_env
                         Demo.options_ Demo.fifo released_data_handles w)
                  (fst run) (snd run) _ _ (surjective_pairing run) Hin eq_refl)).
Defined.

(** ** Compilation *)

Section CompileFacts.
Variables (env : Environment) (options_ : Options) (sched : Schedule).
Variables (devices : list string) (instance : CompileInstance).
Variables (serialized resource_domain : string) (xrt_program_shape : ProgramShape).
Hypothesis Hserialized :
  SerializeXrtComputation env (instance_computation instance) devices
    (output_shape instance) = Ok (serialized, xrt_program_shape).

Local Abbreviation key :=
  {| domain := resource_domain; serialized_computation := serialized |}.

Lemma cache_lookup_head {V} (k : CompilationCacheKey) (v : V) rest :
  cache_lookup k ((k, v) :: rest) = Some v.
Proof.
  unfold cache_lookup. cbn [list_find fst]. by rewrite decide_True.
Qed.

Lemma cache_owns_head k c rest : cache_owns c ((k, c) :: rest) = true.
Proof.
  unfold cache_owns. cbn [existsb snd].
  by rewrite !bool_decide_eq_true_2.
Qed.

(** A compile that finds its program in the cache: no run is issued. *)
Lemma Compile_hit device c w :
  GetResourceDomain env options_ device = Ok resource_domain ->
  cache_lookup key (compilation_cache_ w) = Some c ->
  exists w',
    returns (Compile env options_ sched device devices [instance]) w [Some c] w'
    /\ new_events w w' = [ScheduleClosure "builder"]
    /\ cache_lookup key (compilation_cache_ w') = Some c.
Proof.
  intros Hdomain Hcached. unfold Compile. cbn [length seq].
  set (w1 := set_trace (trace w ++ [ScheduleClosure "builder"]) w).
  set (w2 := set_compilation_cache
               ((key, c) :: cache_remove key (compilation_cache_ w1)) w1).
  exists w2. split; [|split].
  - eapply returns_bind.
    { cbn [for_each]. eapply returns_bind; [apply returns_emit|]. apply returns_ret. }
    eapply returns_bind; [apply returns_get_world|].
    rewrite run_order_singleton.
    eapply returns_bind.
    { cbn [for_each]. eapply returns_bind; [|apply returns_ret].
      unfold builder.
      eapply returns_bind; [by apply returns_vector_get|].
      eapply returns_bind; [by apply returns_lift|].
      eapply returns_bind; [by apply returns_lift|].
      eapply returns_bind.
      { unfold returns, cache_Get. fold w1.
        change (compilation_cache_ w1) with (compilation_cache_ w).
        rewrite Hcached. reflexivity. }
      cbn [cs_results replicate].
      eapply returns_bind; [by apply returns_vector_set; simpl; lia|].
      apply returns_ret. }
    cbn [cs_session_work_map cs_results cs_program_shapes cs_cache_keys].
    rewrite map_to_list_empty.
    eapply returns_bind; [apply returns_ret|].
    eapply returns_bind; [apply returns_get_world|].
    rewrite run_order_nil. apply returns_ret.
  - by apply new_events_app.
  - apply cache_lookup_head.
Qed.

Variables (device xrt_device : string) (worker : Worker) (handle : Z).
Hypothesis Hxrt : SwiftDeviceToXrtDevice options_ device = Ok xrt_device.
Hypothesis Hworker :
  GetWorkerForXrtDevice env options_ xrt_device = Ok (worker, resource_domain).
Hypothesis Hrun : forall s nodes, session_run_ok env s nodes = true.
Hypothesis Hfetch :
  session_fetch env resource_domain (XRTCompile xrt_device serialized)
    = ScalarInt64 handle.
Hypothesis Hcapacity : (1 <= cache_max_size env)%nat.

(** The program the first compile creates. *)
Definition compiled : XrtComputation :=
  {| computation := instance_computation instance;
     program_shape := xrt_program_shape;
     computation_devices := devices;
     computation_handle := handle;
     compilation_device := device |}.

Lemma GetResourceDomain_resolves :
  GetResourceDomain env options_ device = Ok resource_domain.
Proof.
  unfold GetResourceDomain, GetWorkerForDevice. rewrite Hxrt. cbn [outcome_bind].
  by rewrite Hworker.
Qed.

(** A compile that misses the cache: one run compiles the program, which
    is then cached. *)
Lemma Compile_miss w :
  cache_lookup key (compilation_cache_ w) = None ->
  exists w',
    returns (Compile env options_ sched device devices [instance]) w
      [Some compiled] w'
    /\ rpcs (new_events w w')
       = [SessionRun (resource_domain, sessions_created w)
            [XRTCompile xrt_device serialized]]
    /\ cache_lookup key (compilation_cache_ w') = Some compiled
    /\ cache_owns compiled (compilation_cache_ w') = true.
Proof.
  intros Hmiss. unfold Compile. cbn [length seq].
  set (session := (resource_domain, sessions_created w)).
  set (w1 := set_trace (trace w ++ [ScheduleClosure "builder"]) w).
  set (w2 := set_sessions_created (S (sessions_created w1)) w1).
  set (w3 := set_trace (trace w2 ++ [ScheduleIoClosure "session_runner"]) w2).
  set (w4 := set_trace (trace w3 ++ [SessionRun session [XRTCompile xrt_device serialized]]) w3).
  set (w5 := set_compilation_cache
               (take (cache_max_size env) ((key, compiled) :: compilation_cache_ w4)) w4).
  set (w6 := set_trace (trace w5 ++ [Counter "CreateCompileHandles" 1]) w5).
  assert (Hcache : compilation_cache_ w6
                   = (key, compiled) :: take (cache_max_size env - 1) (compilation_cache_ w)).
  { simpl. destruct (cache_max_size env) as [|cap]; [lia|]. simpl.
    by rewrite Nat.sub_0_r. }
  exists w6. split; [|split; [|split]].
  - eapply returns_bind.
    { cbn [for_each]. eapply returns_bind; [apply returns_emit|]. apply returns_ret. }
    eapply returns_bind; [apply returns_get_world|].
    rewrite run_order_singleton.
    eapply returns_bind.
    { cbn [for_each]. eapply returns_bind; [|apply returns_ret].
      unfold builder.
      eapply returns_bind; [by apply returns_vector_get|].
      eapply returns_bind; [by apply returns_lift|].
      eapply returns_bind; [apply returns_lift, GetResourceDomain_resolves|].
      eapply returns_bind.
      { unfold returns, cache_Get. fold w1.
        change (compilation_cache_ w1) with (compilation_cache_ w).
        rewrite Hmiss. reflexivity. }
      cbn [cs_results cs_cache_keys cs_program_shapes cs_session_map
           cs_session_work_map replicate].
      eapply returns_bind; [by apply returns_vector_set; simpl; lia|].
      eapply returns_bind; [by apply returns_vector_set; simpl; lia|].
      eapply returns_bind; [by apply returns_lift|].
      eapply returns_bind.
      { apply (returns_GetSessionForXrtDevice_new env options_ xrt_device
                 resource_domain worker Hworker). }
      apply returns_ret. }
    cbn [cs_session_work_map cs_results cs_program_shapes cs_cache_keys].
    fold w2. change (sessions_created w1) with (sessions_created w).
    fold session.
    assert (add_work session (XRTCompile xrt_device serialized) 0 ∅
            = {[session := {| fed_nodes := [XRTCompile xrt_device serialized];
                              index_mapping := [0%nat] |}]}) as ->.
    { unfold add_work. rewrite lookup_empty. simpl. by rewrite insert_empty. }
    rewrite map_to_list_singleton.
    eapply returns_bind.
    { cbn [for_each]. eapply returns_bind; [apply returns_emit|]. apply returns_ret. }
    fold w3.
    eapply returns_bind; [apply returns_get_world|].
    rewrite run_order_singleton. cbn [for_each].
    eapply returns_bind; [|apply returns_ret].
    unfold compile_runner. cbn [fed_nodes index_mapping].
    eapply returns_bind.
    { unfold Run. eapply returns_bind; [apply returns_emit|]. apply returns_ret. }
    fold w4. rewrite Hrun. cbn [fmap list_fmap fst session].
    eapply returns_bind; [apply returns_ret|].
    eapply (returns_bind _ _ _ ([Some compiled], 1%nat)); [|apply returns_ret].
    cbn [for_each].
    eapply returns_bind; [|apply returns_ret].
    eapply returns_bind; [by apply returns_vector_get|].
    eapply returns_bind; [by apply returns_vector_get|].
    eapply returns_bind; [by apply returns_vector_get|].
    rewrite Hfetch.
    eapply returns_bind; [by apply returns_lift|].
    eapply returns_bind; [by apply returns_vector_set; simpl; lia|].
    eapply returns_bind; [by apply returns_vector_get|].
    eapply returns_bind.
    { unfold returns, cache_Add.
      change (compilation_cache_ w4) with (compilation_cache_ w).
      rewrite Hmiss. reflexivity. }
    fold compiled. fold w5.
    eapply returns_bind; [apply returns_emit|]. apply returns_ret.
  - rewrite (new_events_app w w6
      [ScheduleClosure "builder"; ScheduleIoClosure "session_runner";
       SessionRun session [XRTCompile xrt_device serialized];
       Counter "CreateCompileHandles" 1]); [done|].
    simpl. by rewrite <- !app_assoc.
  - rewrite Hcache. apply cache_lookup_head.
  - rewrite Hcache. apply cache_owns_head.
Qed.

End CompileFacts.

(** C4: compiling the same program against the same resource domain
    twice returns the same compiled program (same server handle) both
    times and issues exactly one compile RPC in total, the one of the
    first call; the caller may give up its reference to the first result
    in between, the cache still owns the program and nothing is released. *)
Theorem Compile_cache_idempotent
    (env : Environment) (options_ : Options) (sched : Schedule)
    (devices : list string) (instance : CompileInstance)
    (serialized resource_domain : string) (xrt_program_shape : ProgramShape)
    (device device' xrt_device : string) (worker : Worker) (handle : Z)
    (w : World) :
  SerializeXrtComputation env (instance_computation instance) devices
    (output_shape instance) = Ok (serialized, xrt_program_shape) ->
  SwiftDeviceToXrtDevice options_ device = Ok xrt_device ->
  GetWorkerForXrtDevice env options_ xrt_device = Ok (worker, resource_domain) ->
  GetResourceDomain env options_ device' = Ok resource_domain ->
  (forall s nodes, session_run_ok env s nodes = true) ->
  session_fetch env resource_domain (XRTCompile xrt_device serialized)
    = ScalarInt64 handle ->
  (1 <= cache_max_size env)%nat ->
  cache_lookup {| domain := resource_domain; serialized_computation := serialized |}
    (compilation_cache_ w) = None ->
  exists c w1 w2,
    returns (Compile env options_ sched device devices [instance]) w [Some c] w1 /\
    computation_handle c = handle /\
    returns (drop_computation c) w1 tt w1 /\
    returns (Compile env options_ sched device' devices [instance]) w1 [Some c] w2 /\
    rpcs (new_events w w1)
      = [SessionRun (resource_domain, sessions_created w)
           [XRTCompile xrt_device serialized]] /\
    rpcs (new_events w1 w2) = [].
Proof.
  intros Hser Hxrt Hworker Hdomain' Hrun Hfetch Hcap Hmiss.
  destruct (Compile_miss env options_ sched devices instance serialized
              resource_domain xrt_program_shape Hser device xrt_device worker
              handle Hxrt Hworker Hrun Hfetch Hcap w Hmiss)
    as (w1 & Hfirst & Hrpc & Hcached & Howned).
  destruct (Compile_hit env options_ sched devices instance serialized
              resource_domain xrt_program_shape Hser device' _ w1 Hdomain' Hcached)
    as (w2 & Hsecond & Hnew & _).
  eexists _, w1, w2. split; [exact Hfirst|]. split; [done|].
  split; [|split; [exact Hsecond|split; [done|by rewrite Hnew]]].
  unfold drop_computation. eapply returns_bind; [apply returns_get_world|].
  rewrite Howned. apply returns_ret.
Qed.

(** C4 on the demo topology: compiled for "CPU:0", then for "CPU:1" of the
    same worker. *)
Lemma Compile_cache_idempotent_witness :
  SerializeXrtComputation Demo.env (instance_computation Demo.program) []
    (output_shape Demo.program)
    = Ok ("HloModule x", {| parameters := []; result := ArrayShape F32 [2] |}) /\
  SwiftDeviceToXrtDevice Demo.options_ "CPU:0" = Ok Demo.cpu0_path /\
  GetWorkerForXrtDevice Demo.env Demo.options_ Demo.cpu0_path
    = Ok (("localservice", 0), "grpc://localhost:8470") /\
  GetResourceDomain Demo.env Demo.options_ "CPU:1" = Ok "grpc://localhost:8470" /\
  (forall s nodes, session_run_ok Demo.env s nodes = true) /\
  session_fetch Demo.env "grpc://localhost:8470"
    (XRTCompile Demo.cpu0_path "HloModule x") = ScalarInt64 11 /\
  (1 <= cache_max_size Demo.env)%nat /\
  cache_lookup {| domain := "grpc://localhost:8470";
                  serialized_computation := "HloModule x" |}
    (compilation_cache_ Demo.start) = None /\
  exists c w1 w2,
    returns (Compile Demo.env Demo.options_ Demo.fifo "CPU:0" [] [Demo.program])
      Demo.start [Some c] w1 /\
    computation_handle c = 11 /\
    returns (drop_computation c) w1 tt w1 /\
    returns (Compile Demo.env Demo.options_ Demo.fifo "CPU:1" [] [Demo.program])
      w1 [Some c] w2 /\
    rpcs (new_events Demo.start w1)
      = [SessionRun ("grpc://localhost:8470", sessions_created Demo.start)
           [XRTCompile Demo.cpu0_path "HloModule x"]] /\
    rpcs (new_events w1 w2) = [].
Proof.
  assert (H1 : SerializeXrtComputation Demo.env (instance_computation Demo.program)
                 [] (output_shape Demo.program)
               = Ok ("HloModule x",
                     {| parameters := []; result := ArrayShape F32 [2] |}))
    by reflexivity.
  assert (H2 : SwiftDeviceToXrtDevice Demo.options_ "CPU:0" = Ok Demo.cpu0_path)
    by (vm_compute; reflexivity).
  assert (H3 : GetWorkerForXrtDevice Demo.env Demo.options_ Demo.cpu0_path
               = Ok (("localservice", 0), "grpc://localhost:8470"))
    by (vm_compute; reflexivity).
  assert (H4 : GetResourceDomain Demo.env Demo.options_ "CPU:1"
               = Ok "grpc://localhost:8470") by (vm_compute; reflexivity).
  assert (H5 : forall s nodes, session_run_ok Demo.env s nodes = true)
    by (intros; reflexivity).
  assert (H6 : session_fetch Demo.env "grpc://localhost:8470"
                 (XRTCompile Demo.cpu0_path "HloModule x") = ScalarInt64 11)
    by reflexivity.
  assert (H7 : (1 <= cache_max_size Demo.env)%nat) by (vm_compute; lia).
  assert (H8 : cache_lookup {| domain := "grpc://localhost:8470";
                               serialized_computation := "HloModule x" |}
                 (compilation_cache_ Demo.start) = None) by reflexivity.
  repeat (split; [assumption|]).
  exact (Compile_cache_idempotent Demo.env Demo.options_ Demo.fifo []
           Demo.program "HloModule x" "grpc://localhost:8470"
           {| parameters := []; result := ArrayShape F32 [2] |}
           "CPU:0" "CPU:1" Demo.cpu0_path ("localservice", 0) 11 Demo.start
           H1 H2 H3 H4 H5 H6 H7 H8).
Defined.

(** ** Replicated and parallel execution *)

(** [results] has [n] slots; the slots at the indices [written] hold their
    final value [g i]. *)
Definition assigned {A} (n : nat) (g : nat -> A) (written : list nat)
    (results : list A) : Prop :=
  length results = n /\
  (forall j, j ∈ written -> (j < n)%nat -> results !! j = Some (g j)).

Lemma assigned_start {A} n (g : nat -> A) (a : A) :
  assigned n g [] (replicate n a).
Proof.
  split; [apply length_replicate|]. intros j Hj. by apply elem_of_nil in Hj.
Qed.

Lemma assigned_set {A} n (g : nat -> A) written results j :
  assigned n g written results -> (j < n)%nat ->
  assigned n g (written ++ [j]) (<[j := g j]> results).
Proof.
  intros (Hlen & Hw) Hj. split; [by rewrite length_insert|].
  intros i Hi Hin. destruct (decide (i = j)) as [->|Hne].
  - apply list_lookup_insert_eq. lia.
  - rewrite list_lookup_insert_ne by done. apply Hw; [|done].
    apply elem_of_app in Hi as [Hi|Hi]; [done|].
    by apply list_elem_of_singleton in Hi.
Qed.

Lemma assigned_all {A} n (g : nat -> A) written results :
  assigned n g written results ->
  (forall j, (j < n)%nat -> j ∈ written) ->
  results = g <$> seq 0 n.
Proof.
  intros (Hlen & Hw) Hall. apply list_eq. intros j.
  rewrite list_lookup_fmap.
  destruct (decide (j < n)%nat) as [Hj|Hj].
  - rewrite Hw by auto. by rewrite lookup_seq_lt.
  - rewrite lookup_ge_None_2 by lia. by rewrite lookup_seq_ge by lia.
Qed.

(** The indices below [k] that [key] sends to [s], in increasing order. *)
Definition group {K} `{EqDecision K} (key : nat -> K) (k : nat) (s : K)
    : list nat :=
  filter (fun i => key i = s) (seq 0 k).

Lemma group_S {K} `{EqDecision K} (key : nat -> K) k s :
  group key (S k) s = group key k s ++ (if decide (key k = s) then [k] else []).
Proof.
  unfold group. rewrite seq_S, filter_app. simpl. by f_equal.
Qed.

Lemma elem_of_group {K} `{EqDecision K} (key : nat -> K) k s i :
  i ∈ group key k s <-> (i < k)%nat /\ key i = s.
Proof.
  unfold group. rewrite list_elem_of_filter, elem_of_seq.
  split; [intros [? ?]; split; [lia|done]|intros [? ?]; split; [done|lia]].
Qed.

(** A map from keys to index lists that holds, under every key, the
    indices below [k] sent to it, and nothing under the other keys. *)
Definition grouped {K} `{Countable K} (key : nat -> K) (k : nat)
    (m : gmap K (list nat)) : Prop :=
  forall s, m !! s = match group key k s with [] => None | l => Some l end.

Lemma grouped_0 {K} `{Countable K} (key : nat -> K) : grouped key 0 ∅.
Proof. intros s. by rewrite lookup_empty. Qed.

Lemma grouped_S {K} `{Countable K} (key : nat -> K) k m :
  grouped key k m ->
  grouped key (S k) (<[key k := default [] (m !! key k) ++ [k]]> m).
Proof.
  intros Hm s. rewrite group_S. destruct (decide (key k = s)) as [<-|Hne].
  - rewrite lookup_insert_eq, Hm.
    by destruct (group key k (key k)).
  - rewrite lookup_insert_ne by done. by rewrite Hm, app_nil_r.
Qed.

(** The entries of a grouped map: one per key in use, with its group. *)
Lemma grouped_entries {K} `{Countable K} (key : nat -> K) n m :
  grouped key n m ->
  map_to_list m
  ≡ₚ (fun s => (s, group key n s)) <$> remove_dups (key <$> seq 0 n).
Proof.
  intros Hm. apply NoDup_Permutation.
  - apply NoDup_map_to_list.
  - apply NoDup_fmap_2; [by intros s1 s2 [= ->]|apply NoDup_remove_dups].
  - intros [s l]. rewrite elem_of_map_to_list, list_elem_of_fmap.
    rewrite (Hm s). split.
    + intros Hl. exists s. destruct (group key n s) as [|i g] eqn:E; [done|].
      injection Hl as <-. split; [done|].
      apply elem_of_remove_dups, list_elem_of_fmap. exists i.
      assert (Hi : i ∈ group key n s) by (rewrite E; left).
      apply elem_of_group in Hi as [Hi <-]. split; [done|].
      apply elem_of_seq. lia.
    + intros (s' & [= -> ->] & Hs).
      apply elem_of_remove_dups, list_elem_of_fmap in Hs as (i & -> & Hi).
      apply elem_of_seq in Hi.
      assert (Hin : i ∈ group key n (key i)) by (apply elem_of_group; split; [lia|done]).
      destruct (group key n (key i)); [by apply elem_of_nil in Hin|done].
Qed.

Lemma group_ext {K K'} `{EqDecision K, EqDecision K'} (key : nat -> K)
    (key' : nat -> K') n s s' :
  (forall i, (i < n)%nat -> key i = s <-> key' i = s') ->
  group key n s = group key' n s'.
Proof.
  induction n as [|n IH]; intros Hiff; [done|].
  rewrite !group_S, IH by (intros i Hi; apply Hiff; lia).
  f_equal. destruct (decide (key n = s)) as [E|E], (decide (key' n = s')) as [E'|E'];
    try done; exfalso; apply (Hiff n) in E || apply (Hiff n) in E'; auto.
Qed.

Lemma remove_dups_fmap_inj {A B} `{EqDecision A, EqDecision B} (f : A -> B)
    (l : list A) :
  (forall x y, x ∈ l -> y ∈ l -> f x = f y -> x = y) ->
  remove_dups (f <$> l) = f <$> remove_dups l.
Proof.
  induction l as [|x l IH]; intros Hinj; [done|].
  rewrite fmap_cons. cbn [remove_dups].
  assert (IH' : remove_dups (f <$> l) = f <$> remove_dups l).
  { apply IH. intros y z Hy Hz. apply Hinj; by right. }
  destruct (decide_rel elem_of x l) as [Hx|Hx],
    (decide_rel elem_of (f x) (f <$> l)) as [Hfx|Hfx].
  - done.
  - exfalso. apply Hfx, list_elem_of_fmap. by exists x.
  - exfalso. apply list_elem_of_fmap in Hfx as (y & Hfy & Hy). apply Hx.
    rewrite (Hinj x y); [done|left|by right|done].
  - by rewrite fmap_cons, IH'.
Qed.

(** A map whose keys are the elements of [l] has as many entries as [l]
    has distinct elements. *)
Lemma size_keys {V} (m : gmap string V) (l : list string) :
  (forall t, is_Some (m !! t) <-> t ∈ l) -> size m = length (remove_dups l).
Proof.
  intros Hkeys. rewrite <- length_map_to_list.
  rewrite <- (length_fmap fst). apply Permutation_length, NoDup_Permutation.
  - apply NoDup_fst_map_to_list.
  - apply NoDup_remove_dups.
  - intros t. rewrite elem_of_remove_dups, <- Hkeys, list_elem_of_fmap. split.
    + intros ([t' v] & -> & Hv). apply elem_of_map_to_list in Hv. by exists v.
    + intros [v Hv]. exists (t, v). split; [done|]. by apply elem_of_map_to_list.
Qed.

Lemma for_each_ext {A St} (body1 body2 : A -> St -> M St) (l : list A) s w :
  (forall a s w, a ∈ l -> body1 a s w = body2 a s w) ->
  for_each body1 l s w = for_each body2 l s w.
Proof.
  revert s w. induction l as [|a l IH]; intros s w Hext; [done|].
  simpl. unfold bind. rewrite Hext by left.
  destruct (body2 a s w) as [[s1|e] w1]; [|done].
  apply IH. intros b s' w' Hb. apply Hext. by right.
Qed.

Lemma GetArgumentsInputs_loop arguments device acc w :
  Forall (fun d => data_device d = device) arguments ->
  returns (for_each (fun xrt_data inputs_tensor =>
      XLA_CHECK (bool_decide (device = data_device xrt_data))
        "device == xrt_data.device()->name()";;
      ret (inputs_tensor ++ [data_handle xrt_data])) arguments acc)
    w (acc ++ (data_handle <$> arguments)) w.
Proof.
  revert acc. induction arguments as [|d l IH]; intros acc Hall.
  - simpl. rewrite app_nil_r. apply returns_ret.
  - inversion Hall as [|? ? Hd Hl]; subst. simpl.
    eapply returns_bind.
    + eapply returns_bind; [|apply returns_ret].
      apply returns_XLA_CHECK. by apply bool_decide_eq_true_2.
    + specialize (IH (acc ++ [data_handle d]) Hl).
      by rewrite <- app_assoc in IH.
Qed.

Lemma GetArgumentsInputs_returns arguments device w :
  Forall (fun d => data_device d = device) arguments ->
  returns (GetArgumentsInputs arguments device) w (data_handle <$> arguments) w.
Proof. intros Hall. by apply (GetArgumentsInputs_loop arguments device []). Qed.

Lemma resolve_target_inv env options_ device xrt_device target :
  resolve_target env options_ device = Ok (xrt_device, target) ->
  SwiftDeviceToXrtDevice options_ device = Ok xrt_device /\
  exists worker effective,
    GetWorkerForXrtDevice env options_ xrt_device = Ok (worker, target) /\
    GetEffectiveDevice options_ device = Ok effective /\
    GetWorkerForDevice env options_ effective = Ok (worker, target).
Proof.
  unfold resolve_target. intros Hres.
  destruct (SwiftDeviceToXrtDevice options_ device) as [xrt|] eqn:Hx; [|done].
  simpl in Hres.
  destruct (GetWorkerForXrtDevice env options_ xrt) as [[wk tg]|] eqn:Hw; [|done].
  simpl in Hres. injection Hres as -> ->. split; [done|].
  destruct (effective_device_resolves options_ device xrt_device Hx)
    as (effective & He & Hxe).
  exists wk, effective. split; [done|]. split; [done|].
  unfold GetWorkerForDevice. by rewrite Hxe.
Qed.

Lemma GetSessionForXrtDevice_returns env options_ xrt_device worker target
    session_map w :
  GetWorkerForXrtDevice env options_ xrt_device = Ok (worker, target) ->
  well_keyed session_map ->
  exists session w',
    returns (GetSessionForXrtDevice env options_ xrt_device session_map) w
      (session, <[target := session]> session_map) w'
    /\ fst session = target
    /\ well_keyed (<[target := session]> session_map)
    /\ trace w' = trace w /\ rng_seed_ w' = rng_seed_ w
    /\ (sessions_created w' + size session_map
        = sessions_created w + size (<[target := session]> session_map))%nat.
Proof.
  intros Hw Hkeyed.
  unfold GetSessionForXrtDevice, GetSessionForTarget, GetSession.
  destruct (session_map !! target) as [s|] eqn:E.
  - exists s, w. rewrite (insert_id _ _ _ E). split.
    + eapply returns_bind; [by apply returns_lift|].
      simpl. rewrite E. apply returns_ret.
    + split; [by apply Hkeyed|]. done.
  - exists (target, sessions_created w),
      (set_sessions_created (S (sessions_created w)) w). split.
    + eapply returns_bind; [by apply returns_lift|]. simpl. by rewrite E.
    + split; [done|]. split; [|split; [done|split; [done|]]].
      * intros t s Hts. destruct (decide (t = target)) as [->|Hne].
        -- rewrite lookup_insert_eq in Hts. by injection Hts as <-.
        -- rewrite lookup_insert_ne in Hts by done. by apply Hkeyed.
      * rewrite map_size_insert_None by done. simpl. lia.
Qed.

Section ExecuteFacts.
Variables (env : Environment) (options_ : Options) (sched : Schedule).
Variables (computations : list XrtComputation).
Variables (arguments : list (list XrtData)) (devices : list string).
Variables (explode_tuple : bool) (seed : Z).
Hypothesis Hrun : forall s nodes, session_run_ok env s nodes = true.

Definition device_at (i : nat) : string := default "" (devices !! i).

(** The XRT device, the RPC target and the effective name of replica [i]'s
    device. *)
Definition replica_xrt_device (i : nat) : string :=
  match resolve_target env options_ (device_at i) with
  | Ok (xrt_device, _) => xrt_device
  | Failed _ => ""
  end.

Definition replica_target (i : nat) : string :=
  match resolve_target env options_ (device_at i) with
  | Ok (_, target) => target
  | Failed _ => ""
  end.

Definition replica_effective (i : nat) : string :=
  match GetEffectiveDevice options_ (device_at i) with
  | Ok effective => effective
  | Failed _ => ""
  end.

(** The execute node of replica [i]: its computation's handle and its
    arguments' handles, on its device. *)
Definition replica_node (i : nat) : FedNode :=
  XRTExecute (replica_xrt_device i)
    (from_option computation_handle 0 (computations !! i))
    {| return_exploded_tuple := explode_tuple; rng_seed := seed |}
    (data_handle <$> default [] (arguments !! i)).

Definition replica_shape (i : nat) : Shape :=
  from_option (fun c => result (program_shape c)) default_Shape
    (computations !! i).

(** What the service answers replica [i]'s node with, as device data. *)
Definition replica_outcome (i : nat) : outcome (list XrtData) :=
  computation_results
    (session_fetch env (replica_target i) (replica_node i))
    (replica_shape i) (replica_effective i).

Definition replica_results (i : nat) : list XrtData :=
  match replica_outcome i with Ok results => results | Failed _ => [] end.

(** Replica [i] can be executed: its device resolves to a worker, its
    arguments live on its device, and the service answers with handles
    that fit the result shape. *)
Definition executable (i : nat) : Prop :=
  is_Ok (resolve_target env options_ (device_at i)) = true /\
  Forall (fun d => data_device d = device_at i) (default [] (arguments !! i)) /\
  is_Ok (replica_outcome i) = true.

(** The targets in use, and the replicas of a target in device order. *)
Definition targets : list string :=
  remove_dups (replica_target <$> seq 0 (length devices)).

Definition replicas_of (target : string) : list nat :=
  group replica_target (length devices) target.

Hypothesis Hcomputations : length computations = length devices.
Hypothesis Harguments : length arguments = length devices.
Hypothesis Hexecutable : forall i, (i < length devices)%nat -> executable i.

Lemma replica_resolves i :
  (i < length devices)%nat ->
  resolve_target env options_ (device_at i)
    = Ok (replica_xrt_device i, replica_target i) /\
  GetEffectiveDevice options_ (device_at i) = Ok (replica_effective i).
Proof.
  intros Hi. destruct (Hexecutable i Hi) as [Hres _].
  unfold replica_xrt_device, replica_target, replica_effective.
  destruct (resolve_target env options_ (device_at i)) as [[xrt tg]|] eqn:E;
    [|done].
  split; [done|].
  destruct (resolve_target_inv _ _ _ _ _ E) as (_ & wk & eff & _ & He & _).
  by rewrite He.
Qed.

(** One iteration of [CreateExecuteOps]. *)
Lemma create_execute_op_returns k c session_map exec_ops w :
  (k < length devices)%nat -> computations !! k = Some c ->
  rng_seed_ w = seed -> well_keyed session_map ->
  exists session_map' w',
    returns (create_execute_op env options_ c arguments explode_tuple devices k
               (session_map, exec_ops)) w
      (session_map', exec_ops ++ [replica_node k]) w'
    /\ well_keyed session_map'
    /\ (forall t, is_Some (session_map' !! t)
          <-> is_Some (session_map !! t) \/ t = replica_target k)
    /\ trace w' = trace w /\ rng_seed_ w' = seed
    /\ (sessions_created w' + size session_map
        = sessions_created w + size session_map')%nat.
Proof.
  intros Hk Hc Hseed Hkeyed.
  destruct (replica_resolves k Hk) as [Hres _].
  destruct (resolve_target_inv _ _ _ _ _ Hres) as (Hx & wk & eff & Hw & _ & _).
  destruct (Hexecutable k Hk) as (_ & Hargs & _).
  destruct (lookup_lt_is_Some_2 arguments k ltac:(lia)) as [args Ha].
  destruct (lookup_lt_is_Some_2 devices k Hk) as [d Hd].
  assert (Hdev : device_at k = d) by (unfold device_at; by rewrite Hd).
  rewrite Ha in Hargs. simpl in Hargs. rewrite Hdev in *.
  destruct (GetSessionForXrtDevice_returns env options_ _ wk _ session_map w
              Hw Hkeyed) as (s & w' & Hget & Hs & Hkeyed' & Htr & Hrng & Hsz).
  exists (<[replica_target k := s]> session_map), w'.
  split; [|split; [done|split; [|split; [done|split; [congruence|done]]]]].
  - unfold create_execute_op.
    eapply returns_bind; [by apply returns_vector_get|].
    eapply returns_bind; [by apply returns_vector_get|].
    eapply returns_bind; [by apply GetArgumentsInputs_returns|].
    eapply returns_bind; [by apply returns_lift|].
    eapply returns_bind; [exact Hget|].
    eapply returns_bind; [apply returns_get_world|].
    unfold replica_node. rewrite Hc, Ha, Hrng, Hseed. apply returns_ret.
  - intros t. destruct (decide (t = replica_target k)) as [->|Hne].
    + rewrite lookup_insert_eq. split; [by right|by eexists].
    + rewrite lookup_insert_ne by done. split; [by left|]. by intros [?|?].
Qed.

(** [CreateExecuteOps], one computation per device: one node per device,
    in device order, and one session per target in use. *)
Lemma CreateExecuteOps_parallel_returns w :
  rng_seed_ w = seed ->
  exists session_map w',
    returns (CreateExecuteOps_parallel env options_ ∅ computations arguments
               explode_tuple devices) w
      (session_map, replica_node <$> seq 0 (length devices)) w'
    /\ well_keyed session_map
    /\ (forall i, (i < length devices)%nat ->
          is_Some (session_map !! replica_target i))
    /\ trace w' = trace w /\ rng_seed_ w' = seed
    /\ sessions_created w' = (sessions_created w + length targets)%nat.
Proof.
  intros Hseed. unfold CreateExecuteOps_parallel.
  destruct (for_each_returns
    (fun i st =>
       do xrt_computation <- vector_get computations i;
       create_execute_op env options_ xrt_computation arguments explode_tuple
         devices i st)
    (fun k st w' =>
       well_keyed st.1 /\
       (forall t, is_Some (st.1 !! t)
          <-> exists i, (i < k)%nat /\ replica_target i = t) /\
       st.2 = replica_node <$> seq 0 k /\
       trace w' = trace w /\ rng_seed_ w' = seed /\
       sessions_created w' = (sessions_created w + size st.1)%nat)
    (seq 0 (length computations)) (∅, []) w)
    as ([sm ops] & w' & Hret & Hkeyed & Hdom & Hops & Htr & Hrng & Hcount).
  - split; [apply well_keyed_empty|]. split.
    + intros t. simpl. rewrite lookup_empty. split; [by intros [? ?]|].
      intros (i & Hi & _). lia.
    + repeat split; try done.
  - intros k i [sm ops] w' Hk (Hkeyed & Hdom & Hops & Htr & Hrng & Hcount).
    apply lookup_seq in Hk as [-> Hk]. change (0 + k)%nat with k.
    simpl in Hkeyed, Hdom, Hops, Hcount. rewrite Hcomputations in Hk.
    destruct (lookup_lt_is_Some_2 computations k ltac:(lia)) as [c Hc].
    destruct (create_execute_op_returns k c sm ops w' Hk Hc Hrng Hkeyed)
      as (sm' & w'' & Hstep & Hkeyed' & Hdom' & Htr' & Hrng' & Hsz).
    exists (sm', ops ++ [replica_node k]), w''. split.
    + eapply returns_bind; [by apply returns_vector_get|]. exact Hstep.
    + cbn [fst snd]. split; [done|].
      split; [|split; [|split; [congruence|split; [done|lia]]]].
      * intros t. rewrite Hdom', Hdom. split.
        -- intros [(i & Hi & Ht)| ->]; [exists i; split; [lia|done]|].
           exists k. split; [lia|done].
        -- intros (i & Hi & Ht). destruct (decide (i = k)) as [->|Hne];
             [by right|]. left. exists i. split; [lia|done].
      * by rewrite Hops, seq_S, fmap_app.
  - rewrite length_seq, Hcomputations in *. simpl in *. subst ops.
    exists sm, w'. split; [done|]. split; [done|]. split; [|split; [done|split; [done|]]].
    + intros i Hi. apply Hdom. by exists i.
    + rewrite Hcount. f_equal. apply size_keys. intros t. rewrite Hdom.
      rewrite list_elem_of_fmap. split.
      * intros (i & Hi & Ht). exists i. split; [done|]. apply elem_of_seq. lia.
      * intros (i & Ht & Hi). apply elem_of_seq in Hi. exists i. split; [lia|done].
Qed.

Lemma replica_worker i :
  (i < length devices)%nat ->
  exists worker,
    GetWorkerForDevice env options_ (replica_effective i)
      = Ok (worker, replica_target i).
Proof.
  intros Hi. destruct (replica_resolves i Hi) as [Hres He].
  destruct (resolve_target_inv _ _ _ _ _ Hres) as (_ & wk & eff & _ & He' & Hw).
  exists wk. rewrite He in He'. by injection He' as ->.
Qed.

(** The session serving a target in a session map. *)
Definition session_at (session_map : SessionMap) (target : string)
    : XrtSession :=
  default (target, 0%nat) (session_map !! target).

Variable session_map : SessionMap.
Hypothesis Hkeyed : well_keyed session_map.
Hypothesis Hsessions :
  forall i, (i < length devices)%nat -> is_Some (session_map !! replica_target i).

Definition replica_session (i : nat) : XrtSession :=
  session_at session_map (replica_target i).

Lemma replica_session_target i :
  (i < length devices)%nat -> fst (replica_session i) = replica_target i.
Proof.
  intros Hi. unfold replica_session, session_at.
  destruct (Hsessions i Hi) as [s Hs]. rewrite Hs. by apply Hkeyed.
Qed.

(** First loop of [RunComputations]: every session gets its replicas, in
    device order. *)
Lemma assign_replicas_return w :
  exists session_replicas,
    returns (for_each (assign_replica env options_ session_map devices)
               (seq 0 (length devices)) ∅) w session_replicas w
    /\ grouped replica_session (length devices) session_replicas.
Proof.
  destruct (for_each_returns (assign_replica env options_ session_map devices)
    (fun k m w' => w' = w /\ (k <= length devices)%nat /\ grouped replica_session k m)
    (seq 0 (length devices)) ∅ w) as (m & w' & Hret & -> & _ & Hm).
  - split; [done|]. split; [lia|apply grouped_0].
  - intros k i m w' Hk (-> & _ & Hm).
    apply lookup_seq in Hk as [-> Hk]. change (0 + k)%nat with k.
    destruct (lookup_lt_is_Some_2 devices k Hk) as [d Hd].
    destruct (replica_resolves k Hk) as [_ He].
    destruct (replica_worker k Hk) as [wk Hw].
    destruct (Hsessions k Hk) as [s Hs].
    assert (Hdev : device_at k = d) by (unfold device_at; by rewrite Hd).
    rewrite Hdev in He.
    exists (<[replica_session k := default [] (m !! replica_session k) ++ [k]]> m), w.
    split; [|split; [done|split; [lia|by apply grouped_S]]].
    unfold assign_replica.
    eapply returns_bind; [by apply returns_vector_get|].
    eapply returns_bind; [by apply returns_lift|].
    eapply returns_bind; [by apply returns_lift|].
    eapply returns_bind.
    { unfold session_map_at. simpl. rewrite Hs. apply returns_ret. }
    unfold replica_session, session_at. rewrite Hs. apply returns_ret.
  - rewrite length_seq in Hm. by exists m.
Qed.

Variable exec_ops : list FedNode.
Hypothesis Hexec_ops : exec_ops = replica_node <$> seq 0 (length devices).

Lemma exec_ops_lookup r :
  (r < length devices)%nat -> exec_ops !! r = Some (replica_node r).
Proof.
  intros Hr. rewrite Hexec_ops, list_lookup_fmap, lookup_seq_lt by done. done.
Qed.

(** The nodes a session runner collects for its replicas. *)
Lemma exec_nodes_return replicas w :
  (forall r, r ∈ replicas -> (r < length devices)%nat) ->
  returns (for_each (fun replica exec_nodes =>
      do node <- vector_get exec_ops replica;
      vector_get computations replica;;
      ret (exec_nodes ++ [node])) replicas []) w
    (replica_node <$> replicas) w.
Proof.
  intros Hreps.
  destruct (for_each_returns (fun replica exec_nodes =>
      do node <- vector_get exec_ops replica;
      vector_get computations replica;;
      ret (exec_nodes ++ [node]))
    (fun k nodes w' => w' = w /\ nodes = replica_node <$> take k replicas)
    replicas [] w) as (nodes & w' & Hret & -> & ->).
  - by rewrite take_0.
  - intros k r nodes w' Hk [-> ->].
    assert (Hr : (r < length devices)%nat).
    { apply Hreps. by eapply list_elem_of_lookup_2. }
    destruct (lookup_lt_is_Some_2 computations r ltac:(lia)) as [c Hc].
    eexists _, w. split.
    + eapply returns_bind; [apply returns_vector_get, exec_ops_lookup, Hr|].
      eapply returns_bind; [by apply returns_vector_get|]. apply returns_ret.
    + split; [done|]. by rewrite (take_S_r _ _ _ Hk), fmap_app.
  - by rewrite take_ge in Hret.
Qed.

Lemma GetComputationResults_returns xrt_result result_shape device_name
    results w :
  computation_results xrt_result result_shape device_name = Ok results ->
  returns (GetComputationResults xrt_result result_shape device_name) w results
    (set_trace (trace w ++ [Counter "CreateDataHandles"
                              (Z.of_nat (length results))]) w).
Proof.
  intros Hres. unfold GetComputationResults.
  eapply returns_bind; [by apply returns_lift|].
  eapply returns_bind; [apply returns_emit|]. apply returns_ret.
Qed.

(** One session runner: a single run RPC for the nodes of its replicas,
    and each replica's results stored in the replica's own slot. *)
Lemma replica_runner_returns s replicas written results w :
  (forall r, r ∈ replicas -> (r < length devices)%nat /\ replica_session r = s) ->
  assigned (length devices) replica_results written results ->
  exists results' w',
    returns (replica_runner env options_ exec_ops computations devices
               (s, replicas) results) w results' w'
    /\ assigned (length devices) replica_results (written ++ replicas) results'
    /\ sessions_created w' = sessions_created w
    /\ exists evs,
         trace w' = trace w ++ SessionRun s (replica_node <$> replicas) :: evs
         /\ rpcs evs = [].
Proof.
  intros Hreps Hassigned. unfold replica_runner.
  set (w1 := set_trace (trace w ++ [SessionRun s (replica_node <$> replicas)]) w).
  set (outputs := session_fetch env (fst s) <$> (replica_node <$> replicas)).
  destruct (for_each_returns
    (fun i results =>
       do replica <- vector_get replicas i;
       do output <- vector_get outputs i;
       do computation_i <- vector_get computations replica;
       do device_i <- vector_get devices replica;
       do effective <- lift (GetEffectiveDevice options_ device_i);
       do results_i <-
         GetComputationResults output (result (program_shape computation_i))
           effective;
       vector_set results replica results_i)
    (fun k results' w' =>
       assigned (length devices) replica_results (written ++ take k replicas)
         results' /\
       sessions_created w' = sessions_created w /\
       exists evs, trace w' = trace w1 ++ evs /\ rpcs evs = [])
    (seq 0 (length outputs)) results w1)
    as (results' & w' & Hret & Hfin & Hcount & evs & Htr & Hevs).
  - rewrite take_0, app_nil_r. split; [done|]. split; [done|].
    exists []. by rewrite app_nil_r.
  - intros k i results1 w' Hk (Hf & Hcount & evs & Htr & Hevs).
    apply lookup_seq in Hk as [-> Hk]. change (0 + k)%nat with k.
    unfold outputs in Hk. rewrite !length_fmap in Hk.
    destruct (lookup_lt_is_Some_2 _ _ Hk) as [r Hr].
    destruct (Hreps r) as [Hlt Hs]; [by eapply list_elem_of_lookup_2|].
    destruct (lookup_lt_is_Some_2 computations r ltac:(lia)) as [c Hc].
    destruct (lookup_lt_is_Some_2 devices r Hlt) as [d Hd].
    destruct (replica_resolves r Hlt) as [_ He].
    assert (Hdev : device_at r = d) by (unfold device_at; by rewrite Hd).
    rewrite Hdev in He.
    destruct (Hexecutable r Hlt) as (_ & _ & Hok).
    assert (Hout : replica_outcome r = Ok (replica_results r)).
    { unfold replica_results. by destruct (replica_outcome r). }
    unfold replica_outcome, replica_shape in Hout. rewrite Hc in Hout.
    simpl in Hout.
    rewrite <- (replica_session_target r Hlt), Hs in Hout.
    eexists (<[r := replica_results r]> results1), _. split.
    + eapply returns_bind; [by apply returns_vector_get|].
      eapply returns_bind.
      { apply returns_vector_get. unfold outputs.
        rewrite !list_lookup_fmap, Hr. simpl. reflexivity. }
      eapply returns_bind; [by apply returns_vector_get|].
      eapply returns_bind; [by apply returns_vector_get|].
      eapply returns_bind; [by apply returns_lift|].
      eapply returns_bind; [by apply GetComputationResults_returns|].
      apply returns_vector_set. destruct Hf as [-> _]. done.
    + split; [|split; [done|]].
      * rewrite (take_S_r _ _ _ Hr), app_assoc.
        by apply (assigned_set _ replica_results).
      * eexists (evs ++ [_]). simpl. rewrite Htr, <- app_assoc.
        split; [done|]. by rewrite rpcs_app, Hevs.
  - exists results', w'. split; [|split; [|split; [done|]]].
    + eapply returns_bind.
      { apply exec_nodes_return. intros r Hr. by apply Hreps. }
      eapply returns_bind.
      { unfold Run. eapply returns_bind; [apply returns_emit|]. apply returns_ret. }
      rewrite Hrun. eapply returns_bind; [apply returns_ret|]. exact Hret.
    + unfold outputs in Hfin. by rewrite length_seq, !length_fmap, take_ge in Hfin.
    + exists evs. split; [|done]. rewrite Htr. simpl. by rewrite <- app_assoc.
Qed.

Lemma rpcs_replicate_io n name :
  rpcs (replicate n (ScheduleIoClosure name)) = [].
Proof.
  induction n as [|n IH]; [done|]. simpl. unfold rpcs in *.
  by rewrite filter_cons_False.
Qed.

(** The run RPC of a session with its replicas. *)
Definition run_event (entry : XrtSession * list nat) : Event :=
  SessionRun (fst entry) (replica_node <$> snd entry).

Lemma session_at_target t :
  t ∈ replica_target <$> seq 0 (length devices) ->
  fst (session_at session_map t) = t.
Proof.
  intros (i & -> & Hi)%list_elem_of_fmap. apply elem_of_seq in Hi.
  apply replica_session_target. lia.
Qed.

(** Grouping by session is grouping by target. *)
Lemma run_events_by_target session_replicas :
  grouped replica_session (length devices) session_replicas ->
  run_event <$> map_to_list session_replicas
  ≡ₚ (fun t => SessionRun (session_at session_map t)
                 (replica_node <$> replicas_of t)) <$> targets.
Proof.
  intros Hm. rewrite (grouped_entries _ _ _ Hm).
  change (replica_session <$> seq 0 (length devices))
    with ((fun i => session_at session_map (replica_target i))
            <$> seq 0 (length devices)).
  rewrite (list_fmap_compose replica_target (session_at session_map)).
  rewrite remove_dups_fmap_inj.
  - rewrite <- !list_fmap_compose. fold targets.
    match goal with |- ?a ≡ₚ ?b => assert (Heq : a = b); [|by rewrite Heq] end.
    apply Forall_fmap_ext, Forall_forall. intros t Ht.
    unfold targets in Ht. rewrite elem_of_remove_dups in Ht.
    unfold run_event. simpl. f_equal. f_equal.
    apply group_ext. intros i Hi. split.
    + intros Hs. apply (f_equal fst) in Hs.
      by rewrite (replica_session_target i Hi), (session_at_target t Ht) in Hs.
    + by intros <-.
  - intros x y Hx Hy Hxy. apply (f_equal fst) in Hxy.
    by rewrite !session_at_target in Hxy.
Qed.

(** [RunComputations]: one run RPC per target in use, carrying the nodes of
    that target's replicas, and the results of replica [i] at index [i],
    whatever order the session runners run in. *)
Lemma RunComputations_returns w :
  exists w',
    returns (RunComputations env options_ sched session_map exec_ops
               computations devices) w
      (replica_results <$> seq 0 (length devices)) w'
    /\ sessions_created w' = sessions_created w
    /\ rpcs (new_events w w')
       ≡ₚ (fun t => SessionRun (session_at session_map t)
                      (replica_node <$> replicas_of t)) <$> targets.
Proof.
  destruct (assign_replicas_return w) as (m & Hassign & Hm).
  set (closures := replicate (length (map_to_list m))
                     (ScheduleIoClosure "session_runner")).
  set (w1 := set_trace (trace w ++ closures) w).
  set (entries := run_order sched (length (trace w1)) (map_to_list m)).
  assert (Hentry : forall s replicas, (s, replicas) ∈ entries ->
            forall r, r ∈ replicas ->
              (r < length devices)%nat /\ replica_session r = s).
  { intros s replicas Hin r Hr. unfold entries in Hin.
    rewrite (run_order_perm sched) in Hin.
    apply elem_of_map_to_list in Hin. rewrite (Hm s) in Hin.
    destruct (group replica_session (length devices) s) as [|i g] eqn:E; [done|].
    injection Hin as <-. rewrite <- E in Hr. by apply elem_of_group in Hr. }
  destruct (for_each_returns
    (replica_runner env options_ exec_ops computations devices)
    (fun k results w' =>
       assigned (length devices) replica_results
         (concat (snd <$> take k entries)) results /\
       sessions_created w' = sessions_created w /\
       exists evs, trace w' = trace w1 ++ evs /\
         rpcs evs = run_event <$> take k entries)
    entries (replicate (length devices) []) w1)
    as (results & w2 & Hloop & Hfin & Hcount & evs & Htr & Hevs).
  - rewrite take_0. split; [apply assigned_start|]. split; [done|].
    exists []. by rewrite app_nil_r.
  - intros k [s replicas] results1 w' Hk (Hf & Hcount & evs & Htr & Hevs).
    destruct (replica_runner_returns s replicas _ results1 w'
                (Hentry s replicas (list_elem_of_lookup_2 _ _ _ Hk)) Hf)
      as (results2 & w'' & Hret & Hf2 & Hcount2 & evs2 & Htr2 & Hevs2).
    exists results2, w''. split; [done|].
    rewrite (take_S_r _ _ _ Hk), !fmap_app, concat_app. simpl.
    rewrite app_nil_r. split; [done|]. split; [congruence|].
    exists (evs ++ SessionRun s (replica_node <$> replicas) :: evs2).
    split; [by rewrite Htr2, Htr, <- app_assoc|].
    rewrite rpcs_app, Hevs. f_equal.
    change (SessionRun s (replica_node <$> replicas) :: evs2)
      with ([SessionRun s (replica_node <$> replicas)] ++ evs2).
    by rewrite rpcs_app, Hevs2.
  - rewrite take_ge in Hfin, Hevs by done.
    assert (results = replica_results <$> seq 0 (length devices)) as ->.
    { apply (assigned_all _ _ _ _ Hfin). intros j Hj.
      apply elem_of_concat. exists (group replica_session (length devices)
                                      (replica_session j)).
      assert (Hin : j ∈ group replica_session (length devices) (replica_session j))
        by (by apply elem_of_group).
      split; [done|]. apply list_elem_of_fmap.
      exists (replica_session j,
              group replica_session (length devices) (replica_session j)).
      split; [done|]. unfold entries. rewrite (run_order_perm sched).
      apply elem_of_map_to_list. rewrite (Hm (replica_session j)).
      by destruct (group replica_session (length devices) (replica_session j));
        [apply elem_of_nil in Hin|]. }
    exists w2. split; [|split; [done|]].
    + unfold RunComputations.
      eapply returns_bind; [exact Hassign|].
      eapply returns_bind.
      { apply returns_XLA_CHECK. by apply bool_decide_eq_true_2. }
      eapply returns_bind; [apply for_each_emit|].
      eapply returns_bind; [apply returns_get_world|]. exact Hloop.
    + rewrite (new_events_app w w2 (closures ++ evs))
        by (by rewrite Htr; simpl; rewrite <- app_assoc).
      unfold closures. rewrite rpcs_app, rpcs_replicate_io, Hevs. simpl.
      unfold entries. rewrite (run_order_perm sched).
      by apply run_events_by_target.
Qed.

End ExecuteFacts.

Lemma remove_dups_constant {A} `{EqDecision A} (l : list A) (t : A) :
  l <> [] -> (forall x, x ∈ l -> x = t) -> remove_dups l = [t].
Proof.
  induction l as [|x l IH]; intros Hne Hall; [done|].
  assert (x = t) as -> by (apply Hall; left).
  destruct l as [|y l].
  - cbn [remove_dups].
    by destruct (decide_rel elem_of t []) as [H|H]; [apply elem_of_nil in H|].
  - assert (y = t) as -> by (apply Hall; right; left).
    change (remove_dups (t :: t :: l))
      with (if decide_rel elem_of t (t :: l) then remove_dups (t :: l)
            else t :: remove_dups (t :: l)).
    destruct (decide_rel elem_of t (t :: l)) as [_|H]; [|exfalso; apply H; left].
    apply IH; [done|]. intros z Hz. apply Hall. by right.
Qed.

Lemma group_all {K} `{EqDecision K} (key : nat -> K) n s :
  (forall i, (i < n)%nat -> key i = s) -> group key n s = seq 0 n.
Proof.
  induction n as [|n IH]; intros Hall; [done|].
  rewrite group_S, IH, seq_S by (intros i Hi; apply Hall; lia).
  by rewrite decide_True by (apply Hall; lia).
Qed.

(** A replicated execution is the parallel execution of as many copies of
    the computation as there are devices. *)
Lemma ExecuteReplicated_parallel env options_ sched c arguments devices
    explode_tuple w :
  length arguments = length devices ->
  ExecuteReplicated env options_ sched c arguments devices explode_tuple w
  = ExecuteParallel env options_ sched (replicate (length devices) c) arguments
      devices explode_tuple w.
Proof.
  intros Hlen. unfold ExecuteReplicated, ExecuteParallel, bind.
  assert (CreateExecuteOps env options_ ∅ c arguments explode_tuple devices w
          = CreateExecuteOps_parallel env options_ ∅
              (replicate (length devices) c) arguments explode_tuple devices w)
    as ->; [|done].
  unfold CreateExecuteOps, CreateExecuteOps_parallel.
  rewrite length_replicate, Hlen. apply for_each_ext.
  intros i st w' Hi. apply elem_of_seq in Hi. unfold bind, vector_get.
  rewrite lookup_replicate_2 by lia. done.
Qed.

(** C7: a parallel execution, and the replicated execution that is its
    special case, serve the devices of one RPC target with one session and
    one run RPC carrying the nodes of exactly those devices, and return
    the results of the i-th device at index i, whatever order the sessions
    are run in; when all the devices share one target, a single session is
    checked out and a single RPC carries every device's node. *)
Theorem executions_group_devices_by_target
    (env : Environment) (options_ : Options) (sched : Schedule)
    (computations : list XrtComputation) (arguments : list (list XrtData))
    (devices : list string) (explode_tuple : bool) (w : World) :
  (forall s nodes, session_run_ok env s nodes = true) ->
  length computations = length devices ->
  length arguments = length devices ->
  (forall i, (i < length devices)%nat ->
     executable env options_ computations arguments devices explode_tuple
       (rng_seed_ w) i) ->
  exists w' session_for,
    returns (ExecuteParallel env options_ sched computations arguments devices
               explode_tuple) w
      (replica_results env options_ computations arguments devices
         explode_tuple (rng_seed_ w) <$> seq 0 (length devices)) w' /\
    (forall c, computations = replicate (length devices) c ->
       returns (ExecuteReplicated env options_ sched c arguments devices
                  explode_tuple) w
         (replica_results env options_ computations arguments devices
            explode_tuple (rng_seed_ w) <$> seq 0 (length devices)) w') /\
    (forall t, t ∈ targets env options_ devices -> fst (session_for t) = t) /\
    rpcs (new_events w w')
      ≡ₚ (fun t => SessionRun (session_for t)
            (replica_node env options_ computations arguments devices
               explode_tuple (rng_seed_ w)
               <$> replicas_of env options_ devices t))
         <$> targets env options_ devices /\
    sessions_created w'
      = (sessions_created w + length (targets env options_ devices))%nat /\
    (forall t, (0 < length devices)%nat ->
       (forall i, (i < length devices)%nat ->
          replica_target env options_ devices i = t) ->
       rpcs (new_events w w')
         = [SessionRun (session_for t)
              (replica_node env options_ computations arguments devices
                 explode_tuple (rng_seed_ w) <$> seq 0 (length devices))] /\
       sessions_created w' = S (sessions_created w)).
Proof.
  intros Hrun Hcomputations Harguments Hexecutable.
  destruct (CreateExecuteOps_parallel_returns env options_ computations
              arguments devices explode_tuple (rng_seed_ w) Hcomputations
              Harguments Hexecutable w eq_refl)
    as (session_map & w1 & Hcreate & Hkeyed & Hsessions & Htr & Hrng & Hcount).
  destruct (RunComputations_returns env options_ sched computations arguments
              devices explode_tuple (rng_seed_ w) Hrun Hcomputations Harguments
              Hexecutable session_map Hkeyed Hsessions _ eq_refl w1)
    as (w2 & Hrunc & Hcount2 & Hrpcs).
  assert (Hnew : new_events w w2 = new_events w1 w2)
    by (unfold new_events; by rewrite Htr).
  assert (Hparallel :
    returns (ExecuteParallel env options_ sched computations arguments devices
               explode_tuple) w
      (replica_results env options_ computations arguments devices
         explode_tuple (rng_seed_ w) <$> seq 0 (length devices)) w2).
  { unfold ExecuteParallel. eapply returns_bind; [exact Hcreate|]. exact Hrunc. }
  exists w2, (session_at session_map).
  split; [exact Hparallel|]. split; [|split; [|split; [|split; [|]]]].
  - intros c ->. unfold returns.
    rewrite ExecuteReplicated_parallel by done. exact Hparallel.
  - intros t Ht. unfold targets in Ht. rewrite elem_of_remove_dups in Ht.
    apply list_elem_of_fmap in Ht as (i & -> & Hi). apply elem_of_seq in Hi.
    unfold session_at. destruct (Hsessions i ltac:(lia)) as [s Hs].
    rewrite Hs. by apply Hkeyed.
  - by rewrite Hnew.
  - by rewrite Hcount2.
  - intros t Hpos Hall.
    assert (Htargets : targets env options_ devices = [t]).
    { unfold targets. apply remove_dups_constant.
      - destruct devices; [simpl in Hpos; lia|done].
      - intros x (i & -> & Hi)%list_elem_of_fmap. apply elem_of_seq in Hi.
        apply Hall. lia. }
    rewrite Hnew. rewrite Htargets in Hrpcs, Hcount. simpl in Hrpcs, Hcount.
    apply Permutation_singleton_r in Hrpcs. split; [|lia].
    rewrite Hrpcs. unfold replicas_of. by rewrite group_all.
Qed.

(** C7 on the demo topology: one program, two argument lists, the two CPU
    devices of the local worker, the session runners run in reverse. *)
Lemma executions_group_devices_by_target_witness :
  (forall s nodes, session_run_ok Demo.env s nodes = true) /\
  length [Demo.compiled_program; Demo.compiled_program] = length Demo.two_devices /\
  length Demo.two_argument_lists = length Demo.two_devices /\
  (forall i, (i < length Demo.two_devices)%nat ->
     executable Demo.env Demo.options_
       [Demo.compiled_program; Demo.compiled_program] Demo.two_argument_lists
       Demo.two_devices false (rng_seed_ Demo.start) i) /\
  exists w' session_for,
    returns (ExecuteParallel Demo.env Demo.options_ Demo.lifo
               [Demo.compiled_program; Demo.compiled_program]
               Demo.two_argument_lists Demo.two_devices false) Demo.start
      (replica_results Demo.env Demo.options_
         [Demo.compiled_program; Demo.compiled_program] Demo.two_argument_lists
         Demo.two_devices false (rng_seed_ Demo.start)
         <$> seq 0 (length Demo.two_devices)) w' /\
    (forall c,
       [Demo.compiled_program; Demo.compiled_program]
         = replicate (length Demo.two_devices) c ->
       returns (ExecuteReplicated Demo.env Demo.options_ Demo.lifo c
                  Demo.two_argument_lists Demo.two_devices false) Demo.start
         (replica_results Demo.env Demo.options_
            [Demo.compiled_program; Demo.compiled_program]
            Demo.two_argument_lists Demo.two_devices false
            (rng_seed_ Demo.start) <$> seq 0 (length Demo.two_devices)) w') /\
    (forall t, t ∈ targets Demo.env Demo.options_ Demo.two_devices ->
       fst (session_for t) = t) /\
    rpcs (new_events Demo.start w')
      ≡ₚ (fun t => SessionRun (session_for t)
            (replica_node Demo.env Demo.options_
               [Demo.compiled_program; Demo.compiled_program]
               Demo.two_argument_lists Demo.two_devices false
               (rng_seed_ Demo.start)
               <$> replicas_of Demo.env Demo.options_ Demo.two_devices t))
         <$> targets Demo.env Demo.options_ Demo.two_devices /\
    sessions_created w'
      = (sessions_created Demo.start
         + length (targets Demo.env Demo.options_ Demo.two_devices))%nat /\
    (forall t, (0 < length Demo.two_devices)%nat ->
       (forall i, (i < length Demo.two_devices)%nat ->
          replica_target Demo.env Demo.options_ Demo.two_devices i = t) ->
       rpcs (new_events Demo.start w')
         = [SessionRun (session_for t)
              (replica_node Demo.env Demo.options_
                 [Demo.compiled_program; Demo.compiled_program]
                 Demo.two_argument_lists Demo.two_devices false
                 (rng_seed_ Demo.start) <$> seq 0 (length Demo.two_devices))] /\
       sessions_created w' = S (sessions_created Demo.start)).
Proof.
  assert (H1 : forall s nodes, session_run_ok Demo.env s nodes = true)
    by (intros; reflexivity).
  assert (H2 : length [Demo.compiled_program; Demo.compiled_program]
               = length Demo.two_devices) by reflexivity.
  assert (H3 : length Demo.two_argument_lists = length Demo.two_devices)
    by reflexivity.
  assert (H4 : forall i, (i < length Demo.two_devices)%nat ->
     executable Demo.env Demo.options_
       [Demo.compiled_program; Demo.compiled_program] Demo.two_argument_lists
       Demo.two_devices false (rng_seed_ Demo.start) i).
  { intros i Hi. destruct i as [|[|i]]; [| |simpl in Hi; lia];
      (split; [vm_compute; reflexivity|split; [|vm_compute; reflexivity]]);
      by repeat constructor. }
  repeat (split; [assumption|]).
  exact (executions_group_devices_by_target Demo.env Demo.options_ Demo.lifo
           [Demo.compiled_program; Demo.compiled_program]
           Demo.two_argument_lists Demo.two_devices false Demo.start
           H1 H2 H3 H4).
Defined.

(** ** What a call may emit, and calls that fail *)

(** [m] extends the trace by events of which at most [n] are RPCs. *)
Definition emits_at_most {A} (n : nat) (m : M A) : Prop :=
  forall w, exists evs,
    trace (snd (m w)) = trace w ++ evs /\ (length (rpcs evs) <= n)%nat.

(** [m] never returns a result. *)
Definition fails {A} (m : M A) : Prop :=
  forall w, is_Ok (fst (m w)) = false.

Lemma emits_weaken {A} n n' (m : M A) :
  (n <= n')%nat -> emits_at_most n m -> emits_at_most n' m.
Proof. intros Hn Hm w. destruct (Hm w) as (evs & ? & ?). exists evs. split; [done|lia]. Qed.

Lemma emits_same_world {A} (m : M A) :
  (forall w, trace (snd (m w)) = trace w) -> emits_at_most 0 m.
Proof. intros Hm w. exists []. by rewrite app_nil_r, Hm. Qed.

Lemma emits_ret {A} (a : A) : emits_at_most 0 (ret a).
Proof. by apply emits_same_world. Qed.

Lemma emits_fail {A} f : emits_at_most 0 (fail f : M A).
Proof. by apply emits_same_world. Qed.

Lemma emits_lift {A} (r : outcome A) : emits_at_most 0 (lift r).
Proof. apply emits_same_world. intros w. by destruct r. Qed.

Lemma emits_get_world : emits_at_most 0 get_world.
Proof. by apply emits_same_world. Qed.

Lemma emits_vector_get {A} (v : list A) i : emits_at_most 0 (vector_get v i).
Proof. apply emits_same_world. intros w. unfold vector_get. by destruct (v !! i). Qed.

Lemma emits_vector_at {A} (v : list A) i : emits_at_most 0 (vector_at v i).
Proof. apply emits_same_world. intros w. unfold vector_at. by destruct (v !! i). Qed.

Lemma emits_vector_set {A} (v : list A) i a : emits_at_most 0 (vector_set v i a).
Proof. apply emits_same_world. intros w. unfold vector_set. by case_bool_decide. Qed.

Lemma emits_XLA_CHECK cond what : emits_at_most 0 (XLA_CHECK cond what).
Proof. apply emits_same_world. intros w. by destruct cond. Qed.

Lemma emits_deref {A} (p : option A) : emits_at_most 0 (deref p).
Proof. apply emits_same_world. intros w. by destruct p. Qed.

Lemma emits_CheckComputationStatus {A} (status : option A) :
  emits_at_most 0 (CheckComputationStatus status).
Proof. apply emits_same_world. intros w. by destruct status. Qed.

Lemma emits_single_output run_outputs : emits_at_most 0 (single_output run_outputs).
Proof. apply emits_same_world. intros w. by destruct run_outputs as [|? [|? ?]]. Qed.

Lemma emits_counter name value : emits_at_most 0 (emit (Counter name value)).
Proof. intros w. by exists [Counter name value]. Qed.

Lemma emits_Run env session nodes : emits_at_most 1 (Run env session nodes).
Proof. intros w. by exists [SessionRun session nodes]. Qed.

Lemma emits_GetSessionForXrtDevice env options_ xrt_device session_map :
  emits_at_most 0 (GetSessionForXrtDevice env options_ xrt_device session_map).
Proof.
  apply emits_same_world. intros w.
  unfold GetSessionForXrtDevice, GetSessionForTarget, GetSession, bind, lift, ret.
  destruct (GetWorkerForXrtDevice env options_ xrt_device) as [[wk tg]|]; [|done].
  simpl. by destruct (session_map !! tg).
Qed.

Lemma emits_bind {A B} n1 n2 (m : M A) (k : A -> M B) :
  emits_at_most n1 m -> (forall a, emits_at_most n2 (k a)) ->
  emits_at_most (n1 + n2) (bind m k).
Proof.
  intros Hm Hk w. unfold bind. destruct (Hm w) as (evs1 & Htr1 & Hn1).
  destruct (m w) as [[a|f] w1]; simpl in *.
  - destruct (Hk a w1) as (evs2 & Htr2 & Hn2). exists (evs1 ++ evs2).
    rewrite Htr2, Htr1, <- app_assoc, rpcs_app, length_app. split; [done|lia].
  - exists evs1. split; [done|lia].
Qed.

Lemma emits_for_each {A St} (body : A -> St -> M St) (l : list A) s :
  (forall a s, emits_at_most 0 (body a s)) -> emits_at_most 0 (for_each body l s).
Proof.
  intros Hbody. revert s. induction l as [|a l IH]; intros s; [apply emits_ret|].
  simpl. by apply (emits_bind 0 0).
Qed.

Lemma fails_bind_l {A B} (m : M A) (k : A -> M B) : fails m -> fails (bind m k).
Proof.
  intros Hm w. unfold bind. specialize (Hm w). by destruct (m w) as [[a|f] w1].
Qed.

Lemma fails_bind_r {A B} (m : M A) (k : A -> M B) :
  (forall a, fails (k a)) -> fails (bind m k).
Proof.
  intros Hk w. unfold bind. destruct (m w) as [[a|f] w1]; [apply Hk|done].
Qed.

Lemma fails_for_each {A St} (body : A -> St -> M St) (l : list A) a :
  a ∈ l -> (forall s, fails (body a s)) -> forall s, fails (for_each body l s).
Proof.
  intros Ha Hbody. induction l as [|b l IH]; [by apply elem_of_nil in Ha|].
  intros s. simpl. apply elem_of_cons in Ha as [<-|Ha].
  - by apply fails_bind_l.
  - apply fails_bind_r. intros s'. by apply IH.
Qed.

(** The loop rule for runs that may fail, the invariant indexed by the
    number of iterations done. *)
Lemma for_each_outcome_indexed {A St} (body : A -> St -> M St)
    (Inv : nat -> St -> World -> Prop) (Post : outcome St -> World -> Prop)
    (l : list A) (s : St) (w : World) :
  Inv 0%nat s w ->
  (forall k a s w, l !! k = Some a -> Inv k s w ->
     match body a s w with
     | (Ok s', w') => Inv (S k) s' w'
     | (Failed f, w') => Post (Failed f) w'
     end) ->
  (forall s w, Inv (length l) s w -> Post (Ok s) w) ->
  Post (fst (for_each body l s w)) (snd (for_each body l s w)).
Proof.
  revert Inv s w. induction l as [|a l IH]; intros Inv s w Hinv Hstep Hend.
  - simpl. by apply Hend.
  - simpl. unfold bind.
    pose proof (Hstep 0%nat a s w eq_refl Hinv) as Ha.
    destruct (body a s w) as [[s'|f] w']; [|done].
    apply (IH (fun k => Inv (S k))); [done| |done].
    intros k b s0 w0 Hb. by apply (Hstep (S k)).
Qed.

Lemma emits_bind_fails {A B} n (m : M A) (k : A -> M B) :
  emits_at_most n m -> fails m -> emits_at_most n (bind m k).
Proof.
  intros Hm Hf w. unfold bind. specialize (Hf w). destruct (Hm w) as (evs & H).
  destruct (m w) as [[a|f] w1]; [done|]. by exists evs.
Qed.

Lemma fails_bind_vector_get {A B} (v : list A) i a (k : A -> M B) :
  v !! i = Some a -> fails (k a) -> fails (bind (vector_get v i) k).
Proof. intros Hv Hk w. unfold bind, vector_get. rewrite Hv. apply Hk. Qed.

Lemma emits_bind_vector_get {A B} n (v : list A) i a (k : A -> M B) :
  v !! i = Some a -> emits_at_most n (k a) ->
  emits_at_most n (bind (vector_get v i) k).
Proof. intros Hv Hk w. unfold bind, vector_get. rewrite Hv. apply Hk. Qed.

Lemma emits_0_rpcs {A} (m : M A) w :
  emits_at_most 0 m -> rpcs (new_events w (snd (m w))) = [].
Proof.
  intros Hm. destruct (Hm w) as (evs & Htr & Hn).
  rewrite (new_events_app _ _ _ Htr). apply nil_length_inv. lia.
Qed.

Ltac quiet_step :=
  first
    [ apply emits_ret | apply emits_fail | apply emits_lift
    | apply emits_get_world | apply emits_vector_get | apply emits_vector_at
    | apply emits_vector_set | apply emits_XLA_CHECK | apply emits_deref
    | apply emits_CheckComputationStatus | apply emits_single_output
    | apply emits_counter | apply emits_GetSessionForXrtDevice
    | apply emits_for_each; intros
    | apply (emits_bind 0 0); [|intros]
    | match goal with
      | |- emits_at_most _ (match ?x with _ => _ end) => destruct x
      end ].

Ltac quiet := repeat quiet_step.

Lemma emits_plan_op ops k st : emits_at_most 0 (plan_op ops k st).
Proof. unfold plan_op, plan_input, plan_output. quiet. Qed.

Lemma emits_CreateExecuteOps env options_ session_map xrt_computation arguments
    explode_tuple devices :
  emits_at_most 0 (CreateExecuteOps env options_ session_map xrt_computation
                     arguments explode_tuple devices).
Proof.
  unfold CreateExecuteOps, create_execute_op, GetArgumentsInputs. quiet.
Qed.

Lemma emits_split_op env options_ session effective_device ops k st :
  emits_at_most 1 (split_op env options_ session effective_device ops k st).
Proof.
  unfold split_op. apply (emits_bind 0 1); [quiet|]. intros op.
  apply (emits_bind 1 0).
  - destruct (device_data op) as [xrt_data|].
    + apply (emits_weaken 0); [lia|]. quiet.
    + apply (emits_bind 0 1).
      { unfold split_argument. quiet. }
      intros arguments. apply (emits_bind 0 1); [quiet|]. intros c.
      apply (emits_bind 0 1); [apply emits_CreateExecuteOps|].
      intros [session_map exec_ops]. apply (emits_bind 0 1); [quiet|].
      intros front. apply (emits_bind 1 0); [apply emits_Run|].
      intros status. unfold GetComputationResults. quiet.
  - intros [session_map ops_outputs].
    unfold split_output, split_drop, bump_use. quiet.
Qed.

(** ** Chained execution: references to later operations *)

Section ChainedRejection.
Variables (env : Environment) (options_ : Options).
Variables (ops : list ExecuteChainedOp) (device : string).
Variables (i : nat) (op : ExecuteChainedOp) (input : ChainedInput).
Hypothesis Hop : ops !! i = Some op.
Hypothesis Hcomputation : device_data op = None.
Hypothesis Hinput : input ∈ inputs op.
Hypothesis Hforward : (i <= op_index input)%nat.

Lemma offending_in_range : i ∈ seq 0 (length ops).
Proof. apply elem_of_seq. apply lookup_lt_Some in Hop. lia. Qed.

Lemma fails_plan_input plan_inputs : fails (plan_input i input plan_inputs).
Proof.
  intros w. unfold plan_input, bind.
  rewrite bool_decide_eq_false_2 by lia. done.
Qed.

Lemma fails_plan_op st : fails (plan_op ops i st).
Proof.
  destruct st as [plan result_shapes]. unfold plan_op.
  apply (fails_bind_vector_get _ _ _ _ Hop). rewrite Hcomputation.
  apply fails_bind_l, fails_bind_r. intros c.
  apply fails_bind_l, (fails_for_each _ _ input Hinput), fails_plan_input.
Qed.

(** The chained mode stops while building the plan, before its run. *)
Lemma ExecuteChainedXrt_rejects :
  fails (ExecuteChainedXrt env options_ ops device) /\
  emits_at_most 0 (ExecuteChainedXrt env options_ ops device).
Proof.
  assert (Hloop : forall st, fails (for_each (plan_op ops) (seq 0 (length ops)) st)).
  { apply (fails_for_each _ _ i offending_in_range), fails_plan_op. }
  unfold ExecuteChainedXrt. split.
  - apply fails_bind_r. intros effective. apply fails_bind_r. intros xrt_device.
    apply fails_bind_r. intros [session session_map].
    apply fails_bind_r. intros w0. apply fails_bind_l, Hloop.
  - apply (emits_bind 0 0); [quiet|]. intros effective.
    apply (emits_bind 0 0); [quiet|]. intros xrt_device.
    apply (emits_bind 0 0); [quiet|]. intros [session session_map].
    apply (emits_bind 0 0); [quiet|]. intros w0.
    apply emits_bind_fails; [|apply Hloop].
    apply emits_for_each. intros k st. apply emits_plan_op.
Qed.

Lemma fails_split_argument ops_outputs arguments :
  fails (split_argument i ops_outputs input arguments).
Proof.
  intros w. unfold split_argument, bind.
  rewrite bool_decide_eq_false_2 by lia. done.
Qed.

(** The split mode stops at the offending operation, before that
    operation's run. *)
Lemma split_op_rejects session effective_device st :
  fails (split_op env options_ session effective_device ops i st) /\
  emits_at_most 0 (split_op env options_ session effective_device ops i st).
Proof.
  assert (Hargs : forall ops_outputs,
            fails (for_each (split_argument i ops_outputs) (inputs op) [])).
  { intros ops_outputs.
    apply (fails_for_each _ _ input Hinput), fails_split_argument. }
  unfold split_op. split.
  - apply (fails_bind_vector_get _ _ _ _ Hop). rewrite Hcomputation.
    apply fails_bind_l, fails_bind_l, Hargs.
  - apply (emits_bind_vector_get _ _ _ _ _ Hop). rewrite Hcomputation.
    apply emits_bind_fails; [|apply fails_bind_l, Hargs].
    apply emits_bind_fails; [|apply Hargs].
    unfold split_argument. quiet.
Qed.

Lemma split_loop_rejects session effective_device st :
  fails (for_each (split_op env options_ session effective_device ops)
           (seq 0 (length ops)) st) /\
  emits_at_most i (for_each (split_op env options_ session effective_device ops)
                     (seq 0 (length ops)) st).
Proof.
  assert (H : forall w,
    is_Ok (fst (for_each (split_op env options_ session effective_device ops)
                  (seq 0 (length ops)) st w)) = false /\
    exists evs,
      trace (snd (for_each (split_op env options_ session effective_device ops)
                    (seq 0 (length ops)) st w)) = trace w ++ evs /\
      (length (rpcs evs) <= i)%nat).
  { intros w.
    apply (for_each_outcome_indexed
      (split_op env options_ session effective_device ops)
      (fun k _ w' => (k <= i)%nat /\
         exists evs, trace w' = trace w ++ evs /\ (length (rpcs evs) <= k)%nat)
      (fun r w' => is_Ok r = false /\
         exists evs, trace w' = trace w ++ evs /\ (length (rpcs evs) <= i)%nat)).
    - split; [lia|]. exists []. by rewrite app_nil_r.
    - intros k a s w' Hk (Hle & evs & Htr & Hn).
      apply lookup_seq in Hk as [-> Hk]. change (0 + k)%nat with k.
      destruct (decide (k = i)) as [->|Hne].
      + destruct (split_op_rejects session effective_device s) as [Hf He].
        specialize (Hf w'). destruct (He w') as (evs' & Htr' & Hn').
        destruct (split_op env options_ session effective_device ops i s w')
          as [[s'|f] w'']; [done|]. split; [done|].
        exists (evs ++ evs'). simpl in Htr'.
        rewrite Htr', Htr, <- app_assoc, rpcs_app, length_app. split; [done|lia].
      + destruct (emits_split_op env options_ session effective_device ops k s w')
          as (evs' & Htr' & Hn').
        destruct (split_op env options_ session effective_device ops k s w')
          as [[s'|f] w'']; simpl in Htr'.
        * split; [lia|]. exists (evs ++ evs').
          rewrite Htr', Htr, <- app_assoc, rpcs_app, length_app. split; [done|lia].
        * split; [done|]. exists (evs ++ evs').
          rewrite Htr', Htr, <- app_assoc, rpcs_app, length_app. split; [done|lia].
    - intros s w' (Hle & _). rewrite length_seq in Hle.
      apply lookup_lt_Some in Hop. lia. }
  split; intros w; apply H.
Qed.

Lemma ExecuteChainedSplit_rejects :
  fails (ExecuteChainedSplit env options_ ops device) /\
  emits_at_most i (ExecuteChainedSplit env options_ ops device).
Proof.
  unfold ExecuteChainedSplit. split.
  - apply fails_bind_r. intros uses. apply fails_bind_r. intros effective.
    apply fails_bind_r. intros xrt_device.
    apply fails_bind_r. intros [session session_map].
    apply fails_bind_l, split_loop_rejects.
  - apply (emits_bind 0 i); [unfold bump_use; quiet|]. intros uses.
    apply (emits_bind 0 i); [quiet|]. intros effective.
    apply (emits_bind 0 i); [quiet|]. intros xrt_device.
    apply (emits_bind 0 i); [quiet|]. intros [session session_map].
    apply emits_bind_fails; apply split_loop_rejects.
Qed.

End ChainedRejection.

(** In split mode the operations before the offending one have been run
    by the time the reference is rejected: the chain whose second
    operation names itself as input costs one run RPC.  And the inputs of
    device data are not looked at: data naming itself as input is accepted,
    and the chained mode runs its plan. *)
Lemma forward_references_reach_the_service :
  (Demo.forward_ops !! 1%nat = Some Demo.forward_op /\
   device_data Demo.forward_op = None /\
   inputs Demo.forward_op = [{| op_index := 1; in_output_index := None |}] /\
   fst (ExecuteChained Demo.split_env Demo.options_ Demo.forward_ops "CPU:0"
          Demo.start)
     = Failed (CheckFailed "input.op_index < i") /\
   rpcs (new_events Demo.start
           (snd (ExecuteChained Demo.split_env Demo.options_ Demo.forward_ops
                   "CPU:0" Demo.start)))
     = [SessionRun ("grpc://localhost:8470", 0%nat)
          [XRTExecute Demo.cpu0_path 40
             {| return_exploded_tuple := true; rng_seed := 24206546665 |} []]]) /\
  (inputs <$> Demo.self_input_data_ops
     = [[{| op_index := 0; in_output_index := None |}]] /\
   is_Ok (fst (ExecuteChained Demo.env Demo.options_ Demo.self_input_data_ops
                 "CPU:0" Demo.start)) = true /\
   length (rpcs (new_events Demo.start
             (snd (ExecuteChained Demo.env Demo.options_
                     Demo.self_input_data_ops "CPU:0" Demo.start)))) = 1%nat /\
   is_Ok (fst (ExecuteChained Demo.split_env Demo.options_
                 Demo.self_input_data_ops "CPU:0" Demo.start)) = true).
Proof. vm_compute. repeat split. Qed.

(** C5, amended: a chain in which an input of a computation operation
    names an operation at or after its own position never yields a result.
    The chained mode stops while it builds the plan, with no RPC issued;
    the split mode stops when it reaches the offending operation, having
    issued at most one run RPC for each operation before it and none for
    the offending operation or a later one. *)
Theorem forward_reference_is_rejected
    (env : Environment) (options_ : Options) (ops : list ExecuteChainedOp)
    (device : string) (i : nat) (op : ExecuteChainedOp) (input : ChainedInput) :
  ops !! i = Some op -> device_data op = None ->
  input ∈ inputs op -> (i <= op_index input)%nat ->
  fails (ExecuteChainedXrt env options_ ops device) /\
  emits_at_most 0 (ExecuteChainedXrt env options_ ops device) /\
  fails (ExecuteChainedSplit env options_ ops device) /\
  emits_at_most i (ExecuteChainedSplit env options_ ops device) /\
  fails (ExecuteChained env options_ ops device) /\
  emits_at_most i (ExecuteChained env options_ ops device).
Proof.
  intros Hop Hcomputation Hinput Hforward.
  destruct (ExecuteChainedXrt_rejects env options_ ops device i op input
              Hop Hcomputation Hinput Hforward) as [Hfx Hex].
  destruct (ExecuteChainedSplit_rejects env options_ ops device i op input
              Hop Hcomputation Hinput Hforward) as [Hfs Hes].
  repeat (split; [assumption|]). unfold ExecuteChained.
  case_bool_decide; [done|]. split; [done|].
  apply (emits_weaken 0); [lia|done].
Qed.

(** C5 on the demo chain, whose operation 1 names operation 1. *)
Lemma forward_reference_is_rejected_witness :
  Demo.forward_ops !! 1%nat = Some Demo.forward_op /\
  device_data Demo.forward_op = None /\
  {| op_index := 1; in_output_index := None |} ∈ inputs Demo.forward_op /\
  (1 <= op_index {| op_index := 1; in_output_index := None |})%nat /\
  fails (ExecuteChainedXrt Demo.env Demo.options_ Demo.forward_ops "CPU:0") /\
  emits_at_most 0
    (ExecuteChainedXrt Demo.env Demo.options_ Demo.forward_ops "CPU:0") /\
  fails (ExecuteChainedSplit Demo.env Demo.options_ Demo.forward_ops "CPU:0") /\
  emits_at_most 1
    (ExecuteChainedSplit Demo.env Demo.options_ Demo.forward_ops "CPU:0") /\
  fails (ExecuteChained Demo.env Demo.options_ Demo.forward_ops "CPU:0") /\
  emits_at_most 1
    (ExecuteChained Demo.env Demo.options_ Demo.forward_ops "CPU:0").
Proof.
  assert (H1 : Demo.forward_ops !! 1%nat = Some Demo.forward_op) by reflexivity.
  assert (H2 : device_data Demo.forward_op = None) by reflexivity.
  assert (H3 : {| op_index := 1; in_output_index := None |}
               ∈ inputs Demo.forward_op) by (simpl; left).
  assert (H4 : (1 <= op_index {| op_index := 1; in_output_index := None |})%nat)
    by (simpl; lia).
  repeat (split; [assumption|]).
  exact (forward_reference_is_rejected Demo.env Demo.options_ Demo.forward_ops
           "CPU:0" 1%nat Demo.forward_op
           {| op_index := 1; in_output_index := None |} H1 H2 H3 H4).
Defined.

(** ** The two modes of chained execution *)

(** Declaring slot [ri] of a result vector: the vector grows, padded with
    [d], when the slot is beyond its end, and the slot is assigned [a]. *)
Definition declare_slot {A} (d : A) (ri : nat) (a : A) (slots : list A)
    : list A :=
  <[ri := a]> (if bool_decide (length slots <= ri)%nat
               then resize slots (ri + 1) d else slots).

Lemma declare_slot_in_range {A} (d : A) ri (slots : list A) :
  (ri < length (if bool_decide (length slots <= ri)%nat
                then resize slots (ri + 1) d else slots))%nat.
Proof.
  case_bool_decide; [|lia]. unfold resize. rewrite length_app, length_replicate. lia.
Qed.

Lemma declare_slot_lookup {A} (d : A) ri a (slots : list A) :
  declare_slot d ri a slots !! ri = Some a.
Proof. apply list_lookup_insert_eq, declare_slot_in_range. Qed.

Lemma declare_slot_keeps {A} (d : A) ri a (slots : list A) j x :
  slots !! j = Some x -> j <> ri -> declare_slot d ri a slots !! j = Some x.
Proof.
  intros Hj Hne. unfold declare_slot. rewrite list_lookup_insert_ne by done.
  case_bool_decide; [|done]. unfold resize. by apply lookup_app_l_Some.
Qed.

Lemma declare_slot_Forall2 {A B} (R : A -> B -> Prop) d1 d2 ri a1 a2 l1 l2 :
  R d1 d2 -> R a1 a2 -> Forall2 R l1 l2 ->
  Forall2 R (declare_slot d1 ri a1 l1) (declare_slot d2 ri a2 l2).
Proof.
  intros Hd Ha Hl. unfold declare_slot. apply Forall2_insert; [|done].
  rewrite <- (Forall2_length _ _ _ Hl). case_bool_decide; [|done].
  unfold resize. rewrite <- (Forall2_length _ _ _ Hl).
  apply Forall2_app; [done|]. by apply Forall2_replicate.
Qed.

(** The shape an operation produces, and the shape a declared output has. *)
Definition op_result_shape (op : ExecuteChainedOp) : Shape :=
  match device_data op with
  | Some d => data_shape d
  | None =>
      from_option (fun c => result (program_shape c)) default_Shape
        (op_computation op)
  end.

Definition output_shape_of (op_shape : Shape) (o : ChainedOutput) : Shape :=
  match out_output_index o with
  | Some q =>
      match GetTupleElementShape op_shape q with
      | Ok s => s
      | Failed _ => default_Shape
      end
  | None => op_shape
  end.

(** The shapes of the result slots a chain declares. *)
Definition declare_shapes (op : ExecuteChainedOp) (shapes : list Shape)
    : list Shape :=
  foldl (fun shapes o =>
      declare_slot default_Shape (result_index o)
        (output_shape_of (op_result_shape op) o) shapes)
    shapes (outputs op).

Definition chain_shapes (ops : list ExecuteChainedOp) : list Shape :=
  foldl (fun shapes op => declare_shapes op shapes) [] ops.

(** The plan the chained mode sends for a chain. *)
Definition plan_input_of (input : ChainedInput) : PlanInput :=
  {| plan_in_op_index := op_index input;
     plan_in_output_index :=
       match in_output_index input with
       | Some output_index => (output_index + 1)%nat
       | None => 0%nat
       end |}.

Definition plan_output_of (o : ChainedOutput) : PlanOutput :=
  {| plan_result_index := result_index o;
     plan_out_output_index :=
       match out_output_index o with
       | Some output_index => (output_index + 1)%nat
       | None => 0%nat
       end |}.

Definition plan_op_of (op : ExecuteChainedOp) : PlanOp :=
  match device_data op with
  | Some d =>
      {| plan_kind := PlanDataHandle (data_handle d); plan_inputs := [];
         plan_outputs := plan_output_of <$> outputs op |}
  | None =>
      {| plan_kind :=
           PlanComputationHandle
             (from_option computation_handle 0 (op_computation op));
         plan_inputs := plan_input_of <$> inputs op;
         plan_outputs := plan_output_of <$> outputs op |}
  end.

Definition chain_plan (ops : list ExecuteChainedOp) : list PlanOp :=
  plan_op_of <$> ops.

(** The service's reading of a plan: the values of its operations, in
    order, and the values of the result slots they declare, a later
    declaration of a slot replacing an earlier one. *)
Definition plan_declare (v : Value) (slots : list (option Value))
    (output : PlanOutput) : list (option Value) :=
  declare_slot None (plan_result_index output)
    (Some (plan_select v (plan_out_output_index output))) slots.

Definition plan_step (den : Z -> Value)
    (st : list Value * list (option Value)) (op : PlanOp)
    : list Value * list (option Value) :=
  let v := plan_op_value den (fst st) op in
  (fst st ++ [v], foldl (plan_declare v) (snd st) (plan_outputs op)).

Definition plan_values (den : Z -> Value) (plan : list PlanOp) : list Value :=
  fst (foldl (plan_step den) ([], []) plan).

Definition plan_results (den : Z -> Value) (plan : list PlanOp)
    : list (option Value) :=
  snd (foldl (plan_step den) ([], []) plan).

Lemma plan_values_snoc den plan op :
  plan_values den (plan ++ [op])
  = plan_values den plan ++ [plan_op_value den (plan_values den plan) op].
Proof. unfold plan_values. by rewrite foldl_app. Qed.

Lemma plan_results_snoc den plan op :
  plan_results den (plan ++ [op])
  = foldl (plan_declare (plan_op_value den (plan_values den plan) op))
      (plan_results den plan) (plan_outputs op).
Proof. unfold plan_results, plan_values. by rewrite foldl_app. Qed.

Lemma plan_values_length den plan :
  length (plan_values den plan) = length plan.
Proof.
  induction plan as [|op plan IH] using rev_ind; [done|].
  rewrite plan_values_snoc, !length_app, IH. done.
Qed.

Lemma plan_values_take den plan k :
  plan_values den (take k plan) = take k (plan_values den plan).
Proof.
  induction plan as [|op plan IH] using rev_ind.
  { rewrite take_nil. change (plan_values den []) with (@nil Value).
    by rewrite take_nil. }
  rewrite plan_values_snoc. destruct (decide (k <= length plan)%nat) as [Hk|Hk].
  - rewrite !take_app_le by (by rewrite ?plan_values_length). exact IH.
  - rewrite !take_ge by (rewrite ?length_app, ?plan_values_length; simpl; lia).
    apply plan_values_snoc.
Qed.

(** The value of the operation at position [k] is read off the values
    of the operations before it. *)
Lemma plan_values_lookup den plan k op :
  plan !! k = Some op ->
  plan_values den plan !! k
  = Some (plan_op_value den (take k (plan_values den plan)) op).
Proof.
  intros Hop. pose proof (lookup_lt_Some _ _ _ Hop) as Hk.
  rewrite <- (lookup_take_lt _ (S k)) by lia.
  rewrite <- plan_values_take, (take_S_r _ _ _ Hop), plan_values_snoc.
  rewrite plan_values_take.
  rewrite lookup_app_r by (rewrite length_take, plan_values_length; lia).
  rewrite length_take, plan_values_length.
  by replace (k - k `min` length plan)%nat with 0%nat by lia.
Qed.

(** A plan input that names an earlier operation reads the same value
    from the values of the operations before position [k] as from all. *)
Lemma plan_argument_take values k input :
  (plan_in_op_index input < k)%nat ->
  plan_argument (take k values) input = plan_argument values input.
Proof. intros Hlt. unfold plan_argument. by rewrite lookup_take_lt. Qed.

(** What an operation leaves for the operations after it: the data
    itself, or the elements of a tuple result, or the one result. *)
Definition produced_shapes (op : ExecuteChainedOp) : list Shape :=
  match device_data op with
  | Some d => [data_shape d]
  | None =>
      match op_result_shape op with
      | TupleShape elems => elems
      | s => [s]
      end
  end.

(** The values behind what an operation of value [v] leaves for the
    operations after it. *)
Definition produced_values (op : ExecuteChainedOp) (v : Value) : list Value :=
  match device_data op with
  | Some _ => [v]
  | None =>
      match op_result_shape op with
      | TupleShape elems => Element v <$> seq 0 (length elems)
      | _ => [v]
      end
  end.

(** An input names an element of a tuple result, and the whole of device
    data and of a result that is not a tuple. *)
Definition input_indexed_for (producer : ExecuteChainedOp)
    (input : ChainedInput) : Prop :=
  match device_data producer with
  | Some _ => in_output_index input = None
  | None =>
      match op_result_shape producer with
      | TupleShape elems =>
          exists q, in_output_index input = Some q /\ (q < length elems)%nat
      | ArrayShape _ _ => in_output_index input = None
      end
  end.

(** An output names an element of a tuple result, and the whole of a
    result that is not a tuple. *)
Definition indexed_for (op_shape : Shape) (o : ChainedOutput) : Prop :=
  match op_shape with
  | TupleShape elems =>
      exists q, out_output_index o = Some q /\ (q < length elems)%nat
  | ArrayShape _ _ => out_output_index o = None
  end.

(** The discipline under which the two modes are compared, for the
    operation at position [i]: inputs name earlier operations; device data
    lives on the device of the chain and is declared whole; a computation
    has inputs and outputs indexed as the shapes they name require. *)
Definition valid_op (ops : list ExecuteChainedOp) (effective_device : string)
    (i : nat) (op : ExecuteChainedOp) : Prop :=
  match device_data op with
  | Some d =>
      Forall (fun input => (op_index input < i)%nat) (inputs op) /\
      data_device d = effective_device /\
      Forall (fun o => out_output_index o = None) (outputs op)
  | None =>
      is_Some (op_computation op) /\
      Forall (fun input => exists producer,
                (op_index input < i)%nat /\
                ops !! op_index input = Some producer /\
                input_indexed_for producer input)
        (inputs op) /\
      Forall (indexed_for (op_result_shape op)) (outputs op)
  end.

Definition valid_chain (ops : list ExecuteChainedOp) (effective_device : string)
    : Prop :=
  forall i op, ops !! i = Some op -> valid_op ops effective_device i op.

Lemma produced_values_length op v :
  length (produced_values op v) = length (produced_shapes op).
Proof.
  unfold produced_values, produced_shapes. destruct (device_data op); [done|].
  destruct (op_result_shape op); [done|]. by rewrite length_fmap, length_seq.
Qed.

(** What the split mode takes for an input is what the plan of the
    chained mode names for it. *)
Lemma input_indexed_value producer input v :
  input_indexed_for producer input ->
  produced_values producer v !! value_or_0 (in_output_index input)
  = Some (plan_select v (plan_in_output_index (plan_input_of input))).
Proof.
  unfold input_indexed_for, produced_values, plan_input_of.
  destruct (device_data producer); [by intros ->|].
  destruct (op_result_shape producer) as [ty dims|elems]; [by intros ->|].
  intros (q & -> & Hq). cbn [value_or_0 default plan_in_output_index].
  rewrite list_lookup_fmap, lookup_seq_lt by done.
  by replace (q + 1)%nat with (S q) by lia.
Qed.

Lemma input_indexed_in_range producer input :
  input_indexed_for producer input ->
  (value_or_0 (in_output_index input) < length (produced_shapes producer))%nat.
Proof.
  intros H. rewrite <- (produced_values_length producer (Stored 0)).
  by eapply lookup_lt_Some, input_indexed_value.
Qed.

(** The same for the outputs a valid operation declares. *)
Lemma valid_op_output_value ops effective_device i op o v :
  valid_op ops effective_device i op -> o ∈ outputs op ->
  produced_values op v !! value_or_0 (out_output_index o)
  = Some (plan_select v (plan_out_output_index (plan_output_of o))).
Proof.
  unfold valid_op, produced_values, plan_output_of.
  intros Hvalid Ho. destruct (device_data op) as [d|].
  - destruct Hvalid as (_ & _ & Houts). rewrite Forall_forall in Houts.
    by rewrite (Houts o Ho).
  - destruct Hvalid as (_ & _ & Houts). rewrite Forall_forall in Houts.
    specialize (Houts o Ho). unfold indexed_for in Houts.
    destruct (op_result_shape op) as [ty dims|elems]; [by rewrite Houts|].
    destruct Houts as (q & -> & Hq). cbn [value_or_0 default plan_out_output_index].
    rewrite list_lookup_fmap, lookup_seq_lt by done.
    by replace (q + 1)%nat with (S q) by lia.
Qed.

(** The element shape of every output of a valid operation is defined. *)
Lemma valid_op_output ops effective_device i op o :
  valid_op ops effective_device i op -> o ∈ outputs op ->
  match out_output_index o with
  | Some q =>
      GetTupleElementShape (op_result_shape op) q
        = Ok (output_shape_of (op_result_shape op) o)
      /\ produced_shapes op !! q = Some (output_shape_of (op_result_shape op) o)
  | None =>
      produced_shapes op !! 0%nat = Some (output_shape_of (op_result_shape op) o)
  end.
Proof.
  unfold valid_op, output_shape_of, produced_shapes, op_result_shape.
  intros Hvalid Ho. destruct (device_data op) as [d|].
  - destruct Hvalid as (_ & _ & Houts). rewrite Forall_forall in Houts.
    by rewrite (Houts o Ho).
  - destruct Hvalid as (_ & _ & Houts). rewrite Forall_forall in Houts.
    specialize (Houts o Ho). unfold indexed_for in Houts.
    destruct (from_option _ _ _) as [ty dims|elems].
    + by rewrite Houts.
    + destruct Houts as (q & -> & Hq). simpl.
      destruct (lookup_lt_is_Some_2 elems q Hq) as [s Hs]. by rewrite Hs.
Qed.

Lemma plan_inputs_return i ins acc w :
  Forall (fun input => (op_index input < i)%nat) ins ->
  returns (for_each (plan_input i) ins acc) w (acc ++ (plan_input_of <$> ins)) w.
Proof.
  revert acc. induction ins as [|input ins IH]; intros acc Hall.
  - simpl. rewrite app_nil_r. apply returns_ret.
  - inversion Hall as [|? ? Hlt Hrest]; subst. simpl.
    eapply returns_bind.
    + unfold plan_input. eapply returns_bind; [|apply returns_ret].
      apply returns_XLA_CHECK. by apply bool_decide_eq_true_2.
    + specialize (IH (acc ++ [plan_input_of input]) Hrest).
      by rewrite <- app_assoc in IH.
Qed.

Lemma plan_outputs_return op_shape outs acc shapes w :
  Forall (fun o => match out_output_index o with
                   | Some q => GetTupleElementShape op_shape q
                               = Ok (output_shape_of op_shape o)
                   | None => True
                   end) outs ->
  returns (for_each (plan_output op_shape) outs (acc, shapes)) w
    (acc ++ (plan_output_of <$> outs),
     foldl (fun shapes o =>
         declare_slot default_Shape (result_index o)
           (output_shape_of op_shape o) shapes) shapes outs) w.
Proof.
  revert acc shapes. induction outs as [|o outs IH]; intros acc shapes Hall.
  - simpl. rewrite app_nil_r. apply returns_ret.
  - inversion Hall as [|? ? Ho Hrest]; subst. simpl.
    eapply (returns_bind _ _ _
              (acc ++ [plan_output_of o],
               declare_slot default_Shape (result_index o)
                 (output_shape_of op_shape o) shapes) w).
    + unfold plan_output, plan_output_of, declare_slot.
      pose proof (declare_slot_in_range default_Shape (result_index o) shapes)
        as Hrange.
      destruct (out_output_index o) as [q|] eqn:Eq.
      * eapply returns_bind; [by apply returns_lift|].
        eapply returns_bind; [by apply returns_vector_set|]. apply returns_ret.
      * eapply returns_bind; [by apply returns_vector_set|].
        unfold output_shape_of. rewrite Eq. apply returns_ret.
    + specialize (IH (acc ++ [plan_output_of o])
                    (declare_slot default_Shape (result_index o)
                       (output_shape_of op_shape o) shapes) Hrest).
      by rewrite <- app_assoc in IH.
Qed.

Section ChainedModes.
Variables (env : Environment) (options_ : Options).
Variables (ops : list ExecuteChainedOp).
Variables (device effective_device xrt_device target : string) (worker : Worker).
Hypothesis Heffective : GetEffectiveDevice options_ device = Ok effective_device.
Hypothesis Hxrt : SwiftDeviceToXrtDevice options_ effective_device = Ok xrt_device.
Hypothesis Hworker :
  GetWorkerForXrtDevice env options_ xrt_device = Ok (worker, target).
Hypothesis Hrun : forall s nodes, session_run_ok env s nodes = true.
Hypothesis Hvalid : valid_chain ops effective_device.

Lemma plan_op_returns k op plan shapes w :
  ops !! k = Some op ->
  returns (plan_op ops k (plan, shapes)) w
    (plan ++ [plan_op_of op], declare_shapes op shapes) w.
Proof.
  intros Hop. pose proof (Hvalid k op Hop) as Hv.
  assert (Houts : Forall (fun o =>
            match out_output_index o with
            | Some q => GetTupleElementShape (op_result_shape op) q
                        = Ok (output_shape_of (op_result_shape op) o)
            | None => True
            end) (outputs op)).
  { apply Forall_forall. intros o Ho.
    pose proof (valid_op_output _ _ _ _ o Hv Ho) as H.
    destruct (out_output_index o); [by destruct H|done]. }
  unfold plan_op. eapply returns_bind; [by apply returns_vector_get|].
  unfold valid_op in Hv. unfold plan_op_of, declare_shapes.
  unfold op_result_shape in *.
  destruct (device_data op) as [d|].
  - eapply returns_bind; [apply returns_ret|].
    eapply returns_bind; [by apply plan_outputs_return|]. apply returns_ret.
  - destruct Hv as ([c Hc] & Hins & _). rewrite Hc in *. simpl in *.
    eapply (returns_bind _ _ _
              (PlanComputationHandle (computation_handle c),
               result (program_shape c), plan_input_of <$> inputs op) w).
    + eapply returns_bind; [apply returns_ret|].
      eapply returns_bind; [|apply returns_ret].
      apply (plan_inputs_return k (inputs op) []).
      eapply Forall_impl; [exact Hins|]. by intros input (p & Hlt & _).
    + eapply returns_bind; [by apply plan_outputs_return|]. apply returns_ret.
Qed.

(** The chained mode builds the plan of the chain and the shapes of its
    result slots. *)
Lemma plan_loop_returns w :
  returns (for_each (plan_op ops) (seq 0 (length ops)) ([], [])) w
    (chain_plan ops, chain_shapes ops) w.
Proof.
  destruct (for_each_returns (plan_op ops)
    (fun k st w' => w' = w /\
       st = (chain_plan (take k ops), chain_shapes (take k ops)))
    (seq 0 (length ops)) ([], []) w) as (st & w' & Hret & -> & ->).
  - by rewrite take_0.
  - intros k i st w' Hk [-> ->].
    apply lookup_seq in Hk as [-> Hk]. change (0 + k)%nat with k.
    destruct (lookup_lt_is_Some_2 ops k Hk) as [op Hop].
    eexists _, w. split; [by apply plan_op_returns|]. split; [done|].
    rewrite (take_S_r _ _ _ Hop). unfold chain_plan, chain_shapes.
    by rewrite fmap_app, foldl_app.
  - by rewrite length_seq, take_ge in Hret.
Qed.

(** The results of the chained mode: one per handle the service returns,
    with the shape of its slot. *)
Definition xrt_results (handles_vec : list Z) : list DataPtr :=
  (fun '(j, h) =>
     Some {| data_device := effective_device;
             data_shape := default default_Shape (chain_shapes ops !! j);
             data_handle := h |})
    <$> zip (seq 0 (length handles_vec)) handles_vec.

Lemma xrt_results_loop (l : list (nat * Z)) acc w :
  Forall (fun entry => (fst entry < length (chain_shapes ops))%nat) l ->
  returns (for_each (fun '(i, h) results =>
      do shape_i <- vector_at (chain_shapes ops) i;
      ret (results ++ [Some {| data_device := effective_device;
                               data_shape := shape_i;
                               data_handle := h |}])) l acc) w
    (acc ++ ((fun '(j, h) =>
                Some {| data_device := effective_device;
                        data_shape := default default_Shape
                                        (chain_shapes ops !! j);
                        data_handle := h |}) <$> l)) w.
Proof.
  revert acc. induction l as [|[j h] l IH]; intros acc Hall.
  - simpl. rewrite app_nil_r. apply returns_ret.
  - inversion Hall as [|? ? Hj Hrest]; subst. simpl in Hj.
    destruct (lookup_lt_is_Some_2 _ _ Hj) as [s Hs]. simpl.
    eapply returns_bind.
    + eapply returns_bind; [|apply returns_ret].
      unfold vector_at. rewrite Hs. apply returns_ret.
    + specialize (IH (acc ++ [Some {| data_device := effective_device;
                                      data_shape := s; data_handle := h |}])
                    Hrest).
      rewrite <- app_assoc in IH. rewrite Hs. exact IH.
Qed.

Lemma ExecuteChainedXrt_returns handles_vec w :
  session_fetch env target
    (XRTExecuteChained xrt_device (chain_plan ops) (rng_seed_ w))
    = VecInt64 handles_vec ->
  length handles_vec = length (chain_shapes ops) ->
  exists w',
    returns (ExecuteChainedXrt env options_ ops device) w
      (xrt_results handles_vec) w'.
Proof.
  intros Hfetch Hlen. eexists. unfold ExecuteChainedXrt.
  eapply returns_bind; [by apply returns_lift|].
  eapply returns_bind; [by apply returns_lift|].
  eapply returns_bind; [by eapply returns_GetSessionForXrtDevice_new|].
  eapply returns_bind; [apply returns_get_world|].
  eapply returns_bind; [apply plan_loop_returns|].
  eapply returns_bind.
  { unfold Run. eapply returns_bind; [apply returns_emit|]. apply returns_ret. }
  rewrite Hrun. eapply returns_bind; [apply returns_ret|]. simpl.
  eapply returns_bind; [apply returns_ret|].
  rewrite Hfetch.
  eapply returns_bind; [by apply returns_lift|].
  eapply returns_bind.
  { apply (xrt_results_loop _ []). apply Forall_forall. intros [j h] Hin.
    apply elem_of_zip_l in Hin. apply elem_of_seq in Hin. simpl. lia. }
  eapply returns_bind; [apply returns_emit|]. apply returns_ret.
Qed.

(** *** The split mode: reference counts *)

(** The number of inputs among [ins] that name operation [j]. *)
Definition refs_in (ins : list ChainedInput) (j : nat) : Z :=
  Z.of_nat (length (filter (fun input => op_index input = j) ins)).

(** The number of references to operation [j] from position [k] on. *)
Definition refs_from (k j : nat) : Z :=
  refs_in (concat (inputs <$> drop k ops)) j.

Lemma refs_in_nonneg ins j : 0 <= refs_in ins j.
Proof. unfold refs_in. lia. Qed.

Lemma refs_in_cons input ins j :
  refs_in (input :: ins) j
  = (if decide (op_index input = j) then 1 else 0) + refs_in ins j.
Proof.
  unfold refs_in. rewrite filter_cons.
  destruct (decide (op_index input = j)); simpl; lia.
Qed.

Lemma refs_in_app ins1 ins2 j :
  refs_in (ins1 ++ ins2) j = refs_in ins1 j + refs_in ins2 j.
Proof. unfold refs_in. rewrite filter_app, length_app. lia. Qed.

Lemma refs_in_pos input ins :
  input ∈ ins -> 0 < refs_in ins (op_index input).
Proof.
  intros Hin. unfold refs_in.
  assert (Hf : input ∈ filter (fun i => op_index i = op_index input) ins)
    by (by apply list_elem_of_filter).
  destruct (filter _ ins); [by apply elem_of_nil in Hf|simpl; lia].
Qed.

Lemma refs_from_S k op j :
  ops !! k = Some op -> refs_from k j = refs_in (inputs op) j + refs_from (S k) j.
Proof.
  intros Hop. unfold refs_from. rewrite (drop_S _ _ _ Hop). simpl.
  apply refs_in_app.
Qed.

Lemma valid_inputs_in_range k op :
  ops !! k = Some op ->
  Forall (fun input => (op_index input < k)%nat) (inputs op).
Proof.
  intros Hop. pose proof (Hvalid k op Hop) as Hv. unfold valid_op in Hv.
  destruct (device_data op) as [d|].
  - by destruct Hv as (Hins & _).
  - destruct Hv as (_ & Hins & _). eapply Forall_impl; [exact Hins|].
    by intros input (p & Hlt & _).
Qed.

(** [uses[input.op_index] += 1] over a list of inputs. *)
Lemma bump_loop ins uses w :
  Forall (fun input => (op_index input < length uses)%nat) ins ->
  exists uses',
    returns (for_each (bump_use 1) ins uses) w uses' w
    /\ length uses' = length uses
    /\ forall j u, uses !! j = Some u -> uses' !! j = Some (u + refs_in ins j).
Proof.
  revert uses. induction ins as [|input ins IH]; intros uses Hall.
  - exists uses. split; [apply returns_ret|]. split; [done|].
    intros j u Hu. rewrite Hu. f_equal. unfold refs_in. simpl. lia.
  - inversion Hall as [|? ? Hlt Hrest]; subst.
    destruct (lookup_lt_is_Some_2 _ _ Hlt) as [u0 Hu0].
    destruct (IH (<[op_index input := u0 + 1]> uses)) as (uses' & Hret & Hlen & Hval).
    { by rewrite length_insert. }
    exists uses'. split; [|split].
    + simpl. eapply returns_bind; [|exact Hret].
      unfold bump_use. eapply returns_bind; [by apply returns_vector_get|].
      by apply returns_vector_set.
    + by rewrite Hlen, length_insert.
    + intros j u Hu. rewrite refs_in_cons.
      destruct (decide (op_index input = j)) as [<-|Hne].
      * rewrite (Hval (op_index input) (u0 + 1)).
        -- f_equal. rewrite Hu in Hu0. injection Hu0 as ->. lia.
        -- by apply list_lookup_insert_eq.
      * rewrite (Hval j u); [f_equal; lia|].
        by rewrite list_lookup_insert_ne.
Qed.

(** The first pass of the split mode counts the references to every
    operation. *)
Lemma uses_return w :
  exists uses,
    returns (for_each (fun op uses => for_each (bump_use 1) (inputs op) uses)
               ops (replicate (length ops) 0)) w uses w
    /\ length uses = length ops
    /\ forall j, (j < length ops)%nat -> uses !! j = Some (refs_from 0 j).
Proof.
  destruct (for_each_returns
    (fun op uses => for_each (bump_use 1) (inputs op) uses)
    (fun k uses w' => w' = w /\ length uses = length ops /\
       forall j, (j < length ops)%nat ->
         uses !! j = Some (refs_in (concat (inputs <$> take k ops)) j))
    ops (replicate (length ops) 0) w) as (uses & w' & Hret & -> & Hlen & Hval).
  - split; [done|]. split; [apply length_replicate|]. intros j Hj.
    by rewrite lookup_replicate_2.
  - intros k op uses w' Hop (-> & Hlen & Hval).
    destruct (bump_loop (inputs op) uses w) as (uses' & Hret & Hlen' & Hval').
    { eapply Forall_impl; [apply (valid_inputs_in_range k op Hop)|].
      intros input Hlt. simpl in Hlt. apply lookup_lt_Some in Hop. lia. }
    exists uses', w. split; [done|]. split; [done|]. split; [congruence|].
    intros j Hj. rewrite (take_S_r _ _ _ Hop), fmap_app, concat_app. simpl.
    rewrite app_nil_r, refs_in_app. by apply Hval', Hval.
  - exists uses. split; [done|]. split; [done|]. intros j Hj.
    rewrite (Hval j Hj), take_ge by done. done.
Qed.

(** *** The split mode: one operation *)

(** The tensor of handles the service answers an execution with fits the
    result shape: one handle per element of a tuple, one handle else. *)
Definition tensor_fits (t : Tensor) (result_shape : Shape) : Prop :=
  match result_shape with
  | TupleShape elems => exists hs, t = VecInt64 hs /\ length hs = length elems
  | ArrayShape _ _ => exists h, t = ScalarInt64 h
  end.

(** Device data of the shapes an operation produces, on the device of the
    chain. *)
Definition fits (op : ExecuteChainedOp) (l : list XrtData) : Prop :=
  data_shape <$> l = produced_shapes op /\
  Forall (fun d => data_device d = effective_device) l.

(** A result slot of the split mode against the shape of the slot. *)
Definition slot_fits (r : DataPtr) (s : Shape) : Prop :=
  match r with
  | Some d => data_shape d = s /\ data_device d = effective_device
  | None => True
  end.

(** *** The split mode: values *)

(** What the handles of the service stand for. *)
Variable den : Z -> Value.

(** The handles of an answer stand for [v]: the one handle for [v]
    itself, the handles of a vector for the elements of [v]. *)
Definition answer_denotes (t : Tensor) (v : Value) : Prop :=
  match t with
  | VecInt64 hs => forall q h, hs !! q = Some h -> den h = Element v q
  | ScalarInt64 h => den h = v
  | ScalarString _ => True
  end.

Definition answer_handles (t : Tensor) : list Z :=
  match t with
  | VecInt64 hs => hs
  | ScalarInt64 h => [h]
  | ScalarString _ => []
  end.

(** The values of the operations of the chain, as the plan of the chained
    mode has them, and the values behind a list of device data. *)
Definition chain_values : list Value := plan_values den (chain_plan ops).

Definition op_value (j : nat) : Value := default (Stored 0) (chain_values !! j).

Definition handle_values (l : list XrtData) : list Value :=
  den <$> (data_handle <$> l).

(** What operation [j] has left: device data that fits it and stands for
    what it produces. *)
Definition holds (j : nat) (op : ExecuteChainedOp) (l : list XrtData) : Prop :=
  fits op l /\ handle_values l = produced_values op (op_value j).

(** A result slot of the split mode against the value of the slot. *)
Definition slot_denotes (r : DataPtr) (v : option Value) : Prop :=
  match r with
  | Some d => v = Some (den (data_handle d))
  | None => True
  end.

Lemma answer_values t result_shape v :
  tensor_fits t result_shape -> answer_denotes t v ->
  den <$> answer_handles t
  = match result_shape with
    | TupleShape elems => Element v <$> seq 0 (length elems)
    | _ => [v]
    end.
Proof.
  unfold tensor_fits, answer_denotes. destruct result_shape as [ty dims|elems].
  - intros [h ->] Hden. simpl. by rewrite Hden.
  - intros (hs & -> & Hlen) Hden. simpl. apply list_eq. intros q.
    rewrite !list_lookup_fmap. destruct (hs !! q) as [h|] eqn:Hq.
    + rewrite lookup_seq_lt by (rewrite <- Hlen; by eapply lookup_lt_Some).
      simpl. by rewrite (Hden q h Hq).
    + apply lookup_ge_None in Hq. by rewrite lookup_seq_ge by lia.
Qed.

Lemma op_value_eq k op :
  ops !! k = Some op ->
  op_value k
  = plan_op_value den (plan_values den (chain_plan (take k ops))) (plan_op_of op).
Proof.
  intros Hop. unfold op_value, chain_values.
  rewrite (plan_values_lookup den (chain_plan ops) k (plan_op_of op)).
  - unfold chain_plan. by rewrite fmap_take, plan_values_take.
  - unfold chain_plan. by rewrite list_lookup_fmap, Hop.
Qed.

Lemma op_value_data k op d :
  ops !! k = Some op -> device_data op = Some d ->
  op_value k = den (data_handle d).
Proof.
  intros Hop Hd. rewrite (op_value_eq k op Hop).
  unfold plan_op_value, plan_op_of. by rewrite Hd.
Qed.

Lemma op_value_computation k op c :
  ops !! k = Some op -> device_data op = None -> op_computation op = Some c ->
  plan_inputs (plan_op_of op) = plan_input_of <$> inputs op /\
  op_value k
  = Computed (computation_handle c)
      (plan_argument chain_values <$> plan_inputs (plan_op_of op)).
Proof.
  intros Hop Hd Hc. rewrite (op_value_eq k op Hop).
  unfold plan_op_value, plan_op_of. rewrite Hd, Hc. split; [done|].
  cbn [plan_kind plan_inputs from_option]. f_equal.
  unfold chain_plan. rewrite fmap_take, plan_values_take.
  apply Forall_fmap_ext, Forall_fmap, Forall_forall. intros input Hin.
  pose proof (valid_inputs_in_range k op Hop) as Hlt.
  rewrite Forall_forall in Hlt. simpl. apply plan_argument_take, (Hlt input Hin).
Qed.

(** *** The split mode: the steps of one operation *)

Lemma tuple_results elems device_name hs start :
  (start + length hs <= length elems)%nat ->
  exists l,
    foldr (fun '(i, h) acc =>
        outcome_bind (GetTupleElementShape (TupleShape elems) i) (fun shape_i =>
        outcome_bind acc (fun rest =>
        Ok ({| data_device := device_name; data_shape := shape_i;
               data_handle := h |} :: rest))))
      (Ok []) (zip (seq start (length hs)) hs) = Ok l
    /\ data_shape <$> l = take (length hs) (drop start elems)
    /\ Forall (fun d => data_device d = device_name) l
    /\ data_handle <$> l = hs.
Proof.
  revert start. induction hs as [|h hs IH]; intros start Hlen.
  - exists []. by rewrite take_0.
  - simpl in Hlen.
    destruct (IH (S start)) as (l & Hl & Hshapes & Hdev & Hhandles); [lia|].
    destruct (lookup_lt_is_Some_2 elems start ltac:(lia)) as [s Hs].
    exists ({| data_device := device_name; data_shape := s; data_handle := h |} :: l).
    split; [|split; [|split]].
    + change (zip (seq start (length (h :: hs))) (h :: hs))
        with ((start, h) :: zip (seq (S start) (length hs)) hs).
      cbn [foldr]. rewrite Hl. simpl. by rewrite Hs.
    + rewrite fmap_cons, Hshapes, (drop_S _ _ _ Hs). done.
    + by constructor.
    + by rewrite fmap_cons, Hhandles.
Qed.

Lemma computation_results_fits t result_shape device_name :
  tensor_fits t result_shape ->
  exists l,
    computation_results t result_shape device_name = Ok l
    /\ data_shape <$> l = match result_shape with
                          | TupleShape elems => elems
                          | s => [s]
                          end
    /\ Forall (fun d => data_device d = device_name) l
    /\ data_handle <$> l = answer_handles t.
Proof.
  unfold tensor_fits. destruct result_shape as [ty dims|elems].
  - intros [h ->]. eexists. split; [done|]. split; [done|].
    split; [by repeat constructor|done].
  - intros (hs & -> & Hlen).
    destruct (tuple_results elems device_name hs 0)
      as (l & Hl & Hshapes & Hdev & Hhandles); [lia|].
    exists l. split; [done|]. split; [|done].
    by rewrite Hshapes, Hlen, drop_0, take_ge.
Qed.

Variable created : nat.
Abbreviation session := (target, created).

(** [CreateExecuteOps] for the one device of the chain, the session map
    holding the session of the chain. *)
Lemma CreateExecuteOps_single c arguments w :
  Forall (fun d => data_device d = effective_device) arguments ->
  returns (CreateExecuteOps env options_ {[target := session]} c [arguments]
             true [effective_device]) w
    ({[target := session]},
     [XRTExecute xrt_device (computation_handle c)
        {| return_exploded_tuple := true; rng_seed := rng_seed_ w |}
        (data_handle <$> arguments)]) w.
Proof.
  intros Hargs. unfold CreateExecuteOps. simpl.
  eapply returns_bind; [|apply returns_ret]. unfold create_execute_op.
  eapply returns_bind; [by apply returns_vector_get|].
  eapply returns_bind; [by apply returns_vector_get|].
  eapply returns_bind; [by apply GetArgumentsInputs_returns|].
  assert (Hx : SwiftDeviceToXrtDevice options_ effective_device = Ok xrt_device)
    by done.
  eapply returns_bind; [by apply returns_lift|].
  eapply returns_bind; [by eapply returns_GetSessionForXrtDevice_old|].
  eapply returns_bind; [apply returns_get_world|]. apply returns_ret.
Qed.

(** The arguments of a computation: what the operations it names have
    left, which is still there, standing for the values the plan names. *)
Lemma split_arguments_return k ops_outputs ins acc w :
  Forall (fun input => exists l,
            (op_index input < k)%nat /\
            ops_outputs !! op_index input = Some l /\
            (value_or_0 (in_output_index input) < length l)%nat /\
            Forall (fun d => data_device d = effective_device) l /\
            handle_values l !! value_or_0 (in_output_index input)
            = Some (plan_argument chain_values (plan_input_of input))) ins ->
  Forall (fun d => data_device d = effective_device) acc ->
  exists arguments,
    returns (for_each (split_argument k ops_outputs) ins acc) w arguments w
    /\ Forall (fun d => data_device d = effective_device) arguments
    /\ handle_values arguments
       = handle_values acc
         ++ (plan_argument chain_values <$> (plan_input_of <$> ins)).
Proof.
  revert acc. induction ins as [|input ins IH]; intros acc Hall Hacc.
  - exists acc. split; [apply returns_ret|]. split; [done|].
    by rewrite app_nil_r.
  - inversion Hall as [|? ? (l & Hlt & Hl & Hq & Hdev & Hval) Hrest]; subst.
    destruct (lookup_lt_is_Some_2 _ _ Hq) as [d Hd].
    destruct (IH (acc ++ [d]) Hrest) as (arguments & Hret & Hargs & Hvals).
    { apply Forall_app. split; [done|]. constructor; [|done].
      rewrite Forall_forall in Hdev. apply Hdev.
      by eapply list_elem_of_lookup_2. }
    exists arguments. split; [|split; [done|]].
    2:{ rewrite Hvals. unfold handle_values in *.
        rewrite !list_lookup_fmap, Hd in Hval. injection Hval as Hval.
        rewrite !fmap_app, !fmap_cons, <- app_assoc. simpl. by rewrite Hval. }
    simpl.
    eapply returns_bind; [|exact Hret]. unfold split_argument.
    eapply returns_bind.
    { apply returns_XLA_CHECK. by apply bool_decide_eq_true_2. }
    eapply returns_bind; [by apply returns_vector_get|].
    eapply returns_bind.
    { apply returns_XLA_CHECK. by apply bool_decide_eq_true_2. }
    eapply returns_bind; [by apply returns_vector_get|]. apply returns_ret.
Qed.

(** The declared outputs of an operation go to their result slots, with
    the shapes the chained mode records for these slots and the values its
    plan declares for them. *)
Lemma split_outputs_return op l v outs results shapes slots w :
  fits op l -> handle_values l = produced_values op v ->
  Forall (fun o =>
      produced_shapes op !! value_or_0 (out_output_index o)
      = Some (output_shape_of (op_result_shape op) o)) outs ->
  Forall (fun o =>
      produced_values op v !! value_or_0 (out_output_index o)
      = Some (plan_select v (plan_out_output_index (plan_output_of o)))) outs ->
  Forall2 slot_fits results shapes ->
  Forall2 slot_denotes results slots ->
  exists results',
    returns (for_each (split_output l) outs results) w results' w
    /\ Forall2 slot_fits results'
         (foldl (fun shapes o =>
              declare_slot default_Shape (result_index o)
                (output_shape_of (op_result_shape op) o) shapes) shapes outs)
    /\ Forall2 slot_denotes results'
         (foldl (plan_declare v) slots (plan_output_of <$> outs))
    /\ (forall j d, results !! j = Some (Some d) ->
          exists d', results' !! j = Some (Some d'))
    /\ (forall o, o ∈ outs ->
          exists d, results' !! result_index o = Some (Some d)).
Proof.
  intros [Hshapes Hdev] Hvalues. revert results shapes slots.
  induction outs as [|o outs IH];
    intros results shapes slots Hall Hallv Hfit Hden.
  - exists results. split; [apply returns_ret|]. split; [done|]. split; [done|].
    split; [by eauto|]. intros o Ho. by apply elem_of_nil in Ho.
  - inversion Hall as [|? ? Ho Hrest]; subst.
    inversion Hallv as [|? ? Hov Hrestv]; subst.
    rewrite <- Hshapes, list_lookup_fmap in Ho.
    rewrite <- Hvalues in Hov. unfold handle_values in Hov.
    rewrite !list_lookup_fmap in Hov.
    destruct (l !! value_or_0 (out_output_index o)) as [d|] eqn:Hd; [|done].
    simpl in Ho. injection Ho as Ho. simpl in Hov. injection Hov as Hov.
    assert (Hdd : data_device d = effective_device).
    { rewrite Forall_forall in Hdev. apply Hdev.
      by eapply list_elem_of_lookup_2. }
    destruct (IH (declare_slot None (result_index o) (Some d) results)
                (declare_slot default_Shape (result_index o)
                   (output_shape_of (op_result_shape op) o) shapes)
                (plan_declare v slots (plan_output_of o)) Hrest Hrestv)
      as (results' & Hret & Hfit' & Hden' & Hkeep & Hdecl).
    { by apply declare_slot_Forall2. }
    { unfold plan_declare. apply declare_slot_Forall2; [done| |done].
      simpl. by rewrite Hov. }
    exists results'. split; [|split; [done|split; [done|split]]].
    + simpl. eapply returns_bind; [|exact Hret]. unfold split_output.
      eapply returns_bind.
      { apply returns_XLA_CHECK, bool_decide_eq_true_2.
        by eapply lookup_lt_Some. }
      eapply returns_bind; [by apply returns_vector_get|].
      apply returns_vector_set, declare_slot_in_range.
    + intros j d0 Hj. destruct (decide (j = result_index o)) as [->|Hne].
      * apply (Hkeep _ d), declare_slot_lookup.
      * apply (Hkeep _ d0). by apply declare_slot_keeps.
    + intros o' [->|Ho']%elem_of_cons; [|by apply Hdecl].
      apply (Hkeep _ d), declare_slot_lookup.
Qed.

(** Dropping the references of an operation: the counts go down to the
    references from later operations, and what an operation has left is
    cleared only when nothing later names it. *)
Lemma split_drops_return
    (P : nat -> ExecuteChainedOp -> list XrtData -> Prop)
    k ins uses ops_outputs (base : nat -> Z) w :
  (k < length ops)%nat ->
  Forall (fun input => (op_index input < k)%nat) ins ->
  (forall j, 0 <= base j) ->
  length uses = length ops -> length ops_outputs = length ops ->
  (forall j, (j < length ops)%nat -> uses !! j = Some (base j + refs_in ins j)) ->
  (forall j op u, (j <= k)%nat -> ops !! j = Some op -> uses !! j = Some u ->
     0 < u -> exists l, ops_outputs !! j = Some l /\ P j op l) ->
  (forall j, (k < j)%nat -> (j < length ops)%nat -> ops_outputs !! j = Some []) ->
  exists uses' ops_outputs',
    returns (for_each split_drop ins (uses, ops_outputs)) w
      (uses', ops_outputs') w
    /\ length uses' = length ops /\ length ops_outputs' = length ops
    /\ (forall j, (j < length ops)%nat -> uses' !! j = Some (base j))
    /\ (forall j op, (j <= k)%nat -> ops !! j = Some op -> 0 < base j ->
          exists l, ops_outputs' !! j = Some l /\ P j op l)
    /\ (forall j, (k < j)%nat -> (j < length ops)%nat ->
          ops_outputs' !! j = Some []).
Proof.
  intros Hk Hins Hbase. revert uses ops_outputs.
  induction ins as [|input ins IH];
    intros uses ops_outputs Hlu Hlo Huses Hkept Hlater.
  - exists uses, ops_outputs. split; [apply returns_ret|].
    assert (Hu : forall j, (j < length ops)%nat -> uses !! j = Some (base j)).
    { intros j Hj. rewrite (Huses j Hj). f_equal. unfold refs_in. simpl. lia. }
    repeat split; try done. intros j op Hj Hop Hpos.
    apply (Hkept j op (base j)); try done. apply Hu. by eapply lookup_lt_Some.
  - inversion Hins as [|? ? Hlt Hrest]; subst.
    set (idx := op_index input) in *.
    assert (Hidx : (idx < length ops)%nat) by lia.
    pose proof (Huses idx Hidx) as Hu0. rewrite refs_in_cons in Hu0.
    fold idx in Hu0. rewrite decide_True in Hu0 by done.
    set (u0 := base idx + (1 + refs_in ins idx)) in *.
    assert (Hu0pos : 0 < u0).
    { unfold u0. pose proof (Hbase idx). pose proof (refs_in_nonneg ins idx). lia. }
    set (uses1 := <[idx := u0 + -1]> uses).
    set (ops_outputs1 := if bool_decide (u0 + -1 = 0)
                         then <[idx := []]> ops_outputs else ops_outputs).
    destruct (IH Hrest uses1 ops_outputs1) as (uses' & oo' & Hret & Hrest').
    + unfold uses1. by rewrite length_insert.
    + unfold ops_outputs1. case_bool_decide; [by rewrite length_insert|done].
    + intros j Hj. unfold uses1. destruct (decide (j = idx)) as [->|Hne].
      * rewrite list_lookup_insert_eq by lia. f_equal. unfold u0. lia.
      * rewrite list_lookup_insert_ne by done. rewrite (Huses j Hj).
        rewrite refs_in_cons. fold idx. by rewrite decide_False by done.
    + intros j op u Hj Hop Hu Hpos. unfold uses1 in Hu. unfold ops_outputs1.
      destruct (decide (j = idx)) as [->|Hne].
      * rewrite list_lookup_insert_eq in Hu by lia. injection Hu as <-.
        rewrite bool_decide_eq_false_2 by lia.
        by apply (Hkept idx op u0).
      * rewrite list_lookup_insert_ne in Hu by done.
        destruct (Hkept j op u Hj Hop Hu Hpos) as (l & Hl & Hfit).
        exists l. split; [|done].
        case_bool_decide; [by rewrite list_lookup_insert_ne|done].
    + intros j Hj Hjn. unfold ops_outputs1.
      case_bool_decide; [rewrite list_lookup_insert_ne by lia|]; by apply Hlater.
    + exists uses', oo'. split; [|done]. simpl.
      eapply returns_bind; [|exact Hret]. unfold split_drop.
      eapply returns_bind.
      { unfold bump_use. eapply returns_bind; [by apply returns_vector_get|].
        apply returns_vector_set. lia. }
      eapply returns_bind.
      { apply returns_vector_get. apply list_lookup_insert_eq. lia. }
      unfold ops_outputs1. case_bool_decide.
      * eapply returns_bind; [apply returns_vector_set; lia|]. apply returns_ret.
      * apply returns_ret.
Qed.

Hypothesis Hexecute :
  forall op c, op ∈ ops -> op_computation op = Some c ->
    forall config arguments,
      tensor_fits
        (session_fetch env target
           (XRTExecute xrt_device (computation_handle c) config arguments))
        (result (program_shape c)).

(** The service runs the computation of an operation on handles that
    stand for the values of its arguments: the handles of its answer stand
    for the result of the computation on these values. *)
Hypothesis Hdenote :
  forall op c, op ∈ ops -> device_data op = None -> op_computation op = Some c ->
    forall config arguments,
      den <$> arguments
      = plan_argument chain_values <$> plan_inputs (plan_op_of op) ->
      answer_denotes
        (session_fetch env target
           (XRTExecute xrt_device (computation_handle c) config arguments))
        (Computed (computation_handle c) (den <$> arguments)).

(** What holds of the state of the split mode before operation [k]. *)
Definition split_inv (k : nat) (st : SplitState) : Prop :=
  ss_session_map st = {[target := session]} /\
  length (ss_uses st) = length ops /\
  length (ss_ops_outputs st) = length ops /\
  (forall j, (j < length ops)%nat -> ss_uses st !! j = Some (refs_from k j)) /\
  (forall j op, (j < k)%nat -> ops !! j = Some op -> 0 < refs_from k j ->
     exists l, ss_ops_outputs st !! j = Some l /\ holds j op l) /\
  (forall j, (k <= j)%nat -> (j < length ops)%nat ->
     ss_ops_outputs st !! j = Some []) /\
  Forall2 slot_fits (ss_results st) (chain_shapes (take k ops)) /\
  (forall op o, op ∈ take k ops -> o ∈ outputs op ->
     exists d, ss_results st !! result_index o = Some (Some d)) /\
  Forall2 slot_denotes (ss_results st)
    (plan_results den (chain_plan (take k ops))).

(** Operation [k] leaves its data, or the results of its run. *)
Lemma split_produce k op st w :
  split_inv k st -> ops !! k = Some op ->
  exists l w',
    returns
      (match device_data op with
       | Some xrt_data =>
           do ops_outputs_i <- vector_get (ss_ops_outputs st) k;
           do ops_outputs <-
             vector_set (ss_ops_outputs st) k (ops_outputs_i ++ [xrt_data]);
           ret (ss_session_map st, ops_outputs)
       | None =>
           do arguments <-
             for_each (split_argument k (ss_ops_outputs st)) (inputs op) [];
           do xrt_computation <- deref (op_computation op);
           do '(session_map, exec_ops) <-
             CreateExecuteOps env options_ (ss_session_map st) xrt_computation
               [arguments] true [effective_device];
           do front <- vector_get exec_ops 0;
           do status <- Run env session [front];
           do run_outputs <- CheckComputationStatus status;
           do output <- single_output run_outputs;
           do results_i <-
             GetComputationResults output
               (result (program_shape xrt_computation)) effective_device;
           do ops_outputs <- vector_set (ss_ops_outputs st) k results_i;
           ret (session_map, ops_outputs)
       end) w
      ({[target := session]}, <[k := l]> (ss_ops_outputs st)) w'
    /\ holds k op l.
Proof.
  intros (Hsm & Hlu & Hlo & Huses & Hkept & Hlater & _) Hop.
  pose proof (Hvalid k op Hop) as Hv. pose proof (lookup_lt_Some _ _ _ Hop) as Hk.
  pose proof (op_value_data k op) as Hvd.
  pose proof (op_value_computation k op) as Hvc.
  assert (Hmem : op ∈ ops) by (by eapply list_elem_of_lookup_2).
  pose proof (Hdenote op) as Hdenote_op.
  unfold valid_op in Hv.
  unfold holds, fits, produced_values, produced_shapes, op_result_shape.
  destruct (device_data op) as [d|].
  - destruct Hv as (_ & Hdev & _). exists [d], w.
    split; [|split; [by repeat constructor|]].
    + eapply returns_bind; [by apply returns_vector_get, Hlater|].
      eapply returns_bind; [apply returns_vector_set; lia|].
      rewrite Hsm. apply returns_ret.
    + unfold handle_values. simpl. by rewrite (Hvd d Hop eq_refl).
  - destruct Hv as ([c Hc] & Hins & _). rewrite Hc. simpl.
    destruct (Hvc c Hop eq_refl Hc) as [Hplan_inputs Hvalue].
    destruct (split_arguments_return k (ss_ops_outputs st) (inputs op) [] w)
      as (arguments & Hargs & Hdev & Hvals); [|done|].
    { apply Forall_forall. intros input Hin. rewrite Forall_forall in Hins.
      destruct (Hins input Hin) as (producer & Hlt & Hp & Hq).
      destruct (Hkept (op_index input) producer Hlt Hp)
        as (l & Hl & (Hshapes & Hd) & Hlv).
      { rewrite (refs_from_S k op _ Hop).
        pose proof (refs_in_pos input (inputs op) Hin).
        pose proof (refs_in_nonneg
                      (concat (inputs <$> drop (S k) ops)) (op_index input)).
        unfold refs_from. lia. }
      exists l. split; [done|]. split; [done|]. split; [|split; [done|]].
      - rewrite <- (length_fmap data_shape), Hshapes.
        by apply input_indexed_in_range.
      - rewrite Hlv. by apply input_indexed_value. }
    set (node := XRTExecute xrt_device (computation_handle c)
                   {| return_exploded_tuple := true; rng_seed := rng_seed_ w |}
                   (data_handle <$> arguments)).
    assert (Hfits : tensor_fits (session_fetch env target node)
                      (result (program_shape c))).
    { by apply (Hexecute op c). }
    destruct (computation_results_fits (session_fetch env target node)
                (result (program_shape c)) effective_device Hfits)
      as (l & Hl & Hshapes & Hd & Hhandles).
    assert (Hanswer : answer_denotes (session_fetch env target node)
                        (op_value k)).
    { rewrite Hvalue. change (handle_values [] ++ ?x) with x in Hvals.
      rewrite <- Hplan_inputs in Hvals. unfold handle_values in Hvals.
      rewrite <- Hvals. by apply (Hdenote_op c Hmem eq_refl Hc). }
    exists l. eexists. split;
      [|split; [split; [rewrite Hshapes;
                        by destruct (result (program_shape c))|done]|]].
    2:{ unfold handle_values. rewrite Hhandles.
        apply (answer_values _ _ _ Hfits Hanswer). }
    eapply returns_bind; [exact Hargs|].
    eapply returns_bind; [apply returns_ret|].
    rewrite Hsm.
    eapply returns_bind; [by apply CreateExecuteOps_single|].
    eapply returns_bind; [by apply returns_vector_get|].
    eapply returns_bind.
    { unfold Run. eapply returns_bind; [apply returns_emit|]. apply returns_ret. }
    rewrite Hrun. eapply returns_bind; [apply returns_ret|]. simpl.
    eapply returns_bind; [apply returns_ret|].
    eapply returns_bind; [by apply GetComputationResults_returns|].
    eapply returns_bind; [apply returns_vector_set; lia|]. apply returns_ret.
Qed.

(** One operation of the split mode keeps what holds of its state. *)
Lemma split_op_returns k st w :
  (k < length ops)%nat -> split_inv k st ->
  exists st' w',
    returns (split_op env options_ session effective_device ops k st) w st' w'
    /\ split_inv (S k) st'.
Proof.
  intros Hk Hinv. destruct (lookup_lt_is_Some_2 ops k Hk) as [op Hop].
  destruct (split_produce k op st w Hinv Hop)
    as (l & w1 & Hprod & Hfit & Hvalues).
  destruct Hinv
    as (Hsm & Hlu & Hlo & Huses & Hkept & Hlater & Hres & Hdecl & Hden).
  pose proof (Hvalid k op Hop) as Hv.
  destruct (split_outputs_return op l (op_value k) (outputs op) (ss_results st)
              (chain_shapes (take k ops))
              (plan_results den (chain_plan (take k ops))) w1 Hfit Hvalues)
    as (results' & Houts & Hres' & Hden' & Hkeep & Hdecl'); [| |done|done|].
  { apply Forall_forall. intros o Ho.
    pose proof (valid_op_output _ _ _ _ o Hv Ho) as H.
    destruct (out_output_index o); [by destruct H|done]. }
  { apply Forall_forall. intros o Ho.
    by apply (valid_op_output_value ops effective_device k). }
  destruct (split_drops_return holds k (inputs op) (ss_uses st)
              (<[k := l]> (ss_ops_outputs st))
              (fun j => refs_from (S k) j) w1 Hk)
    as (uses' & oo' & Hdrops & Hlu' & Hlo' & Huses' & Hkept' & Hlater').
  - by apply valid_inputs_in_range.
  - intros j. apply refs_in_nonneg.
  - done.
  - by rewrite length_insert.
  - intros j Hj. rewrite (Huses j Hj), (refs_from_S k op j Hop). f_equal. lia.
  - intros j op' u Hj Hop' Hu Hpos. destruct (decide (j = k)) as [->|Hne].
    + exists l. rewrite list_lookup_insert_eq by lia. split; [done|].
      assert (op' = op) as -> by congruence. by split.
    + rewrite list_lookup_insert_ne by done. apply Hkept; [lia|done|].
      rewrite (Huses j) in Hu by (by eapply lookup_lt_Some). by injection Hu as <-.
  - intros j Hj Hjn. rewrite list_lookup_insert_ne by lia. apply Hlater; [lia|done].
  - exists {| ss_session_map := {[target := session]}; ss_uses := uses';
              ss_ops_outputs := oo'; ss_results := results' |}, w1.
    split.
    + unfold split_op. eapply returns_bind; [by apply returns_vector_get|].
      eapply returns_bind; [exact Hprod|]. cbn beta iota.
      eapply returns_bind.
      { apply returns_vector_get, list_lookup_insert_eq. lia. }
      eapply returns_bind; [exact Houts|].
      eapply returns_bind; [exact Hdrops|]. apply returns_ret.
    + split; [done|]. split; [done|]. split; [done|]. split; [done|].
      split; [|split; [|split; [|split]]]; cbn [ss_ops_outputs ss_results].
      * intros j op' Hj Hop' Hpos. apply Hkept'; [lia|done|done].
      * intros j Hj Hjn. apply Hlater'; [lia|done].
      * rewrite (take_S_r _ _ _ Hop). unfold chain_shapes. rewrite foldl_app.
        exact Hres'.
      * intros op' o Hin Ho. rewrite (take_S_r _ _ _ Hop) in Hin.
        apply elem_of_app in Hin as [Hin|Hin].
        -- destruct (Hdecl op' o Hin Ho) as [d Hd]. by apply (Hkeep _ d).
        -- apply list_elem_of_singleton in Hin as ->. by apply Hdecl'.
      * rewrite (take_S_r _ _ _ Hop). unfold chain_plan at 1.
        rewrite fmap_app. fold (chain_plan (take k ops)).
        change (plan_op_of <$> [op]) with [plan_op_of op].
        rewrite plan_results_snoc, <- (op_value_eq k op Hop).
        replace (plan_outputs (plan_op_of op)) with (plan_output_of <$> outputs op)
          by (unfold plan_op_of; by destruct (device_data op)).
        exact Hden'.
Qed.

(** The results of the split mode fit, slot by slot, the shapes the
    chained mode records, every declared slot holds device data, and the
    handles stand for the values the plan of the chained mode declares. *)
Lemma ExecuteChainedSplit_returns w :
  sessions_created w = created ->
  exists results w',
    returns (ExecuteChainedSplit env options_ ops device) w results w'
    /\ Forall2 slot_fits results (chain_shapes ops)
    /\ (forall op o, op ∈ ops -> o ∈ outputs op ->
          exists d, results !! result_index o = Some (Some d))
    /\ Forall2 slot_denotes results (plan_results den (chain_plan ops)).
Proof.
  intros Hcreated. destruct (uses_return w) as (uses & Huses & Hlu & Hval).
  set (w1 := set_sessions_created (S created) w).
  destruct (for_each_returns
    (split_op env options_ session effective_device ops)
    (fun k st _ => split_inv k st)
    (seq 0 (length ops))
    {| ss_session_map := {[target := session]}; ss_uses := uses;
       ss_ops_outputs := replicate (length ops) []; ss_results := [] |} w1)
    as (st & w2 & Hloop & Hinv).
  - split; [done|]. split; [done|]. split; [apply length_replicate|].
    split; [done|]. split; [intros j op Hj; lia|].
    split; [intros j _ Hj; by apply lookup_replicate_2|].
    split; [constructor|].
    split; [intros op o Hin; by apply elem_of_nil in Hin|]. constructor.
  - intros k i st' w' Hk Hinv.
    apply lookup_seq in Hk as [-> Hk]. change (0 + k)%nat with k.
    by apply split_op_returns.
  - rewrite length_seq in Hinv.
    destruct Hinv as (_ & _ & _ & _ & _ & _ & Hres & Hdecl & Hden).
    rewrite take_ge in Hres, Hdecl, Hden by done.
    exists (ss_results st), w2. split; [|done].
    unfold ExecuteChainedSplit.
    eapply returns_bind; [exact Huses|].
    eapply returns_bind; [by apply returns_lift|].
    eapply returns_bind; [by apply returns_lift|].
    eapply returns_bind.
    { pose proof (returns_GetSessionForXrtDevice_new env options_ xrt_device
                    target worker Hworker w) as Hnew.
      rewrite Hcreated in Hnew. exact Hnew. }
    cbn beta iota.
    eapply returns_bind; [exact Hloop|]. apply returns_ret.
Qed.

End ChainedModes.

(** The plan sent by the chained run of a trace. *)
Definition rpc_plan (events : list Event) : list PlanOp :=
  match rpcs events with
  | [SessionRun _ [XRTExecuteChained _ plan _]] => plan
  | _ => []
  end.

Lemma xrt_results_lookup ops effective_device handles_vec j h :
  handles_vec !! j = Some h ->
  xrt_results ops effective_device handles_vec !! j
  = Some (Some {| data_device := effective_device;
                  data_shape := default default_Shape (chain_shapes ops !! j);
                  data_handle := h |}).
Proof.
  intros Hh. unfold xrt_results.
  rewrite list_lookup_fmap, lookup_zip_with, lookup_seq_lt
    by (by eapply lookup_lt_Some).
  simpl. by rewrite Hh.
Qed.

(** The two modes differ on chains whose inputs name earlier operations
    and whose output indices are in range.  Device data of a tuple shape
    declared through an element index: the chained mode returns the
    element, the split mode the whole tuple.  A tuple result declared
    whole: the chained mode returns the tuple, the split mode its first
    element.  A slot no output declares: a handle of the default shape in
    the chained mode, a null pointer in the split mode.  Data of another
    device given to a computation: the split mode stops at the device
    check, the chained mode does not.  An input without an index that
    names a tuple result: the plan of the chained mode passes the whole
    tuple to the computation, the split mode runs the computation on the
    first handle of the exploded tuple, which stands for element 0.  An
    input with index 0 that names device data, or a result that is not a
    tuple: the plan of the chained mode passes element 0 of it, the split
    mode the handle of the whole. *)
Lemma modes_differ_outside_the_discipline :
  (GetTupleElementShape (data_shape Demo.tuple_data) 0 = Ok (ArrayShape F32 [1]) /\
   fst (ExecuteChainedXrt Demo.env Demo.options_ Demo.tuple_element_ops "CPU:0"
          Demo.start)
     = Ok [Some {| data_device := "CPU:0"; data_shape := ArrayShape F32 [1];
                   data_handle := 2000 |}] /\
   fst (ExecuteChainedSplit Demo.env Demo.options_ Demo.tuple_element_ops
          "CPU:0" Demo.start)
     = Ok [Some {| data_device := "CPU:0";
                   data_shape :=
                     TupleShape [ArrayShape F32 [1]; ArrayShape F32 [2]];
                   data_handle := 9 |}]) /\
  (fst (ExecuteChainedXrt Demo.env Demo.options_ Demo.whole_tuple_ops "CPU:0"
          Demo.start)
     = Ok [Some {| data_device := "CPU:0";
                   data_shape :=
                     TupleShape [ArrayShape F32 [1]; ArrayShape F32 [2]];
                   data_handle := 2000 |}] /\
   fst (ExecuteChainedSplit Demo.env Demo.options_ Demo.whole_tuple_ops "CPU:0"
          Demo.start)
     = Ok [Some {| data_device := "CPU:0"; data_shape := ArrayShape F32 [1];
                   data_handle := 1052 |}]) /\
  (fst (ExecuteChainedXrt Demo.env Demo.options_ Demo.gap_ops "CPU:0" Demo.start)
     = Ok [Some {| data_device := "CPU:0"; data_shape := default_Shape;
                   data_handle := 2000 |};
           Some {| data_device := "CPU:0"; data_shape := ArrayShape F32 [2];
                   data_handle := 2001 |}] /\
   fst (ExecuteChainedSplit Demo.env Demo.options_ Demo.gap_ops "CPU:0"
          Demo.start)
     = Ok [None;
           Some {| data_device := "CPU:0"; data_shape := ArrayShape F32 [2];
                   data_handle := 65 |}]) /\
  (is_Ok (fst (ExecuteChainedXrt Demo.env Demo.options_ Demo.remote_data_ops
                 "CPU:0" Demo.start)) = true /\
   fst (ExecuteChainedSplit Demo.env Demo.options_ Demo.remote_data_ops "CPU:0"
          Demo.start)
     = Failed (CheckFailed "device == xrt_data.device()->name()")) /\
  (rpcs (trace (snd (ExecuteChainedXrt Demo.env Demo.options_
                       Demo.whole_input_ops "CPU:0" Demo.start)))
     = [SessionRun ("grpc://localhost:8470", 0%nat)
          [XRTExecuteChained Demo.cpu0_path
             [{| plan_kind := PlanDataHandle 65; plan_inputs := [];
                 plan_outputs := [] |};
              {| plan_kind := PlanComputationHandle 52;
                 plan_inputs :=
                   [{| plan_in_op_index := 0; plan_in_output_index := 0 |};
                    {| plan_in_op_index := 0; plan_in_output_index := 0 |}];
                 plan_outputs := [] |};
              {| plan_kind := PlanComputationHandle 50;
                 plan_inputs :=
                   [{| plan_in_op_index := 1; plan_in_output_index := 0 |}];
                 plan_outputs :=
                   [{| plan_result_index := 0; plan_out_output_index := 0 |}] |}]
             (rng_seed_ Demo.start)]] /\
   plan_results Demo.denotation (chain_plan Demo.whole_input_ops)
     = [Some (Computed 50 [Demo.pair_value])] /\
   rpcs (trace (snd (ExecuteChainedSplit Demo.env Demo.options_
                       Demo.whole_input_ops "CPU:0" Demo.start)))
     = [SessionRun ("grpc://localhost:8470", 0%nat)
          [XRTExecute Demo.cpu0_path 52
             {| return_exploded_tuple := true;
                rng_seed := rng_seed_ Demo.start |} [65; 65]];
        SessionRun ("grpc://localhost:8470", 0%nat)
          [XRTExecute Demo.cpu0_path 50
             {| return_exploded_tuple := true;
                rng_seed := rng_seed_ Demo.start |} [1052]]] /\
   session_fetch Demo.env "grpc://localhost:8470"
     (XRTExecute Demo.cpu0_path 52
        {| return_exploded_tuple := true; rng_seed := rng_seed_ Demo.start |}
        [65; 65])
     = VecInt64 [1052; 1053] /\
   Demo.denotation <$> [1052] = [Element Demo.pair_value 0]) /\
  (plan_inputs
     <$> rpc_plan (trace (snd (ExecuteChainedXrt Demo.env Demo.options_
                                 Demo.indexed_data_input_ops "CPU:0"
                                 Demo.start)))
     = [[]; [{| plan_in_op_index := 0; plan_in_output_index := 1 |}]] /\
   plan_results Demo.denotation (chain_plan Demo.indexed_data_input_ops)
     = [Some (Computed 50 [Element (Stored 65) 0])] /\
   rpcs (trace (snd (ExecuteChainedSplit Demo.env Demo.options_
                       Demo.indexed_data_input_ops "CPU:0" Demo.start)))
     = [SessionRun ("grpc://localhost:8470", 0%nat)
          [XRTExecute Demo.cpu0_path 50
             {| return_exploded_tuple := true;
                rng_seed := rng_seed_ Demo.start |} [65]]] /\
   Demo.denotation <$> [65] = [Stored 65]) /\
  (plan_inputs
     <$> rpc_plan (trace (snd (ExecuteChainedXrt Demo.env Demo.options_
                                 Demo.indexed_result_input_ops "CPU:0"
                                 Demo.start)))
     = [[]; [{| plan_in_op_index := 0; plan_in_output_index := 1 |}]] /\
   plan_results Demo.denotation (chain_plan Demo.indexed_result_input_ops)
     = [Some (Computed 50 [Element (Computed 40 []) 0])] /\
   rpcs (trace (snd (ExecuteChainedSplit Demo.env Demo.options_
                       Demo.indexed_result_input_ops "CPU:0" Demo.start)))
     = [SessionRun ("grpc://localhost:8470", 0%nat)
          [XRTExecute Demo.cpu0_path 40
             {| return_exploded_tuple := true;
                rng_seed := rng_seed_ Demo.start |} []];
        SessionRun ("grpc://localhost:8470", 0%nat)
          [XRTExecute Demo.cpu0_path 50
             {| return_exploded_tuple := true;
                rng_seed := rng_seed_ Demo.start |} [1040]]] /\
   session_fetch Demo.env "grpc://localhost:8470"
     (XRTExecute Demo.cpu0_path 40
        {| return_exploded_tuple := true; rng_seed := rng_seed_ Demo.start |} [])
     = ScalarInt64 1040).
Proof. vm_compute. repeat split. Qed.

(** C9, amended: on a chain that keeps the index discipline of
    [valid_chain], with a service that answers every execution with
    handles fitting the result shape and the chained plan with one handle
    per result slot, and whose handles stand for values as [den] has it
    (the answer to an execution for the result of the computation on the
    values of the argument handles, the answer to a plan for the values
    the plan declares), both modes return; their result lists have the
    same number of slots, and every declared slot holds, in both, device
    data of the same shape on the same device whose handles stand for the
    same value. *)
Theorem chained_modes_agree
    (env : Environment) (options_ : Options) (ops : list ExecuteChainedOp)
    (device effective_device xrt_device target : string) (worker : Worker)
    (den : Z -> Value) (handles_vec : list Z) (w : World) :
  GetEffectiveDevice options_ device = Ok effective_device ->
  SwiftDeviceToXrtDevice options_ effective_device = Ok xrt_device ->
  GetWorkerForXrtDevice env options_ xrt_device = Ok (worker, target) ->
  (forall s nodes, session_run_ok env s nodes = true) ->
  valid_chain ops effective_device ->
  (forall op c, op ∈ ops -> op_computation op = Some c ->
     forall config arguments,
       tensor_fits
         (session_fetch env target
            (XRTExecute xrt_device (computation_handle c) config arguments))
         (result (program_shape c))) ->
  (forall op c, op ∈ ops -> device_data op = None -> op_computation op = Some c ->
     forall config arguments,
       den <$> arguments
       = plan_argument (plan_values den (chain_plan ops))
           <$> plan_inputs (plan_op_of op) ->
       answer_denotes den
         (session_fetch env target
            (XRTExecute xrt_device (computation_handle c) config arguments))
         (Computed (computation_handle c) (den <$> arguments))) ->
  session_fetch env target
    (XRTExecuteChained xrt_device (chain_plan ops) (rng_seed_ w))
    = VecInt64 handles_vec ->
  length handles_vec = length (chain_shapes ops) ->
  (forall r h v, handles_vec !! r = Some h ->
     plan_results den (chain_plan ops) !! r = Some (Some v) -> den h = v) ->
  exists rx wx rs ws,
    returns (ExecuteChainedXrt env options_ ops device) w rx wx /\
    returns (ExecuteChainedSplit env options_ ops device) w rs ws /\
    length rx = length rs /\
    (forall op o, op ∈ ops -> o ∈ outputs op ->
       exists dx ds,
         rx !! result_index o = Some (Some dx) /\
         rs !! result_index o = Some (Some ds) /\
         data_shape dx = data_shape ds /\
         data_device dx = data_device ds /\
         den (data_handle dx) = den (data_handle ds)).
Proof.
  intros Heff Hxrt Hworker Hrun Hvalid Hexecute Hdenote Hfetch Hlen Hplan.
  destruct (ExecuteChainedXrt_returns env options_ ops device effective_device
              xrt_device target worker Heff Hxrt Hworker Hrun Hvalid
              handles_vec w Hfetch Hlen) as (wx & Hx).
  destruct (ExecuteChainedSplit_returns env options_ ops device effective_device
              xrt_device target worker Heff Hxrt Hworker Hrun Hvalid den
              (sessions_created w) Hexecute Hdenote w eq_refl)
    as (rs & ws & Hs & Hfit & Hdecl & Hden).
  exists (xrt_results ops effective_device handles_vec), wx, rs, ws.
  split; [done|]. split; [done|].
  pose proof (Forall2_length _ _ _ Hfit) as Hlrs. split.
  - unfold xrt_results. rewrite length_fmap, length_zip_with, length_seq. lia.
  - intros op o Hop Ho. destruct (Hdecl op o Hop Ho) as [ds Hds].
    destruct (Forall2_lookup_l _ _ _ _ _ Hfit Hds) as (s & Hshape & Hs1 & Hs2).
    destruct (Forall2_lookup_l _ _ _ _ _ Hden Hds) as (v & Hv & Hdv).
    destruct (lookup_lt_is_Some_2 handles_vec (result_index o)) as [h Hh].
    { rewrite Hlen. by eapply lookup_lt_Some. }
    simpl in Hdv. subst v.
    eexists _, ds. split; [by apply xrt_results_lookup|]. split; [done|].
    split; [simpl; by rewrite Hshape|]. split; [done|].
    simpl. by apply (Hplan (result_index o)).
Qed.

(** C9 on the demo chain whose last operation takes element 1 of a tuple
    result: 2000 and 1050 stand for the second program's result on that
    element, 2001 and 1052 for element 0 of the tuple. *)
Lemma chained_modes_agree_witness :
  GetEffectiveDevice Demo.options_ "CPU:0" = Ok "CPU:0" /\
  SwiftDeviceToXrtDevice Demo.options_ "CPU:0" = Ok Demo.cpu0_path /\
  GetWorkerForXrtDevice Demo.env Demo.options_ Demo.cpu0_path
    = Ok (("localservice", 0), "grpc://localhost:8470") /\
  (forall s nodes, session_run_ok Demo.env s nodes = true) /\
  valid_chain Demo.element_chain "CPU:0" /\
  (forall op c, op ∈ Demo.element_chain -> op_computation op = Some c ->
     forall config arguments,
       tensor_fits
         (session_fetch Demo.env "grpc://localhost:8470"
            (XRTExecute Demo.cpu0_path (computation_handle c) config arguments))
         (result (program_shape c))) /\
  (forall op c, op ∈ Demo.element_chain -> device_data op = None ->
     op_computation op = Some c ->
     forall config arguments,
       Demo.denotation <$> arguments
       = plan_argument (plan_values Demo.denotation
                          (chain_plan Demo.element_chain))
           <$> plan_inputs (plan_op_of op) ->
       answer_denotes Demo.denotation
         (session_fetch Demo.env "grpc://localhost:8470"
            (XRTExecute Demo.cpu0_path (computation_handle c) config arguments))
         (Computed (computation_handle c) (Demo.denotation <$> arguments))) /\
  session_fetch Demo.env "grpc://localhost:8470"
    (XRTExecuteChained Demo.cpu0_path (chain_plan Demo.element_chain)
       (rng_seed_ Demo.start))
    = VecInt64 [2000; 2001] /\
  length [2000; 2001] = length (chain_shapes Demo.element_chain) /\
  (forall r h v, [2000; 2001] !! r = Some h ->
     plan_results Demo.denotation (chain_plan Demo.element_chain) !! r
       = Some (Some v) ->
     Demo.denotation h = v) /\
  exists rx wx rs ws,
    returns (ExecuteChainedXrt Demo.env Demo.options_ Demo.element_chain "CPU:0")
      Demo.start rx wx /\
    returns (ExecuteChainedSplit Demo.env Demo.options_ Demo.element_chain
               "CPU:0") Demo.start rs ws /\
    length rx = length rs /\
    (forall op o, op ∈ Demo.element_chain -> o ∈ outputs op ->
       exists dx ds,
         rx !! result_index o = Some (Some dx) /\
         rs !! result_index o = Some (Some ds) /\
         data_shape dx = data_shape ds /\
         data_device dx = data_device ds /\
         Demo.denotation (data_handle dx) = Demo.denotation (data_handle ds)).
Proof.
  assert (H1 : GetEffectiveDevice Demo.options_ "CPU:0" = Ok "CPU:0")
    by reflexivity.
  assert (H2 : SwiftDeviceToXrtDevice Demo.options_ "CPU:0" = Ok Demo.cpu0_path)
    by (vm_compute; reflexivity).
  assert (H3 : GetWorkerForXrtDevice Demo.env Demo.options_ Demo.cpu0_path
               = Ok (("localservice", 0), "grpc://localhost:8470"))
    by (vm_compute; reflexivity).
  assert (H4 : forall s nodes, session_run_ok Demo.env s nodes = true)
    by (intros; reflexivity).
  assert (H5 : valid_chain Demo.element_chain "CPU:0").
  { intros i op Hop. destruct i as [|[|[|i]]]; simpl in Hop; [| | |done];
      injection Hop as <-; unfold valid_op; simpl.
    - by repeat constructor.
    - split; [by eexists|]. split.
      + repeat constructor;
          (eexists; split; [simpl; lia|]; split; reflexivity).
      + repeat constructor. exists 0%nat. split; [reflexivity|simpl; lia].
    - split; [by eexists|]. split; [|by repeat constructor].
      repeat constructor. eexists. split; [simpl; lia|].
      split; [reflexivity|]. exists 1%nat. split; [reflexivity|simpl; lia]. }
  assert (H6 : forall op c, op ∈ Demo.element_chain ->
     op_computation op = Some c ->
     forall config arguments,
       tensor_fits
         (session_fetch Demo.env "grpc://localhost:8470"
            (XRTExecute Demo.cpu0_path (computation_handle c) config arguments))
         (result (program_shape c))).
  { intros op c Hin Hc config arguments. unfold Demo.element_chain in Hin.
    repeat (apply elem_of_cons in Hin as [->|Hin]);
      [| | |by apply elem_of_nil in Hin]; simpl in Hc; [done| |];
      injection Hc as <-.
    - eexists. by split.
    - by eexists. }
  assert (H7 : forall op c, op ∈ Demo.element_chain -> device_data op = None ->
     op_computation op = Some c ->
     forall config arguments,
       Demo.denotation <$> arguments
       = plan_argument (plan_values Demo.denotation
                          (chain_plan Demo.element_chain))
           <$> plan_inputs (plan_op_of op) ->
       answer_denotes Demo.denotation
         (session_fetch Demo.env "grpc://localhost:8470"
            (XRTExecute Demo.cpu0_path (computation_handle c) config arguments))
         (Computed (computation_handle c) (Demo.denotation <$> arguments))).
  { intros op c Hin Hd Hc config arguments Hargs.
    unfold Demo.element_chain in Hin.
    repeat (apply elem_of_cons in Hin as [->|Hin]);
      [| | |by apply elem_of_nil in Hin]; simpl in Hc, Hd; [done| |];
      injection Hc as <-; rewrite Hargs.
    - intros q h Hq. destruct q as [|[|q]]; simpl in Hq; [| |done];
        injection Hq as <-; reflexivity.
    - reflexivity. }
  assert (H8 : session_fetch Demo.env "grpc://localhost:8470"
                 (XRTExecuteChained Demo.cpu0_path
                    (chain_plan Demo.element_chain) (rng_seed_ Demo.start))
               = VecInt64 [2000; 2001]) by reflexivity.
  assert (H9 : length [2000; 2001] = length (chain_shapes Demo.element_chain))
    by reflexivity.
  assert (H10 : forall r h v, [2000; 2001] !! r = Some h ->
     plan_results Demo.denotation (chain_plan Demo.element_chain) !! r
       = Some (Some v) ->
     Demo.denotation h = v).
  { intros r h v Hh Hv. destruct r as [|[|r]]; simpl in Hh; [| |done];
      injection Hh as <-; vm_compute in Hv; injection Hv as <-; reflexivity. }
  repeat (split; [assumption|]).
  exact (chained_modes_agree Demo.env Demo.options_ Demo.element_chain "CPU:0"
           "CPU:0" Demo.cpu0_path "grpc://localhost:8470" ("localservice", 0)
           Demo.denotation [2000; 2001] Demo.start
           H1 H2 H3 H4 H5 H6 H7 H8 H9 H10).
Defined.

(** ** Device strings given to an execution *)

(** C10: on the demo topology the default device is "CPU:0", and the
    device strings "" and ":0" resolve to it.  [ExecuteComputation]
    resolves the string before it checks the arguments, and runs a
    computation on data living on "CPU:0" under "", ":0" and "CPU:0"
    alike.  [ExecuteReplicated] and [ExecuteParallel] hand the strings as
    given to the same check of [GetArgumentsInputs]: under "CPU:0" they
    run, under "" and ":0" they stop at the check, although they resolve
    the same strings for the session and the results, as the run without
    arguments under "" shows. *)
Theorem replicated_execution_compares_the_unresolved_device :
  let d := {| data_device := "CPU:0"; data_shape := ArrayShape F32 [2];
              data_handle := 65 |} in
  let r := {| data_device := "CPU:0"; data_shape := ArrayShape F32 [2];
              data_handle := 1050 |} in
  let unresolved := Failed (CheckFailed "device == xrt_data.device()->name()") in
  (GetEffectiveDevice Demo.options_ "" = Ok "CPU:0" /\
   GetEffectiveDevice Demo.options_ ":0" = Ok "CPU:0" /\
   GetEffectiveDevice Demo.options_ "CPU:0" = Ok "CPU:0") /\
  (fst (ExecuteComputation Demo.env Demo.options_ Demo.second_program [d]
          "" false Demo.start) = Ok [r] /\
   fst (ExecuteComputation Demo.env Demo.options_ Demo.second_program [d]
          ":0" false Demo.start) = Ok [r] /\
   fst (ExecuteComputation Demo.env Demo.options_ Demo.second_program [d]
          "CPU:0" false Demo.start) = Ok [r]) /\
  (fst (ExecuteReplicated Demo.env Demo.options_ Demo.fifo Demo.second_program
          [[d]] ["CPU:0"] false Demo.start) = Ok [[r]] /\
   fst (ExecuteReplicated Demo.env Demo.options_ Demo.fifo Demo.second_program
          [[d]] [""] false Demo.start) = unresolved /\
   fst (ExecuteReplicated Demo.env Demo.options_ Demo.fifo Demo.second_program
          [[d]] [":0"] false Demo.start) = unresolved /\
   fst (ExecuteReplicated Demo.env Demo.options_ Demo.fifo Demo.second_program
          [[]] [""] false Demo.start) = Ok [[r]]) /\
  (fst (ExecuteParallel Demo.env Demo.options_ Demo.fifo [Demo.second_program]
          [[d]] ["CPU:0"] false Demo.start) = Ok [[r]] /\
   fst (ExecuteParallel Demo.env Demo.options_ Demo.fifo [Demo.second_program]
          [[d]] [""] false Demo.start) = unresolved /\
   fst (ExecuteParallel Demo.env Demo.options_ Demo.fifo [Demo.second_program]
          [[d]] [":0"] false Demo.start) = unresolved /\
   fst (ExecuteParallel Demo.env Demo.options_ Demo.fifo [Demo.second_program]
          [[]] [""] false Demo.start) = Ok [[r]]).
Proof. vm_compute. repeat split. Qed.

(** * Further properties of the client *)

(** ** Execution on one device *)

(** X1: [ExecuteComputation] checks one session out, issues exactly one
    run RPC on it, carrying the computation handle and the argument
    handles in order on the effective device, and returns the device data
    of the handles the service answers with. *)
Theorem ExecuteComputation_single_rpc
    (env : Environment) (options_ : Options) (c : XrtComputation)
    (arguments : list XrtData) (device effective xrt_device target : string)
    (worker : Worker) (explode_tuple : bool) (results : list XrtData)
    (w : World) :
  let node :=
    XRTExecute xrt_device (computation_handle c)
      {| return_exploded_tuple := explode_tuple; rng_seed := rng_seed_ w |}
      (data_handle <$> arguments) in
  GetEffectiveDevice options_ device = Ok effective ->
  SwiftDeviceToXrtDevice options_ effective = Ok xrt_device ->
  GetWorkerForXrtDevice env options_ xrt_device = Ok (worker, target) ->
  Forall (fun d => data_device d = effective) arguments ->
  session_run_ok env (target, sessions_created w) [node] = true ->
  computation_results (session_fetch env target node)
    (result (program_shape c)) effective = Ok results ->
  exists w',
    returns (ExecuteComputation env options_ c arguments device explode_tuple)
      w results w' /\
    rpcs (new_events w w') = [SessionRun (target, sessions_created w) [node]] /\
    sessions_created w' = S (sessions_created w).
Proof.
  intros node Heff Hxrt Hworker Hargs Hrun Hres.
  set (session := (target, sessions_created w)).
  set (w1 := set_sessions_created (S (sessions_created w)) w).
  set (w2 := set_trace (trace w1 ++ [SessionRun session [node]]) w1).
  exists (set_trace (trace w2 ++ [Counter "CreateDataHandles"
                                    (Z.of_nat (length results))]) w2).
  split; [|split; [|done]].
  - unfold ExecuteComputation.
    eapply returns_bind; [by apply returns_lift|].
    eapply (returns_bind _ _ _ ({[target := session]}, [node]) w1).
    { unfold CreateExecuteOps. simpl.
      eapply returns_bind; [|apply returns_ret]. unfold create_execute_op.
      eapply returns_bind; [by apply returns_vector_get|].
      eapply returns_bind; [by apply returns_vector_get|].
      eapply returns_bind; [by apply GetArgumentsInputs_returns|].
      eapply returns_bind; [by apply returns_lift|].
      eapply returns_bind; [by eapply returns_GetSessionForXrtDevice_new|].
      eapply returns_bind; [apply returns_get_world|]. apply returns_ret. }
    cbn beta iota.
    eapply returns_bind.
    { unfold GetSessionForDevice.
      eapply returns_bind; [by apply returns_lift|].
      by eapply returns_GetSessionForXrtDevice_old. }
    cbn beta iota.
    eapply returns_bind; [by apply returns_vector_get|].
    eapply returns_bind.
    { unfold Run. eapply returns_bind; [apply returns_emit|]. apply returns_ret. }
    fold session in Hrun. rewrite Hrun.
    eapply returns_bind; [apply returns_ret|]. simpl.
    eapply returns_bind; [apply returns_ret|].
    by apply GetComputationResults_returns.
  - rewrite (new_events_app w _
               [SessionRun session [node];
                Counter "CreateDataHandles" (Z.of_nat (length results))]).
    + done.
    + simpl. by rewrite <- app_assoc.
Qed.

(** X1 on the demo topology: the tuple program on "CPU:0", its result
    exploded into two device data. *)
Lemma ExecuteComputation_single_rpc_witness :
  let node :=
    XRTExecute Demo.cpu0_path 52
      {| return_exploded_tuple := true; rng_seed := rng_seed_ Demo.start |}
      [65] in
  let arguments :=
    [{| data_device := "CPU:0"; data_shape := ArrayShape F32 [2];
        data_handle := 65 |}] in
  let results :=
    [{| data_device := "CPU:0"; data_shape := ArrayShape F32 [1];
        data_handle := 1052 |};
     {| data_device := "CPU:0"; data_shape := ArrayShape F32 [2];
        data_handle := 1053 |}] in
  GetEffectiveDevice Demo.options_ "" = Ok "CPU:0" /\
  SwiftDeviceToXrtDevice Demo.options_ "CPU:0" = Ok Demo.cpu0_path /\
  GetWorkerForXrtDevice Demo.env Demo.options_ Demo.cpu0_path
    = Ok (("localservice", 0), "grpc://localhost:8470") /\
  Forall (fun d => data_device d = "CPU:0") arguments /\
  session_run_ok Demo.env ("grpc://localhost:8470", sessions_created Demo.start)
    [node] = true /\
  computation_results (session_fetch Demo.env "grpc://localhost:8470" node)
    (result (program_shape Demo.tuple_program)) "CPU:0" = Ok results /\
  exists w',
    returns (ExecuteComputation Demo.env Demo.options_ Demo.tuple_program
               arguments "" true) Demo.start results w' /\
    rpcs (new_events Demo.start w')
      = [SessionRun ("grpc://localhost:8470", sessions_created Demo.start)
           [node]] /\
    sessions_created w' = S (sessions_created Demo.start).
Proof.
  intros node arguments results.
  assert (H1 : GetEffectiveDevice Demo.options_ "" = Ok "CPU:0") by reflexivity.
  assert (H2 : SwiftDeviceToXrtDevice Demo.options_ "CPU:0" = Ok Demo.cpu0_path)
    by (vm_compute; reflexivity).
  assert (H3 : GetWorkerForXrtDevice Demo.env Demo.options_ Demo.cpu0_path
               = Ok (("localservice", 0), "grpc://localhost:8470"))
    by (vm_compute; reflexivity).
  assert (H4 : Forall (fun d => data_device d = "CPU:0") arguments)
    by (by repeat constructor).
  assert (H5 : session_run_ok Demo.env
                 ("grpc://localhost:8470", sessions_created Demo.start) [node]
               = true) by reflexivity.
  assert (H6 : computation_results
                 (session_fetch Demo.env "grpc://localhost:8470" node)
                 (result (program_shape Demo.tuple_program)) "CPU:0"
               = Ok results) by reflexivity.
  repeat (split; [assumption|]).
  exact (ExecuteComputation_single_rpc Demo.env Demo.options_ Demo.tuple_program
           arguments "" "CPU:0" Demo.cpu0_path "grpc://localhost:8470"
           ("localservice", 0) true results Demo.start H1 H2 H3 H4 H5 H6).
Defined.

Lemma fails_bind_lift {A B} (r : outcome A) a (k : A -> M B) :
  r = Ok a -> fails (k a) -> fails (bind (lift r) k).
Proof. intros -> Hk w. apply Hk. Qed.

Lemma emits_bind_lift {A B} n (r : outcome A) a (k : A -> M B) :
  r = Ok a -> emits_at_most n (k a) -> emits_at_most n (bind (lift r) k).
Proof. intros -> Hk w. apply Hk. Qed.

Lemma fails_lift {A} (r : outcome A) : is_Ok r = false -> fails (lift r).
Proof. intros Hr w. by destruct r. Qed.

Lemma GetArgumentsInputs_fails arguments device d :
  d ∈ arguments -> data_device d <> device ->
  fails (GetArgumentsInputs arguments device).
Proof.
  intros Hd Hne. unfold GetArgumentsInputs.
  apply (fails_for_each _ _ d Hd). intros acc w. unfold bind.
  by rewrite bool_decide_eq_false_2 by congruence.
Qed.

Lemma create_execute_op_fails env options_ c arguments explode_tuple devices
    i arguments_i device_i d st :
  arguments !! i = Some arguments_i -> devices !! i = Some device_i ->
  d ∈ arguments_i -> data_device d <> device_i ->
  fails (create_execute_op env options_ c arguments explode_tuple devices i st).
Proof.
  intros Ha Hd Hin Hne. destruct st as [session_map exec_ops].
  unfold create_execute_op.
  apply (fails_bind_vector_get _ _ _ _ Ha).
  apply (fails_bind_vector_get _ _ _ _ Hd).
  by apply fails_bind_l, (GetArgumentsInputs_fails _ _ d).
Qed.

Lemma emits_CreateExecuteOps_parallel env options_ session_map computations
    arguments explode_tuple devices :
  emits_at_most 0 (CreateExecuteOps_parallel env options_ session_map
                     computations arguments explode_tuple devices).
Proof.
  unfold CreateExecuteOps_parallel, create_execute_op, GetArgumentsInputs. quiet.
Qed.

(** X2: [ExecuteComputation] stops at the device check of
    [GetArgumentsInputs], before any RPC, when an argument lives on a
    device whose name is not the effective device. *)
Theorem ExecuteComputation_rejects_foreign_argument
    (env : Environment) (options_ : Options) (c : XrtComputation)
    (arguments : list XrtData) (device effective : string)
    (explode_tuple : bool) (d : XrtData) :
  GetEffectiveDevice options_ device = Ok effective ->
  d ∈ arguments -> data_device d <> effective ->
  fails (ExecuteComputation env options_ c arguments device explode_tuple) /\
  emits_at_most 0
    (ExecuteComputation env options_ c arguments device explode_tuple).
Proof.
  intros Heff Hd Hne.
  assert (Hcreate : fails (CreateExecuteOps env options_ ∅ c [arguments]
                             explode_tuple [effective])).
  { unfold CreateExecuteOps. apply (fails_for_each _ _ 0%nat); [by left|].
    intros st. by apply (create_execute_op_fails _ _ _ _ _ _ _ arguments effective d). }
  unfold ExecuteComputation. split.
  - apply (fails_bind_lift _ _ _ Heff). by apply fails_bind_l.
  - apply (emits_bind_lift _ _ _ _ Heff).
    apply emits_bind_fails; [apply emits_CreateExecuteOps|done].
Qed.

(** X3: a replicated or parallel execution stops at the same check,
    before any RPC, when an argument of replica [i] lives on a device whose
    name is not the caller's [devices[i]] string as given. *)
Theorem replica_argument_on_other_device_is_rejected
    (env : Environment) (options_ : Options) (sched : Schedule)
    (c : XrtComputation) (computations : list XrtComputation)
    (arguments : list (list XrtData)) (devices : list string)
    (explode_tuple : bool) (i : nat) (arguments_i : list XrtData)
    (device_i : string) (d : XrtData) :
  arguments !! i = Some arguments_i -> devices !! i = Some device_i ->
  d ∈ arguments_i -> data_device d <> device_i ->
  fails (ExecuteReplicated env options_ sched c arguments devices explode_tuple) /\
  emits_at_most 0
    (ExecuteReplicated env options_ sched c arguments devices explode_tuple) /\
  ((i < length computations)%nat ->
   fails (ExecuteParallel env options_ sched computations arguments devices
            explode_tuple) /\
   emits_at_most 0
     (ExecuteParallel env options_ sched computations arguments devices
        explode_tuple)).
Proof.
  intros Ha Hd Hin Hne.
  assert (Hreplicated : fails (CreateExecuteOps env options_ ∅ c arguments
                                 explode_tuple devices)).
  { unfold CreateExecuteOps. apply (fails_for_each _ _ i).
    - apply elem_of_seq. apply lookup_lt_Some in Ha. lia.
    - intros st. by apply (create_execute_op_fails _ _ _ _ _ _ _ arguments_i
                             device_i d). }
  assert (Hparallel : (i < length computations)%nat ->
            fails (CreateExecuteOps_parallel env options_ ∅
                     computations arguments explode_tuple devices)).
  { intros Hi. unfold CreateExecuteOps_parallel. apply (fails_for_each _ _ i).
    - apply elem_of_seq. lia.
    - intros st. destruct (lookup_lt_is_Some_2 computations i Hi) as [ci Hci].
      apply (fails_bind_vector_get _ _ _ _ Hci).
      by apply (create_execute_op_fails _ _ _ _ _ _ _ arguments_i device_i d). }
  unfold ExecuteReplicated, ExecuteParallel.
  split; [by apply fails_bind_l|].
  split; [apply emits_bind_fails; [apply emits_CreateExecuteOps|done]|].
  intros Hi. split; [by apply fails_bind_l, Hparallel|].
  apply emits_bind_fails; [apply emits_CreateExecuteOps_parallel|by apply Hparallel].
Qed.

(** X2 on the demo topology: data of "CPU:0" given to an execution on
    "CPU:1". *)
Lemma ExecuteComputation_rejects_foreign_argument_witness :
  let d := {| data_device := "CPU:0"; data_shape := ArrayShape F32 [2];
              data_handle := 65 |} in
  GetEffectiveDevice Demo.options_ "CPU:1" = Ok "CPU:1" /\
  d ∈ [d] /\ data_device d <> "CPU:1" /\
  fails (ExecuteComputation Demo.env Demo.options_ Demo.second_program [d]
           "CPU:1" false) /\
  emits_at_most 0
    (ExecuteComputation Demo.env Demo.options_ Demo.second_program [d]
       "CPU:1" false).
Proof.
  intros d.
  assert (H1 : GetEffectiveDevice Demo.options_ "CPU:1" = Ok "CPU:1")
    by reflexivity.
  assert (H2 : d ∈ [d]) by left.
  assert (H3 : data_device d <> "CPU:1") by (simpl; congruence).
  repeat (split; [assumption|]).
  exact (ExecuteComputation_rejects_foreign_argument Demo.env Demo.options_
           Demo.second_program [d] "CPU:1" "CPU:1" false d H1 H2 H3).
Defined.

(** X3 on the demo topology: the caller names the default device by the
    empty string, the argument lives on "CPU:0", which is that device. *)
Lemma replica_argument_on_other_device_is_rejected_witness :
  let d := {| data_device := "CPU:0"; data_shape := ArrayShape F32 [2];
              data_handle := 65 |} in
  [[d]] !! 0%nat = Some [d] /\ [""] !! 0%nat = Some "" /\
  d ∈ [d] /\ data_device d <> "" /\
  GetEffectiveDevice Demo.options_ "" = Ok (data_device d) /\
  fails (ExecuteReplicated Demo.env Demo.options_ Demo.fifo Demo.second_program
           [[d]] [""] false) /\
  emits_at_most 0
    (ExecuteReplicated Demo.env Demo.options_ Demo.fifo Demo.second_program
       [[d]] [""] false) /\
  ((0 < length [Demo.second_program])%nat ->
   fails (ExecuteParallel Demo.env Demo.options_ Demo.fifo
            [Demo.second_program] [[d]] [""] false) /\
   emits_at_most 0
     (ExecuteParallel Demo.env Demo.options_ Demo.fifo
        [Demo.second_program] [[d]] [""] false)).
Proof.
  intros d.
  assert (H1 : [[d]] !! 0%nat = Some [d]) by reflexivity.
  assert (H2 : [""] !! 0%nat = Some "") by reflexivity.
  assert (H3 : d ∈ [d]) by left.
  assert (H4 : data_device d <> "") by (simpl; congruence).
  assert (H5 : GetEffectiveDevice Demo.options_ "" = Ok (data_device d))
    by reflexivity.
  repeat (split; [assumption|]).
  exact (replica_argument_on_other_device_is_rejected Demo.env Demo.options_
           Demo.fifo Demo.second_program [Demo.second_program] [[d]] [""]
           false 0%nat [d] "" d H1 H2 H3 H4).
Defined.

(** ** Transfers that are rejected *)

Lemma GetSessionForDevice_fails env options_ device session_map :
  is_Ok (resolve_target env options_ device) = false ->
  fails (GetSessionForDevice env options_ device session_map).
Proof.
  unfold resolve_target. intros Hres w.
  unfold GetSessionForDevice, GetSessionForXrtDevice, bind, lift.
  destruct (SwiftDeviceToXrtDevice options_ device) as [xrt|]; [|done].
  simpl in Hres.
  by destruct (GetWorkerForXrtDevice env options_ xrt) as [[wk tg]|].
Qed.

Lemma emits_read_request env options_ handles i st :
  emits_at_most 0 (read_request env options_ handles i st).
Proof.
  destruct st as [[session_maps current_size] session_work_map].
  unfold read_request. apply (emits_bind 0 0); [quiet|]. intros xrt_data.
  destruct (_ <=? _); unfold GetSessionForDevice; quiet.
Qed.

(** X4: [TransferFromServerImpl] resolves the session of every handle
    before its first run: with a handle on a device that resolves to no
    worker it never returns a result and issues no RPC. *)
Theorem TransferFromServer_rejects_unknown_device
    (env : Environment) (options_ : Options) (sched : Schedule)
    (handles : list XrtData) (d : XrtData) :
  d ∈ handles ->
  is_Ok (resolve_target env options_ (data_device d)) = false ->
  fails (TransferFromServerImpl env options_ sched handles) /\
  emits_at_most 0 (TransferFromServerImpl env options_ sched handles).
Proof.
  intros Hd Hres. apply list_elem_of_lookup_1 in Hd as [i Hi].
  assert (Hloop : forall st,
            fails (for_each (read_request env options_ handles)
                     (seq 0 (length handles)) st)).
  { apply (fails_for_each _ _ i).
    - apply elem_of_seq. apply lookup_lt_Some in Hi. lia.
    - intros [[session_maps current_size] session_work_map].
      unfold read_request. apply (fails_bind_vector_get _ _ _ _ Hi).
      destruct (_ <=? _); by apply fails_bind_l, GetSessionForDevice_fails. }
  unfold TransferFromServerImpl. split; [apply fails_bind_l, Hloop|].
  apply emits_bind_fails; [|apply Hloop].
  apply emits_for_each. intros k st. apply emits_read_request.
Qed.

(** X4 on the demo topology: a handle on "GPU:0", which is no device of
    the configuration, behind two handles that could be read. *)
Lemma TransferFromServer_rejects_unknown_device_witness :
  let d := {| data_device := "GPU:0"; data_shape := ArrayShape F32 [2];
              data_handle := 70 |} in
  d ∈ Demo.four_handles ++ [d] /\
  is_Ok (resolve_target Demo.env Demo.options_ (data_device d)) = false /\
  fails (TransferFromServerImpl Demo.env Demo.options_ Demo.fifo
           (Demo.four_handles ++ [d])) /\
  emits_at_most 0
    (TransferFromServerImpl Demo.env Demo.options_ Demo.fifo
       (Demo.four_handles ++ [d])).
Proof.
  intros d.
  assert (H1 : d ∈ Demo.four_handles ++ [d])
    by (apply elem_of_app; right; left).
  assert (H2 : is_Ok (resolve_target Demo.env Demo.options_ (data_device d))
               = false) by (vm_compute; reflexivity).
  repeat (split; [assumption|]).
  exact (TransferFromServer_rejects_unknown_device Demo.env Demo.options_
           Demo.fifo (Demo.four_handles ++ [d]) d H1 H2).
Defined.

(** A shape [XlaTypeToDataType] has no tensor type for: a tuple, or an
    array of the invalid element type. *)
Definition unsupported_shape (s : Shape) : Prop :=
  match s with
  | TupleShape _ | ArrayShape PRIMITIVE_TYPE_INVALID _ => True
  | ArrayShape _ _ => False
  end.

Lemma XlaTypeToDataType_fails s :
  unsupported_shape s -> fails (XlaTypeToDataType s).
Proof. intros Hs w. by destruct s as [[] dims|elems]. Qed.

Lemma emits_XlaTypeToDataType s : emits_at_most 0 (XlaTypeToDataType s).
Proof. apply emits_same_world. intros w. by destruct s as [[] dims|elems]. Qed.

Lemma emits_no_rpc e : is_rpc e = false -> emits_at_most 0 (emit e).
Proof.
  intros He w. exists [e]. split; [done|]. unfold rpcs.
  rewrite filter_cons_False by (by rewrite He). done.
Qed.

Lemma emits_for_each_emit {A} e (l : list A) :
  is_rpc e = false -> emits_at_most 0 (for_each (fun _ _ => emit e) l tt).
Proof. intros He. apply emits_for_each. intros _ _. by apply emits_no_rpc. Qed.

Lemma emits_converter env options_ device tensors i st :
  emits_at_most 0 (converter env options_ device tensors i st).
Proof.
  destruct st as [[session_map session_work_map] total_size].
  unfold converter. apply (emits_bind 0 0); [quiet|]. intros xrt_device.
  apply (emits_bind 0 0); [quiet|]. intros t.
  apply (emits_bind 0 0); [apply emits_XlaTypeToDataType|]. intros _. quiet.
Qed.

Lemma converter_fails env options_ device tensors i t st :
  tensors !! i = Some t -> unsupported_shape (shape t) ->
  fails (converter env options_ device tensors i st).
Proof.
  intros Hi Ht. destruct st as [[session_map session_work_map] total_size].
  unfold converter. apply fails_bind_r. intros xrt_device.
  apply (fails_bind_vector_get _ _ _ _ Hi).
  by apply fails_bind_l, XlaTypeToDataType_fails.
Qed.

Lemma TransferToServerInternal_rejects env options_ sched device_name tensors t :
  t ∈ tensors -> unsupported_shape (shape t) ->
  fails (TransferToServerInternal env options_ sched device_name tensors) /\
  emits_at_most 0
    (TransferToServerInternal env options_ sched device_name tensors).
Proof.
  intros Ht Hs. apply list_elem_of_lookup_1 in Ht as [i Hi].
  assert (Hloop : forall device at_step st,
            fails (for_each (converter env options_ device tensors)
                     (run_order sched at_step (seq 0 (length tensors))) st)).
  { intros device at_step. apply (fails_for_each _ _ i).
    - rewrite (run_order_perm sched). apply elem_of_seq.
      apply lookup_lt_Some in Hi. lia.
    - intros st. by apply (converter_fails _ _ _ _ _ t). }
  unfold TransferToServerInternal. split.
  - apply fails_bind_r. intros device. apply fails_bind_r. intros _.
    apply fails_bind_r. intros w. apply fails_bind_l, Hloop.
  - apply (emits_bind 0 0); [quiet|]. intros device.
    apply (emits_bind 0 0); [by apply emits_for_each_emit|]. intros _.
    apply (emits_bind 0 0); [quiet|]. intros w.
    apply emits_bind_fails; [|apply Hloop].
    apply emits_for_each. intros k st. apply emits_converter.
Qed.

(** X5: a host tensor of a tuple shape, or of the invalid element type, is
    never transferred: [TransferToServer] returns no result, and when the
    batch is a single partition it stops in the converters, before any
    RPC. *)
Theorem TransferToServer_rejects_unsupported_shape
    (env : Environment) (options_ : Options) (sched : Schedule)
    (device_name : string) (tensors : list TensorSource) (t : TensorSource) :
  t ∈ tensors -> unsupported_shape (shape t) ->
  fails (TransferToServer env options_ sched device_name tensors) /\
  (length (PartitionTransferToServer
             (fun t => ByteSizeOfElements env (shape t))
             (GetMaxTensorsPartitionSize env) tensors) = 1%nat ->
   emits_at_most 0 (TransferToServer env options_ sched device_name tensors)).
Proof.
  intros Ht Hs. unfold TransferToServer.
  destruct (PartitionTransferToServer_shape
              (fun t => ByteSizeOfElements env (shape t))
              (GetMaxTensorsPartitionSize env) tensors) as (bounds & -> & Hinc).
  split.
  - case_bool_decide as Hone;
      [by apply (TransferToServerInternal_rejects _ _ _ _ _ t)|].
    apply list_elem_of_lookup_1 in Ht as [j Hj].
    pose proof (lookup_lt_Some _ _ _ Hj) as Hjn.
    destruct (span_cover bounds 0 (length tensors) j Hinc ltac:(lia))
      as (p & r & Hp & Hr & Hjr).
    apply fails_bind_r. intros _. apply fails_bind_r. intros _.
    apply fails_bind_r. intros w. apply (fails_for_each _ _ p).
    + rewrite (run_order_perm sched). apply elem_of_seq. lia.
    + intros results. unfold sender. apply fails_bind_l.
      apply (TransferToServerInternal_rejects _ _ _ _ _ t); [|done].
      apply list_elem_of_lookup. exists r. unfold subspan.
      rewrite lookup_take_lt by done. rewrite lookup_drop. by rewrite <- Hjr.
  - intros Hone. rewrite bool_decide_eq_true_2 by done.
    by apply (TransferToServerInternal_rejects _ _ _ _ _ t).
Qed.

(** X5 on the demo topology: a tuple-shaped tensor behind three arrays. *)
Lemma TransferToServer_rejects_unsupported_shape_witness :
  let t := {| shape := TupleShape [ArrayShape F32 [1]]; populate_fn := [] |} in
  t ∈ Demo.three_tensors ++ [t] /\ unsupported_shape (shape t) /\
  fails (TransferToServer Demo.env Demo.options_ Demo.lifo "CPU:0"
           (Demo.three_tensors ++ [t])) /\
  (length (PartitionTransferToServer
             (fun t => ByteSizeOfElements Demo.env (shape t))
             (GetMaxTensorsPartitionSize Demo.env)
             (Demo.three_tensors ++ [t])) = 1%nat ->
   emits_at_most 0
     (TransferToServer Demo.env Demo.options_ Demo.lifo "CPU:0"
        (Demo.three_tensors ++ [t]))).
Proof.
  intros t.
  assert (H1 : t ∈ Demo.three_tensors ++ [t]) by (apply elem_of_app; right; left).
  assert (H2 : unsupported_shape (shape t)) by exact I.
  repeat (split; [assumption|]).
  exact (TransferToServer_rejects_unsupported_shape Demo.env Demo.options_
           Demo.lifo "CPU:0" (Demo.three_tensors ++ [t]) t H1 H2).
Defined.

(** ** Empty inputs *)

(** X6: an empty batch never reaches the service.  [TransferToServer] of
    no tensor (the device name only has to have an effective form; it need
    not be a device of the configuration), [TransferFromServerImpl] of no
    handle and [Compile] of no instance return the empty list, issue no RPC
    and check no session out. *)
Theorem empty_batches_issue_no_rpc
    (env : Environment) (options_ : Options) (sched : Schedule)
    (device effective : string) (devices : list string) (w : World) :
  GetEffectiveDevice options_ device = Ok effective ->
  (exists w',
     returns (TransferToServer env options_ sched device []) w [] w' /\
     rpcs (new_events w w') = [] /\ sessions_created w' = sessions_created w) /\
  (exists w',
     returns (TransferFromServerImpl env options_ sched []) w [] w' /\
     rpcs (new_events w w') = [] /\ sessions_created w' = sessions_created w) /\
  (exists w',
     returns (Compile env options_ sched device devices []) w [] w' /\
     rpcs (new_events w w') = [] /\ sessions_created w' = sessions_created w).
Proof.
  intros Heff. split; [|split].
  - exists (set_trace (trace w ++ [Counter "OutboundData" 0]) w).
    split; [|split; [|done]].
    + unfold TransferToServer. simpl. unfold TransferToServerInternal.
      eapply returns_bind; [by apply returns_lift|]. simpl.
      eapply returns_bind; [apply returns_ret|].
      eapply returns_bind; [apply returns_get_world|].
      rewrite run_order_nil. simpl.
      eapply returns_bind; [apply returns_ret|]. cbn beta iota.
      eapply returns_bind; [apply returns_emit|].
      rewrite map_to_list_empty. simpl.
      eapply returns_bind; [apply returns_ret|].
      eapply returns_bind; [apply returns_get_world|].
      rewrite run_order_nil. apply returns_ret.
    + by rewrite (new_events_app _ _ [Counter "OutboundData" 0]).
  - exists (set_trace (trace w ++ [Counter "InboundData" 0]) w).
    split; [|split; [|done]].
    + unfold TransferFromServerImpl. simpl.
      eapply returns_bind; [apply returns_ret|]. cbn beta iota.
      eapply returns_bind; [apply returns_get_world|].
      rewrite map_to_list_empty, run_order_nil. simpl.
      eapply returns_bind; [apply returns_ret|]. cbn beta iota.
      eapply returns_bind; [apply returns_emit|]. apply returns_ret.
    + by rewrite (new_events_app _ _ [Counter "InboundData" 0]).
  - exists w. split; [|split; [|done]].
    + unfold Compile. simpl.
      eapply returns_bind; [apply returns_ret|].
      eapply returns_bind; [apply returns_get_world|].
      rewrite run_order_nil. simpl.
      eapply returns_bind; [apply returns_ret|]. simpl.
      rewrite map_to_list_empty. simpl.
      eapply returns_bind; [apply returns_ret|].
      eapply returns_bind; [apply returns_get_world|].
      rewrite run_order_nil. apply returns_ret.
    + unfold new_events. by rewrite drop_all.
Qed.

(** X6 on the demo configuration, for "GPU:3", which is no device of it. *)
Lemma empty_batches_issue_no_rpc_witness :
  GetEffectiveDevice Demo.options_ "GPU:3" = Ok "GPU:3" /\
  SwiftDeviceToXrtDevice Demo.options_ "GPU:3"
    = Failed (CheckFailed "Unable to find device") /\
  (exists w',
     returns (TransferToServer Demo.env Demo.options_ Demo.fifo "GPU:3" [])
       Demo.start [] w' /\
     rpcs (new_events Demo.start w') = [] /\
     sessions_created w' = sessions_created Demo.start) /\
  (exists w',
     returns (TransferFromServerImpl Demo.env Demo.options_ Demo.fifo [])
       Demo.start [] w' /\
     rpcs (new_events Demo.start w') = [] /\
     sessions_created w' = sessions_created Demo.start) /\
  (exists w',
     returns (Compile Demo.env Demo.options_ Demo.fifo "GPU:3" [] [])
       Demo.start [] w' /\
     rpcs (new_events Demo.start w') = [] /\
     sessions_created w' = sessions_created Demo.start).
Proof.
  assert (H1 : GetEffectiveDevice Demo.options_ "GPU:3" = Ok "GPU:3")
    by reflexivity.
  assert (H2 : SwiftDeviceToXrtDevice Demo.options_ "GPU:3"
               = Failed (CheckFailed "Unable to find device"))
    by (vm_compute; reflexivity).
  repeat (split; [assumption|]).
  exact (empty_batches_issue_no_rpc Demo.env Demo.options_ Demo.fifo "GPU:3"
           "GPU:3" [] Demo.start H1).
Defined.

(** X7: on an empty chain the two modes of chained execution both return
    the empty list, but the chained mode still runs its (empty) plan in
    one RPC, while the split mode issues none. *)
Theorem empty_chain_costs_one_rpc_in_chained_mode
    (env : Environment) (options_ : Options)
    (device effective xrt_device target : string) (worker : Worker)
    (w : World) :
  let session := (target, sessions_created w) in
  let node := XRTExecuteChained xrt_device [] (rng_seed_ w) in
  GetEffectiveDevice options_ device = Ok effective ->
  SwiftDeviceToXrtDevice options_ effective = Ok xrt_device ->
  GetWorkerForXrtDevice env options_ xrt_device = Ok (worker, target) ->
  session_run_ok env session [node] = true ->
  session_fetch env target node = VecInt64 [] ->
  (exists w',
     returns (ExecuteChainedXrt env options_ [] device) w [] w' /\
     rpcs (new_events w w') = [SessionRun session [node]]) /\
  (exists w',
     returns (ExecuteChainedSplit env options_ [] device) w [] w' /\
     rpcs (new_events w w') = []).
Proof.
  intros session node Heff Hxrt Hworker Hrun Hfetch.
  set (w1 := set_sessions_created (S (sessions_created w)) w).
  split.
  - set (w2 := set_trace (trace w1 ++ [SessionRun session [node]]) w1).
    exists (set_trace (trace w2 ++ [Counter "CreateDataHandles" 0]) w2). split.
    + unfold ExecuteChainedXrt.
      eapply returns_bind; [by apply returns_lift|].
      eapply returns_bind; [by apply returns_lift|].
      eapply returns_bind; [by eapply returns_GetSessionForXrtDevice_new|].
      cbn beta iota.
      eapply returns_bind; [apply returns_get_world|]. simpl.
      eapply returns_bind; [apply returns_ret|]. cbn beta iota.
      eapply returns_bind.
      { unfold Run. eapply returns_bind; [apply returns_emit|]. apply returns_ret. }
      fold session node. rewrite Hrun.
      eapply returns_bind; [apply returns_ret|]. simpl. fold node.
      rewrite Hfetch.
      eapply returns_bind; [apply returns_ret|].
      eapply returns_bind; [apply returns_ret|]. simpl.
      eapply returns_bind; [apply returns_ret|].
      eapply returns_bind; [apply returns_emit|]. apply returns_ret.
    + rewrite (new_events_app w _ [SessionRun session [node];
                                   Counter "CreateDataHandles" 0]); [done|].
      simpl. by rewrite <- app_assoc.
  - exists w1. split.
    + unfold ExecuteChainedSplit. simpl.
      eapply returns_bind; [apply returns_ret|].
      eapply returns_bind; [by apply returns_lift|].
      eapply returns_bind; [by apply returns_lift|].
      eapply returns_bind; [by eapply returns_GetSessionForXrtDevice_new|].
      cbn beta iota.
      eapply returns_bind; [apply returns_ret|]. apply returns_ret.
    + unfold new_events. simpl. by rewrite drop_all.
Qed.

(** X7 on the demo topology. *)
Lemma empty_chain_costs_one_rpc_in_chained_mode_witness :
  let session := ("grpc://localhost:8470", sessions_created Demo.start) in
  let node := XRTExecuteChained Demo.cpu0_path [] (rng_seed_ Demo.start) in
  GetEffectiveDevice Demo.options_ "CPU:0" = Ok "CPU:0" /\
  SwiftDeviceToXrtDevice Demo.options_ "CPU:0" = Ok Demo.cpu0_path /\
  GetWorkerForXrtDevice Demo.env Demo.options_ Demo.cpu0_path
    = Ok (("localservice", 0), "grpc://localhost:8470") /\
  session_run_ok Demo.env session [node] = true /\
  session_fetch Demo.env "grpc://localhost:8470" node = VecInt64 [] /\
  (exists w',
     returns (ExecuteChainedXrt Demo.env Demo.options_ [] "CPU:0") Demo.start
       [] w' /\
     rpcs (new_events Demo.start w') = [SessionRun session [node]]) /\
  (exists w',
     returns (ExecuteChainedSplit Demo.env Demo.options_ [] "CPU:0") Demo.start
       [] w' /\
     rpcs (new_events Demo.start w') = []).
Proof.
  intros session node.
  assert (H1 : GetEffectiveDevice Demo.options_ "CPU:0" = Ok "CPU:0")
    by reflexivity.
  assert (H2 : SwiftDeviceToXrtDevice Demo.options_ "CPU:0" = Ok Demo.cpu0_path)
    by (vm_compute; reflexivity).
  assert (H3 : GetWorkerForXrtDevice Demo.env Demo.options_ Demo.cpu0_path
               = Ok (("localservice", 0), "grpc://localhost:8470"))
    by (vm_compute; reflexivity).
  assert (H4 : session_run_ok Demo.env session [node] = true) by reflexivity.
  assert (H5 : session_fetch Demo.env "grpc://localhost:8470" node = VecInt64 [])
    by reflexivity.
  repeat (split; [assumption|]).
  exact (empty_chain_costs_one_rpc_in_chained_mode Demo.env Demo.options_
           "CPU:0" "CPU:0" Demo.cpu0_path "grpc://localhost:8470"
           ("localservice", 0) Demo.start H1 H2 H3 H4 H5).
Defined.

(** ** Release of handles, endpoint by endpoint *)

Section ReleaseGrouping.
Variables (env : Environment) (options_ : Options) (sched : Schedule).
Variable which : PendingList.
Hypothesis Hrun : forall s nodes, session_run_ok env s nodes = true.

(** The handles among [l] whose device is served by target [t], in the
    order of [l], and the targets of the handles of [l]. *)
Definition target_group (l : list DeviceHandle) (t : string)
    : list DeviceHandle :=
  filter (fun h => release_target env options_ h = t) l.

Definition release_targets (l : list DeviceHandle) : list string :=
  remove_dups (release_target env options_ <$> l).

(** The release run of a target: on the node of the device of the first
    handle of its group, fed with the handles of the whole group. *)
Definition target_release (session_for : string -> XrtSession)
    (l : list DeviceHandle) (t : string) : Event :=
  SessionRun (session_for t)
    [release_node which
       (release_device env options_
          (default {| dh_device := ""; dh_handle := 0 |}
             (head (target_group l t))))
       (dh_handle <$> target_group l t)].

Lemma target_group_snoc l h t :
  target_group (l ++ [h]) t
  = target_group l t
    ++ (if decide (release_target env options_ h = t) then [h] else []).
Proof.
  unfold target_group. rewrite filter_app. f_equal.
Qed.

Lemma target_group_empty l t :
  t ∉ release_target env options_ <$> l -> target_group l t = [].
Proof.
  intros Ht. unfold target_group.
  destruct (filter _ l) as [|h g] eqn:E; [done|]. exfalso. apply Ht.
  assert (Hh : h ∈ filter (fun h => release_target env options_ h = t) l)
    by (rewrite E; left).
  apply list_elem_of_filter in Hh as [<- Hh].
  apply list_elem_of_fmap. by exists h.
Qed.

Lemma target_group_nonempty l t :
  t ∈ release_target env options_ <$> l -> target_group l t <> [].
Proof.
  intros (h & -> & Hh)%list_elem_of_fmap. unfold target_group. intros E.
  assert (Hin : h ∈ filter (fun h' => release_target env options_ h'
                                       = release_target env options_ h) l)
    by (by apply list_elem_of_filter).
  rewrite E in Hin. by apply elem_of_nil in Hin.
Qed.

(** What holds of the session map and the groups once the handles [p]
    have been gone through. *)
Definition groups_of (p : list DeviceHandle) (session_map : SessionMap)
    (m : gmap XrtSession (list DeviceHandle)) : Prop :=
  well_keyed session_map /\
  (forall t, is_Some (session_map !! t)
     <-> t ∈ release_target env options_ <$> p) /\
  (forall s, m !! s = if decide (session_map !! fst s = Some s)
                      then Some (target_group p (fst s)) else None).

Lemma groups_of_nil : groups_of [] ∅ ∅.
Proof.
  split; [apply well_keyed_empty|]. split.
  - intros t. rewrite lookup_empty. split; [by intros [? ?]|].
    intros H. by apply elem_of_nil in H.
  - intros s. rewrite !lookup_empty. by rewrite decide_False.
Qed.

Lemma release_group_groups h p session_map m w :
  releasable env options_ h -> groups_of p session_map m ->
  exists session_map' m' w',
    returns (release_group env options_ h (session_map, m)) w
      (session_map', m') w'
    /\ groups_of (p ++ [h]) session_map' m'
    /\ trace w' = trace w /\ (forall q, pending q w' = pending q w).
Proof.
  intros Hrel (Hkeyed & Hdom & Hm). unfold releasable in Hrel.
  destruct (resolve_target env options_ (dh_device h)) as [[xrt tg]|] eqn:Er;
    [|done].
  destruct (GetSessionForDevice_returns env options_ (dh_device h) xrt tg
              session_map w Er Hkeyed)
    as (s & sm' & w' & Hget & Hs & Hkeyed' & Hsm & Hother & Hsame & Htr & _
        & Hp1 & Hp2).
  assert (Htarget : release_target env options_ h = tg)
    by (unfold release_target; by rewrite Er).
  exists sm', (<[s := default [] (m !! s) ++ [h]]> m), w'.
  split; [|split; [|split; [done|by intros []]]].
  { unfold release_group. eapply returns_bind; [exact Hget|]. apply returns_ret. }
  split; [done|]. split.
  - intros t. rewrite fmap_app, elem_of_app. simpl.
    rewrite list_elem_of_singleton, <- Hdom, Htarget.
    destruct (decide (t = tg)) as [->|Hne].
    + rewrite Hsm. split; [by right|by eexists].
    + rewrite (Hother t Hne). split; [by left|]. by intros [?|?].
  - intros s'. rewrite target_group_snoc, Htarget.
    destruct (decide (s' = s)) as [->|Hne].
    + rewrite lookup_insert_eq, Hs, Hsm.
      rewrite decide_True by done. rewrite decide_True by done. f_equal. f_equal.
      rewrite (Hm s), Hs. destruct (session_map !! tg) as [s0|] eqn:E.
      * rewrite (Hsame s0 eq_refl). by rewrite decide_True.
      * rewrite decide_False by done. simpl. symmetry.
        apply target_group_empty. intros Hin. apply Hdom in Hin as [? Hin].
        congruence.
    + rewrite lookup_insert_ne by done. rewrite (Hm s').
      destruct (decide (fst s' = tg)) as [Heq|Hneq].
      * rewrite Heq, Hsm. rewrite (decide_False (P := Some s = Some s'))
          by congruence.
        destruct (decide (session_map !! tg = Some s')) as [E|E]; [|done].
        by rewrite (Hsame s' E) in Hne.
      * rewrite (Hother _ Hneq). rewrite (decide_False (P := tg = fst s'))
          by congruence.
        by rewrite app_nil_r.
Qed.

Lemma rpcs_release_events (entries : list (XrtSession * list DeviceHandle)) :
  rpcs (release_event env options_ which <$> entries)
  = release_event env options_ which <$> entries.
Proof.
  unfold rpcs. induction entries as [|e entries IH]; [done|].
  rewrite fmap_cons, filter_cons_True by done. by rewrite IH.
Qed.

(** The groups a pass builds are the groups of the targets. *)
Lemma groups_of_entries l session_map m :
  groups_of l session_map m ->
  map_to_list m
  ≡ₚ (fun t => (session_at session_map t, target_group l t))
     <$> release_targets l.
Proof.
  intros (Hkeyed & Hdom & Hm).
  assert (Hin : forall t, t ∈ release_targets l ->
            exists s, session_map !! t = Some s /\ fst s = t
                      /\ session_at session_map t = s).
  { intros t Ht. unfold release_targets in Ht.
    rewrite elem_of_remove_dups in Ht. apply Hdom in Ht as [s Hs].
    exists s. split; [done|]. split; [by apply Hkeyed|].
    unfold session_at. by rewrite Hs. }
  apply NoDup_Permutation.
  - apply NoDup_map_to_list.
  - apply NoDup_fmap_2_strong; [|apply NoDup_remove_dups].
    intros t1 t2 H1 H2 Heq.
    destruct (Hin t1 H1) as (s1 & _ & <- & E1).
    destruct (Hin t2 H2) as (s2 & _ & <- & E2). congruence.
  - intros [s hs]. rewrite elem_of_map_to_list, list_elem_of_fmap, (Hm s).
    split.
    + destruct (decide (session_map !! fst s = Some s)) as [E|]; [|done].
      intros [= <-]. exists (fst s).
      assert (Ht : fst s ∈ release_targets l).
      { unfold release_targets. rewrite elem_of_remove_dups. apply Hdom.
        by eexists. }
      split; [|done]. unfold session_at. by rewrite E.
    + intros (t & [= -> ->] & Ht).
      destruct (Hin t Ht) as (s & Hs & Hfst & ->).
      rewrite Hfst. by rewrite decide_True.
Qed.

Lemma pending_set_pending_ne q l w :
  q <> which -> pending q (set_pending which l w) = pending q w.
Proof. by destruct q, which. Qed.

(** A drain pass, over an empty pending list as well: the events it
    appends, and what it leaves of the pending lists. *)
Lemma ReleaseHandles_runs w :
  Forall (releasable env options_) (pending which w) ->
  exists w' session_for evs,
    returns (ReleaseHandles env options_ sched which) w tt w'
    /\ trace w' = trace w ++ evs
    /\ pending which w' = []
    /\ (forall q, q <> which -> pending q w' = pending q w)
    /\ (forall t, t ∈ release_targets (pending which w) ->
          fst (session_for t) = t)
    /\ rpcs evs
       ≡ₚ target_release session_for (pending which w)
          <$> release_targets (pending which w).
Proof.
  intros Hall. unfold ReleaseHandles.
  set (released := pending which w) in *.
  set (w0 := set_pending which [] w).
  destruct (decide (released = [])) as [Hnil|Hne].
  { exists w0, (fun t => (t, 0%nat)), [].
    split; [|split; [|split; [|split; [|split]]]].
    - eapply returns_bind; [apply returns_get_world|].
      eapply returns_bind; [reflexivity|]. fold released w0.
      rewrite bool_decide_eq_true_2 by done. apply returns_ret.
    - rewrite app_nil_r. apply set_pending_trace.
    - apply pending_set_pending.
    - intros q Hq. by apply pending_set_pending_ne.
    - done.
    - by rewrite Hnil. }
  destruct (for_each_returns (release_group env options_)
    (fun k st w' =>
       groups_of (take k released) st.1 st.2 /\
       trace w' = trace w /\ (forall q, pending q w' = pending q w0))
    released (∅, ∅) w0)
    as ([session_map m] & w1 & Hgroup & Hgroups & Htr1 & Hp1).
  - rewrite take_0. split; [apply groups_of_nil|]. split; [|done].
    apply set_pending_trace.
  - intros k h [sm m'] w' Hk (Hgroups & Htr & Hp).
    assert (Hrel : releasable env options_ h).
    { rewrite Forall_lookup in Hall. by eapply Hall. }
    destruct (release_group_groups h (take k released) sm m' w' Hrel Hgroups)
      as (sm2 & m2 & w2 & Hret & Hgroups2 & Htr2 & Hp2).
    exists (sm2, m2), w2. split; [done|].
    rewrite (take_S_r _ _ _ Hk). cbn [fst snd].
    split; [done|]. split; [congruence|]. intros q. by rewrite Hp2.
  - rewrite take_ge in Hgroups by done. cbn [fst snd] in *.
    pose proof (groups_of_entries _ _ _ Hgroups) as Hentries.
    destruct Hgroups as (Hkeyed & Hdom & Hm).
    set (entries := run_order sched (length (trace w1)) (map_to_list m)).
    destruct (for_each_returns (release_run env options_ which)
      (fun k (_ : unit) w' =>
         trace w' = trace w
                    ++ (release_event env options_ which <$> take k entries) /\
         (forall q, pending q w' = pending q w0))
      entries tt w1) as ([] & w2 & Hloop & Htr2 & Hp2).
    + rewrite take_0. simpl. by rewrite app_nil_r.
    + intros k [s hs] [] w' Hk [Htr Hp].
      assert (Hin : m !! s = Some hs).
      { apply elem_of_map_to_list.
        rewrite <- (run_order_perm sched _ (length (trace w1)) (map_to_list m)).
        by eapply list_elem_of_lookup_2. }
      rewrite (Hm s) in Hin.
      destruct (decide (session_map !! fst s = Some s)) as [E|]; [|done].
      injection Hin as <-.
      exists tt, (set_trace (trace w'
                    ++ [release_event env options_ which
                          (s, target_group released (fst s))]) w').
      split.
      { apply release_run_returns; [done| |].
        - apply target_group_nonempty, Hdom. by eexists.
        - intros h Hh. unfold target_group in Hh.
          apply list_elem_of_filter in Hh as [_ Hh].
          rewrite Forall_forall in Hall. by apply Hall. }
      rewrite (take_S_r _ _ _ Hk), fmap_app. simpl.
      split; [by rewrite Htr, <- app_assoc|]. intros q. rewrite <- Hp. by destruct q.
    + rewrite take_ge in Htr2 by done.
      eexists _, (session_at session_map), _.
      split; [|split; [|split; [|split; [|split]]]].
      * eapply returns_bind; [apply returns_get_world|].
        eapply returns_bind; [reflexivity|]. fold released w0.
        rewrite bool_decide_eq_false_2 by done.
        eapply returns_bind; [exact Hgroup|].
        eapply returns_bind; [apply returns_get_world|].
        eapply returns_bind; [exact Hloop|].
        apply returns_emit.
      * simpl. rewrite Htr2. by rewrite <- app_assoc.
      * transitivity (pending which w2); [by destruct which|].
        rewrite Hp2. apply pending_set_pending.
      * intros q Hq. transitivity (pending q w2); [by destruct q|].
        rewrite Hp2. by apply pending_set_pending_ne.
      * intros t Ht. unfold release_targets in Ht.
        rewrite elem_of_remove_dups in Ht. apply Hdom in Ht as [s Hs].
        unfold session_at. rewrite Hs. by apply Hkeyed.
      * rewrite rpcs_app, rpcs_release_events. simpl. rewrite app_nil_r.
        unfold entries. rewrite run_order_perm, Hentries.
        by rewrite <- list_fmap_compose.
Qed.

(** X8: a drain pass over a pending list whose devices all resolve
    issues exactly one release run per worker target, in an order the
    scheduler picks: the run of a target goes to a session of that
    target, on the release node of the device of the first pending handle
    the target serves, and carries all the pending handles of the target,
    in pending order.  The pending list is left empty. *)
Theorem ReleaseHandles_one_run_per_target w :
  Forall (releasable env options_) (pending which w) ->
  exists w' session_for,
    returns (ReleaseHandles env options_ sched which) w tt w'
    /\ pending which w' = []
    /\ (forall t, t ∈ release_targets (pending which w) ->
          fst (session_for t) = t)
    /\ rpcs (new_events w w')
       ≡ₚ target_release session_for (pending which w)
          <$> release_targets (pending which w).
Proof.
  intros Hall.
  destruct (ReleaseHandles_runs w Hall)
    as (w' & session_for & evs & Hret & Htr & Hp & _ & Hfst & Hrpcs).
  exists w', session_for. rewrite (new_events_app _ _ _ Htr). done.
Qed.

End ReleaseGrouping.

(** X8 on the demo topology: three pending allocations, two of them on
    the devices of the local worker and one on the TPU worker. *)
Lemma ReleaseHandles_one_run_per_target_witness :
  let l := [ {| dh_device := "CPU:0"; dh_handle := 5 |};
             {| dh_device := "TPU:0"; dh_handle := 7 |};
             {| dh_device := "CPU:1"; dh_handle := 6 |} ] in
  let w := set_pending released_data_handles l Demo.start in
  (forall s nodes, session_run_ok Demo.env s nodes = true) /\
  Forall (releasable Demo.env Demo.options_) (pending released_data_handles w) /\
  release_targets Demo.env Demo.options_ l
  = ["grpc://10.0.0.2:8470"; "grpc://localhost:8470"] /\
  exists w' session_for,
    returns (ReleaseHandles Demo.env Demo.options_ Demo.fifo
               released_data_handles) w tt w'
    /\ pending released_data_handles w' = []
    /\ (forall t, t ∈ release_targets Demo.env Demo.options_
                        (pending released_data_handles w) ->
          fst (session_for t) = t)
    /\ rpcs (new_events w w')
       ≡ₚ target_release Demo.env Demo.options_ released_data_handles
            session_for (pending released_data_handles w)
          <$> release_targets Demo.env Demo.options_
                (pending released_data_handles w).
Proof.
  intros l w.
  assert (Hrun : forall s nodes, session_run_ok Demo.env s nodes = true)
    by (intros; reflexivity).
  assert (Hall : Forall (releasable Demo.env Demo.options_)
                   (pending released_data_handles w))
    by (repeat constructor).
  split; [exact Hrun|]. split; [exact Hall|].
  split; [by vm_compute|].
  exact (ReleaseHandles_one_run_per_target Demo.env Demo.options_ Demo.fifo
           released_data_handles Hrun w Hall).
Defined.

(** ** The releaser: allocations first, then programs *)

Section ReleaserFacts.
Variables (env : Environment) (options_ : Options) (sched : Schedule).
Hypothesis Hrun : forall s nodes, session_run_ok env s nodes = true.

(** X9: one pass of the releaser, when the devices of the pending
    handles all resolve: both pending lists are left empty, and every
    release run for allocations is issued before any release run for
    programs, one run per worker target in each of the two rounds. *)
Theorem HandleReleaser_data_then_compile w :
  Forall (releasable env options_) (released_data_handles_ w) ->
  Forall (releasable env options_) (released_compile_handles_ w) ->
  exists w' data_runs compile_runs data_session compile_session,
    returns (HandleReleaser env options_ sched) w tt w'
    /\ released_data_handles_ w' = []
    /\ released_compile_handles_ w' = []
    /\ rpcs (new_events w w') = data_runs ++ compile_runs
    /\ data_runs
       ≡ₚ target_release env options_ released_data_handles data_session
            (released_data_handles_ w)
          <$> release_targets env options_ (released_data_handles_ w)
    /\ compile_runs
       ≡ₚ target_release env options_ released_compile_handles compile_session
            (released_compile_handles_ w)
          <$> release_targets env options_ (released_compile_handles_ w).
Proof.
  intros Hdata Hcompile.
  destruct (ReleaseHandles_runs env options_ sched released_data_handles Hrun
              w Hdata)
    as (w1 & sf1 & evs1 & Hret1 & Htr1 & Hp1 & Hq1 & _ & Hrpcs1).
  pose proof (Hq1 released_compile_handles ltac:(done)) as Hkept.
  simpl in Hkept, Hp1.
  assert (Hcompile1 : Forall (releasable env options_)
                        (pending released_compile_handles w1))
    by (simpl; by rewrite Hkept).
  destruct (ReleaseHandles_runs env options_ sched released_compile_handles
              Hrun w1 Hcompile1)
    as (w2 & sf2 & evs2 & Hret2 & Htr2 & Hp2 & Hq2 & _ & Hrpcs2).
  pose proof (Hq2 released_data_handles ltac:(done)) as Hkept2.
  simpl in Hkept2, Hp2, Hrpcs2. rewrite Hkept in Hrpcs2.
  exists w2, (rpcs evs1), (rpcs evs2), sf1, sf2.
  split; [|split; [|split; [|split; [|split]]]].
  - unfold HandleReleaser. eapply returns_bind; [exact Hret1|]. exact Hret2.
  - congruence.
  - done.
  - erewrite new_events_app; [apply rpcs_app|].
    rewrite Htr2, Htr1. by rewrite <- app_assoc.
  - exact Hrpcs1.
  - exact Hrpcs2.
Qed.

End ReleaserFacts.

(** X9 on the demo topology: two pending allocations and one pending
    program. *)
Lemma HandleReleaser_data_then_compile_witness :
  let w := set_pending released_compile_handles
             [ {| dh_device := "CPU:0"; dh_handle := 40 |} ]
             (set_pending released_data_handles
                [ {| dh_device := "CPU:0"; dh_handle := 5 |};
                  {| dh_device := "TPU:0"; dh_handle := 7 |} ] Demo.start) in
  (forall s nodes, session_run_ok Demo.env s nodes = true) /\
  Forall (releasable Demo.env Demo.options_) (released_data_handles_ w) /\
  Forall (releasable Demo.env Demo.options_) (released_compile_handles_ w) /\
  exists w' data_runs compile_runs,
    returns (HandleReleaser Demo.env Demo.options_ Demo.fifo) w tt w'
    /\ released_data_handles_ w' = []
    /\ released_compile_handles_ w' = []
    /\ rpcs (new_events w w') = data_runs ++ compile_runs
    /\ length data_runs = 2%nat /\ length compile_runs = 1%nat.
Proof.
  intros w.
  assert (Hrun : forall s nodes, session_run_ok Demo.env s nodes = true)
    by (intros; reflexivity).
  assert (Hdata : Forall (releasable Demo.env Demo.options_)
                    (released_data_handles_ w)) by (repeat constructor).
  assert (Hcompile : Forall (releasable Demo.env Demo.options_)
                       (released_compile_handles_ w)) by (repeat constructor).
  split; [exact Hrun|]. split; [exact Hdata|]. split; [exact Hcompile|].
  destruct (HandleReleaser_data_then_compile Demo.env Demo.options_ Demo.fifo
              Hrun w Hdata Hcompile)
    as (w' & data_runs & compile_runs & sf1 & sf2 & Hret & Hd & Hc & Hrpcs
        & Hdr & Hcr).
  exists w', data_runs, compile_runs.
  split; [exact Hret|]. split; [exact Hd|]. split; [exact Hc|].
  split; [exact Hrpcs|].
  split.
  - apply Permutation_length in Hdr. rewrite Hdr. reflexivity.
  - apply Permutation_length in Hcr. rewrite Hcr. reflexivity.
Defined.

(** ** Worker endpoints and device names *)

Lemma string_prefix_grpc (s : string) :
  string_prefix 7 s = "grpc://" -> exists rest, s = "grpc://" +:+ rest.
Proof.
  intros H. do 7 (destruct s as [|? s]; [done|]).
  simpl in H. injection H as -> -> -> -> -> -> ->. by exists s.
Qed.

(** X10: [MakeGrpcEndPoint] puts an endpoint in normal form: the result
    starts with the scheme, an endpoint that starts with it is left
    alone (so applying the function twice changes nothing), and
    stripping the scheme off the result and putting it back gives the
    result again. *)
Theorem MakeGrpcEndPoint_normal_form (server : string) :
  String.prefix "grpc://" (MakeGrpcEndPoint server) = true
  /\ MakeGrpcEndPoint (MakeGrpcEndPoint server) = MakeGrpcEndPoint server
  /\ MakeGrpcEndPoint ("grpc://" +:+ server) = "grpc://" +:+ server
  /\ "grpc://" +:+ StripPrefix (MakeGrpcEndPoint server) "grpc://"
     = MakeGrpcEndPoint server
  /\ StripPrefix (MakeGrpcEndPoint server) "grpc://"
     = StripPrefix server "grpc://".
Proof.
  assert (Hscheme : forall rest,
            MakeGrpcEndPoint ("grpc://" +:+ rest) = "grpc://" +:+ rest)
    by done.
  assert (Hprefix : forall rest,
            String.prefix "grpc://" ("grpc://" +:+ rest) = true).
  { intros rest. simpl. by destruct rest. }
  assert (Hstrip : forall rest, StripPrefix ("grpc://" +:+ rest) "grpc://" = rest).
  { intros rest. unfold StripPrefix. by rewrite Hprefix. }
  destruct (String.eqb (string_prefix 7 server) "grpc://") eqn:E.
  - apply String.eqb_eq, string_prefix_grpc in E as [rest ->].
    rewrite !Hscheme, Hprefix, Hstrip. done.
  - assert (Hmake : MakeGrpcEndPoint server = "grpc://" +:+ server)
      by (unfold MakeGrpcEndPoint; by rewrite E).
    rewrite Hmake, Hscheme, Hprefix, Hstrip. repeat split; try done.
    unfold StripPrefix.
    destruct (String.prefix "grpc://" server) eqn:Ep; [|done].
    exfalso. apply String.prefix_correct in Ep.
    assert (Hsub : forall s, String.substring 0 7 s = string_prefix 7 s).
    { intros s. do 7 (destruct s as [|? s]; [done|]; simpl; f_equal).
      by destruct s. }
    simpl String.length in Ep. rewrite Hsub in Ep. rewrite Ep in E. done.
Qed.

(** Decimal numerals, as [absl::StrCat] writes them and [std::stoi]
    reads them. *)
Fixpoint all_digits (s : string) : bool :=
  match s with
  | EmptyString => true
  | String c rest =>
      match digit_value c with Some _ => all_digits rest | None => false end
  end.

Lemma digit_value_char (x : N) :
  (x < 10)%N -> digit_value (pretty_N_char x) = Some (Z.of_N x).
Proof.
  intros Hx. destruct x as [|p]; [done|].
  do 4 (destruct p as [p|p|]; try done); lia.
Qed.

Lemma pretty_N_go_digits (x : N) (s : string) :
  all_digits s = true ->
  all_digits (pretty_N_go x s) = true
  /\ exists k : Z, 0 <= k /\ forall acc,
       digits_value (pretty_N_go x s) acc
       = digits_value s (acc * 10 ^ k + Z.of_N x).
Proof.
  revert s. induction (N.lt_wf_0 x) as [x _ IH]. intros s Hs.
  destruct (decide (x = 0%N)) as [->|Hx].
  { rewrite pretty_N_go_0. split; [done|]. exists 0. split; [done|].
    intros acc. f_equal. lia. }
  rewrite pretty_N_go_step by lia.
  assert (Hlt : (x `mod` 10 < 10)%N) by (apply N.mod_lt; lia).
  pose proof (digit_value_char _ Hlt) as Hd.
  destruct (IH (x `div` 10)%N ltac:(apply N.div_lt; lia)
              (String (pretty_N_char (x `mod` 10)) s)) as (Hall & k & Hk & Hval).
  { simpl. by rewrite Hd. }
  split; [done|]. exists (k + 1). split; [lia|]. intros acc.
  rewrite Hval. simpl. rewrite Hd. f_equal.
  rewrite Z.pow_add_r by lia. rewrite (N.div_mod x 10) at 3 by lia.
  rewrite N2Z.inj_add, N2Z.inj_mul. simpl Z.of_N. lia.
Qed.

Lemma digit_no_space (c : ascii) (d : Z) :
  digit_value c = Some d ->
  isspace c = false /\ Ascii.eqb c ":" = false.
Proof.
  unfold digit_value, isspace. intros H.
  destruct (Ascii.eqb c ":") eqn:E.
  { apply Ascii.eqb_eq in E as ->. done. }
  split; [|done].
  destruct ((48 <=? Z.of_N (N_of_ascii c)) && (Z.of_N (N_of_ascii c) <=? 57))
    eqn:Hr; [|done].
  apply andb_true_iff in Hr as [H1 H2].
  apply Z.leb_le in H1. apply orb_false_iff. split.
  - apply Z.eqb_neq. lia.
  - apply andb_false_iff. right. apply Z.leb_gt. lia.
Qed.

Lemma stoi_digits (c : ascii) (rest : string) (d : Z) :
  digit_value c = Some d ->
  stoi (String c rest)
  = (if int_range (digits_value (String c rest) 0)
     then Ok (digits_value (String c rest) 0) else Failed OutOfRange)
  /\ stoi (String "-" (String c rest))
     = (if int_range (- digits_value (String c rest) 0)
        then Ok (- digits_value (String c rest) 0) else Failed OutOfRange).
Proof.
  intros Hd. destruct (digit_no_space c d Hd) as [Hsp _]. split.
  - unfold stoi. cbn [skip_spaces]. rewrite Hsp.
    assert (Hsign : forall A (x y z : A),
              match c with
              | "-"%char => x | "+"%char => y | _ => z
              end = z).
    { intros A x y z.
      destruct c as [[] [] [] [] [] [] [] []]; try reflexivity;
        vm_compute in Hd; discriminate. }
    replace (match String c rest with
             | String "-" rest0 => (true, rest0)
             | String "+" rest0 => (false, rest0)
             | _ => (false, String c rest)
             end) with (false, String c rest).
    + by rewrite Hd.
    + symmetry. apply (Hsign _ (true, rest) (false, rest) (false, String c rest)).
  - unfold stoi. cbn [skip_spaces]. change (isspace "-") with false.
    cbn. by rewrite Hd.
Qed.

(** [std::stoi] reads back the decimal numeral of an [int]. *)
Lemma stoi_pretty (n : Z) : int_range n = true -> stoi (pretty n) = Ok n.
Proof.
  intros Hn.
  assert (Hpos : forall p,
            exists c rest d, pretty_N_go (N.pos p) "" = String c rest
              /\ digit_value c = Some d
              /\ digits_value (String c rest) 0 = Z.pos p).
  { intros p.
    destruct (pretty_N_go_digits (N.pos p) "" eq_refl) as (Hall & k & _ & Hval).
    specialize (Hval 0). simpl in Hval.
    destruct (pretty_N_go (N.pos p) "") as [|c rest] eqn:E; [done|].
    simpl in Hall. destruct (digit_value c) as [d|] eqn:Hd; [|done].
    by exists c, rest, d. }
  destruct n as [|p|p].
  - done.
  - destruct (Hpos p) as (c & rest & d & E & Hd & Hval).
    change (pretty (Z.pos p)) with (pretty_N_go (N.pos p) "").
    rewrite E. rewrite (proj1 (stoi_digits c rest d Hd)), Hval. by rewrite Hn.
  - destruct (Hpos p) as (c & rest & d & E & Hd & Hval).
    change (pretty (Z.neg p)) with ("-" +:+ pretty_N_go (N.pos p) "").
    rewrite E. change ("-" +:+ String c rest) with (String "-" (String c rest)).
    rewrite (proj2 (stoi_digits c rest d Hd)), Hval.
    change (- Z.pos p) with (Z.neg p). by rewrite Hn.
Qed.

Lemma StrSplit_no_delimiter (c : ascii) (s : string) :
  string_find c s = None -> StrSplit s c = [s].
Proof.
  induction s as [|a s IH]; [done|]. simpl.
  destruct (Ascii.eqb a c); [done|].
  destruct (string_find c s); [done|]. intros _. by rewrite IH.
Qed.

Lemma StrSplit_app (c : ascii) (s rest : string) :
  string_find c s = None ->
  StrSplit (s +:+ String c rest) c = s :: StrSplit rest c.
Proof.
  induction s as [|a s IH]; simpl.
  - intros _. by rewrite Ascii.eqb_refl.
  - destruct (Ascii.eqb a c); [done|].
    destruct (string_find c s); [done|]. intros _. by rewrite IH.
Qed.

Lemma all_digits_no_colon (s : string) :
  all_digits s = true -> string_find ":" s = None.
Proof.
  induction s as [|a s IH]; [done|]. simpl.
  destruct (digit_value a) as [d|] eqn:Hd; [|done]. intros Hs.
  destruct (digit_no_space a d Hd) as [_ ->]. by rewrite IH.
Qed.

Lemma pretty_no_colon (n : Z) : string_find ":" (pretty n) = None.
Proof.
  assert (Hpos : forall p, string_find ":" (pretty_N_go (N.pos p) "") = None).
  { intros p. apply all_digits_no_colon.
    by destruct (pretty_N_go_digits (N.pos p) "" eq_refl). }
  destruct n as [|p|p]; [done| |].
  - apply Hpos.
  - change (pretty (Z.neg p)) with (String "-" (pretty_N_go (N.pos p) "")).
    simpl. by rewrite Hpos.
Qed.

(** X11: the names the client writes are read back by its parsers.  A
    device name made of a kind without colon, a colon and the decimal
    numeral of an [int] is taken apart by [DeviceId] into that kind and
    that ordinal; [ParseWorker] reads a worker written the same way, and
    gives task 0 to a name without colon. *)
Theorem names_are_read_back (name : string) (n : Z) :
  string_find ":" name = None ->
  int_range n = true ->
  DeviceId_new (name +:+ ":" +:+ pretty n) = Ok {| kind := name; ordinal := n |}
  /\ ParseWorker (name +:+ ":" +:+ pretty n) = Ok (name, n)
  /\ ParseWorker name = Ok (name, 0).
Proof.
  intros Hname Hn. unfold DeviceId_new, ParseWorker.
  change (name +:+ ":" +:+ pretty n) with (name +:+ String ":" (pretty n)).
  rewrite (StrSplit_app _ _ _ Hname).
  rewrite (StrSplit_no_delimiter _ _ (pretty_no_colon n)).
  rewrite (StrSplit_no_delimiter _ _ Hname).
  by rewrite (stoi_pretty n Hn).
Qed.

Lemma names_are_read_back_witness :
  string_find ":" "TPU" = None /\ int_range 3 = true /\
  DeviceId_new "TPU:3" = Ok {| kind := "TPU"; ordinal := 3 |}
  /\ ParseWorker "TPU:3" = Ok ("TPU", 3)
  /\ ParseWorker "TPU" = Ok ("TPU", 0).
Proof.
  split; [reflexivity|]. split; [reflexivity|].
  exact (names_are_read_back "TPU" 3 eq_refl eq_refl).
Defined.

(** ** Mesh coordinates *)

Lemma lookup_emplace `{Countable K} {V} (k y : K) (v : V) (m : gmap K V) :
  emplace k v m !! y
  = match m !! y with
    | Some c => Some c
    | None => if decide (y = k) then Some v else None
    end.
Proof.
  unfold emplace. destruct (m !! k) eqn:Ek.
  - destruct (m !! y) eqn:Ey; [done|].
    destruct (decide (y = k)) as [->|]; [congruence|done].
  - destruct (decide (y = k)) as [->|Hne].
    + by rewrite lookup_insert_eq, Ek.
    + rewrite lookup_insert_ne by done. by destruct (m !! y).
Qed.

Section MeshCoordinates.
Variable topology_proto : TopologyProto.

Abbreviation mesh_shape_size := (Z.of_nat (length (mesh_shape topology_proto))).

(** The coordinates of a device in the table of the topology: those that
    start at [(task * devices_per_task + id) * mesh_shape_size]. *)
Definition mesh_slice (parsed_device : ParsedName) : list Z :=
  take (length (mesh_shape topology_proto))
    (drop (Z.to_nat ((task parsed_device
                      * num_tpu_devices_per_task topology_proto
                      + id parsed_device) * mesh_shape_size))
       (device_coordinates topology_proto)).

(** The table holds the coordinates of every device of every task, and
    can be indexed by an [int]. *)
Definition dense : Prop :=
  0 <= num_tasks topology_proto
  /\ 0 <= num_tpu_devices_per_task topology_proto
  /\ Z.of_nat (length (device_coordinates topology_proto))
     = num_tasks topology_proto * num_tpu_devices_per_task topology_proto
       * mesh_shape_size
  /\ Z.of_nat (length (device_coordinates topology_proto)) < 2 ^ 31.

Lemma read_coordinates_slice (base_index : Z) (i n : nat) :
  0 <= base_index ->
  (Z.to_nat base_index + i + n <= length (device_coordinates topology_proto))%nat ->
  read_coordinates topology_proto base_index (seq i n)
  = Ok (take n (drop (Z.to_nat base_index + i)
                  (device_coordinates topology_proto))).
Proof.
  intros Hbase. revert i. induction n as [|n IH]; intros i Hlen.
  { by rewrite take_0. }
  cbn [seq read_coordinates]. unfold device_coordinate.
  rewrite (proj2 (Z.leb_le _ _)) by lia.
  replace (Z.to_nat (base_index + Z.of_nat i))
    with (Z.to_nat base_index + i)%nat by lia.
  destruct (lookup_lt_is_Some_2 (device_coordinates topology_proto)
              (Z.to_nat base_index + i)%nat ltac:(lia)) as [c Hc].
  rewrite Hc. cbn [outcome_bind]. rewrite IH by lia. cbn [outcome_bind].
  f_equal. rewrite (drop_S _ c _ Hc). cbn [take].
  by replace (S (Z.to_nat base_index + i))
    with (Z.to_nat base_index + S i)%nat by lia.
Qed.

Lemma as_int_in_range (z : Z) : - 2 ^ 31 <= z < 2 ^ 31 -> as_int z = Ok z.
Proof.
  intros Hz. unfold as_int, int_range.
  rewrite (proj2 (Z.leb_le _ _)), (proj2 (Z.ltb_lt _ _)) by lia. done.
Qed.

(** A device the checks let through gets the coordinates the table
    holds at its index, as long as the table reaches that far. *)
Lemma device_mesh_coords_of_slice (parsed_device : ParsedName) :
  mesh_shape topology_proto <> [] ->
  0 <= task parsed_device <= num_tasks topology_proto ->
  0 <= id parsed_device <= num_tpu_devices_per_task topology_proto ->
  (task parsed_device * num_tpu_devices_per_task topology_proto
   + id parsed_device) * mesh_shape_size + mesh_shape_size
  <= Z.of_nat (length (device_coordinates topology_proto)) ->
  Z.of_nat (length (device_coordinates topology_proto)) < 2 ^ 31 ->
  device_mesh_coords_of (Some topology_proto) parsed_device
  = Ok (mesh_slice parsed_device).
Proof.
  intros Hmesh Htask Hid Hfit Hint. unfold device_mesh_coords_of, mesh_slice.
  assert (Hm : 1 <= mesh_shape_size).
  { destruct (mesh_shape topology_proto); [done|]. simpl length. lia. }
  set (m := mesh_shape_size) in *.
  set (t := task parsed_device) in *. set (i := id parsed_device) in *.
  set (d := num_tpu_devices_per_task topology_proto) in *.
  rewrite (proj2 (Z.leb_le t _)), (proj2 (Z.leb_le i _)) by lia.
  cbn [negb].
  assert (Htd : 0 <= t * d) by nia.
  assert (Htdm : t * d <= t * d * m) by nia.
  assert (Him : 0 <= i * m) by nia.
  rewrite (as_int_in_range (t * d)) by nia. cbn [outcome_bind].
  rewrite (as_int_in_range (t * d * m)) by nia. cbn [outcome_bind].
  rewrite (as_int_in_range (i * m)) by nia. cbn [outcome_bind].
  rewrite (as_int_in_range (t * d * m + i * m)) by nia. cbn [outcome_bind].
  rewrite read_coordinates_slice by nia.
  do 3 f_equal. nia.
Qed.

Variables (env : Environment) (options_ : Options).

(** A device of the table: its task and its id are within the topology. *)
Definition in_table (parsed_device : ParsedName) : Prop :=
  0 <= task parsed_device < num_tasks topology_proto
  /\ 0 <= id parsed_device < num_tpu_devices_per_task topology_proto.

(** What [device_mesh_coords_] is to hold for an XRT device. *)
Definition coords_spec (xrt_device : string) : option (list Z) :=
  match ParseFullXrtDevice env xrt_device with
  | Ok parsed_device =>
      if String.eqb (type parsed_device) "TPU"
      then Some (mesh_slice parsed_device) else None
  | Failed _ => None
  end.

Lemma in_table_slice (parsed_device : ParsedName) :
  dense -> mesh_shape topology_proto <> [] -> in_table parsed_device ->
  device_mesh_coords_of (Some topology_proto) parsed_device
  = Ok (mesh_slice parsed_device)
  /\ length (mesh_slice parsed_device) = length (mesh_shape topology_proto).
Proof.
  intros (Hn & Hd & Hlen & Hint) Hmesh [Htask Hid].
  assert (Hm : 1 <= mesh_shape_size).
  { destruct (mesh_shape topology_proto); [done|]. simpl length. lia. }
  assert (Hfit : (task parsed_device * num_tpu_devices_per_task topology_proto
                  + id parsed_device) * mesh_shape_size + mesh_shape_size
                 <= Z.of_nat (length (device_coordinates topology_proto))).
  { rewrite Hlen.
    assert (H1 : task parsed_device * num_tpu_devices_per_task topology_proto
                 + id parsed_device + 1
                 <= num_tasks topology_proto
                    * num_tpu_devices_per_task topology_proto) by nia.
    apply (Z.mul_le_mono_nonneg_r _ _ mesh_shape_size) in H1; lia. }
  assert (Hbase : 0 <= (task parsed_device
                        * num_tpu_devices_per_task topology_proto
                        + id parsed_device) * mesh_shape_size) by nia.
  split.
  - apply device_mesh_coords_of_slice; [done|lia|lia|done|done].
  - unfold mesh_slice. rewrite length_take, length_drop. lia.
Qed.

Lemma initialize_loop (l : list (string * string))
    (m0 : gmap string (list Z)) (seen : list string) :
  dense -> mesh_shape topology_proto <> [] ->
  (forall d x, (d, x) ∈ l ->
     exists p, ParseFullXrtDevice env x = Ok p
               /\ (String.eqb (type p) "TPU" = true -> in_table p)) ->
  (forall x, m0 !! x = if decide (x ∈ seen) then coords_spec x else None) ->
  exists m,
    outcome_for_each (initialize_device env (Some topology_proto)) l m0 = Ok m
    /\ forall x, m !! x = if decide (x ∈ seen ++ (snd <$> l))
                          then coords_spec x else None.
Proof.
  intros Hdense Hmesh. revert m0 seen.
  induction l as [|[d x] l IH]; intros m0 seen Hall Hm0.
  { exists m0. split; [done|]. intros x. by rewrite app_nil_r. }
  destruct (Hall d x ltac:(left)) as (p & Hp & Htable).
  assert (Hstep : exists m1,
            initialize_device env (Some topology_proto) (d, x) m0 = Ok m1
            /\ forall y, m1 !! y = if decide (y ∈ seen ++ [x])
                                   then coords_spec y else None).
  { unfold initialize_device. cbn [snd]. rewrite Hp. cbn [outcome_bind].
    assert (Hspec : coords_spec x
                    = if String.eqb (type p) "TPU"
                      then Some (mesh_slice p) else None)
      by (unfold coords_spec; by rewrite Hp).
    destruct (String.eqb (type p) "TPU") eqn:Etype; cbn [negb].
    - destruct (in_table_slice p Hdense Hmesh (Htable eq_refl)) as [-> _].
      cbn [outcome_bind]. eexists. split; [done|]. intros y.
      rewrite lookup_emplace, (Hm0 y).
      assert (Hiff : y ∈ seen ++ [x] <-> y ∈ seen \/ y = x).
      { by rewrite elem_of_app, list_elem_of_singleton. }
      destruct (decide (y ∈ seen)) as [Hin|Hnot].
      + rewrite (decide_True (P := y ∈ seen ++ [x])) by (apply Hiff; by left).
        destruct (coords_spec y) eqn:Ey; [done|].
        destruct (decide (y = x)) as [->|]; [congruence|done].
      + destruct (decide (y = x)) as [->|Hne].
        * rewrite (decide_True (P := x ∈ seen ++ [x])) by (apply Hiff; by right).
          by rewrite Hspec.
        * rewrite (decide_False (P := y ∈ seen ++ [x])); [done|].
          by intros [?|?]%Hiff.
    - exists m0. split; [done|]. intros y. rewrite (Hm0 y).
      assert (Hiff : y ∈ seen ++ [x] <-> y ∈ seen \/ y = x).
      { by rewrite elem_of_app, list_elem_of_singleton. }
      destruct (decide (y ∈ seen)) as [Hin|Hnot].
      + by rewrite decide_True by (apply Hiff; by left).
      + destruct (decide (y = x)) as [->|Hne].
        * rewrite decide_True by (apply Hiff; by right). by rewrite Hspec.
        * rewrite decide_False; [done|]. by intros [?|?]%Hiff. }
  destruct Hstep as (m1 & Hm1 & Hspec1).
  destruct (IH m1 (seen ++ [x])) as (m & Hm & Hspec); [|done|].
  { intros d' x' Hin. apply (Hall d' x'). by right. }
  exists m. split.
  - cbn [outcome_for_each]. rewrite Hm1. done.
  - intros y. rewrite (Hspec y). rewrite fmap_cons. cbn [snd].
    by rewrite <- app_assoc.
Qed.

Lemma InitializeDevices_mesh_coords_spec :
  dense -> mesh_shape topology_proto <> [] ->
  (forall d x, global_device_map options_ !! d = Some x ->
     exists p, ParseFullXrtDevice env x = Ok p
               /\ (String.eqb (type p) "TPU" = true -> in_table p)) ->
  exists device_mesh_coords_,
    InitializeDevices_mesh_coords env options_ (Some topology_proto)
    = Ok device_mesh_coords_
    /\ forall d x, global_device_map options_ !! d = Some x ->
         device_mesh_coords_ !! x = coords_spec x.
Proof.
  intros Hdense Hmesh Hall. unfold InitializeDevices_mesh_coords.
  destruct (initialize_loop (map_to_list (global_device_map options_)) ∅ []
              Hdense Hmesh) as (m & Hm & Hspec).
  { intros d x Hin. apply elem_of_map_to_list in Hin. by apply (Hall d x). }
  { intros x. by rewrite lookup_empty. }
  exists m. split; [done|]. intros d x Hd.
  rewrite (Hspec x). rewrite decide_True; [done|].
  apply list_elem_of_fmap. exists (d, x). split; [done|].
  by apply elem_of_map_to_list.
Qed.

(** X12: with a topology whose table holds the coordinates of every
    device of every task, and TPU devices that all lie within the
    topology, the loop of [InitializeDevices] goes through, and
    [GetDeviceMeshCoords] then gives every TPU device of the global map
    the [mesh_shape_size] coordinates the table holds at
    [(task * devices_per_task + id) * mesh_shape_size]; devices of other
    types get no entry. *)
Theorem InitializeDevices_reads_the_table :
  dense -> mesh_shape topology_proto <> [] ->
  (forall d x, global_device_map options_ !! d = Some x ->
     exists p, ParseFullXrtDevice env x = Ok p
               /\ (String.eqb (type p) "TPU" = true -> in_table p)) ->
  exists device_mesh_coords_,
    InitializeDevices_mesh_coords env options_ (Some topology_proto)
    = Ok device_mesh_coords_
    /\ forall d x p,
         global_device_map options_ !! d = Some x ->
         ParseFullXrtDevice env x = Ok p ->
         if String.eqb (type p) "TPU"
         then GetDeviceMeshCoords device_mesh_coords_ x = Ok (mesh_slice p)
              /\ length (mesh_slice p) = length (mesh_shape topology_proto)
         else device_mesh_coords_ !! x = None.
Proof.
  intros Hdense Hmesh Hall.
  destruct (InitializeDevices_mesh_coords_spec Hdense Hmesh Hall)
    as (m & Hm & Hspec).
  exists m. split; [done|]. intros d x p Hd Hp.
  pose proof (Hspec d x Hd) as Hx.
  unfold coords_spec in Hx. rewrite Hp in Hx.
  destruct (String.eqb (type p) "TPU") eqn:Etype; [|done].
  split.
  - unfold GetDeviceMeshCoords. by rewrite Hx.
  - destruct (Hall d x Hd) as (p' & Hp' & Htable).
    assert (p' = p) as -> by congruence.
    by apply in_table_slice, Htable.
Qed.

(** X13: the two checks of the loop compare with [<=].  A device whose
    task equals [num_tasks] is let through, and the table is then read
    past its end; a device whose id equals [num_tpu_devices_per_task], on
    a task that is not the last, is let through as well and is given the
    coordinates of the first device of the next task. *)
Theorem InitializeDevices_checks_admit_the_bound (beyond next : ParsedName) :
  dense -> mesh_shape topology_proto <> [] ->
  task beyond = num_tasks topology_proto ->
  0 <= id beyond <= num_tpu_devices_per_task topology_proto ->
  0 <= task next < num_tasks topology_proto - 1 ->
  id next = num_tpu_devices_per_task topology_proto ->
  0 < num_tpu_devices_per_task topology_proto ->
  device_mesh_coords_of (Some topology_proto) beyond = Failed Undefined
  /\ device_mesh_coords_of (Some topology_proto) next
     = device_mesh_coords_of (Some topology_proto)
         {| has_job := has_job next; job := job next;
            has_task := has_task next; task := task next + 1;
            has_type := has_type next; type := type next;
            has_id := has_id next; id := 0 |}
  /\ is_Ok (device_mesh_coords_of (Some topology_proto) next) = true.
Proof.
  intros (Hn & Hd & Hlen & Hint) Hmesh Htask Hid Htask' Hid' Hpos.
  assert (Hm : 1 <= mesh_shape_size).
  { destruct (mesh_shape topology_proto); [done|]. simpl length. lia. }
  split.
  - unfold device_mesh_coords_of.
    rewrite (proj2 (Z.leb_le (task beyond) _)) by lia.
    rewrite (proj2 (Z.leb_le (id beyond) _)) by lia. cbn [negb].
    unfold as_int.
    repeat match goal with
           | |- context [int_range ?z] =>
               destruct (int_range z); cbn [outcome_bind]; [|done]
           end.
    destruct (mesh_shape topology_proto) as [|c cs]; [done|].
    cbn [length seq read_coordinates]. unfold device_coordinate.
    destruct (0 <=? _); [|done].
    rewrite lookup_ge_None_2; [done|].
    rewrite Htask. simpl length in Hlen, Hm. nia.
  - assert (H1 : task next * num_tpu_devices_per_task topology_proto
                 + id next + 1
                 <= num_tasks topology_proto
                    * num_tpu_devices_per_task topology_proto) by nia.
    apply (Z.mul_le_mono_nonneg_r _ _ mesh_shape_size) in H1; [|lia].
    rewrite !device_mesh_coords_of_slice; cbn [task id]; try done; try lia.
    split; [|done]. unfold mesh_slice. cbn [task id].
    do 3 f_equal. rewrite Hid'. lia.
Qed.

End MeshCoordinates.

(** X12 on the pod slice: "TPU:3" is core 1 of task 1. *)
Lemma InitializeDevices_reads_the_table_witness :
  dense Demo.pod_topology /\
  mesh_shape Demo.pod_topology <> [] /\
  (forall d x, global_device_map Demo.pod_options !! d = Some x ->
     exists p, ParseFullXrtDevice Demo.pod_env x = Ok p
               /\ (String.eqb (type p) "TPU" = true
                   -> in_table Demo.pod_topology p)) /\
  exists device_mesh_coords_,
    InitializeDevices_mesh_coords Demo.pod_env Demo.pod_options
      (Some Demo.pod_topology) = Ok device_mesh_coords_
    /\ GetDeviceMeshCoords device_mesh_coords_
         (GetXrtDevicePath "tpu_worker" 1 "TPU" 1) = Ok [1; 0; 0; 1].
Proof.
  assert (Hdense : dense Demo.pod_topology) by (repeat split; by vm_compute).
  assert (Hmesh : mesh_shape Demo.pod_topology <> []) by done.
  assert (Hall : forall d x,
            global_device_map Demo.pod_options !! d = Some x ->
            exists p, ParseFullXrtDevice Demo.pod_env x = Ok p
                      /\ (String.eqb (type p) "TPU" = true
                          -> in_table Demo.pod_topology p)).
  { intros d x Hd. apply elem_of_map_to_list in Hd.
    remember (map_to_list (global_device_map Demo.pod_options)) as l eqn:Hl.
    vm_compute in Hl. subst l.
    repeat (apply elem_of_cons in Hd as [ [= -> ->] | Hd]);
      [..|by apply elem_of_nil in Hd];
      (eexists; split; [vm_compute; reflexivity|]);
      intros _; repeat split; by vm_compute. }
  split; [exact Hdense|]. split; [exact Hmesh|]. split; [exact Hall|].
  destruct (InitializeDevices_reads_the_table Demo.pod_topology Demo.pod_env
              Demo.pod_options Hdense Hmesh Hall) as (m & Hm & Hspec).
  exists m. split; [exact Hm|].
  exact (proj1 (Hspec "TPU:3" (GetXrtDevicePath "tpu_worker" 1 "TPU" 1)
                  {| has_job := true; job := "tpu_worker";
                     has_task := true; task := 1;
                     has_type := true; type := "TPU";
                     has_id := true; id := 1 |} eq_refl eq_refl)).
Defined.

(** X13 on the pod slice: a core of a third task, and a third core of
    the first task. *)
Lemma InitializeDevices_checks_admit_the_bound_witness :
  let beyond := {| has_job := true; job := "tpu_worker";
                   has_task := true; task := 2;
                   has_type := true; type := "TPU";
                   has_id := true; id := 0 |} in
  let next := {| has_job := true; job := "tpu_worker";
                 has_task := true; task := 0;
                 has_type := true; type := "TPU";
                 has_id := true; id := 2 |} in
  dense Demo.pod_topology /\
  mesh_shape Demo.pod_topology <> [] /\
  device_mesh_coords_of (Some Demo.pod_topology) beyond = Failed Undefined
  /\ device_mesh_coords_of (Some Demo.pod_topology) next = Ok [1; 0; 0; 0].
Proof.
  intros beyond next.
  assert (Hdense : dense Demo.pod_topology) by (repeat split; by vm_compute).
  assert (Hmesh : mesh_shape Demo.pod_topology <> []) by done.
  split; [exact Hdense|]. split; [exact Hmesh|].
  destruct (InitializeDevices_checks_admit_the_bound Demo.pod_topology
              beyond next Hdense Hmesh eq_refl) as (Hbeyond & Hnext & _).
  - simpl. lia.
  - simpl. lia.
  - reflexivity.
  - reflexivity.
  - split; [exact Hbeyond|]. rewrite Hnext. reflexivity.
Defined.

(** ** The device assignment of a replicated computation *)

Lemma SwiftDeviceToXrtDevice_in_map (options_ : Options) (device x : string) :
  SwiftDeviceToXrtDevice options_ device = Ok x ->
  exists d, global_device_map options_ !! d = Some x.
Proof.
  unfold SwiftDeviceToXrtDevice.
  destruct (GetEffectiveDevice options_ device) as [d|]; [|done]. simpl.
  destruct (global_device_map options_ !! d) eqn:E; [|done].
  intros [= ->]. by exists d.
Qed.

(** X14: the device assignment of a computation replicated over TPU
    devices is read off the topology.  Once [InitializeDevices] has
    filled the table of mesh coordinates, [CreateXrtComputation] for two
    or more devices named "TPU:n" gives one computation device with one
    replica per device, in the order of the devices, each holding the
    coordinates of the topology at the task and id of its XRT device;
    the number of replicas is the number of devices. *)
Theorem replicated_TPU_computation_assignment
    (env : Environment) (options_ : Options) (topology_proto : TopologyProto)
    (computation : XlaComputation) (devices : list string)
    (parsed_devices : list ParsedName) (output_shape : option Shape) :
  dense topology_proto -> mesh_shape topology_proto <> [] ->
  (forall d x, global_device_map options_ !! d = Some x ->
     exists p, ParseFullXrtDevice env x = Ok p
               /\ (String.eqb (type p) "TPU" = true
                   -> in_table topology_proto p)) ->
  (1 < length devices)%nat ->
  Forall2 (fun device p =>
      exists n x,
        DeviceId_new device = Ok {| kind := "TPU"; ordinal := n |}
        /\ SwiftDeviceToXrtDevice options_ device = Ok x
        /\ ParseFullXrtDevice env x = Ok p
        /\ String.eqb (type p) "TPU" = true)
    devices parsed_devices ->
  exists device_mesh_coords_,
    InitializeDevices_mesh_coords env options_ (Some topology_proto)
    = Ok device_mesh_coords_
    /\ CreateXrtComputation options_ device_mesh_coords_ computation devices
         output_shape
       = Ok {| config_num_cores_per_replica := 1;
               config_num_replicas := Z.of_nat (length devices);
               config_device_assignment :=
                 [mesh_slice topology_proto <$> parsed_devices];
               config_program_shape :=
                 {| parameters :=
                      parameters (computation_program_shape computation);
                    result :=
                      default (result (computation_program_shape computation))
                        output_shape |};
               xrt_hlo_snapshot := hlo_snapshot computation |}.
Proof.
  intros Hdense Hmesh Hall Hlen Hdevices.
  destruct (InitializeDevices_mesh_coords_spec topology_proto env options_
              Hdense Hmesh Hall) as (m & Hm & Hspec).
  exists m. split; [done|].
  assert (Hvalues : replica_devices_values options_ m devices
                    = Ok (mesh_slice topology_proto <$> parsed_devices)).
  { clear Hlen. induction Hdevices as [|device p devices ps Hd _ IH]; [done|].
    destruct Hd as (n & x & Hid & Hx & Hp & Htype).
    cbn [replica_devices_values]. unfold replica_device_values.
    rewrite Hid. cbn [outcome_bind kind]. cbn [String.eqb Ascii.eqb Bool.eqb].
    rewrite Hx. cbn [outcome_bind].
    destruct (SwiftDeviceToXrtDevice_in_map _ _ _ Hx) as [d Hd].
    unfold GetDeviceMeshCoords. rewrite (Hspec d x Hd).
    unfold coords_spec. rewrite Hp, Htype. cbn [outcome_bind].
    rewrite IH. done. }
  unfold CreateXrtComputation. rewrite bool_decide_eq_true_2 by done.
  rewrite Hvalues. cbn [outcome_bind].
  destruct (computation_program_shape computation) as [ps r].
  by destruct output_shape.
Qed.

(** X14 on the pod slice: replicas on "TPU:0" and "TPU:3". *)
Lemma replicated_TPU_computation_assignment_witness :
  dense Demo.pod_topology /\
  mesh_shape Demo.pod_topology <> [] /\
  exists device_mesh_coords_ xrt_computation,
    InitializeDevices_mesh_coords Demo.pod_env Demo.pod_options
      (Some Demo.pod_topology) = Ok device_mesh_coords_
    /\ CreateXrtComputation Demo.pod_options device_mesh_coords_
         (instance_computation Demo.program) ["TPU:0"; "TPU:3"] None
       = Ok xrt_computation
    /\ config_device_assignment xrt_computation = [[[0; 0; 0; 0]; [1; 0; 0; 1]]]
    /\ config_num_replicas xrt_computation = 2.
Proof.
  assert (Hdense : dense Demo.pod_topology) by (repeat split; by vm_compute).
  assert (Hmesh : mesh_shape Demo.pod_topology <> []) by done.
  assert (Hall : forall d x,
            global_device_map Demo.pod_options !! d = Some x ->
            exists p, ParseFullXrtDevice Demo.pod_env x = Ok p
                      /\ (String.eqb (type p) "TPU" = true
                          -> in_table Demo.pod_topology p)).
  { intros d x Hd. apply elem_of_map_to_list in Hd.
    remember (map_to_list (global_device_map Demo.pod_options)) as l eqn:Hl.
    vm_compute in Hl. subst l.
    repeat (apply elem_of_cons in Hd as [ [= -> ->] | Hd]);
      [..|by apply elem_of_nil in Hd];
      (eexists; split; [vm_compute; reflexivity|]);
      intros _; repeat split; by vm_compute. }
  assert (Hlen : (1 < length ["TPU:0"; "TPU:3"])%nat) by (simpl; lia).
  assert (Hdevices : Forall2 (fun device p =>
      exists n x,
        DeviceId_new device = Ok {| kind := "TPU"; ordinal := n |}
        /\ SwiftDeviceToXrtDevice Demo.pod_options device = Ok x
        /\ ParseFullXrtDevice Demo.pod_env x = Ok p
        /\ String.eqb (type p) "TPU" = true)
    ["TPU:0"; "TPU:3"]
    [ {| has_job := true; job := "tpu_worker"; has_task := true; task := 0;
         has_type := true; type := "TPU"; has_id := true; id := 0 |};
      {| has_job := true; job := "tpu_worker"; has_task := true; task := 1;
         has_type := true; type := "TPU"; has_id := true; id := 1 |} ]).
  { repeat constructor.
    - exists 0, (GetXrtDevicePath "tpu_worker" 0 "TPU" 0).
      repeat split; vm_compute; reflexivity.
    - exists 3, (GetXrtDevicePath "tpu_worker" 1 "TPU" 1).
      repeat split; vm_compute; reflexivity. }
  split; [exact Hdense|]. split; [exact Hmesh|].
  destruct (replicated_TPU_computation_assignment Demo.pod_env Demo.pod_options
              Demo.pod_topology (instance_computation Demo.program)
              _ _ None Hdense Hmesh Hall Hlen Hdevices) as (m & Hm & Hc).
  exists m. eexists. split; [exact Hm|]. split; [exact Hc|].
  split; reflexivity.
Defined.

Lemma replica_devices_values_fail (options_ : Options)
    (device_mesh_coords_ : gmap string (list Z)) (devices : list string)
    (device : string) :
  device ∈ devices ->
  is_Ok (replica_device_values options_ device_mesh_coords_ device) = false ->
  is_Ok (replica_devices_values options_ device_mesh_coords_ devices) = false.
Proof.
  intros Hin Hfail. induction devices as [|d devices IH].
  { by apply elem_of_nil in Hin. }
  cbn [replica_devices_values].
  destruct (replica_device_values options_ device_mesh_coords_ d) as [v|] eqn:E;
    [|done].
  cbn [outcome_bind]. apply elem_of_cons in Hin as [->|Hin].
  { by rewrite E in Hfail. }
  specialize (IH Hin).
  by destruct (replica_devices_values options_ device_mesh_coords_ devices).
Qed.

(** X15: a computation cannot be replicated over devices of another
    kind than TPU and GPU: with two devices or more, one device of
    another kind (a CPU device, say) makes [CreateXrtComputation] fail,
    whereas that device alone is accepted, its name not being looked at. *)
Theorem replication_needs_TPU_or_GPU
    (options_ : Options) (device_mesh_coords_ : gmap string (list Z))
    (computation : XlaComputation) (devices : list string)
    (output_shape : option Shape) (device : string) (device_id : DeviceId) :
  (1 < length devices)%nat ->
  device ∈ devices ->
  DeviceId_new device = Ok device_id ->
  kind device_id <> "TPU" -> kind device_id <> "GPU" ->
  is_Ok (CreateXrtComputation options_ device_mesh_coords_ computation devices
           output_shape) = false
  /\ is_Ok (CreateXrtComputation options_ device_mesh_coords_ computation
              [device] output_shape) = true.
Proof.
  intros Hlen Hin Hid Htpu Hgpu. split; [|done].
  unfold CreateXrtComputation. rewrite bool_decide_eq_true_2 by done.
  assert (Hfail : is_Ok (replica_devices_values options_ device_mesh_coords_
                           devices) = false).
  { apply (replica_devices_values_fail _ _ _ device Hin).
    unfold replica_device_values. rewrite Hid. cbn [outcome_bind].
    apply String.eqb_neq in Htpu, Hgpu. by rewrite Htpu, Hgpu. }
  by destruct (replica_devices_values options_ device_mesh_coords_ devices).
Qed.

Lemma replication_needs_TPU_or_GPU_witness :
  (1 < length ["CPU:0"; "CPU:1"])%nat /\
  "CPU:0" ∈ ["CPU:0"; "CPU:1"] /\
  DeviceId_new "CPU:0" = Ok {| kind := "CPU"; ordinal := 0 |} /\
  is_Ok (CreateXrtComputation Demo.options_ ∅
           (instance_computation Demo.program) ["CPU:0"; "CPU:1"] None) = false
  /\ is_Ok (CreateXrtComputation Demo.options_ ∅
              (instance_computation Demo.program) ["CPU:0"] None) = true.
Proof.
  assert (Hlen : (1 < length ["CPU:0"; "CPU:1"])%nat) by (simpl; lia).
  assert (Hin : "CPU:0" ∈ ["CPU:0"; "CPU:1"]) by left.
  assert (Hid : DeviceId_new "CPU:0" = Ok {| kind := "CPU"; ordinal := 0 |})
    by reflexivity.
  split; [exact Hlen|]. split; [exact Hin|]. split; [exact Hid|].
  apply (replication_needs_TPU_or_GPU Demo.options_ ∅
           (instance_computation Demo.program) ["CPU:0"; "CPU:1"] None
           "CPU:0" _ Hlen Hin Hid); done.
Defined.

(** ** The devices of the hosts *)

(** A device name: the kind, a colon, the ordinal. *)
Definition device_name (kind : string) (ordinal : Z) : string :=
  kind +:+ ":" +:+ pretty ordinal.

Definition kinds : list string := ["TPU"; "GPU"; "CPU"].

Lemma elem_of_kinds (k : string) :
  k ∈ kinds -> k = "TPU" \/ k = "GPU" \/ k = "CPU".
Proof.
  unfold kinds. rewrite !elem_of_cons, elem_of_nil.
  intros [?|[?|[?|[]]]]; auto.
Qed.

Lemma device_name_inj (k1 k2 : string) (a b : Z) :
  k1 ∈ kinds -> k2 ∈ kinds -> device_name k1 a = device_name k2 b ->
  k1 = k2 /\ a = b.
Proof.
  unfold device_name.
  intros [->|[->| ->]]%elem_of_kinds [->|[->| ->]]%elem_of_kinds;
    simpl; intros [= H]; try done; split; try done; by apply (inj pretty).
Qed.

(** Entries added by a run of [emplace] over distinct keys. *)
Lemma emplace_range (f g : nat -> string) (n : nat) (m : gmap string string) :
  (forall i j, (i < n)%nat -> (j < n)%nat -> f i = f j -> i = j) ->
  let m' := foldl (fun m j => emplace (f j) (g j) m) m (seq 0 n) in
  (forall d x, m !! d = Some x -> m' !! d = Some x)
  /\ (forall j, (j < n)%nat -> m !! f j = None -> m' !! f j = Some (g j))
  /\ (forall d x, m' !! d = Some x ->
        m !! d = Some x \/ exists j, (j < n)%nat /\ d = f j /\ x = g j).
Proof.
  induction n as [|n IH]; intros Hinj; cbn zeta.
  { split; [done|]. split; [lia|]. intros d x H. by left. }
  rewrite seq_S, foldl_app. cbn [foldl plus].
  destruct IH as (Hkept & Hnew & Hfrom).
  { intros i j Hi Hj. apply Hinj; lia. }
  set (m1 := foldl (fun m j => emplace (f j) (g j) m) m (seq 0 n)) in *.
  split; [|split].
  - intros d x Hd. rewrite lookup_emplace, (Hkept d x Hd). done.
  - intros j Hj Hfree. rewrite lookup_emplace.
    destruct (decide (j = n)) as [->|Hne].
    + destruct (m1 !! f n) as [x|] eqn:E.
      * destruct (Hfrom _ _ E) as [E'|(i & Hi & Hfi & _)]; [congruence|].
        apply Hinj in Hfi; lia.
      * by rewrite decide_True.
    + rewrite (Hnew j) by (lia || done). done.
  - intros d x. rewrite lookup_emplace.
    destruct (m1 !! d) as [y|] eqn:E.
    + intros [= ->]. destruct (Hfrom _ _ E) as [?|(j & Hj & ? & ?)];
        [by left|]. right. exists j. split; [lia|done].
    + destruct (decide (d = f n)) as [->|]; [|done].
      intros [= <-]. right. exists n. split; [lia|done].
Qed.

(** The running ordinals of the kinds are [bound], and the global names
    handed out so far are those below it. *)
Definition ordinals_below (bound : string -> Z) (device_ordinals : gmap string Z)
    (global_device_map : gmap string string) : Prop :=
  (forall name, name ∈ kinds -> default 0 (device_ordinals !! name) = bound name)
  /\ (forall name, name ∈ kinds -> 0 <= bound name)
  /\ (forall d x, global_device_map !! d = Some x ->
        exists name o, name ∈ kinds /\ 0 <= o < bound name
                       /\ d = device_name name o).

Lemma add_host_devices_spec (worker_name : string) (task_no : Z)
    (name tf_name : string) (count : Z) (bound : string -> Z)
    (device_ordinals : gmap string Z) (global_device_map : gmap string string) :
  name ∈ kinds ->
  ordinals_below bound device_ordinals global_device_map ->
  exists device_ordinals' global_device_map',
    add_host_devices worker_name task_no (name, tf_name, count)
      (device_ordinals, global_device_map)
    = (device_ordinals', global_device_map')
    /\ ordinals_below
         (fun k => if decide (k = name) then bound k + Z.max 0 count
                   else bound k)
         device_ordinals' global_device_map'
    /\ (forall j, 0 <= j < count ->
          global_device_map' !! device_name name (bound name + j)
          = Some (GetXrtDevicePath worker_name task_no tf_name j))
    /\ (forall d x, global_device_map !! d = Some x ->
          global_device_map' !! d = Some x).
Proof.
  intros Hname (Hords & Hpos & Hbelow).
  unfold add_host_devices. rewrite (Hords name Hname).
  eexists _, _. split; [reflexivity|].
  set (f := fun j : nat => device_name name (bound name + Z.of_nat j)).
  set (g := fun j : nat =>
              GetXrtDevicePath worker_name task_no tf_name (Z.of_nat j)).
  destruct (emplace_range f g (Z.to_nat count) global_device_map)
    as (Hkept & Hnew & Hfrom).
  { intros i j _ _ Hij. unfold f in Hij.
    apply device_name_inj in Hij as [_ Hij]; [lia|done|done]. }
  change (foldl _ global_device_map (seq 0 (Z.to_nat count)))
    with (foldl (fun m j => emplace (f j) (g j) m) global_device_map
            (seq 0 (Z.to_nat count))).
  set (m' := foldl (fun m j => emplace (f j) (g j) m) global_device_map
               (seq 0 (Z.to_nat count))) in *.
  assert (Hfree : forall j : nat, global_device_map !! f j = None).
  { intros j. destruct (global_device_map !! f j) as [x|] eqn:E; [|done].
    destruct (Hbelow _ _ E) as (k & o & Hk & Ho & Heq).
    apply device_name_inj in Heq as [<- Heq]; [lia|done|done]. }
  split; [|split; [|done]].
  - split; [|split].
    + intros k Hk. destruct (decide (k = name)) as [->|Hne].
      * rewrite lookup_insert_eq. simpl. lia.
      * rewrite lookup_insert_ne by done. by apply Hords.
    + intros k Hk. specialize (Hpos k Hk). destruct (decide (k = name)); lia.
    + intros d x Hd. destruct (Hfrom d x Hd) as [Hold|(j & Hj & -> & _)].
      * destruct (Hbelow d x Hold) as (k & o & Hk & Ho & ->).
        exists k, o. split; [done|]. split; [|done].
        destruct (decide (k = name)); lia.
      * exists name, (bound name + Z.of_nat j). split; [done|].
        specialize (Hpos name Hname). rewrite decide_True by done.
        split; [lia|done].
  - intros j Hj. specialize (Hnew (Z.to_nat j) ltac:(lia) (Hfree _)).
    unfold f, g in Hnew. by rewrite Z2Nat.id in Hnew by lia.
Qed.

Lemma ordinals_below_ext (bound bound' : string -> Z)
    (device_ordinals : gmap string Z) (global_device_map : gmap string string) :
  (forall name, name ∈ kinds -> bound name = bound' name) ->
  ordinals_below bound device_ordinals global_device_map ->
  ordinals_below bound' device_ordinals global_device_map.
Proof.
  intros Hext (Hords & Hpos & Hbelow). split; [|split].
  - intros k Hk. rewrite <- (Hext k Hk). by apply Hords.
  - intros k Hk. rewrite <- (Hext k Hk). by apply Hpos.
  - intros d x Hd. destruct (Hbelow d x Hd) as (k & o & Hk & Ho & ->).
    exists k, o. by rewrite <- (Hext k Hk).
Qed.

Section HostDevices.
Variables (env : Environment) (cenv : ConfigEnv).
Variable device_counts : DeviceCountDefaults.

(** The number of devices of a kind that a host brings. *)
Definition host_count (name : string) : Z :=
  foldr (fun device rest =>
      if String.eqb (fst (fst device)) name then Z.max 0 (snd device) else rest)
    0 (host_devices env cenv device_counts).

Lemma host_count_table (name tf_name : string) (count : Z) :
  (name, tf_name, count) ∈ host_devices env cenv device_counts ->
  name ∈ kinds /\ host_count name = Z.max 0 count.
Proof.
  unfold host_devices, host_count, kinds.
  rewrite !elem_of_cons, elem_of_nil.
  intros [[= -> -> ->]|[[= -> -> ->]|[[= -> -> ->]|[]]]];
    (split; [auto|reflexivity]).
Qed.

Lemma AddXrtHostDevices_spec (worker_name : string) (task_no : Z)
    (server : string) (bound : string -> Z) (device_ordinals : gmap string Z)
    (options : Options) :
  ordinals_below bound device_ordinals (global_device_map options) ->
  exists device_ordinals' options',
    AddXrtHostDevices env cenv worker_name task_no server device_counts
      device_ordinals options = (device_ordinals', options')
    /\ ordinals_below (fun k => bound k + host_count k) device_ordinals'
         (global_device_map options')
    /\ (forall name tf_name count j,
          (name, tf_name, count) ∈ host_devices env cenv device_counts ->
          0 <= j < count ->
          global_device_map options' !! device_name name (bound name + j)
          = Some (GetXrtDevicePath worker_name task_no tf_name j))
    /\ (forall d x, global_device_map options !! d = Some x ->
          global_device_map options' !! d = Some x)
    /\ workers_map options'
       = emplace (worker_name, task_no) (MakeGrpcEndPoint server)
           (workers_map options)
    /\ default_device options' = default_device options
    /\ devices options' = devices options.
Proof.
  intros Hinv. unfold AddXrtHostDevices, host_devices.
  cbn [foldl].
  set (c1 := to_int (GetEnvInt env (kEnvNumTpu cenv) (num_tpus device_counts))).
  set (c2 := to_int (GetEnvInt env (kEnvNumGpu cenv) (num_gpus device_counts))).
  set (c3 := to_int (GetEnvInt env (kEnvNumCpu cenv) (num_cpus device_counts))).
  assert (Hcount : forall k, k ∈ kinds ->
            host_count k
            = (if decide (k = "TPU") then Z.max 0 c1 else 0)
              + (if decide (k = "GPU") then Z.max 0 c2 else 0)
              + (if decide (k = "CPU") then Z.max 0 c3 else 0)).
  { intros k [->|[->| ->]]%elem_of_kinds; unfold host_count, host_devices;
      cbn; fold c1 c2 c3; repeat case_decide; try done; lia. }
  assert (Ht : "TPU" ∈ kinds) by (unfold kinds; rewrite !elem_of_cons; auto).
  assert (Hg : "GPU" ∈ kinds) by (unfold kinds; rewrite !elem_of_cons; auto).
  assert (Hc : "CPU" ∈ kinds) by (unfold kinds; rewrite !elem_of_cons; auto).
  destruct (add_host_devices_spec worker_name task_no "TPU" "TPU" c1 bound
              device_ordinals (global_device_map options) Ht Hinv)
    as (o1 & m1 & -> & Hinv1 & Hnew1 & Hkept1).
  destruct (add_host_devices_spec worker_name task_no "GPU" "XLA_GPU" c2 _
              o1 m1 Hg Hinv1) as (o2 & m2 & -> & Hinv2 & Hnew2 & Hkept2).
  destruct (add_host_devices_spec worker_name task_no "CPU" "XLA_CPU" c3 _
              o2 m2 Hc Hinv2) as (o3 & m3 & -> & Hinv3 & Hnew3 & Hkept3).
  cbn beta in Hnew2, Hnew3.
  rewrite decide_False in Hnew2 by done.
  rewrite !decide_False in Hnew3 by done.
  eexists _, _. split; [reflexivity|]. cbn [global_device_map workers_map
    default_device devices].
  split; [|split; [|split; [|done]]].
  - eapply ordinals_below_ext; [|exact Hinv3].
    intros k Hk. cbn beta. rewrite (Hcount k Hk).
    apply elem_of_kinds in Hk as [->|[->| ->]];
      repeat case_decide; try done; lia.
  - intros name tf_name count j Hin Hj.
    rewrite !elem_of_cons, elem_of_nil in Hin.
    destruct Hin as [[= -> -> ->]|[[= -> -> ->]|[[= -> -> ->]|[]]]].
    + apply Hkept3, Hkept2, Hnew1. done.
    + apply Hkept3, Hnew2. done.
    + apply Hnew3. done.
  - intros d x Hd. by apply Hkept3, Hkept2, Hkept1.
Qed.

(** A host of the configuration, "name;task;server", read by the loop
    of [ParseEnvBasedTpuClusterConfig]. *)
Definition host_spec (spec : string) (host : string * Z * string) : Prop :=
  exists task_text,
    StrSplit spec ";" = [fst (fst host); task_text; snd host]
    /\ stoi task_text = Ok (snd (fst host)).

Lemma add_tpu_hosts_spec (specs : list string)
    (hosts : list (string * Z * string)) (h0 : Z)
    (device_ordinals : gmap string Z) (options : Options) :
  Forall2 host_spec specs hosts ->
  0 <= h0 ->
  ordinals_below (fun k => h0 * host_count k) device_ordinals
    (global_device_map options) ->
  exists device_ordinals' options',
    outcome_for_each (add_tpu_host env cenv device_counts) specs
      (device_ordinals, options) = Ok (device_ordinals', options')
    /\ ordinals_below
         (fun k => (h0 + Z.of_nat (length hosts)) * host_count k)
         device_ordinals' (global_device_map options')
    /\ (forall i host name tf_name count j,
          hosts !! i = Some host ->
          (name, tf_name, count) ∈ host_devices env cenv device_counts ->
          0 <= j < count ->
          global_device_map options'
            !! device_name name ((h0 + Z.of_nat i) * count + j)
          = Some (GetXrtDevicePath (fst (fst host)) (snd (fst host))
                    tf_name j))
    /\ (forall d x, global_device_map options !! d = Some x ->
          global_device_map options' !! d = Some x)
    /\ (forall w, is_Some (workers_map options !! w) ->
          is_Some (workers_map options' !! w))
    /\ (forall host, host ∈ hosts ->
          is_Some (workers_map options' !! fst host))
    /\ default_device options' = default_device options
    /\ devices options' = devices options.
Proof.
  intros Hspecs. revert h0 device_ordinals options.
  induction Hspecs as [|spec [[name task_no] server] specs hosts Hspec _ IH];
    intros h0 device_ordinals options Hh0 Hinv.
  { exists device_ordinals, options. split; [done|].
    split; [|repeat split; try done].
    - eapply ordinals_below_ext; [|exact Hinv].
      intros k _. simpl. f_equal. lia.
    - intros host Hin. by apply elem_of_nil in Hin. }
  destruct Hspec as (task_text & Hsplit & Htask). cbn [fst snd] in *.
  destruct (AddXrtHostDevices_spec name task_no server _ device_ordinals
              options Hinv)
    as (o1 & options1 & Hadd & Hinv1 & Hnew1 & Hkept1 & Hworkers1 & Hdef1
        & Hdev1).
  destruct (IH (h0 + 1) o1 options1 ltac:(lia))
    as (o2 & options2 & Hloop & Hinv2 & Hnew2 & Hkept2 & Hworkers2 & Hin2
        & Hdef2 & Hdev2).
  { eapply ordinals_below_ext; [|exact Hinv1]. intros k _. cbn beta. lia. }
  exists o2, options2. split; [|split; [|split; [|split; [|split; [|split]]]]].
  - cbn [outcome_for_each]. unfold add_tpu_host at 1.
    rewrite Hsplit, Htask. cbn [outcome_bind fst snd]. by rewrite Hadd.
  - eapply ordinals_below_ext; [|exact Hinv2].
    intros k _. cbn beta. f_equal. simpl length. lia.
  - intros i host k tf_name count j Hi Hk Hj.
    destruct i as [|i]; cbn in Hi.
    + injection Hi as <-. cbn [fst snd]. apply Hkept2.
      destruct (host_count_table _ _ _ Hk) as [_ Hcount].
      specialize (Hnew1 k tf_name count j Hk Hj). cbn beta in Hnew1.
      rewrite Hcount in Hnew1.
      replace ((h0 + Z.of_nat 0) * count) with (h0 * Z.max 0 count) by lia.
      done.
    + specialize (Hnew2 i host k tf_name count j Hi Hk Hj).
      by replace (h0 + Z.of_nat (S i)) with (h0 + 1 + Z.of_nat i) by lia.
  - intros d x Hd. by apply Hkept2, Hkept1.
  - intros w Hw. apply Hworkers2. rewrite Hworkers1, lookup_emplace.
    destruct Hw as [x ->]. done.
  - intros host [->|Hin]%elem_of_cons; [|by apply Hin2].
    apply Hworkers2. rewrite Hworkers1, lookup_emplace. cbn [fst].
    destruct (workers_map options !! (name, task_no)); [done|].
    by rewrite decide_True.
  - split; congruence.
Qed.

End HostDevices.

Lemma StrSplit_nonempty (text : string) (delimiter : ascii) :
  StrSplit text delimiter <> [].
Proof.
  destruct text as [|c rest]; [done|]. simpl.
  destruct (Ascii.eqb c delimiter); [done|].
  by destruct (StrSplit rest delimiter).
Qed.

(** X16: the devices of a cluster given by the TPU configuration.
    Starting from an empty device map, host number [i] of the
    configuration (counted from 0) brings, for each kind of device,
    [count] devices whose global names continue those of the hosts before
    it, ordinals [i * count] to [i * count + count - 1], and which are
    mapped to the devices 0 to [count - 1] of that kind on the host; no
    other name is in the map, and every host is a worker with an
    endpoint. *)
Theorem ParseEnvBasedTpuClusterConfig_numbers_devices
    (env : Environment) (cenv : ConfigEnv) (options : Options)
    (hosts : list (string * Z * string)) :
  let device_counts := {| num_tpus := 8; num_gpus := 0; num_cpus := 1 |} in
  GetEnvString cenv (kEnvTpuConfig cenv) "" <> "" ->
  Forall2 host_spec
    (StrSplit (GetEnvString cenv (kEnvTpuConfig cenv) "") "|") hosts ->
  global_device_map options = ∅ ->
  exists options',
    ParseEnvBasedTpuClusterConfig env cenv options = Ok (true, options')
    /\ (forall i host name tf_name count j,
          hosts !! i = Some host ->
          (name, tf_name, count) ∈ host_devices env cenv device_counts ->
          0 <= j < count ->
          global_device_map options' !! device_name name (Z.of_nat i * count + j)
          = Some (GetXrtDevicePath (fst (fst host)) (snd (fst host))
                    tf_name j))
    /\ (forall d x, global_device_map options' !! d = Some x ->
          exists name o,
            name ∈ kinds
            /\ 0 <= o < Z.of_nat (length hosts)
                        * host_count env cenv device_counts name
            /\ d = device_name name o)
    /\ (forall host, host ∈ hosts ->
          is_Some (workers_map options' !! fst host)).
Proof.
  intros device_counts Hconfig Hhosts Hempty.
  unfold ParseEnvBasedTpuClusterConfig.
  apply String.eqb_neq in Hconfig. rewrite Hconfig.
  rewrite bool_decide_eq_false_2 by apply StrSplit_nonempty.
  destruct (add_tpu_hosts_spec env cenv device_counts _ hosts 0 ∅ options
              Hhosts ltac:(done))
    as (o & options' & Hloop & (_ & _ & Hbelow) & Hnew & _ & _ & Hworkers & _).
  { split; [|split].
    - intros k _. rewrite lookup_empty. simpl. lia.
    - intros k _. lia.
    - intros d x Hd. by rewrite Hempty, lookup_empty in Hd. }
  exists options'. fold device_counts. rewrite Hloop. cbn [outcome_bind snd].
  split; [done|]. split; [|split; [|done]].
  - intros i host name tf_name count j Hi Hk Hj.
    by apply (Hnew i host name tf_name count j Hi Hk Hj).
  - intros d x Hd. destruct (Hbelow d x Hd) as (k & ord & Hk & Ho & ->).
    by exists k, ord.
Qed.

(** X16 for the two hosts of the demo configuration: the second host
    holds "TPU:8" to "TPU:15" and "CPU:1". *)
Lemma ParseEnvBasedTpuClusterConfig_numbers_devices_witness :
  GetEnvString Demo.config_env (kEnvTpuConfig Demo.config_env) "" <> "" /\
  Forall2 host_spec
    (StrSplit (GetEnvString Demo.config_env (kEnvTpuConfig Demo.config_env) "")
       "|")
    [("tpu_worker", 0, "10.0.0.2:8470");
     ("tpu_worker", 1, "grpc://10.0.0.3:8470")] /\
  global_device_map Demo.no_options = ∅ /\
  exists options',
    ParseEnvBasedTpuClusterConfig Demo.env Demo.config_env Demo.no_options
    = Ok (true, options')
    /\ global_device_map options' !! "TPU:11"
       = Some "/job:tpu_worker/replica:0/task:1/device:TPU:3"
    /\ global_device_map options' !! "CPU:1"
       = Some "/job:tpu_worker/replica:0/task:1/device:XLA_CPU:0".
Proof.
  assert (Hconfig : GetEnvString Demo.config_env
                      (kEnvTpuConfig Demo.config_env) "" <> "") by done.
  assert (Hhosts : Forall2 host_spec
            (StrSplit (GetEnvString Demo.config_env
                         (kEnvTpuConfig Demo.config_env) "") "|")
            [("tpu_worker", 0, "10.0.0.2:8470");
             ("tpu_worker", 1, "grpc://10.0.0.3:8470")]).
  { change (StrSplit _ "|")
      with ["tpu_worker;0;10.0.0.2:8470"; "tpu_worker;1;grpc://10.0.0.3:8470"].
    constructor; [|constructor; [|constructor]].
    - exists "0". split; reflexivity.
    - exists "1". split; reflexivity. }
  assert (Hempty : global_device_map Demo.no_options = ∅) by reflexivity.
  split; [exact Hconfig|]. split; [exact Hhosts|]. split; [exact Hempty|].
  destruct (ParseEnvBasedTpuClusterConfig_numbers_devices Demo.env
              Demo.config_env Demo.no_options _ Hconfig Hhosts Hempty)
    as (options' & Hparse & Hnew & _).
  exists options'. split; [exact Hparse|]. split.
  - apply (Hnew 1%nat ("tpu_worker", 1, "grpc://10.0.0.3:8470")
             "TPU" "TPU" 8 3 eq_refl); [|lia].
    unfold host_devices. rewrite !elem_of_cons. left. reflexivity.
  - apply (Hnew 1%nat ("tpu_worker", 1, "grpc://10.0.0.3:8470")
             "CPU" "XLA_CPU" 1 0 eq_refl); [|lia].
    unfold host_devices. rewrite !elem_of_cons. right. right. left.
    reflexivity.
Defined.

(** ** The local devices and the default device *)

(** The loop rule of [outcome_for_each]: an invariant of the part of the
    list gone through. *)
Lemma outcome_for_each_inv {A St} (body : A -> St -> outcome St)
    (Inv : list A -> St -> Prop) (l : list A) (s : St) :
  Inv [] s ->
  (forall p a s, a ∈ l -> Inv p s ->
     exists s', body a s = Ok s' /\ Inv (p ++ [a]) s') ->
  exists s', outcome_for_each body l s = Ok s' /\ Inv l s'.
Proof.
  intros Hstart Hstep.
  assert (Hgen : forall q p s, (forall a, a ∈ q -> a ∈ l) -> Inv p s ->
            exists s', outcome_for_each body q s = Ok s' /\ Inv (p ++ q) s').
  { induction q as [|a q IH]; intros p s0 Hsub Hinv.
    - exists s0. by rewrite app_nil_r.
    - destruct (Hstep p a s0 (Hsub a ltac:(left)) Hinv) as (s1 & Hbody & Hinv1).
      destruct (IH (p ++ [a]) s1) as (s2 & Hloop & Hinv2); [|done|].
      { intros b Hb. apply Hsub. by right. }
      exists s2. cbn [outcome_for_each]. rewrite Hbody. cbn [outcome_bind].
      split; [done|]. by rewrite <- app_assoc in Hinv2. }
  by apply (Hgen l [] s).
Qed.

Section LocalDevices.
Variables (env : Environment) (cenv : ConfigEnv) (options : Options).

(** The least ordinal among the devices of a kind in the global map,
    and a kind without device. *)
Definition least_ordinal (kind_ : string) (v : Z) : Prop :=
  (exists d x, global_device_map options !! d = Some x
               /\ DeviceId_new d = Ok {| kind := kind_; ordinal := v |})
  /\ forall d x o, global_device_map options !! d = Some x ->
       DeviceId_new d = Ok {| kind := kind_; ordinal := o |} -> v <= o.

Definition no_device_of (kind_ : string) : Prop :=
  forall d x o, global_device_map options !! d = Some x ->
    DeviceId_new d <> Ok {| kind := kind_; ordinal := o |}.

(** The minimum ordinals of the kinds among the entries [p]. *)
Definition mins_of (p : list (string * string)) (min_ordinals : gmap string Z)
    : Prop :=
  forall k,
    match min_ordinals !! k with
    | Some v =>
        (exists d x, (d, x) ∈ p
                     /\ DeviceId_new d = Ok {| kind := k; ordinal := v |})
        /\ forall d x o, (d, x) ∈ p ->
             DeviceId_new d = Ok {| kind := k; ordinal := o |} -> v <= o
    | None =>
        forall d x o, (d, x) ∈ p ->
          DeviceId_new d <> Ok {| kind := k; ordinal := o |}
    end.

Lemma mins_of_insert (p : list (string * string))
    (min_ordinals : gmap string Z) (d x k : string) (o : Z) :
  mins_of p min_ordinals ->
  DeviceId_new d = Ok {| kind := k; ordinal := o |} ->
  mins_of (p ++ [(d, x)]) (InsertCombined_min min_ordinals k o).
Proof.
  intros Hmins Hd k'. unfold InsertCombined_min.
  pose proof (Hmins k') as Hk'.
  assert (Hother : k' <> k ->
            match min_ordinals !! k' with
            | Some v =>
                (exists d0 x0, (d0, x0) ∈ p ++ [(d, x)]
                   /\ DeviceId_new d0 = Ok {| kind := k'; ordinal := v |})
                /\ forall d0 x0 o0, (d0, x0) ∈ p ++ [(d, x)] ->
                     DeviceId_new d0 = Ok {| kind := k'; ordinal := o0 |} ->
                     v <= o0
            | None =>
                forall d0 x0 o0, (d0, x0) ∈ p ++ [(d, x)] ->
                  DeviceId_new d0 <> Ok {| kind := k'; ordinal := o0 |}
            end).
  { intros Hne. destruct (min_ordinals !! k') as [v|].
    - destruct Hk' as [(d0 & x0 & Hin & Hid) Hleast]. split.
      + exists d0, x0. split; [|done]. apply elem_of_app. by left.
      + intros d1 x1 o1 [Hin1|Hin1]%elem_of_app; [by eapply Hleast|].
        apply list_elem_of_singleton in Hin1 as [= -> ->]. congruence.
    - intros d1 x1 o1 [Hin1|Hin1]%elem_of_app; [by eapply Hk'|].
      apply list_elem_of_singleton in Hin1 as [= -> ->]. congruence. }
  destruct (decide (k' = k)) as [->|Hne].
  - clear Hother. destruct (min_ordinals !! k) as [v|] eqn:E;
      rewrite lookup_insert_eq.
    + destruct Hk' as [(d0 & x0 & Hin & Hid) Hleast]. split.
      * destruct (Z.min_spec v o) as [[_ ->]|[_ ->]].
        -- exists d0, x0. split; [|done]. apply elem_of_app. by left.
        -- exists d, x. split; [|done]. apply elem_of_app. right. left.
      * intros d1 x1 o1 [Hin1|Hin1]%elem_of_app Hid1.
        -- specialize (Hleast d1 x1 o1 Hin1 Hid1). lia.
        -- apply list_elem_of_singleton in Hin1 as [= -> ->].
           rewrite Hd in Hid1. injection Hid1 as <-. lia.
    + split.
      * exists d, x. split; [|done]. apply elem_of_app. right. left.
      * intros d1 x1 o1 [Hin1|Hin1]%elem_of_app Hid1.
        -- by destruct (Hk' d1 x1 o1 Hin1).
        -- apply list_elem_of_singleton in Hin1 as [= -> ->].
           rewrite Hd in Hid1. injection Hid1 as <-. lia.
  - specialize (Hother Hne).
    destruct (min_ordinals !! k); by rewrite lookup_insert_ne.
Qed.

Lemma pick_default_device_spec (min_ordinals : gmap string Z) :
  mins_of (map_to_list (global_device_map options)) min_ordinals ->
  let picked :=
    pick_default_device ["TPU"; "GPU"; "CPU"] min_ordinals
      (default_device options) in
  (forall v, least_ordinal "TPU" v -> picked = device_name "TPU" v)
  /\ (no_device_of "TPU" ->
      forall v, least_ordinal "GPU" v -> picked = device_name "GPU" v)
  /\ (no_device_of "TPU" -> no_device_of "GPU" ->
      forall v, least_ordinal "CPU" v -> picked = device_name "CPU" v)
  /\ (no_device_of "TPU" -> no_device_of "GPU" -> no_device_of "CPU" ->
      picked = default_device options).
Proof.
  intros Hmins.
  assert (Hleast : forall k v, least_ordinal k v -> min_ordinals !! k = Some v).
  { intros k v [(d & x & Hd & Hid) Hle]. pose proof (Hmins k) as Hk.
    apply elem_of_map_to_list in Hd.
    destruct (min_ordinals !! k) as [v'|].
    - destruct Hk as [(d' & x' & Hd' & Hid') Hle']. f_equal.
      apply elem_of_map_to_list in Hd'.
      specialize (Hle d' x' v' Hd' Hid'). specialize (Hle' d x v Hd Hid). lia.
    - by destruct (Hk d x v Hd). }
  assert (Hnone : forall k, no_device_of k -> min_ordinals !! k = None).
  { intros k Hno. pose proof (Hmins k) as Hk.
    destruct (min_ordinals !! k) as [v'|]; [|done].
    destruct Hk as [(d' & x' & Hd' & Hid') _].
    apply elem_of_map_to_list in Hd'. by destruct (Hno d' x' v' Hd'). }
  cbn [pick_default_device]. unfold device_name. repeat split.
  - intros v Hv. by rewrite (Hleast _ _ Hv).
  - intros Ht v Hv. by rewrite (Hnone _ Ht), (Hleast _ _ Hv).
  - intros Ht Hg v Hv. by rewrite (Hnone _ Ht), (Hnone _ Hg), (Hleast _ _ Hv).
  - intros Ht Hg Hc. by rewrite (Hnone _ Ht), (Hnone _ Hg), (Hnone _ Hc).
Qed.

(** [PopulateLocalDevices] without a local worker in the environment:
    the loop takes every device of the global map. *)
Lemma PopulateLocalDevices_all :
  GetEnvString cenv (kEnvLocalWorker cenv) "" = "" ->
  (forall d x, global_device_map options !! d = Some x ->
     is_Ok (DeviceId_new d) = true /\ is_Ok (ParseXrtDevice env x) = true) ->
  exists devices' min_ordinals,
    PopulateLocalDevices env cenv options
    = Ok {| default_device :=
              pick_default_device ["TPU"; "GPU"; "CPU"] min_ordinals
                (default_device options);
            global_device_map := global_device_map options;
            workers_map := workers_map options;
            devices := devices' |}
    /\ (forall d, d ∈ devices'
          <-> d ∈ devices options \/ is_Some (global_device_map options !! d))
    /\ mins_of (map_to_list (global_device_map options)) min_ordinals.
Proof.
  intros Hlocal Hnames. unfold PopulateLocalDevices. rewrite Hlocal.
  cbn [String.eqb outcome_bind].
  assert (Hentry : forall a, a ∈ map_to_list (global_device_map options) ->
            exists id p, DeviceId_new (fst a) = Ok id
                         /\ ParseXrtDevice env (snd a) = Ok p).
  { intros [d x] Hin. apply elem_of_map_to_list in Hin.
    destruct (Hnames d x Hin) as [H1 H2]. cbn [fst snd].
    destruct (DeviceId_new d) as [id|]; [|done].
    destruct (ParseXrtDevice env x) as [p|]; [|done]. by exists id, p. }
  destruct (outcome_for_each_inv
              (fun device_xrt_device dev_task_map =>
                 outcome_bind (DeviceId_new (fst device_xrt_device))
                   (fun global_device =>
                 outcome_bind (ParseXrtDevice env (snd device_xrt_device))
                   (fun parsed_device =>
                 Ok (InsertCombined_min dev_task_map
                       (BuildTaskDeviceKey (task parsed_device)
                          (kind global_device))
                       (ordinal global_device)))))
              (fun _ _ => True)
              (map_to_list (global_device_map options)) ∅)
    as (dev_task_map & Hbuild & _); [done| |].
  { intros p a s Ha _. destruct (Hentry a Ha) as (id & pd & -> & ->).
    by eexists. }
  unfold BuildDeviceTaskMap. rewrite Hbuild. cbn [outcome_bind].
  destruct (outcome_for_each_inv
              (populate_device env cenv ("", -1) dev_task_map)
              (fun p st =>
                 (forall d, d ∈ fst st
                    <-> d ∈ devices options \/ d ∈ fst <$> p)
                 /\ mins_of p (snd st))
              (map_to_list (global_device_map options)) (devices options, ∅))
    as ([devices' min_ordinals] & Hloop & Hdevices & Hmins).
  { split.
    - intros d. cbn [fst]. rewrite fmap_nil, elem_of_nil. tauto.
    - intros k. cbn [snd]. rewrite lookup_empty. intros d x o Hin.
      by apply elem_of_nil in Hin. }
  { intros p [d x] [devs mins] Ha [Hdevs Hmins].
    destruct (Hentry (d, x) Ha) as ([k o] & pd & Hid & _).
    cbn [fst snd] in *. unfold populate_device. cbn [snd fst].
    change (0 <=? -1) with false. cbn [outcome_bind negb]. rewrite Hid.
    cbn [outcome_bind kind ordinal]. eexists. split; [reflexivity|].
    cbn [fst snd]. split.
    - intros d'. rewrite elem_of_union, elem_of_singleton, Hdevs.
      rewrite fmap_app, elem_of_app. cbn [fmap list_fmap fst].
      rewrite list_elem_of_singleton. tauto.
    - by apply mins_of_insert. }
  rewrite Hloop. cbn [outcome_bind fst snd].
  exists devices', min_ordinals. split; [done|]. split; [|done].
  intros d. rewrite Hdevices. cbn [fst].
  assert (Hdom : d ∈ (map_to_list (global_device_map options)).*1
                 <-> is_Some (global_device_map options !! d)).
  { rewrite list_elem_of_fmap. split.
    - intros ([d' x] & -> & Hin). apply elem_of_map_to_list in Hin.
      by exists x.
    - intros [x Hx]. exists (d, x). split; [done|].
      by apply elem_of_map_to_list. }
  tauto.
Qed.

(** X17: without a local worker in the environment, and with device
    names and XRT devices that all parse, [PopulateLocalDevices] makes
    every device of the global map a local device, and picks as default
    device the device of least ordinal of the first kind among TPU, GPU
    and CPU that has a device; with no device of these kinds the
    default device is left as it was. *)
Theorem PopulateLocalDevices_default_device :
  GetEnvString cenv (kEnvLocalWorker cenv) "" = "" ->
  (forall d x, global_device_map options !! d = Some x ->
     is_Ok (DeviceId_new d) = true /\ is_Ok (ParseXrtDevice env x) = true) ->
  exists options',
    PopulateLocalDevices env cenv options = Ok options'
    /\ global_device_map options' = global_device_map options
    /\ workers_map options' = workers_map options
    /\ (forall d, d ∈ devices options'
          <-> d ∈ devices options \/ is_Some (global_device_map options !! d))
    /\ (forall v, least_ordinal "TPU" v ->
          default_device options' = device_name "TPU" v)
    /\ (no_device_of "TPU" ->
        forall v, least_ordinal "GPU" v ->
          default_device options' = device_name "GPU" v)
    /\ (no_device_of "TPU" -> no_device_of "GPU" ->
        forall v, least_ordinal "CPU" v ->
          default_device options' = device_name "CPU" v)
    /\ (no_device_of "TPU" -> no_device_of "GPU" -> no_device_of "CPU" ->
        default_device options' = default_device options).
Proof.
  intros Hlocal Hnames.
  destruct (PopulateLocalDevices_all Hlocal Hnames)
    as (devices' & min_ordinals & Hpop & Hdevices & Hmins).
  eexists. split; [exact Hpop|]. cbn [global_device_map workers_map devices
    default_device].
  split; [done|]. split; [done|]. split; [done|].
  exact (pick_default_device_spec min_ordinals Hmins).
Qed.

End LocalDevices.

(** X17 on the demo topology, whose default device was "CPU:0". *)
Lemma PopulateLocalDevices_default_device_witness :
  GetEnvString Demo.config_env (kEnvLocalWorker Demo.config_env) "" = "" /\
  (forall d x, global_device_map Demo.options_ !! d = Some x ->
     is_Ok (DeviceId_new d) = true
     /\ is_Ok (ParseXrtDevice Demo.env x) = true) /\
  least_ordinal Demo.options_ "TPU" 0 /\
  exists options',
    PopulateLocalDevices Demo.env Demo.config_env Demo.options_ = Ok options'
    /\ default_device options' = "TPU:0"
    /\ "TPU:0" ∈ devices options'.
Proof.
  assert (Hlocal : GetEnvString Demo.config_env
                     (kEnvLocalWorker Demo.config_env) "" = "") by reflexivity.
  assert (Hentries : forall d x,
            global_device_map Demo.options_ !! d = Some x ->
            (d, x) ∈ [("CPU:1", Demo.cpu1_path); ("CPU:0", Demo.cpu0_path);
                      ("TPU:0", Demo.tpu0_path)]).
  { intros d x Hd. apply elem_of_map_to_list in Hd.
    remember (map_to_list (global_device_map Demo.options_)) as l eqn:Hl.
    vm_compute in Hl. subst l.
    repeat (apply elem_of_cons in Hd as [ [= -> ->] | Hd]);
      [..|by apply elem_of_nil in Hd];
      rewrite !elem_of_cons; auto. }
  assert (Hnames : forall d x,
            global_device_map Demo.options_ !! d = Some x ->
            is_Ok (DeviceId_new d) = true
            /\ is_Ok (ParseXrtDevice Demo.env x) = true).
  { intros d x Hd. apply Hentries in Hd.
    repeat (apply elem_of_cons in Hd as [ [= -> ->] | Hd]);
      [..|by apply elem_of_nil in Hd]; split; reflexivity. }
  assert (Hleast : least_ordinal Demo.options_ "TPU" 0).
  { split.
    - exists "TPU:0", Demo.tpu0_path. split; reflexivity.
    - intros d x o Hd Hid. apply Hentries in Hd.
      repeat (apply elem_of_cons in Hd as [ [= -> ->] | Hd]);
        [..|by apply elem_of_nil in Hd]; vm_compute in Hid;
        injection Hid as <-; lia || discriminate. }
  split; [exact Hlocal|]. split; [exact Hnames|]. split; [exact Hleast|].
  destruct (PopulateLocalDevices_default_device Demo.env Demo.config_env
              Demo.options_ Hlocal Hnames)
    as (options' & Hpop & _ & _ & Hdevices & Htpu & _).
  exists options'. split; [exact Hpop|]. split.
  - exact (Htpu 0 Hleast).
  - apply Hdevices. right. by eexists.
Defined.
